(* ===== verification/_CoqProject ===== *)
-Q . S2P
Prelude.v
Float64.v
Rounding.v
Model.v
Calendar.v
Json.v
Encoding.v
Numbers.v
Ert.v
Mock.v
Config.v
Store.v
Effects.v
Database.v
AgentWire.v
Gate.v
Regex.v
Capture.v
Manager.v
Deltas.v
Confidence.v
Windows.v
AutoWindow.v
Meters.v
Publish.v
Discovery.v
Samples.v
Correlate.v
Utility.v
Daily.v
Combined.v
Ha.v
Feed.v
Broker.v
ApiAgent.v
Agent.v
Listen.v
Backfill.v
Worker.v
Analytics.v
Consumption.v
Admin.v
Schema.v
Http.v
Stream.v
Pipeline.v
HaWs.v
HaClient.v
Handlers.v
Identify.v
Dashboard.v
Routes.v
AgentProcess.v
System.v
