(* ===== verification/Prelude.v ===== *)
(** * winnow: a verification library

    winnow listens to the radio packets of utility meters with RTL-SDR dongles,
    stores them in PostgreSQL/TimescaleDB, finds out which of the meters in range
    is the user's own by comparing them with power samples of Home Assistant and
    with the utility bill, and publishes the chosen meters over MQTT.  Three
    processes share one database: [cmd/capture] (radio to readings), [cmd/worker]
    (Home Assistant to samples, readings to MQTT) and [cmd/api] (the JSON API and
    the server end of remote capture agents).  They interact through tables,
    through [LISTEN/NOTIFY], and, for a remote host, through the encrypted channel
    of [internal/agentwire].

    ** How the program is represented

    - The database ([Store]) is a record [DB] of maps and lists, one per table of
      [internal/db/schema.go].  The data layer and the services run in the state
      and error monad [M] over a [World]: the tables, the clock, and an oracle
      saying which of the next statements fail.  A statement is atomic and a
      failed one changes nothing; the Go code decides what happens next, so a
      discarded error is discarded in the model ([ignore], [try]).
      [no_faults w] says that no statement fails, [fails n w] that the [n]th does.
    - SQL queries are functions on the tables.  Where SQL leaves the order of rows
      open, or Go visits a map, the model takes keys in ascending order; no theorem
      about content depends on it.  [sort_by] is a stable insertion sort.  The
      continuous aggregates [readings_1m] and [readings_1h] are functions of the
      readings, as a real-time aggregate answers.  The memo of the daily screen is
      threaded where it is read ([Daily], [Routes]); the copy that stopping a window
      refreshes is not.
    - Times are nanoseconds since 1970 in UTC, durations 64-bit ([Prelude]);
      [int], [int64] and [time.Duration] wrap where the code can reach the end
      of their range.
    - [float64] is IEEE binary64 ([Float64]), executable and without fused
      multiply-add; [Rounding] proves the bounds on rounded results that the
      theorems on scores need.
    - Concurrency is a step relation ([Gate], [Manager]) or a list of operations in
      any order ([Broker], [Agent], [Worker], [System]); a protocol run is a tree of
      transport actions ([AgentWire]), and a conversation with Home Assistant a
      program over the answers that come ([HaWs], [HaClient]).
    - What an operation preserves is proved through [Effects]: [keeps P m] says that
      the statements of [m] keep [P] whatever fails, with a rule per construct, a
      hint database for the writes, and the tactic [keep], which walks the program.

    ** The files

    - Shared: [Prelude] (integers, text, lists), [Float64], [Rounding], [Calendar],
      [Json], [Encoding], [Numbers], [Regex], [Model] ([internal/model]), [Config]
      ([internal/config]), [Store], [Effects]; [Schema] is [InitSchema]
      ([internal/db/schema.go]).
    - Ingest: [Ert] ([internal/ert]) decodes a packet, [Mock] ([cmd/capture/mock.go])
      prints synthetic ones, [Gate], [Capture] and [Manager]
      ([cmd/capture/main.go], [devices.go]) run the dongles, [Database]
      ([internal/db/db.go]) stores readings and keeps the registries.
    - Remote capture: [AgentWire] ([internal/agentwire]), [ApiAgent]
      ([cmd/api/agent.go]) [Agent] and [AgentProcess] ([cmd/capture/agent.go]); [Capture.Sink] is
      the interface that the local database and the remote session both implement.
    - Reading the counters: [Deltas] ([internal/db/helpers.go] and the ladder of
      [consumption.go]), [Consumption] (its page), [Meters] ([meters.go],
      [series.go], [overview.go]), [Analytics] ([analytics.go]), [Admin]
      ([admin.go]), [Windows] ([windows.go]), [Samples] ([reference.go], [hvac.go]).
    - Identification: [Confidence] ([confidence.go]) scores one candidate,
      [Correlate] ranks one window, [Utility] ([utility.go]) aligns meters with the
      bill, [Daily] ([daily.go]) screens meters by local day, [Combined] ranks
      across windows.
    - Home Assistant ([internal/ha]): [Ha] decodes, [HaWs] is a statistics call on a
      connection, [HaClient] the REST calls, the helper's flow and the live session.
    - Worker: [Feed] and [Backfill] ([cmd/worker/main.go], [hvac.go]), [AutoWindow],
      [Publish] ([internal/mqtt]) and [Discovery] (what the broker retains over a run
      of notifications); [Worker] is the process: one iteration of
      [haLoop], the frames, ticks, reloads and notifications in any order.
    - API: [Broker] ([cmd/api/broker.go]) and [Stream] (its handler and the browser's
      reader); [Http] (requests, bodies, replies), [Handlers], [Identify] and
      [Dashboard] ([cmd/api/handlers.go]), [Routes] ([cmd/api/main.go]: the table of
      routes, the router and one request).
    - [Listen]: the [LISTEN] loops of the three processes, and the capture manager
      run against the database together with its own.
    - [Pipeline]: one reading from the radio to the browser.
    - [System]: the operations of the three processes on one database.

    ** What the theorems show

    - Ingest: the registries agree with the readings whatever fails, and exactly
      when nothing does; two openers never hold the USB bus and no one opens in the
      back-off; reconciliation reaches the configured set; capturing remotely
      stores what capturing locally stores, through the JSON and the seal of the
      wire; two pipelines never share a port; a
      synthetic line is decoded to what it prints; a listener hands over what was queued
      for it, a notified change of the scan settings ends in the pipelines, and what
      the radio hears the browser shows.
    - The agent channel: both ends agree after a handshake and open each other's frames, a session is only given
      to a listed key, a replayed answer is refused, an unlisted agent changes only
      the bounded list of waiting agents; an agent that trusts on first use gets this
      server's key and talks to no other, under one identity, in every later process that
      finds the key files (a host that cannot write them asks again).
    - Home Assistant: the token leaves only when asked for; a session numbers its
      commands upwards and hands over every frame in order; the worker stores only
      samples of entities it was asked to monitor and loses none; what the MQTT
      broker retains announces meters that are published, and after a reload meters
      that are flagged, but for what it held before the worker started and what was
      unflagged while there was no connection.
    - Evidence: rollover and glitch rules bound every delta; a sample is carried
      for at most the carry limit; a bill's buckets do not overlap and each is charged the hours that
      start in it; the daily screen uses exactly the full, covered days and its
      verdict is the one of the unit that comes nearest; every confidence is in [[0, 1]] and a violation caps it; rankings
      contain each meter once and their wins add up.
    - Pages and maintenance: slots cover a page, totals are sums of what is shown;
      the hand-written median is that of [ORDER BY]; scrubbing and deleting remove
      exactly what they name.
    - The API: every path has one handler; a [GET] changes nothing but the stale
      heartbeats; secrets are neither shown nor overwritten by their mask; an
      unconfirmed deletion is refused; a dongle's settings are read back as written,
      and what a failed read costs the others; the text of the event stream is parsed
      to exactly the events taken from the channel.
    - The whole: whatever the processes do in whatever order and whichever statement
      fails, the tables stay well typed and the id of a window is never reused;
      installing the schema rebuilds the registries ingest would have kept and is
      idempotent.
    - Scheduled work: the aggregate's backfill finishes and leaves no hole; the
      bill's backfill stores all samples or nothing; the auto-window detector has at most
      one open window.

    ** Fuel and bounds

    Recursion is structural except: [dec_digits] and the digit loops of [Prelude]
    (fuel is the number of bits, more than the digits of any number), the JSON
    parser (fuel is twice the length of the text plus one: each step consumes a
    character or enters a container), the matcher of [Regex] (fuel from the length
    of the text), the lists of slots of [Consumption] and the ticks of [Feed] and
    [Mock] (fuel computed from the interval; [segment_complete] shows it is enough)
    and [Backfill.caggBackfillLoop] (one unit per iteration; [caggBackfill_completes]
    gives a number that is enough).

    ** Parameters

    What is not under [src/] is an argument of the definitions that use it: the
    cryptographic primitives (class [Crypto] with laws), [time_bucket] and the
    gap-fill grid of TimescaleDB, PostgreSQL's regression aggregates, the
    time-zone database ([local_day], [local_clock], [wall], [midnight],
    [valid_zone]), [time.Parse], the general [strconv.ParseFloat], [%g],
    [math.Log], [math.Erfinv], the environment, and the answers of Home Assistant.
    A theorem that relies on one of them states the property it relies on as a
    hypothesis.

    ** Not modelled

    - The mains beyond their starts ([System], [AgentProcess]): signal handling, the reconnect timers, log writers, the
      HTTP server with its gzip writer and time-outs, [genSelfSignedCert] and the TLS
      set-up: I/O without state of their own.
    - The text of the DDL in [schema.go] (the tables are the record [DB]), catalogue
      sizes, and the chunks of TimescaleDB, which are a parameter.
    - The transports of HTTP, WebSocket and MQTT: the model has the texts they
      deliver and whether a write succeeds.
    - The random choices of [mock.go], which are arguments of its definitions.
*)

From Stdlib Require Export ZArith Lia String Ascii.
From stdpp Require Export base gmap strings list sorting.
Export StringSyntax.

#[global] Open Scope string_scope.
#[global] Open Scope Z_scope.
#[global] Arguments String.append !s1 s2 / : simpl nomatch.
#[global] Arguments Z.of_nat : simpl nomatch.

(** ** Automation shared by the development *)

Create HintDb winnow.

(** Case analysis on the scrutinee of a [match]/[if] of the goal or of a hypothesis. *)
Ltac case_match_goal :=
  match goal with
  | |- context [match ?x with _ => _ end] => destruct x eqn:?
  | |- context [if ?x then _ else _] => destruct x eqn:?
  end.

Ltac case_match_in H :=
  match type of H with
  | context [match ?x with _ => _ end] => destruct x eqn:?
  | context [if ?x then _ else _] => destruct x eqn:?
  end.

(** Boolean comparisons on [Z] turned into propositions. *)
Ltac zbool :=
  repeat match goal with
  | H : (_ <? _) = true |- _ => apply Z.ltb_lt in H
  | H : (_ <? _) = false |- _ => apply Z.ltb_ge in H
  | H : (_ <=? _) = true |- _ => apply Z.leb_le in H
  | H : (_ <=? _) = false |- _ => apply Z.leb_gt in H
  | H : (_ =? _) = true |- _ => apply Z.eqb_eq in H
  | H : (_ =? _) = false |- _ => apply Z.eqb_neq in H
  | H : andb _ _ = true |- _ => apply andb_true_iff in H as [? ?]
  | H : orb _ _ = false |- _ => apply orb_false_iff in H as [? ?]
  | H : negb _ = true |- _ => apply negb_true_iff in H
  | H : negb _ = false |- _ => apply negb_false_iff in H
  | H : (_ =? _)%string = true |- _ => apply String.eqb_eq in H
  | H : (_ =? _)%string = false |- _ => apply String.eqb_neq in H
  end.

(** ** Machine integers

    Go's [int], [int64] and [time.Duration] are 64-bit two's complement. *)

Definition int64_min : Z := - 2 ^ 63.
Definition int64_max : Z := 2 ^ 63 - 1.
Definition wrap64 (z : Z) : Z := (z + 2 ^ 63) mod 2 ^ 64 - 2 ^ 63.
Definition in_int64 (z : Z) : Prop := int64_min <= z <= int64_max.

(** [x << n] on an int64 with an unsigned shift count: no limit on the count. *)
Definition shl64 (x n : Z) : Z := wrap64 (Z.shiftl x n).

Lemma wrap64_range z : in_int64 (wrap64 z).
Proof.
  unfold in_int64, wrap64, int64_min, int64_max.
  pose proof (Z.mod_pos_bound (z + 2 ^ 63) (2 ^ 64) ltac:(lia)). lia.
Qed.

Lemma wrap64_id z : in_int64 z -> wrap64 z = z.
Proof.
  unfold in_int64, wrap64, int64_min, int64_max. intros H.
  rewrite Z.mod_small; lia.
Qed.

(** ** Time

    A [time.Time] is its UTC instant, in nanoseconds since the Unix epoch; a
    [time.Duration] is an int64 number of nanoseconds.  [time.Sub] saturates at
    the bounds of a Duration; [time.Add] keeps the instant exact. *)

Definition time := Z.
Definition duration := Z.

Definition Nanosecond : duration := 1.
Definition Microsecond : duration := 1000.
Definition Millisecond : duration := 1000000.
Definition Second : duration := 1000000000.
Definition Minute : duration := 60 * Second.
Definition Hour : duration := 60 * Minute.

(** The zero [time.Time]: January 1 of year 1, UTC. *)
Definition zero_time : time := -62135596800 * Second.
Definition IsZero (t : time) : bool := t =? zero_time.
Definition Before (a b : time) : bool := a <? b.
Definition After (a b : time) : bool := b <? a.
Definition Sub (a b : time) : duration := Z.max int64_min (Z.min int64_max (a - b)).
Definition Add (t : time) (d : duration) : time := t + d.
(** [time.Time.Unix]: whole seconds since the epoch, rounded down. *)
Definition Unix (t : time) : Z := t / Second.
(** [t.Truncate d] for a duration dividing the distance from year 1 to the epoch. *)
Definition Truncate (t : time) (d : duration) : time := t - (t - zero_time) mod d.

Lemma Sub_exact a b : in_int64 (a - b) -> Sub a b = a - b.
Proof. unfold Sub, in_int64, int64_min, int64_max. lia. Qed.

Lemma Sub_range a b : in_int64 (Sub a b).
Proof. unfold Sub, in_int64, int64_min, int64_max. lia. Qed.

Lemma Sub_le_iff a b d : in_int64 d -> int64_min < d -> (d <= Sub a b <-> d <= a - b).
Proof. unfold Sub, in_int64, int64_min, int64_max. lia. Qed.

(** Go's integer division and remainder truncate toward zero. *)
Definition go_div (a b : Z) : Z := Z.quot a b.
Definition go_rem (a b : Z) : Z := Z.rem a b.

(** ** Pointers to optional values *)

Definition is_nil {A} (o : option A) : bool := match o with None => true | Some _ => false end.
Definition from_opt {A} (d : A) (o : option A) : A := match o with Some x => x | None => d end.

(** ** Strings

    A Go string is its list of bytes; [string] here is the same. *)

Fixpoint str_rev_app (s acc : string) : string :=
  match s with
  | EmptyString => acc
  | String c s' => str_rev_app s' (String c acc)
  end.
Definition str_rev (s : string) : string := str_rev_app s EmptyString.

Fixpoint str_map (f : ascii -> ascii) (s : string) : string :=
  match s with
  | EmptyString => EmptyString
  | String c s' => String (f c) (str_map f s')
  end.

Definition byte_of (c : ascii) : Z := Z.of_N (N_of_ascii c).
Definition chr (z : Z) : ascii := ascii_of_N (Z.to_N z).

Definition is_digit (c : ascii) : bool := (48 <=? byte_of c) && (byte_of c <=? 57).
Definition is_lower (c : ascii) : bool := (97 <=? byte_of c) && (byte_of c <=? 122).
Definition is_upper (c : ascii) : bool := (65 <=? byte_of c) && (byte_of c <=? 90).

(** [strings.ToUpper]/[ToLower] on the ASCII letters.  The code compares the
    results only with ASCII constants, none of which contains the case image of
    a non-ASCII letter. *)
Definition to_upper_ascii (c : ascii) : ascii := if is_lower c then chr (byte_of c - 32) else c.
Definition to_lower_ascii (c : ascii) : ascii := if is_upper c then chr (byte_of c + 32) else c.
Definition ToUpper (s : string) : string := str_map to_upper_ascii s.
Definition ToLower (s : string) : string := str_map to_lower_ascii s.
Definition EqualFold (a b : string) : bool := (ToLower a =? ToLower b)%string.

Definition HasPrefix (s p : string) : bool := String.prefix p s.
Definition is_empty (s : string) : bool := (s =? "")%string.

(** [strings.Split s c] for a one-byte separator. *)
Fixpoint split_acc (c : ascii) (s acc : string) : list string :=
  match s with
  | EmptyString => [str_rev acc]
  | String d s' => if Ascii.eqb c d then str_rev acc :: split_acc c s' EmptyString
                   else split_acc c s' (String d acc)
  end.
Definition split_on (c : ascii) (s : string) : list string := split_acc c s EmptyString.

(** [strings.Cut s c]: the text before and after the first [c]. *)
Fixpoint cut_acc (c : ascii) (s acc : string) : string * string * bool :=
  match s with
  | EmptyString => (str_rev acc, EmptyString, false)
  | String d s' => if Ascii.eqb c d then (str_rev acc, s', true)
                   else cut_acc c s' (String d acc)
  end.
Definition str_cut (c : ascii) (s : string) : string * string * bool := cut_acc c s EmptyString.

Fixpoint str_contains_char (c : ascii) (s : string) : bool :=
  match s with
  | EmptyString => false
  | String d s' => Ascii.eqb c d || str_contains_char c s'
  end.

Fixpoint all_chars (f : ascii -> bool) (s : string) : bool :=
  match s with EmptyString => true | String c r => f c && all_chars f r end.

Definition str_join (sep : string) (l : list string) : string := String.concat sep l.

(** The UTF-8 encodings of the code points of [unicode.IsSpace]. *)
Definition utf8_spaces : list string :=
  let b1 z := String (chr z) EmptyString in
  let b2 x y := String (chr x) (b1 y) in
  let b3 x y z := String (chr x) (b2 y z) in
  [b1 9; b1 10; b1 11; b1 12; b1 13; b1 32; b2 194 133; b2 194 160; b3 225 154 128;
   b3 226 128 128; b3 226 128 129; b3 226 128 130; b3 226 128 131; b3 226 128 132;
   b3 226 128 133; b3 226 128 134; b3 226 128 135; b3 226 128 136; b3 226 128 137;
   b3 226 128 138; b3 226 128 168; b3 226 128 169; b3 226 128 175; b3 226 129 159;
   b3 227 128 128].

(** [strings.CutPrefix]. *)
Fixpoint strip_prefix (p s : string) : option string :=
  match p, s with
  | EmptyString, _ => Some s
  | String c p', String d s' => if Ascii.eqb c d then strip_prefix p' s' else None
  | String _ _, EmptyString => None
  end.

Fixpoint strip_any (ps : list string) (s : string) : option string :=
  match ps with
  | [] => None
  | p :: ps' => match strip_prefix p s with Some r => Some r | None => strip_any ps' s end
  end.

Fixpoint trim_left_fuel (ps : list string) (n : nat) (s : string) : string :=
  match n with
  | O => s
  | S n' => match strip_any ps s with Some s' => trim_left_fuel ps n' s' | None => s end
  end.
Definition trim_left (ps : list string) (s : string) : string :=
  trim_left_fuel ps (String.length s) s.
Definition trim_right (ps : list string) (s : string) : string :=
  str_rev (trim_left (map str_rev ps) (str_rev s)).

(** [strings.TrimSpace]. *)
Definition TrimSpace (s : string) : string := trim_right utf8_spaces (trim_left utf8_spaces s).

(** [strings.TrimRight s "/"]. *)
Definition TrimRightSlash (s : string) : string := trim_right ["/"] s.

(** ** Decimal integers *)

Definition digit_val (c : ascii) : Z := byte_of c - 48.
Definition digit_chr (d : Z) : ascii := chr (48 + d).

Fixpoint digits_val (s : string) (acc : Z) : option Z :=
  match s with
  | EmptyString => Some acc
  | String c s' => if is_digit c then digits_val s' (acc * 10 + digit_val c) else None
  end.

(** [strconv.ParseInt s 10 64] and [strconv.Atoi]: the value (0 on a syntax
    error, the nearest bound on a range error) and whether the error is nil. *)
Definition signed_digits (neg : bool) (s : string) : Z * bool :=
  match s with
  | EmptyString => (0, false)
  | _ => match digits_val s 0 with
         | None => (0, false)
         | Some n => let v := if neg then - n else n in
                     if v <? int64_min then (int64_min, false)
                     else if int64_max <? v then (int64_max, false)
                     else (v, true)
         end
  end.
Definition ParseInt (s : string) : Z * bool :=
  match s with
  | String "-" s' => signed_digits true s'
  | String "+" s' => signed_digits false s'
  | _ => signed_digits false s
  end.
Definition Atoi := ParseInt.

Fixpoint dec_digits (fuel : nat) (n : Z) (acc : string) : string :=
  match fuel with
  | O => acc
  | S f => let acc' := String (digit_chr (n mod 10)) acc in
           if n / 10 =? 0 then acc' else dec_digits f (n / 10) acc'
  end.
(** [strconv.FormatInt v 10] (and [%d]); 20 digits are enough for an int64. *)
Definition FormatInt (v : Z) : string :=
  if v <? 0 then String "-" (dec_digits 20 (- v) EmptyString) else dec_digits 20 v EmptyString.

#[global] Arguments dec_digits : simpl never.
#[global] Arguments ParseInt : simpl never.
#[global] Arguments FormatInt : simpl never.

(** ** Lemmas on decimal text *)

Lemma byte_of_chr z : 0 <= z < 256 -> byte_of (chr z) = z.
Proof.
  intros H. unfold byte_of, chr. rewrite N_ascii_embedding; lia.
Qed.

Lemma is_digit_chr d : 0 <= d < 10 -> is_digit (digit_chr d) = true.
Proof. intros H. unfold is_digit, digit_chr. rewrite byte_of_chr by lia. lia. Qed.

Lemma digit_val_chr d : 0 <= d < 10 -> digit_val (digit_chr d) = d.
Proof. intros H. unfold digit_val, digit_chr. rewrite byte_of_chr; lia. Qed.

Lemma dec_digits_0 n acc : dec_digits 0 n acc = acc.
Proof. reflexivity. Qed.

Lemma dec_digits_S f n acc :
  dec_digits (S f) n acc =
  (let acc' := String (digit_chr (n mod 10)) acc in
   if n / 10 =? 0 then acc' else dec_digits f (n / 10) acc').
Proof. reflexivity. Qed.

Lemma dec_digits_first f n acc :
  0 <= n -> exists c s, dec_digits (S f) n acc = String c s /\ is_digit c = true.
Proof.
  revert n acc. induction f as [|f IH]; intros n acc Hn; rewrite dec_digits_S; cbv zeta.
  - assert (0 <= n mod 10 < 10) by (apply Z.mod_pos_bound; lia).
    destruct (n / 10 =? 0); eexists _, _; split; eauto using is_digit_chr.
  - assert (0 <= n mod 10 < 10) by (apply Z.mod_pos_bound; lia).
    destruct (n / 10 =? 0); [eexists _, _; split; eauto using is_digit_chr|].
    apply IH. apply Z.div_pos; lia.
Qed.

Lemma digits_val_dec f n acc a :
  0 <= n < 10 ^ Z.of_nat (S f) ->
  exists k, 0 <= k /\ digits_val (dec_digits (S f) n acc) a = digits_val acc (a * 10 ^ k + n).
Proof.
  revert n acc a. induction f as [|f IH]; intros n acc a Hn.
  - exists 1. split; [lia|]. rewrite dec_digits_S; cbv zeta.
    assert (n < 10) by (change (10 ^ Z.of_nat 1) with 10 in Hn; lia).
    assert (n mod 10 = n) as -> by (apply Z.mod_small; lia).
    destruct (n / 10 =? 0); rewrite ?dec_digits_0; cbn [digits_val]; rewrite is_digit_chr, digit_val_chr by lia; f_equal; lia.
  - rewrite dec_digits_S; cbv zeta. set (r := n mod 10).
    assert (0 <= r < 10) by (apply Z.mod_pos_bound; lia).
    assert (n = 10 * (n / 10) + r) as E by (apply Z.div_mod; lia).
    destruct (Z.eqb_spec (n / 10) 0) as [E0|E0].
    + exists 1. split; [lia|]. cbn [digits_val]. rewrite is_digit_chr, digit_val_chr by lia. f_equal. lia.
    + destruct (IH (n / 10) (String (digit_chr r) acc) a) as (k & Hk & ->).
      { split; [apply Z.div_pos; lia|]. apply Z.div_lt_upper_bound; [lia|].
        rewrite (Nat2Z.inj_succ (S f)), Z.pow_succ_r in Hn by lia. lia. }
      exists (k + 1). split; [lia|]. cbn [digits_val]. rewrite is_digit_chr, digit_val_chr by lia.
      f_equal. rewrite Z.pow_add_r by lia. lia.
Qed.

(** A text with a byte that is not a digit is not a number. *)
Lemma digits_val_bad s t c a : is_digit c = false -> digits_val (s ++ String c t) a = None.
Proof.
  intros Hc. revert a. induction s as [|d s IH]; intros a; cbn [digits_val String.append].
  - by rewrite Hc.
  - destruct (is_digit d); auto.
Qed.

Lemma ParseInt_digit_first c s :
  is_digit c = true -> ParseInt (String c s) = signed_digits false (String c s).
Proof.
  intros Hc. unfold ParseInt.
  destruct c as [[] [] [] [] [] [] [] []]; first [reflexivity | discriminate Hc].
Qed.

Lemma signed_digits_dec (neg : bool) (n : Z) :
  0 <= n <= 2 ^ 63 -> in_int64 (if neg then - n else n) ->
  signed_digits neg (dec_digits 20 n EmptyString) = (if neg then - n else n, true).
Proof.
  intros Hn Hr. destruct (dec_digits_first 19 n EmptyString ltac:(lia)) as (c & s & E & _).
  unfold signed_digits. rewrite E, <- E.
  destruct (digits_val_dec 19 n EmptyString 0) as (k & Hk & ->); [lia|].
  unfold digits_val. replace (0 * 10 ^ k + n) with n by lia.
  unfold in_int64 in Hr. cbv zeta.
  destruct (Z.ltb_spec (if neg then - n else n) int64_min); [lia|].
  destruct (Z.ltb_spec int64_max (if neg then - n else n)); [lia|]. done.
Qed.

(** Parsing what [FormatInt] prints gives the number back. *)
Lemma ParseInt_FormatInt v : in_int64 v -> ParseInt (FormatInt v) = (v, true).
Proof.
  intros Hv. assert (- 2 ^ 63 <= v <= 2 ^ 63) by (unfold in_int64, int64_min, int64_max in Hv; lia).
  unfold FormatInt. destruct (Z.ltb_spec v 0).
  - change (ParseInt (String "-" (dec_digits 20 (- v) EmptyString)))
      with (signed_digits true (dec_digits 20 (- v) EmptyString)).
    rewrite signed_digits_dec; rewrite ?Z.opp_involutive; [done|lia|done].
  - destruct (dec_digits_first 19 v EmptyString ltac:(lia)) as (c & s & E & Hc).
    rewrite E, ParseInt_digit_first by done. rewrite <- E.
    by rewrite signed_digits_dec by (done || lia).
Qed.

(** A number followed by anything that is not a digit does not parse. *)
Lemma ParseInt_FormatInt_suffix v c t :
  in_int64 v -> is_digit c = false -> snd (ParseInt (FormatInt v ++ String c t)) = false.
Proof.
  intros Hv Hc. unfold FormatInt.
  assert (forall neg s, s <> EmptyString ->
    snd (signed_digits neg (s ++ String c t)) = false) as Hbad.
  { intros neg s Hs. unfold signed_digits. destruct s; [done|].
    cbn [String.append]. change (String a (s ++ String c t)) with (String a s ++ String c t).
    by rewrite digits_val_bad. }
  destruct (Z.ltb_spec v 0).
  - change (ParseInt _) with (signed_digits true (dec_digits 20 (- v) EmptyString ++ String c t)).
    apply Hbad. destruct (dec_digits_first 19 (- v) EmptyString) as (? & ? & -> & _); [lia|done].
  - destruct (dec_digits_first 19 v EmptyString) as (d & s & E & Hd); [lia|]. rewrite E.
    cbn [String.append]. rewrite ParseInt_digit_first by done.
    change (String d (s ++ String c t)) with (String d s ++ String c t). by apply Hbad.
Qed.

(** ** Strings and lists *)

Lemma str_app_assoc (s t u : string) : s ++ (t ++ u) = (s ++ t) ++ u.
Proof. induction s as [|c s IH]; cbn; [done|by rewrite IH]. Qed.

Lemma str_app_nil_r (s : string) : s ++ EmptyString = s.
Proof. induction s as [|c s IH]; cbn; [done|by rewrite IH]. Qed.

Lemma str_rev_app_spec (s acc : string) : str_rev_app s acc = str_rev s ++ acc.
Proof.
  unfold str_rev. revert acc. induction s as [|c s IH]; intros acc; cbn; [done|].
  rewrite IH, (IH (String c EmptyString)). by rewrite <- str_app_assoc.
Qed.

Lemma cut_acc_app c s t acc :
  str_contains_char c s = false ->
  cut_acc c (s ++ String c t) acc = (str_rev acc ++ s, t, true).
Proof.
  revert acc. induction s as [|d s IH]; intros acc H; cbn in *.
  - rewrite Ascii.eqb_refl. by rewrite str_app_nil_r.
  - apply orb_false_iff in H as [-> H]. rewrite IH by done.
    cbn. rewrite str_rev_app_spec, <- str_app_assoc. done.
Qed.

(** Cutting at the first separator undoes the join. *)
Lemma str_cut_app c s t :
  str_contains_char c s = false -> str_cut c (s ++ String c t) = (s, t, true).
Proof. intros H. unfold str_cut. by rewrite cut_acc_app. Qed.

Lemma dec_digits_no_char c f n acc :
  is_digit c = false -> 0 <= n -> str_contains_char c acc = false ->
  str_contains_char c (dec_digits f n acc) = false.
Proof.
  intros Hc. revert n acc. induction f as [|f IH]; intros n acc Hn Ha; [done|]. rewrite dec_digits_S; cbv zeta.
  assert (0 <= n mod 10 < 10) by (apply Z.mod_pos_bound; lia).
  assert (str_contains_char c (String (digit_chr (n mod 10)) acc) = false).
  { cbn. rewrite Ha, orb_false_r. apply Ascii.eqb_neq. intros ->.
    by rewrite is_digit_chr in Hc. }
  destruct (n / 10 =? 0); [done|]. apply IH; [apply Z.div_pos; lia|done].
Qed.

Lemma FormatInt_no_char c v :
  is_digit c = false -> c <> "-"%char -> str_contains_char c (FormatInt v) = false.
Proof.
  intros Hc Hm. unfold FormatInt. destruct (Z.ltb_spec v 0); cbn.
  - rewrite (proj2 (Ascii.eqb_neq _ _) Hm). apply dec_digits_no_char; [done|lia|done].
  - apply dec_digits_no_char; [done|lia|done].
Qed.

Lemma all_chars_app f a b : all_chars f (a ++ b) = all_chars f a && all_chars f b.
Proof. induction a as [|c a IH]; cbn; [done|]. by rewrite IH, andb_assoc. Qed.
Lemma all_chars_mono (f g : ascii -> bool) s :
  (forall c, f c = true -> g c = true) -> all_chars f s = true -> all_chars g s = true.
Proof.
  intros H. induction s as [|c s IH]; cbn; [done|]. intros [Hc Hs]%andb_true_iff. by rewrite H, IH.
Qed.
Lemma all_chars_absent (f : ascii -> bool) s :
  (forall c, f c = false -> str_contains_char c s = false) -> all_chars f s = true.
Proof.
  intros H. induction s as [|c s IH]; cbn; [done|]. apply andb_true_iff. split.
  - destruct (f c) eqn:E; [done|]. apply H in E. cbn in E. by rewrite Ascii.eqb_refl in E.
  - apply IH. intros c' Hc'. apply H in Hc'. cbn in Hc'. by apply orb_false_iff in Hc' as [_ ?].
Qed.

#[export] Hint Resolve wrap64_range Sub_range : winnow.
