(* ===== verification/Float64.v ===== *)
(** * IEEE 754 binary64

    Go's [float64] as [SpecFloat]'s binary64 ([prec = 53], [emax = 1024]): every
    operation rounds to nearest, ties to even, and is executable.  The code is
    compiled without fused multiply-add, so [a*b + c] rounds twice.

    The module gives the operations and conversions the program uses and the
    order theory of the comparisons: [SFcompare] is a lexicographic comparison
    of a key, hence a total preorder on the values that are not NaN. *)

From Stdlib Require Import SpecFloat.
From S2P Require Import Prelude.

Definition float64 : Type := spec_float.

Definition fadd : float64 -> float64 -> float64 := SFadd 53 1024.
Definition fsub : float64 -> float64 -> float64 := SFsub 53 1024.
Definition fmul : float64 -> float64 -> float64 := SFmul 53 1024.
Definition fdiv : float64 -> float64 -> float64 := SFdiv 53 1024.
Definition fsqrt : float64 -> float64 := SFsqrt 53 1024.
Definition fabs : float64 -> float64 := SFabs.
Definition fopp : float64 -> float64 := SFopp.
Definition feqb : float64 -> float64 -> bool := SFeqb.
Definition fltb : float64 -> float64 -> bool := SFltb.
Definition fleb : float64 -> float64 -> bool := SFleb.

Declare Scope f64_scope.
Delimit Scope f64_scope with f64.
Bind Scope f64_scope with float64.
Infix "+" := fadd : f64_scope.
Infix "-" := fsub : f64_scope.
Infix "*" := fmul : f64_scope.
Infix "/" := fdiv : f64_scope.
Infix "<?" := fltb : f64_scope.
Infix "<=?" := fleb : f64_scope.
Infix "=?" := feqb : f64_scope.
Notation "a >? b" := (fltb b a) : f64_scope.
Notation "a >=? b" := (fleb b a) : f64_scope.

(** Conversion of an integer: correctly rounded. *)
Definition of_Z (z : Z) : float64 := binary_normalize 53 1024 z 0 false.

(** The constant [n/d] for integers exactly representable: correctly rounded. *)
Definition lit (n d : Z) : float64 := fdiv (of_Z n) (of_Z d).

Definition f0 : float64 := of_Z 0.
Definition f1 : float64 := of_Z 1.
Definition fNaN : float64 := S754_nan.
Definition fInf : float64 := S754_infinity false.
Definition fNegInf : float64 := S754_infinity true.

Definition is_nan (x : float64) : bool := match x with S754_nan => true | _ => false end.
Definition is_inf_neg (x : float64) : bool :=
  match x with S754_infinity true => true | _ => false end.

(** [math.Max] and [math.Min], with their special cases. *)
Definition fmax (x y : float64) : float64 :=
  match x, y with
  | S754_infinity false, _ | _, S754_infinity false => fInf
  | S754_nan, _ | _, S754_nan => fNaN
  | S754_zero sx, S754_zero sy => if sx then y else x
  | _, _ => if (x >? y)%f64 then x else y
  end.
Definition fmin (x y : float64) : float64 :=
  match x, y with
  | S754_infinity true, _ | _, S754_infinity true => fNegInf
  | S754_nan, _ | _, S754_nan => fNaN
  | S754_zero sx, S754_zero sy => if sx then x else y
  | _, _ => if (x <? y)%f64 then x else y
  end.

(** The integer nearest to [m * 2^e], halves away from zero. *)
Definition round_half_up (m : positive) (e : Z) : Z :=
  match e with
  | Zneg k => (Z.pos m + 2 ^ (Z.pos k - 1)) / 2 ^ Z.pos k
  | _ => Z.pos m * 2 ^ e
  end.

(** [math.Round]: the nearest integer, halves away from zero; signed zeros,
    infinities and NaN are unchanged. *)
Definition fround (x : float64) : float64 :=
  match x with
  | S754_finite s m e =>
      if 0 <=? e then x
      else match round_half_up m e with
           | Z0 => S754_zero s
           | r => binary_normalize 53 1024 (if s then - r else r) 0 s
           end
  | _ => x
  end.

(** [math.Pow 10 n] for a small exponent: the power is exact. *)
Definition pow10 (n : Z) : float64 := of_Z (10 ^ n).

(** Truncation toward zero ([int64(x)]) of a value in range. *)
Definition ftrunc (x : float64) : Z :=
  match x with
  | S754_finite s m e =>
      let v := match e with
               | Zneg k => Z.pos m / 2 ^ Z.pos k
               | _ => Z.pos m * 2 ^ e
               end in
      if s then - v else v
  | _ => 0
  end.

(** [Duration.Hours], [Minutes] and [Seconds]. *)
Definition dur_in (unit d : duration) : float64 :=
  fadd (of_Z (go_div d unit)) (fdiv (of_Z (go_rem d unit)) (of_Z unit)).
Definition Hours (d : duration) : float64 := dur_in Hour d.
Definition Minutes (d : duration) : float64 := dur_in Minute d.
Definition Seconds (d : duration) : float64 := dur_in Second d.

(** ** Order *)

Definition fkey (x : float64) : Z * Z * Z :=
  match x with
  | S754_nan => (3, 0, 0)
  | S754_infinity false => (2, 0, 0)
  | S754_infinity true => (-2, 0, 0)
  | S754_zero _ => (0, 0, 0)
  | S754_finite false m e => (1, e, Z.pos m)
  | S754_finite true m e => (-1, - e, Z.neg m)
  end.

Definition kle (a b : Z * Z * Z) : Prop :=
  match a, b with
  | (a1, a2, a3), (b1, b2, b3) => a1 < b1 \/ (a1 = b1 /\ (a2 < b2 \/ (a2 = b2 /\ a3 <= b3)))
  end.

#[export] Instance kle_dec a b : Decision (kle a b).
Proof. destruct a as [[? ?] ?], b as [[? ?] ?]. unfold kle. apply _. Defined.

Lemma fleb_key x y :
  fleb x y = true <-> is_nan x = false /\ is_nan y = false /\ kle (fkey x) (fkey y).
Proof.
  unfold fleb, SFleb, SFcompare, kle, fkey, is_nan.
  destruct x as [[]|[]| |[] m e]; destruct y as [[]|[]| |[] m' e'];
    try (split; [intros; try discriminate; repeat split; lia
                |intros (? & ? & ?); try discriminate; try reflexivity; lia]).
  all: destruct (Z.compare_spec e e');
    [subst; change (Pos.compare_cont Eq m m') with (Pos.compare m m');
     destruct (Pos.compare_spec m m'); cbn | | ];
    (split; [intros Hc; try discriminate Hc; repeat split; lia
            |intros (? & ? & ?); try reflexivity; lia]).
Qed.

Lemma fltb_key x y :
  fltb x y = true <-> is_nan x = false /\ is_nan y = false /\ ~ kle (fkey y) (fkey x).
Proof.
  unfold fltb, SFltb, SFcompare, kle, fkey, is_nan.
  destruct x as [[]|[]| |[] m e]; destruct y as [[]|[]| |[] m' e'];
    try (split; [intros; try discriminate; repeat split; lia
                |intros (? & ? & ?); try discriminate; try reflexivity; lia]).
  all: destruct (Z.compare_spec e e');
    [subst; change (Pos.compare_cont Eq m m') with (Pos.compare m m');
     destruct (Pos.compare_spec m m'); cbn | | ];
    (split; [intros Hc; try discriminate Hc; repeat split; lia
            |intros (? & ? & ?); try reflexivity; lia]).
Qed.

Lemma kle_trans a b c : kle a b -> kle b c -> kle a c.
Proof. destruct a as [[? ?] ?], b as [[? ?] ?], c as [[? ?] ?]. unfold kle. lia. Qed.

Lemma kle_total a b : kle a b \/ kle b a.
Proof. destruct a as [[? ?] ?], b as [[? ?] ?]. unfold kle. lia. Qed.

Lemma kle_refl a : kle a a.
Proof. destruct a as [[? ?] ?]. unfold kle. lia. Qed.

(** [a <= b] as a proposition: neither is NaN. *)
Definition fle (x y : float64) : Prop := fleb x y = true.
Definition flt (x y : float64) : Prop := fltb x y = true.
Notation "a <= b" := (fle a b) : f64_scope.
Notation "a < b" := (flt a b) : f64_scope.

Lemma fle_refl x : is_nan x = false -> fle x x.
Proof. intros H. apply fleb_key. eauto using kle_refl. Qed.

Lemma fle_trans x y z : fle x y -> fle y z -> fle x z.
Proof. unfold fle. rewrite !fleb_key. intros (? & ? & ?) (? & ? & ?). eauto using kle_trans. Qed.

Lemma flt_le x y : flt x y -> fle x y.
Proof.
  unfold fle, flt. rewrite fleb_key, fltb_key. intros (? & ? & ?).
  destruct (kle_total (fkey x) (fkey y)); [done|contradiction].
Qed.

(** A failed comparison of values that are not NaN is the converse comparison. *)
Lemma fltb_false x y :
  is_nan x = false -> is_nan y = false -> fltb x y = false -> fle y x.
Proof.
  intros Hx Hy H. apply fleb_key. repeat split; [done..|].
  destruct (kle_total (fkey y) (fkey x)) as [|Hk]; [done|].
  destruct (decide (kle (fkey y) (fkey x))) as [|Hn]; [done|].
  assert (fltb x y = true) by (apply fltb_key; done). congruence.
Qed.

Lemma fleb_false x y :
  is_nan x = false -> is_nan y = false -> fleb x y = false -> flt y x.
Proof.
  intros Hx Hy H. apply fltb_key. repeat split; [done..|]. intros Hk.
  assert (fleb x y = true) by (apply fleb_key; done). congruence.
Qed.

Lemma fle_not_nan x y : fle x y -> is_nan x = false /\ is_nan y = false.
Proof. unfold fle. rewrite fleb_key. tauto. Qed.

Lemma flt_not_fle x y : flt x y -> fle y x -> False.
Proof. unfold fle, flt. rewrite fltb_key, fleb_key. tauto. Qed.

Lemma flt_trans_le x y z : flt x y -> fle y z -> flt x z.
Proof.
  unfold flt, fle. rewrite !fltb_key, fleb_key. intros (? & ? & Hxy) (? & ? & Hyz). split_and!; [done|done|].
  intros Hzx. apply Hxy. by eapply kle_trans.
Qed.

(** [math.Max] and [math.Min] of two values that are not NaN. *)
Lemma fmax_spec x y :
  is_nan x = false -> is_nan y = false ->
  (fmax x y = x \/ fmax x y = y) /\ fle x (fmax x y) /\ fle y (fmax x y).
Proof.
  intros Nx Ny.
  assert ((if (y <? x)%f64 then x else y) = x \/ (if (y <? x)%f64 then x else y) = y) as H1 by (case_match; auto).
  assert (fle x (if (y <? x)%f64 then x else y) /\ fle y (if (y <? x)%f64 then x else y)) as [H2 H3].
  { destruct (y <? x)%f64 eqn:E; split; try (by apply fle_refl); [by apply flt_le|by apply fltb_false]. }
  destruct x as [[]|[]| |s m e], y as [[]|[]| |s' m' e']; try discriminate Nx; try discriminate Ny; cbn [fmax];
    try (split_and!; [exact H1|exact H2|exact H3]); split_and!; try (by left); try (by right);
    unfold fle; rewrite fleb_key; cbn; try (split_and!; [done|done|]); unfold kle; cbn; try lia; try done.
Qed.
Lemma fmin_spec x y :
  is_nan x = false -> is_nan y = false ->
  (fmin x y = x \/ fmin x y = y) /\ fle (fmin x y) x /\ fle (fmin x y) y.
Proof.
  intros Nx Ny.
  assert ((if (x <? y)%f64 then x else y) = x \/ (if (x <? y)%f64 then x else y) = y) as H1 by (case_match; auto).
  assert (fle (if (x <? y)%f64 then x else y) x /\ fle (if (x <? y)%f64 then x else y) y) as [H2 H3].
  { destruct (x <? y)%f64 eqn:E; split; try (by apply fle_refl); [by apply flt_le|by apply fltb_false]. }
  destruct x as [[]|[]| |s m e], y as [[]|[]| |s' m' e']; try discriminate Nx; try discriminate Ny; cbn [fmin];
    try (split_and!; [exact H1|exact H2|exact H3]); split_and!; try (by left); try (by right);
    unfold fle; rewrite fleb_key; cbn; try (split_and!; [done|done|]); unfold kle; cbn; try lia; try done.
Qed.

#[export] Hint Resolve fle_refl flt_le : winnow.
