(* ===== verification/Rounding.v ===== *)
(** * Rounding of binary64

    [Float64] computes with [SpecFloat]'s rounding.  This file proves what the
    bounds of the scoring code rest on: every operation on valid values gives a
    valid value, and a rounded result never crosses a representable number (if
    the exact value is at most [y], so is the rounded one, and dually).  From
    these follow the bounds on products, quotients and [math.Round] that keep a
    probability inside its interval. *)

From Stdlib Require Import SpecFloat.
From S2P Require Import Prelude Float64.

(** A binary64 value: the mantissa is canonical for its exponent. *)
Definition valid (x : float64) : bool := valid_binary 53 1024 x.

(** The exponent a value with leading bit at [k] is rounded to. *)
Definition fx (k : Z) : Z := Z.max (k - 53) (-1074).
Definition dg (m : Z) : Z := Zdigits2 m.

Lemma fexp_fx k : fexp 53 1024 k = fx k.
Proof. reflexivity. Qed.

Lemma digits2_pos_log2 p : Z.pos (digits2_pos p) = Z.log2 (Z.pos p) + 1.
Proof.
  induction p as [p IH|p IH|]; cbn [digits2_pos]; [| |reflexivity].
  - rewrite Pos2Z.inj_succ, IH. change (Z.pos p~1) with (2 * Z.pos p + 1).
    rewrite Z.log2_succ_double by lia. lia.
  - rewrite Pos2Z.inj_succ, IH. change (Z.pos p~0) with (2 * Z.pos p).
    rewrite Z.log2_double by lia. lia.
Qed.

Lemma dg_pos m : 0 < m -> dg m = Z.log2 m + 1.
Proof. destruct m; intros; try lia. apply digits2_pos_log2. Qed.

Lemma dg_0 : dg 0 = 0.
Proof. reflexivity. Qed.

Lemma dg_nonneg m : 0 <= m -> 0 <= dg m.
Proof.
  intros. destruct (decide (m = 0)) as [->|]; [done|]. rewrite dg_pos by lia.
  pose proof (Z.log2_nonneg m). lia.
Qed.

Lemma dg_bounds m : 0 < m -> 2 ^ (dg m - 1) <= m < 2 ^ dg m.
Proof.
  intros H. rewrite dg_pos by done. replace (Z.log2 m + 1 - 1) with (Z.log2 m) by lia.
  by apply Z.log2_spec.
Qed.

Lemma dg_mono a b : 0 <= a <= b -> dg a <= dg b.
Proof.
  intros [Ha Hb]. destruct (decide (a = 0)) as [->|]; [by apply dg_nonneg|].
  rewrite !dg_pos by lia. pose proof (Z.log2_le_mono a b). lia.
Qed.

Lemma dg_shift m n : 0 < m -> 0 <= n -> dg (m * 2 ^ n) = dg m + n.
Proof.
  intros. rewrite !dg_pos; [|lia|nia]. rewrite Z.log2_mul_pow2 by lia. lia.
Qed.

Lemma dg_div m n : 0 <= m -> 0 <= n -> dg (m / 2 ^ n) = Z.max 0 (dg m - n).
Proof.
  intros Hm Hn. destruct (decide (m = 0)) as [->|].
  { rewrite Z.div_0_l by lia. rewrite dg_0. lia. }
  pose proof (dg_bounds m ltac:(lia)) as [Hl Hu]. pose proof (dg_nonneg m Hm).
  assert (1 <= dg m) by (rewrite dg_pos by lia; pose proof (Z.log2_nonneg m); lia).
  destruct (Z.le_gt_cases (dg m) n).
  - rewrite Z.div_small; [rewrite dg_0; lia|]. split; [done|].
    pose proof (Z.pow_le_mono_r 2 (dg m) n). lia.
  - rewrite <- Z.shiftr_div_pow2 by done.
    assert (0 < Z.shiftr m n).
    { rewrite Z.shiftr_div_pow2 by done. apply Z.div_str_pos.
      pose proof (Z.pow_le_mono_r 2 n (dg m - 1)). lia. }
    rewrite !dg_pos by lia. rewrite Z.log2_shiftr by lia.
    rewrite dg_pos in * by lia. lia.
Qed.

(** Comparing scaled mantissas compares the leading bits. *)
Lemma dg_scale_le m e y ey :
  0 < m -> 0 <= y -> e <= ey -> m <= y * 2 ^ (ey - e) -> dg m + e <= dg y + ey.
Proof.
  intros Hm Hy He H. assert (0 < y).
  { destruct (decide (y = 0)) as [->|]; lia. }
  pose proof (dg_mono m (y * 2 ^ (ey - e)) ltac:(lia)) as Hd.
  rewrite dg_shift in Hd by lia. lia.
Qed.

(** ** The shift of [shr] *)

Definition rexact (r : shr_record) : bool := negb (shr_r r || shr_s r).

#[export] Instance location_eq_dec : EqDecision location.
Proof. intros [|[]] [|[]]; first [by left | by right]. Defined.

Lemma iter_pos_nat {A} (f : A -> A) p x : SpecFloat.iter_pos f p x = Nat.iter (Pos.to_nat p) f x.
Proof.
  revert x. induction p as [p IH|p IH|]; intros x; cbn [SpecFloat.iter_pos]; [| |reflexivity].
  - rewrite !IH, <- Nat.iter_add, Pos2Nat.inj_xI.
    replace (S (2 * Pos.to_nat p)) with (Pos.to_nat p + Pos.to_nat p + 1)%nat by lia.
    rewrite (Nat.iter_add (_ + _)). done.
  - rewrite !IH, <- Nat.iter_add. f_equal. lia.
Qed.

Lemma shr_1_spec r :
  0 <= shr_m r -> shr_m (shr_1 r) = shr_m r / 2 /\ rexact (shr_1 r) = rexact r && Z.even (shr_m r).
Proof.
  destruct r as [m rb sb]. cbn [shr_m]. intros H. destruct m as [|p|p]; [| |lia].
  - unfold rexact; cbn. by destruct rb, sb.
  - destruct p as [p|p|].
    + rewrite <- Z.div2_div. unfold rexact; cbn. by destruct rb, sb.
    + rewrite <- Z.div2_div. unfold rexact; cbn. by destruct rb, sb.
    + unfold rexact; cbn. by destruct rb, sb.
Qed.

Lemma shr_iter_spec n r :
  0 <= shr_m r ->
  shr_m (Nat.iter n shr_1 r) = shr_m r / 2 ^ Z.of_nat n /\
  (rexact (Nat.iter n shr_1 r) = true <-> rexact r = true /\ shr_m r mod 2 ^ Z.of_nat n = 0).
Proof.
  intros H. induction n as [|n [IHm IHe]].
  - change (2 ^ Z.of_nat 0) with 1. rewrite Z.div_1_r, Z.mod_1_r. cbn. intuition.
  - change (Nat.iter (S n) shr_1 r) with (shr_1 (Nat.iter n shr_1 r)).
    assert (0 <= shr_m (Nat.iter n shr_1 r)) by (rewrite IHm; apply Z.div_pos; lia).
    destruct (shr_1_spec _ ltac:(eassumption)) as [-> ->]. rewrite IHm.
    assert (2 ^ Z.of_nat (S n) = 2 ^ Z.of_nat n * 2) as ->.
    { rewrite Nat2Z.inj_succ, Z.pow_succ_r by lia. lia. }
    set (k := 2 ^ Z.of_nat n) in *. assert (0 < k) by (unfold k; lia).
    split; [rewrite Z.div_div by lia; done|].
    rewrite andb_true_iff, IHe, Z.even_spec, (Z.rem_mul_r (shr_m r) k 2) by lia.
    pose proof (Z.mod_pos_bound (shr_m r) k ltac:(lia)).
    pose proof (Z.mod_pos_bound (shr_m r / k) 2 ltac:(lia)).
    assert (Z.Even (shr_m r / k) <-> (shr_m r / k) mod 2 = 0) as ->.
    { rewrite <- Z.even_spec. rewrite Zmod_even. destruct (Z.even (shr_m r / k)); split; lia || done. }
    intuition nia.
Qed.

Lemma loc_exact r : loc_of_shr_record r = loc_Exact <-> rexact r = true.
Proof. destruct r as [m [] []]; unfold rexact; cbn; split; congruence. Qed.

Lemma shr_record_exact m l : rexact (shr_record_of_loc m l) = true <-> l = loc_Exact.
Proof. destruct l as [|[]]; unfold rexact; cbn; split; congruence. Qed.

Lemma shr_record_m m l : shr_m (shr_record_of_loc m l) = m.
Proof. by destruct l as [|[]]. Qed.

Lemma shr_fexp_spec m e l :
  0 <= m -> e <= fx (dg m + e) ->
  let n := fx (dg m + e) - e in
  exists r, shr_fexp 53 1024 m e l = (r, fx (dg m + e)) /\ shr_m r = m / 2 ^ n /\
    (loc_of_shr_record r = loc_Exact <-> l = loc_Exact /\ m mod 2 ^ n = 0).
Proof.
  intros Hm He n. unfold shr_fexp. rewrite fexp_fx. fold (dg m). fold n.
  replace (fx (dg m + e)) with (e + n) by lia.
  assert (0 <= n) as Hn by lia. clearbody n. destruct n as [|p|p]; [| |lia]; unfold shr.
  - eexists. split; [f_equal; lia|]. rewrite shr_record_m, loc_exact, shr_record_exact.
    change (2 ^ 0) with 1. rewrite Z.div_1_r, Z.mod_1_r. tauto.
  - eexists. split; [reflexivity|]. rewrite iter_pos_nat.
    destruct (shr_iter_spec (Pos.to_nat p) (shr_record_of_loc m l)) as [Em Ee];
      [by rewrite shr_record_m|].
    rewrite loc_exact, Ee, Em, shr_record_exact, shr_record_m, positive_nat_Z. done.
Qed.

Lemma rne_bounds q l :
  q <= round_nearest_even q l <= q + 1 /\ (l = loc_Exact -> round_nearest_even q l = q).
Proof. destruct l as [|[]]; cbn; try (split; [lia|intros; congruence || lia]). destruct (Z.even q); split; try lia; congruence. Qed.

(** What [binary_round_aux] computes: the shifted mantissa, up by at most one
    and exact when nothing was lost, renormalised. *)
Lemma round_aux_shape s m e l :
  0 <= m -> e <= fx (dg m + e) ->
  let E := fx (dg m + e) in let q := m / 2 ^ (E - e) in
  exists M, q <= M <= q + 1 /\ (l = loc_Exact -> m mod 2 ^ (E - e) = 0 -> M = q) /\
    E <= fx (dg M + E) /\
    binary_round_aux 53 1024 s m e l =
      match M / 2 ^ (fx (dg M + E) - E) with
      | Z0 => S754_zero s
      | Z.pos p => if fx (dg M + E) <=? 971 then S754_finite s p (fx (dg M + E)) else S754_infinity s
      | _ => S754_nan
      end.
Proof.
  intros Hm He E q. unfold binary_round_aux.
  destruct (shr_fexp_spec m e l Hm He) as (r & -> & Er & Hl). fold E in Er, Hl. fold q in Er.
  set (M := round_nearest_even (shr_m r) (loc_of_shr_record r)).
  assert (0 <= q) by (apply Z.div_pos; lia).
  destruct (rne_bounds (shr_m r) (loc_of_shr_record r)) as [Hb Hx]. fold M in Hb, Hx. rewrite Er in Hb, Hx.
  assert (E <= fx (dg M + E)) as HE.
  { pose proof (dg_mono q M ltac:(lia)) as Hd. unfold q in Hd. rewrite dg_div in Hd by lia.
    unfold E, fx in *. lia. }
  exists M. split_and!; [lia|lia|intros; apply Hx, Hl; done|done|].
  fold E. destruct (shr_fexp_spec M E loc_Exact ltac:(lia) HE) as (r' & -> & -> & _). done.
Qed.

(** The result of a rounding is a valid value. *)
Lemma round_aux_valid s m e l :
  0 <= m -> e <= fx (dg m + e) -> valid (binary_round_aux 53 1024 s m e l) = true.
Proof.
  intros Hm He. destruct (round_aux_shape s m e l Hm He) as (M & HM & _ & HE & ->).
  set (E := fx (dg m + e)) in *. assert (0 <= m / 2 ^ (E - e)) by (apply Z.div_pos; lia).
  pose proof (dg_div M (fx (dg M + E) - E) ltac:(lia) ltac:(lia)) as Hd.
  destruct (M / 2 ^ (fx (dg M + E) - E)) as [|p|p]; [done| |done].
  destruct (Z.leb_spec (fx (dg M + E)) 971); [|done].
  unfold valid, valid_binary, bounded, canonical_mantissa. rewrite fexp_fx.
  change (Z.pos (digits2_pos p)) with (dg (Z.pos p)). rewrite Hd.
  assert (0 < dg (Z.pos p)) by (rewrite dg_pos by lia; pose proof (Z.log2_nonneg (Z.pos p)); lia).
  apply andb_true_iff; split; apply Z.eqb_eq || apply Z.leb_le; [|done].
  rewrite Z.max_r by lia. f_equal. lia.
Qed.

Lemma valid_finite s m e : valid (S754_finite s m e) = true <-> fx (dg (Z.pos m) + e) = e /\ e <= 971.
Proof.
  unfold valid, valid_binary, bounded, canonical_mantissa. rewrite fexp_fx.
  change (Z.pos (digits2_pos m)) with (dg (Z.pos m)).
  by rewrite andb_true_iff, Z.eqb_eq, Z.leb_le.
Qed.

Lemma fle_finite m e m' e' :
  fle (S754_finite false m e) (S754_finite false m' e') <-> e < e' \/ (e = e' /\ Z.pos m <= Z.pos m').
Proof. unfold fle. rewrite fleb_key. cbn. lia. Qed.

(** An exact value at most [y] rounds to at most [y]. *)
Lemma round_aux_le m e l my ey :
  0 <= m -> e <= fx (dg m + e) -> valid (S754_finite false my ey) = true -> e <= ey ->
  m <= Z.pos my * 2 ^ (ey - e) -> (l <> loc_Exact -> m + 1 <= Z.pos my * 2 ^ (ey - e)) ->
  fle (binary_round_aux 53 1024 false m e l) (S754_finite false my ey).
Proof.
  intros Hm He [Hy Hy']%valid_finite Hey Hle Hlt.
  destruct (round_aux_shape false m e l Hm He) as (M & HM & Hx & HE & ->).
  set (E := fx (dg m + e)) in *. set (n := E - e) in *. set (q := m / 2 ^ n) in *.
  assert (0 <= q) by (apply Z.div_pos; lia).
  assert (E <= ey) as HEy.
  { destruct (decide (m = 0)) as [->|]; [unfold E, fx in *; rewrite dg_0 in *; lia|].
    pose proof (dg_scale_le m e (Z.pos my) ey ltac:(lia) ltac:(lia) Hey Hle).
    unfold E, fx in *. lia. }
  set (Y := Z.pos my * 2 ^ (ey - E)).
  assert (Z.pos my * 2 ^ (ey - e) = Y * 2 ^ n) as EY.
  { unfold Y, n. rewrite <- Z.mul_assoc, <- Z.pow_add_r by lia. do 2 f_equal. lia. }
  rewrite EY in Hle, Hlt. assert (0 < 2 ^ n) by lia.
  pose proof (Z.div_mod m (2 ^ n) ltac:(lia)) as Hdm. fold q in Hdm.
  pose proof (Z.mod_pos_bound m (2 ^ n) ltac:(lia)).
  assert (M <= Y) as HMY.
  { destruct (decide (l = loc_Exact /\ m mod 2 ^ n = 0)) as [[? ?]|Hn].
    - rewrite Hx by done. nia.
    - assert (m < Y * 2 ^ n).
      { destruct (decide (l = loc_Exact)); [|specialize (Hlt n0); lia].
        destruct (decide (m = Y * 2 ^ n)) as [E'|]; [|lia].
        exfalso. apply Hn. split; [done|]. rewrite E'. apply Z.mod_mul. lia. }
      nia. }
  destruct (M / 2 ^ (fx (dg M + E) - E)) as [|p|p] eqn:Ed; [done| |exfalso].
  2:{ assert (0 <= M / 2 ^ (fx (dg M + E) - E)) by (apply Z.div_pos; lia). lia. }
  assert (0 < M) by (destruct (decide (M = 0)) as [->|]; [by rewrite Z.div_0_l in Ed by lia|lia]).
  pose proof (dg_scale_le M E (Z.pos my) ey ltac:(lia) ltac:(lia) HEy HMY).
  assert (fx (dg M + E) <= ey) as HE' by (unfold fx in *; lia).
  destruct (Z.leb_spec (fx (dg M + E)) 971); [|lia]. apply fle_finite.
  destruct (decide (fx (dg M + E) = ey)) as [E2|]; [right; split; [done|]|left; lia].
  rewrite <- Ed, E2. apply Z.div_le_upper_bound; [lia|]. unfold Y in HMY. lia.
Qed.

(** An exact value at least [y] rounds to at least [y]. *)
Lemma round_aux_ge m e l my ey :
  0 <= m -> e <= fx (dg m + e) -> valid (S754_finite false my ey) = true -> e <= ey ->
  Z.pos my * 2 ^ (ey - e) <= m ->
  fle (S754_finite false my ey) (binary_round_aux 53 1024 false m e l).
Proof.
  intros Hm He [Hy Hy']%valid_finite Hey Hle.
  destruct (round_aux_shape false m e l Hm He) as (M & HM & _ & HE & ->).
  set (E := fx (dg m + e)) in *. set (n := E - e) in *. set (q := m / 2 ^ n) in *.
  assert (0 < m) by nia. assert (0 <= q) by (apply Z.div_pos; lia).
  pose proof (dg_mono _ _ (conj (ltac:(lia) : 0 <= Z.pos my * 2 ^ (ey - e)) Hle)) as Hdm.
  rewrite dg_shift in Hdm by lia.
  assert (ey <= E) as HEy by (unfold E, fx in *; lia).
  assert (0 < q) as Hq.
  { unfold q. apply Z.div_str_pos. split; [lia|]. pose proof (dg_bounds m ltac:(lia)) as [Hb _].
    assert (n <= dg m - 1) as Hn; [|pose proof (Z.pow_le_mono_r 2 n (dg m - 1)); lia].
    assert (0 < dg (Z.pos my)) by (rewrite dg_pos by lia; pose proof (Z.log2_nonneg (Z.pos my)); lia).
    unfold n, E, fx in *. lia. }
  pose proof (dg_div m n ltac:(lia) ltac:(lia)) as Hdq. fold q in Hdq.
  assert (0 < dg q) by (rewrite dg_pos by lia; pose proof (Z.log2_nonneg q); lia).
  pose proof (dg_mono q M ltac:(lia)) as HdM.
  assert (0 < M / 2 ^ (fx (dg M + E) - E)) as Hpos.
  { apply Z.div_str_pos. split; [lia|]. pose proof (dg_bounds M ltac:(lia)) as [Hb _].
    pose proof (Z.pow_le_mono_r 2 (fx (dg M + E) - E) (dg M - 1)). unfold E, n, fx in *. lia. }
  destruct (M / 2 ^ (fx (dg M + E) - E)) as [|p|p] eqn:Ed; [lia| |lia].
  destruct (Z.leb_spec (fx (dg M + E)) 971); [|done]. apply fle_finite.
  destruct (decide (fx (dg M + E) = ey)) as [E2|]; [right; split; [done|]|left; lia].
  assert (E = ey) as E3 by lia. rewrite <- Ed, E2, E3, Z.sub_diag, Z.div_1_r.
  transitivity q; [|lia]. apply Z.div_le_lower_bound; [lia|].
  unfold n. rewrite E3. lia.
Qed.

Lemma round_aux_ge_big m e l my ey :
  0 <= m -> e <= fx (dg m + e) -> valid (S754_finite false my ey) = true -> ey < e ->
  fle (S754_finite false my ey) (binary_round_aux 53 1024 false m e l).
Proof.
  intros Hm He Hy Hey.
  assert (-1074 < e /\ 53 <= dg m) as [? ?].
  { apply valid_finite in Hy as [Hy _]. unfold fx in *. lia. }
  assert (0 < m) by (destruct (decide (m = 0)) as [->|]; [rewrite dg_0 in *|]; lia).
  pose proof (dg_bounds m ltac:(done)) as [Hb _].
  destruct (round_aux_shape false m e l Hm He) as (M & HM & _ & HE & ->).
  set (E := fx (dg m + e)) in *. assert (e <= E) by done.
  assert (2 ^ (E - e) <= m) as Hn.
  { pose proof (Z.pow_le_mono_r 2 (E - e) (dg m - 1)). unfold E, fx in *. lia. }
  assert (0 < m / 2 ^ (E - e)) by (apply Z.div_str_pos; lia).
  pose proof (dg_bounds M ltac:(lia)) as [HbM _].
  assert (0 < M / 2 ^ (fx (dg M + E) - E)) as Hpos.
  { apply Z.div_str_pos. split; [lia|].
    assert (1 <= dg M) by (rewrite dg_pos by lia; pose proof (Z.log2_nonneg M); lia).
    assert (fx (dg M + E) - E <= dg M - 1) as Hx by (assert (-1074 <= E) by (unfold E, fx; lia); clearbody E; unfold fx; lia).
    pose proof (Z.pow_le_mono_r 2 _ _ eq_refl Hx). lia. }
  destruct (M / 2 ^ (fx (dg M + E) - E)) as [|p'|p']; [lia| |lia].
  destruct (Z.leb_spec (fx (dg M + E)) 971); [|done]. apply fle_finite. lia.
Qed.

(** ** Values

    A finite value as an integer number of [2^-2200]: exact, for the products
    of two subnormals too. *)

Definition fin (x : float64) : bool :=
  match x with S754_zero _ | S754_finite _ _ _ => true | _ => false end.
Definition sv (x : float64) : Z :=
  match x with
  | S754_finite s m e => (if s then -1 else 1) * (Z.pos m * 2 ^ (e + 2200))
  | _ => 0
  end.
Definition unit_sv : Z := 2 ^ 2200.

Lemma valid_exp s m e : valid (S754_finite s m e) = true -> -1074 <= e <= 971.
Proof. intros [H ?]%valid_finite. unfold fx in H. lia. Qed.

Lemma valid_opp x : valid (fopp x) = valid x.
Proof. by destruct x. Qed.
Lemma fin_opp x : fin (fopp x) = fin x.
Proof. by destruct x. Qed.
Lemma sv_opp x : sv (fopp x) = - sv x.
Proof. destruct x as [| | |[] m e]; cbn [fopp SFopp sv negb]; lia. Qed.
Lemma fabs_pos x : 0 < sv x -> fabs x = x.
Proof.
  intros H. destruct x as [s|s| |[] m e]; try done; cbn [sv] in H; [lia..|].
  pose proof (Z.pow_nonneg 2 (e + 2200)). nia.
Qed.
Lemma fopp_invol x : fopp (fopp x) = x.
Proof. by destruct x as [[]|[]| |[]]. Qed.
Lemma fle_opp x y : fle (fopp x) (fopp y) <-> fle y x.
Proof.
  unfold fle. rewrite !fleb_key. destruct x as [[]|[]| |[] m e], y as [[]|[]| |[] m' e']; cbn; lia || intuition congruence.
Qed.

Lemma sv_pos m e : -1074 <= e -> 0 < sv (S754_finite false m e).
Proof. intros. cbn [sv]. nia. Qed.

(** Canonical values are ordered like their mantissas and exponents. *)
Lemma sv_lt_exp m e m' e' :
  valid (S754_finite false m e) = true -> valid (S754_finite false m' e') = true ->
  e < e' -> sv (S754_finite false m e) < sv (S754_finite false m' e').
Proof.
  intros H1 H2 Hlt. pose proof (valid_exp _ _ _ H1). pose proof (valid_exp _ _ _ H2).
  apply valid_finite in H1 as [H1 _], H2 as [H2 _]. cbn [sv].
  replace (e' + 2200) with (e + 2200 + (e' - e)) by lia. rewrite (Z.pow_add_r 2 (e + 2200)) by lia.
  pose proof (dg_bounds (Z.pos m) ltac:(lia)) as [_ Hm].
  pose proof (dg_bounds (Z.pos m') ltac:(lia)) as [Hm' _].
  assert (2 ^ (dg (Z.pos m)) <= 2 ^ (dg (Z.pos m') - 1 + (e' - e))) as Hp.
  { apply Z.pow_le_mono_r; [lia|]. unfold fx in *. lia. }
  rewrite Z.pow_add_r in Hp; [|rewrite dg_pos by lia; pose proof (Z.log2_nonneg (Z.pos m')); lia|lia].
  assert (0 < 2 ^ (e + 2200)) by lia. assert (0 < 2 ^ (e' - e)) by lia.
  assert (Z.pos m < Z.pos m' * 2 ^ (e' - e)) by nia. nia.
Qed.

Lemma sv_le_pos m e m' e' :
  valid (S754_finite false m e) = true -> valid (S754_finite false m' e') = true ->
  fle (S754_finite false m e) (S754_finite false m' e') <->
  sv (S754_finite false m e) <= sv (S754_finite false m' e').
Proof.
  intros H1 H2. pose proof (valid_exp _ _ _ H1). rewrite fle_finite.
  destruct (Z.lt_trichotomy e e') as [Hlt|[->|Hlt]].
  - pose proof (sv_lt_exp _ _ _ _ H1 H2 Hlt). lia.
  - cbn [sv]. assert (0 < 2 ^ (e' + 2200)) by lia. split; [nia|]. intros. right. nia.
  - pose proof (sv_lt_exp _ _ _ _ H2 H1 Hlt). lia.
Qed.

(** The order of the values is the order of the integers. *)
Lemma sv_le x y :
  valid x = true -> valid y = true -> fin x = true -> fin y = true ->
  (fle x y <-> sv x <= sv y).
Proof.
  intros Hx Hy Fx Fy. destruct x as [sx|sx| |sx m e]; try done; destruct y as [sy|sy| |sy m' e']; try done.
  - pose proof (sv_pos m' e' ltac:(apply valid_exp in Hy; lia)). destruct sy.
    + unfold fle. rewrite fleb_key. destruct sx; cbn in *; lia.
    + unfold fle. rewrite fleb_key. destruct sx; cbn in *; lia.
  - pose proof (sv_pos m e ltac:(apply valid_exp in Hx; lia)). destruct sx.
    + unfold fle. rewrite fleb_key. destruct sy; cbn in *; lia.
    + unfold fle. rewrite fleb_key. destruct sy; cbn in *; lia.
  - pose proof (sv_pos m e ltac:(apply valid_exp in Hx; lia)) as Pm.
    pose proof (sv_pos m' e' ltac:(apply valid_exp in Hy; lia)) as Pm'.
    destruct sx, sy.
    + change (S754_finite true m e) with (fopp (S754_finite false m e)).
      change (S754_finite true m' e') with (fopp (S754_finite false m' e')).
      rewrite fle_opp, !sv_opp, sv_le_pos by done. lia.
    + unfold fle. rewrite fleb_key. cbn in *. lia.
    + unfold fle. rewrite fleb_key. cbn in *. lia.
    + by apply sv_le_pos.
Qed.

(** [r] is a rounding of [N / D] units: valid, and on the same side as the exact
    value of every finite number. *)
Definition rounds (N D : Z) (r : float64) : Prop :=
  valid r = true /\
  forall c, valid c = true -> fin c = true ->
    (N <= sv c * D -> fle r c) /\ (sv c * D <= N -> fle c r).

Lemma zero_le_not_neg sz r :
  match r with S754_nan | S754_infinity true | S754_finite true _ _ => False | _ => True end ->
  fle (S754_zero sz) r.
Proof. intros H. unfold fle. rewrite fleb_key. destruct r as [[]|[]| |[]], sz; cbn in *; try done; lia. Qed.

Lemma round_aux_not_neg m e l :
  0 <= m -> e <= fx (dg m + e) ->
  match binary_round_aux 53 1024 false m e l with
  | S754_nan | S754_infinity true | S754_finite true _ _ => False | _ => True end.
Proof.
  intros Hm He. destruct (round_aux_shape false m e l Hm He) as (M & HM & _ & HE & ->).
  set (E := fx (dg m + e)) in *.
  assert (0 <= m / 2 ^ (E - e)) by (apply Z.div_pos; lia).
  assert (0 <= M / 2 ^ (fx (dg M + E) - E)) by (apply Z.div_pos; lia).
  destruct (M / _); [done| |lia]. by destruct (_ <=? _).
Qed.

Lemma round_aux_zero e : e <= fx e -> binary_round_aux 53 1024 false 0 e loc_Exact = S754_zero false.
Proof.
  intros He. assert (e <= fx (dg 0 + e)) as He' by (by rewrite dg_0, Z.add_0_l).
  destruct (round_aux_shape false 0 e loc_Exact ltac:(lia) He') as (M & HM & Hx & HE & ->).
  assert (M = 0) as -> by (rewrite Hx; [apply Z.div_0_l; lia|done|apply Z.mod_0_l; lia]).
  rewrite Z.div_0_l by lia. done.
Qed.

Lemma pow_split e ey : -2200 <= e -> e <= ey -> 2 ^ (ey + 2200) = 2 ^ (ey - e) * 2 ^ (e + 2200).
Proof. intros. rewrite <- Z.pow_add_r by lia. f_equal. lia. Qed.

Lemma big_above m e my ey :
  0 <= m -> e <= fx (dg m + e) -> valid (S754_finite false my ey) = true -> ey < e ->
  Z.pos my * 2 ^ (ey + 2200) < m * 2 ^ (e + 2200).
Proof.
  intros Hm He Hy Hlt. pose proof (valid_exp _ _ _ Hy).
  apply valid_finite in Hy as [Hy _].
  assert (53 <= dg m) by (unfold fx in *; lia).
  assert (0 < m) by (destruct (decide (m = 0)) as [->|]; [rewrite dg_0 in *|]; lia).
  rewrite (pow_split ey e) by lia.
  pose proof (dg_bounds m ltac:(done)) as [Hb _].
  pose proof (dg_bounds (Z.pos my) ltac:(lia)) as [_ Hb'].
  pose proof (Z.pow_le_mono_r 2 (dg (Z.pos my)) 53 eq_refl ltac:(unfold fx in *; lia)).
  pose proof (Z.pow_le_mono_r 2 52 (dg m - 1) eq_refl ltac:(lia)).
  pose proof (Z.pow_le_mono_r 2 1 (e - ey) eq_refl ltac:(lia)).
  assert (0 < 2 ^ (ey + 2200)) by lia.
  assert (Z.pos my < m * 2 ^ (e - ey)) by nia. nia.
Qed.

Lemma round_aux_rounds m e l N D :
  0 < D -> 0 <= m -> -2200 <= e -> e <= fx (dg m + e) ->
  (l = loc_Exact -> N = m * 2 ^ (e + 2200) * D) ->
  (l <> loc_Exact -> m * 2 ^ (e + 2200) * D < N < (m + 1) * 2 ^ (e + 2200) * D) ->
  rounds N D (binary_round_aux 53 1024 false m e l).
Proof.
  intros HD Hm Hlow He Hex Hin. split; [by apply round_aux_valid|]. intros c Hc Fc.
  pose proof (round_aux_not_neg m e l Hm He) as Hnn.
  assert (0 < 2 ^ (e + 2200)) as HP by lia.
  assert (0 <= m * 2 ^ (e + 2200)) by nia.
  assert (m * 2 ^ (e + 2200) * D <= N) as HN by (destruct (decide (l = loc_Exact)) as [El|El]; [rewrite Hex by done|specialize (Hin El)]; lia).
  destruct c as [sc|sc| |[] my ey]; try done.
  - cbn [sv]. split; [|intros _; by apply zero_le_not_neg]. intros HN0.
    assert (l = loc_Exact) as -> by (destruct (decide (l = loc_Exact)) as [|El]; [done|specialize (Hin El); nia]).
    assert (m = 0) as -> by nia. rewrite dg_0, Z.add_0_l in He. rewrite round_aux_zero by done. by destruct sc.
  - pose proof (sv_pos my ey ltac:(apply valid_exp in Hc; lia)) as Hs.
    change (S754_finite true my ey) with (fopp (S754_finite false my ey)). rewrite sv_opp.
    split; [nia|]. intros _. eapply fle_trans; [|by apply (zero_le_not_neg false)]. done.
  - cbn [sv]. destruct (Z.le_gt_cases e ey) as [Hey|Hey].
    + rewrite (pow_split e ey) by lia. split; intros HNc.
      * apply round_aux_le; try done.
        -- assert (m * 2 ^ (e + 2200) * D <= Z.pos my * 2 ^ (ey - e) * 2 ^ (e + 2200) * D) by lia. nia.
        -- intros El. specialize (Hin El).
           assert (m * 2 ^ (e + 2200) * D < Z.pos my * 2 ^ (ey - e) * 2 ^ (e + 2200) * D) by lia. nia.
      * apply round_aux_ge; try done. destruct (decide (l = loc_Exact)) as [El|El].
        -- rewrite Hex in HNc by done.
           assert (Z.pos my * 2 ^ (ey - e) * 2 ^ (e + 2200) * D <= m * 2 ^ (e + 2200) * D) by lia. nia.
        -- specialize (Hin El).
           assert (Z.pos my * 2 ^ (ey - e) * 2 ^ (e + 2200) * D < (m + 1) * 2 ^ (e + 2200) * D) by lia. nia.
    + pose proof (big_above m e my ey Hm He Hc Hey). split; [nia|].
      intros _. by apply round_aux_ge_big.
Qed.

Lemma rounds_opp N D r : rounds N D r -> rounds (- N) D (fopp r).
Proof.
  intros [Hv H]. split; [by rewrite valid_opp|]. intros c Hc Fc.
  destruct (H (fopp c)) as [H1 H2]; [by rewrite valid_opp|by rewrite fin_opp|].
  rewrite sv_opp in *. split; intros Hc'.
  - apply (proj1 (fle_opp _ _)). rewrite fopp_invol. apply H2. lia.
  - apply (proj1 (fle_opp _ _)). rewrite fopp_invol. apply H1. lia.
Qed.

Lemma round_aux_opp s m e l :
  binary_round_aux 53 1024 s m e l =
  if s then fopp (binary_round_aux 53 1024 false m e l) else binary_round_aux 53 1024 false m e l.
Proof.
  destruct s; [|done]. unfold binary_round_aux.
  destruct (shr_fexp _ _ m e l) as [r' e']. destruct (shr_fexp _ _ _ e' _) as [r'' e''].
  destruct (shr_m r''); [done| |done]. by destruct (_ <=? _).
Qed.

Lemma rounds_sign (s : bool) N D m e l :
  rounds N D (binary_round_aux 53 1024 false m e l) ->
  rounds ((if s then -1 else 1) * N) D (binary_round_aux 53 1024 s m e l).
Proof.
  intros H. rewrite round_aux_opp. destruct s.
  - replace (-1 * N) with (- N) by lia. by apply rounds_opp.
  - by rewrite Z.mul_1_l.
Qed.

Lemma rounds_zero D s : 0 < D -> rounds 0 D (S754_zero s).
Proof.
  intros HD. split; [done|]. intros c Hc Fc.
  rewrite (sv_le (S754_zero s) c), (sv_le c (S754_zero s)) by done.
  cbn [sv]. split; nia.
Qed.

Lemma dg_mul a b : 0 < a -> 0 < b -> dg a + dg b - 1 <= dg (a * b).
Proof.
  intros. rewrite !dg_pos by nia. pose proof (Z.log2_mul_below a b). lia.
Qed.

Lemma dg_pos_ge1 p : 1 <= dg (Z.pos p).
Proof. rewrite dg_pos by lia. pose proof (Z.log2_nonneg (Z.pos p)). lia. Qed.

Lemma fmul_rounds x y :
  valid x = true -> valid y = true -> fin x = true -> fin y = true ->
  rounds (sv x * sv y) unit_sv (fmul x y).
Proof.
  intros Hx Hy Fx Fy. assert (0 < unit_sv) by (unfold unit_sv; lia).
  destruct x as [sx|sx| |sx mx ex]; try done; destruct y as [sy|sy| |sy my ey]; try done;
    try (cbn [sv]; rewrite ?Z.mul_0_r, ?Z.mul_0_l; by apply rounds_zero).
  cbn [fmul SFmul sv]. apply valid_exp in Hx as Ex, Hy as Ey. apply valid_finite in Hx as [Hx _], Hy as [Hy _].
  assert (forall a b, (if sx then -1 else 1) * a * ((if sy then -1 else 1) * b)
            = (if xorb sx sy then -1 else 1) * (a * b)) as -> by (intros; destruct sx, sy; cbn; ring).
  apply rounds_sign, round_aux_rounds; [done|lia|lia| | |done].
  - pose proof (dg_mul (Z.pos mx) (Z.pos my) eq_refl eq_refl) as Hd.
    rewrite Pos2Z.inj_mul. pose proof (dg_pos_ge1 mx). pose proof (dg_pos_ge1 my). unfold fx in *. lia.
  - intros _. rewrite Pos2Z.inj_mul. unfold unit_sv.
    assert (2 ^ (ex + 2200) * 2 ^ (ey + 2200) = 2 ^ (ex + ey + 2200) * 2 ^ 2200) as Ep
      by (rewrite <- !Z.pow_add_r by lia; f_equal; lia).
    rewrite <- (Z.mul_assoc _ _ (2 ^ 2200)), <- Ep. ring.
Qed.

(** ** Sums *)

Lemma iter_xO d m : Z.pos (Pos.iter (fun p : positive => p~0)%positive m d) = Z.pos m * 2 ^ Z.pos d.
Proof.
  induction d as [|d IH] using Pos.peano_ind; [cbn; lia|].
  rewrite Pos.iter_succ, Pos2Z.inj_succ, Z.pow_succ_r by lia.
  change (Z.pos (Pos.iter (fun p : positive => p~0)%positive m d)~0) with (2 * Z.pos (Pos.iter (fun p : positive => p~0)%positive m d)). rewrite IH. lia.
Qed.

Lemma shl_align_spec m e e' :
  let '(m', e'') := shl_align m e e' in
  e'' = Z.min e e' /\ Z.pos m' = Z.pos m * 2 ^ (e - e'').
Proof.
  unfold shl_align. destruct (e' - e) as [|d|d] eqn:E.
  - split; [lia|]. rewrite Z.sub_diag. cbn; lia.
  - split; [lia|]. rewrite Z.sub_diag. cbn; lia.
  - split; [lia|]. rewrite iter_xO. do 2 f_equal. lia.
Qed.

Lemma binary_normalize_rounds M e s :
  -1074 <= e -> rounds (M * 2 ^ (e + 2200)) 1 (binary_normalize 53 1024 M e s).
Proof.
  intros He.
  assert (forall (sg : bool) (m : positive), rounds ((if sg then -1 else 1) * (Z.pos m * 2 ^ (e + 2200))) 1 (binary_round 53 1024 sg m e)) as Hr.
  { intros sg m. unfold binary_round. rewrite fexp_fx. change (Z.pos (digits2_pos m)) with (dg (Z.pos m)).
    pose proof (shl_align_spec m e (fx (dg (Z.pos m) + e))) as Hs.
    destruct (shl_align m e _) as [m' e'']. destruct Hs as [Ee Em].
    assert (-1074 <= e'') by (unfold fx in Ee; lia).
    apply rounds_sign, round_aux_rounds; [lia|lia|lia| | |done].
    - rewrite Em, dg_shift by lia. replace (dg (Z.pos m) + (e - e'') + e'') with (dg (Z.pos m) + e) by lia. lia.
    - intros _. rewrite Em, Z.mul_1_r, <- Z.mul_assoc, <- Z.pow_add_r by lia. do 2 f_equal. lia. }
  destruct M as [|m|m]; cbn [binary_normalize].
  - rewrite Z.mul_0_l. by apply rounds_zero.
  - specialize (Hr false m). cbv iota in Hr. by rewrite Z.mul_1_l in Hr.
  - specialize (Hr true m). cbv iota in Hr.
    by replace (Z.neg m * 2 ^ (e + 2200)) with (-1 * (Z.pos m * 2 ^ (e + 2200))) by lia.
Qed.

Lemma rounds_self x : valid x = true -> fin x = true -> rounds (sv x) 1 x.
Proof.
  intros Hx Fx. split; [done|]. intros c Hc Fc.
  rewrite (sv_le x c), (sv_le c x), Z.mul_1_r by done. done.
Qed.

Lemma fadd_rounds x y :
  valid x = true -> valid y = true -> fin x = true -> fin y = true ->
  rounds (sv x + sv y) 1 (fadd x y).
Proof.
  intros Hx Hy Fx Fy.
  destruct x as [sx|sx| |sx mx ex]; try done; destruct y as [sy|sy| |sy my ey]; try done.
  - cbn [sv]. destruct sx, sy; by apply rounds_zero.
  - cbn [sv fadd SFadd]. rewrite Z.add_0_l. by apply (rounds_self (S754_finite sy my ey)).
  - cbn [sv fadd SFadd]. rewrite Z.add_0_r. by apply (rounds_self (S754_finite sx mx ex)).
  - apply valid_exp in Hx as Ex, Hy as Ey. cbn [fadd SFadd sv].
    pose proof (shl_align_spec mx ex (Z.min ex ey)) as Sx. pose proof (shl_align_spec my ey (Z.min ex ey)) as Sy.
    destruct (shl_align mx ex _) as [mx' ex']. destruct (shl_align my ey _) as [my' ey'].
    destruct Sx as [Exx Emx], Sy as [Eyy Emy]. cbn [fst].
    set (ez := Z.min ex ey) in *. assert (ex' = ez) as -> by lia. assert (ey' = ez) as -> by lia.
    replace (_ + _) with ((cond_Zopp sx (Z.pos mx') + cond_Zopp sy (Z.pos my')) * 2 ^ (ez + 2200)).
    + apply binary_normalize_rounds. lia.
    + rewrite Emx, Emy, (pow_split ez ex), (pow_split ez ey) by lia. destruct sx, sy; cbn [cond_Zopp]; ring.
Qed.

Lemma fsub_rounds x y :
  valid x = true -> valid y = true -> fin x = true -> fin y = true ->
  rounds (sv x - sv y) 1 (fsub x y).
Proof.
  intros Hx Hy Fx Fy. assert (fsub x y = fadd x (fopp y)) as ->.
  { destruct x as [[]|[]| |sx mx ex], y as [[]|[]| |sy my ey]; try done. cbn. f_equal. destruct sy; cbn; lia. }
  rewrite <- Z.add_opp_r, <- sv_opp. apply fadd_rounds; by rewrite ?valid_opp, ?fin_opp.
Qed.

(** ** Quotients *)

Lemma new_location_spec n k : new_location n k = loc_Exact <-> k = 0.
Proof.
  unfold new_location, new_location_even, new_location_odd.
  destruct (Z.even n), (Z.eqb_spec k 0); split; congruence.
Qed.

Lemma fdiv_core_spec mx ex my ey :
  let '(q, e, l) := SFdiv_core_binary 53 1024 (Z.pos mx) ex (Z.pos my) ey in
  let s := ex - ey - e in
  0 <= s /\ e = Z.min (fx (dg (Z.pos mx) + ex - (dg (Z.pos my) + ey))) (ex - ey) /\
  q = Z.pos mx * 2 ^ s / Z.pos my /\ (l = loc_Exact <-> Z.pos mx * 2 ^ s mod Z.pos my = 0).
Proof.
  unfold SFdiv_core_binary. rewrite fexp_fx. fold (dg (Z.pos mx)) (dg (Z.pos my)).
  set (e := Z.min _ _). assert (0 <= ex - ey - e) as Hs by lia.
  assert (match ex - ey - e with Z0 => Z.pos mx | Z.pos _ => Z.shiftl (Z.pos mx) (ex - ey - e) | Z.neg _ => 0 end
          = Z.pos mx * 2 ^ (ex - ey - e)) as ->.
  { rewrite <- Z.shiftl_mul_pow2 by done. destruct (ex - ey - e); [done|done|lia]. }
  pose proof (Z.div_eucl_eq (Z.pos mx * 2 ^ (ex - ey - e)) (Z.pos my) ltac:(lia)).
  assert (forall a b, Z.div_eucl a b = (a / b, a mod b)) as Hde.
  { intros. unfold Z.div, Z.modulo. by destruct (Z.div_eucl a b). }
  rewrite Hde. cbv zeta. split_and!; [done|done|done|]. apply new_location_spec.
Qed.

Lemma fdiv_rounds x y :
  valid x = true -> valid y = true -> fin x = true -> fin y = true -> 0 < sv y ->
  rounds (sv x * unit_sv) (sv y) (fdiv x y).
Proof.
  intros Hx Hy Fx Fy Py.
  destruct y as [sy|sy| |[] my ey]; try done;
    [exfalso; apply valid_exp in Hy; cbn [sv] in Py; nia|].
  destruct x as [sx|sx| |sx mx ex]; try done.
  { cbn [sv]. rewrite Z.mul_0_l. cbn [fdiv SFdiv]. by apply rounds_zero. }
  apply valid_exp in Hx as Ex, Hy as Ey. apply valid_finite in Hx as [Hx _], Hy as [Hy _].
  cbn [fdiv SFdiv]. pose proof (fdiv_core_spec mx ex my ey) as Hc.
  destruct (SFdiv_core_binary _ _ _ _ _ _) as [[q e] l]. cbv zeta in Hc.
  destruct Hc as (Hs & Ee & Eq & El). set (s := ex - ey - e) in *.
  rewrite xorb_false_r. cbn [sv]. rewrite <- Z.mul_assoc. apply rounds_sign. rewrite Z.mul_1_l.
  assert (-2200 <= e) by (unfold fx in Ee; lia).
  pose proof (Z.div_mod (Z.pos mx * 2 ^ s) (Z.pos my) ltac:(lia)) as Hdm. rewrite <- Eq in Hdm.
  pose proof (Z.mod_pos_bound (Z.pos mx * 2 ^ s) (Z.pos my) ltac:(lia)) as Hmod.
  set (r := (Z.pos mx * 2 ^ s) mod Z.pos my) in *.
  assert (0 <= q) by (rewrite Eq; apply Z.div_pos; nia).
  set (P := 2 ^ (e + 2200) * 2 ^ (ey + 2200)).
  assert (0 < P) by (unfold P; nia).
  assert (Z.pos mx * 2 ^ (ex + 2200) * unit_sv = Z.pos mx * 2 ^ s * P) as EN.
  { unfold P, unit_sv, s. rewrite <- !Z.mul_assoc. f_equal. rewrite <- !Z.pow_add_r by lia. f_equal. lia. }
  rewrite EN, Hdm.
  assert (forall k, k * 2 ^ (e + 2200) * (Z.pos my * 2 ^ (ey + 2200)) = k * Z.pos my * P) as Ek
    by (intros; unfold P; ring).
  apply round_aux_rounds; [nia|done|done| | |].
  - assert (dg (Z.pos mx) + s - dg (Z.pos my) <= dg q) as Hd.
    { destruct (Z.le_gt_cases (dg (Z.pos mx) + s - dg (Z.pos my)) 0); [pose proof (dg_nonneg q); lia|].
      pose proof (dg_bounds (Z.pos mx) eq_refl) as [Hbx _]. pose proof (dg_bounds (Z.pos my) eq_refl) as [_ Hby].
      pose proof (dg_pos_ge1 mx). pose proof (dg_pos_ge1 my).
      set (k := dg (Z.pos mx) + s - dg (Z.pos my) - 1).
      assert (2 ^ k <= q) as Hq.
      { rewrite Eq. apply Z.div_le_lower_bound; [lia|].
        assert (2 ^ (dg (Z.pos mx) - 1) * 2 ^ s = 2 ^ dg (Z.pos my) * 2 ^ k) as E2.
        { rewrite <- !Z.pow_add_r by (unfold k; lia). f_equal. unfold k. lia. }
        assert (0 < 2 ^ s) by lia. assert (0 < 2 ^ k) by (unfold k; lia). nia. }
      pose proof (dg_mono (2 ^ k) q ltac:(split; [unfold k; lia|done])) as Hm.
      rewrite (dg_pos (2 ^ k)), Z.log2_pow2 in Hm by (unfold k; lia). unfold k in Hm. lia. }
    unfold fx in *. lia.
  - intros E%El. rewrite Ek, E. ring.
  - intros E. assert (r <> 0) by tauto. rewrite !Ek. nia.
Qed.

Lemma of_Z_rounds z : rounds (z * unit_sv) 1 (of_Z z).
Proof. apply (binary_normalize_rounds z 0 false). lia. Qed.

(** ** Intervals *)

(** [x] is a number between the numbers [a] and [b]. *)
Definition between (a b x : float64) : Prop :=
  valid x = true /\ fin x = true /\ sv a <= sv x <= sv b.
Definition number (x : float64) : bool := valid x && fin x.

Lemma number_spec x : number x = true <-> valid x = true /\ fin x = true.
Proof. apply andb_true_iff. Qed.

Lemma rounds_between N D r a b :
  rounds N D r -> number a = true -> number b = true -> sv a * D <= N <= sv b * D ->
  between a b r.
Proof.
  intros [Hv H] [Va Fa]%number_spec [Vb Fb]%number_spec [Ha Hb].
  destruct (H a Va Fa) as [_ H1]. destruct (H b Vb Fb) as [H2 _].
  specialize (H1 Ha). specialize (H2 Hb).
  assert (fin r = true) as Fr.
  { destruct r as [|[]| |]; try done; exfalso; unfold fle in *; rewrite fleb_key in *;
      destruct a as [|[]| |[]], b as [|[]| |[]]; try done; cbn in *; try lia; intuition congruence || lia. }
  split_and!; [done|done| |]; by apply sv_le.
Qed.

Lemma between_fle a b x : number a = true -> number b = true -> between a b x <-> valid x = true /\ fle a x /\ fle x b.
Proof.
  intros [Va Fa]%number_spec [Vb Fb]%number_spec. split.
  - intros (V & F & H1 & H2). rewrite !sv_le by done. done.
  - intros (V & H1 & H2). assert (fin x = true) as F.
    { destruct x as [|[]| |]; try done; exfalso; unfold fle in *; rewrite fleb_key in *;
        destruct a as [|[]| |[]], b as [|[]| |[]]; try done; cbn in *; try lia; intuition congruence || lia. }
    rewrite sv_le in H1, H2 by done. done.
Qed.

Lemma between_const x : number x = true -> between x x x.
Proof. intros [V F]%number_spec. split_and!; [done|done|lia|lia]. Qed.

Lemma between_weaken a b a' b' x : sv a' <= sv a -> sv b <= sv b' -> between a b x -> between a' b' x.
Proof. intros ? ? (V & F & ? & ?). split_and!; [done|done|lia|lia]. Qed.

Lemma between_add a b c d p q x y :
  between a b x -> between c d y -> number p = true -> number q = true ->
  sv p <= sv a + sv c -> sv b + sv d <= sv q -> between p q (fadd x y).
Proof.
  intros (Vx & Fx & ? & ?) (Vy & Fy & ? & ?) Np Nq ? ?.
  eapply rounds_between; [by apply fadd_rounds|done|done|lia].
Qed.

Lemma between_sub a b c d p q x y :
  between a b x -> between c d y -> number p = true -> number q = true ->
  sv p <= sv a - sv d -> sv b - sv c <= sv q -> between p q (fsub x y).
Proof.
  intros (Vx & Fx & ? & ?) (Vy & Fy & ? & ?) Np Nq ? ?.
  eapply rounds_between; [by apply fsub_rounds|done|done|lia].
Qed.

(** Products of numbers that are not negative. *)
Lemma between_mul a b c d p q x y :
  between a b x -> between c d y -> 0 <= sv a -> 0 <= sv c -> number p = true -> number q = true ->
  sv p * unit_sv <= sv a * sv c -> sv b * sv d <= sv q * unit_sv -> between p q (fmul x y).
Proof.
  intros (Vx & Fx & ? & ?) (Vy & Fy & ? & ?) ? ? Np Nq ? ?.
  eapply rounds_between; [by apply fmul_rounds|done|done|nia].
Qed.

(** The quotient of a number that is not negative by a positive one. *)
Lemma between_div a b c d p q x y :
  between a b x -> between c d y -> 0 <= sv a -> 0 < sv c -> 0 <= sv p -> number p = true -> number q = true ->
  sv p * sv d <= sv a * unit_sv -> sv b * unit_sv <= sv q * sv c -> between p q (fdiv x y).
Proof.
  intros (Vx & Fx & ? & ?) (Vy & Fy & ? & ?) ? ? ? Np Nq ? ?.
  assert (0 < unit_sv) by (unfold unit_sv; lia).
  eapply rounds_between; [apply fdiv_rounds; try done; lia|done|done|].
  assert (0 <= sv q) by nia. split; nia.
Qed.

(** ** [math.Round] *)

(** A number of [[0, K]] rounds to an integer of [[0, K]]. *)
Lemma fround_grid K x :
  0 <= K < 2 ^ 50 -> 0 <= sv x <= K * unit_sv -> valid x = true -> fin x = true ->
  exists N, 0 <= N <= K /\ (fround x = of_Z N \/ (N = 0 /\ fround x = S754_zero true)).
Proof.
  intros HK [H0 HKx] Vx Fx. destruct x as [s|s| |s m e]; try done.
  { exists 0. split; [lia|]. destruct s; [right|left]; done. }
  apply valid_exp in Vx as Ex. apply valid_finite in Vx as [Vx _]. cbn [sv] in *.
  destruct s; [nia|]. cbn [fround].
  destruct (Z.leb_spec 0 e) as [He|He].
  - exfalso. assert (dg (Z.pos m) = 53) as Hd by (unfold fx in Vx; lia).
    pose proof (dg_bounds (Z.pos m) eq_refl) as [Hb _]. rewrite Hd in Hb.
    unfold unit_sv in HKx. replace (e + 2200) with (2200 + e) in HKx by lia.
    rewrite Z.pow_add_r in HKx by lia. assert (0 < 2 ^ 2200) by lia.
    pose proof (Z.pow_le_mono_r 2 0 e eq_refl ltac:(lia)). change (2 ^ 0) with 1 in *.
    change (2 ^ (53 - 1)) with (2 ^ 52) in Hb. assert (2 ^ 52 = 4 * 2 ^ 50) by done.
    assert (Z.pos m * 2 ^ e <= K); [|nia].
    apply (Z.mul_le_mono_pos_r _ _ (2 ^ 2200)); [done|lia].
  - destruct e as [|k|k]; [lia|lia|]. unfold round_half_up.
    assert (2 ^ Z.pos k = 2 * 2 ^ (Z.pos k - 1)) as E2.
    { rewrite <- Z.pow_succ_r by lia. f_equal. lia. }
    assert (0 < 2 ^ (Z.pos k - 1)) by lia.
    assert (Z.pos m <= K * 2 ^ Z.pos k) as Hm.
    { unfold unit_sv in HKx.
      assert (2 ^ 2200 = 2 ^ Z.pos k * 2 ^ (Z.neg k + 2200)) as E3.
      { rewrite <- Z.pow_add_r by lia. f_equal. lia. }
      rewrite E3 in HKx. assert (0 < 2 ^ (Z.neg k + 2200)) by lia. nia. }
    exists ((Z.pos m + 2 ^ (Z.pos k - 1)) / 2 ^ Z.pos k). split.
    + split; [apply Z.div_pos; lia|].
      assert ((Z.pos m + 2 ^ (Z.pos k - 1)) / 2 ^ Z.pos k < K + 1); [|lia].
      apply Z.div_lt_upper_bound; lia.
    + left. by destruct (_ / _).
Qed.

(** [x] is a number of [[0, 1]]. *)
Definition in01 (x : float64) : Prop := between f0 f1 x.

Lemma in01_fle x : in01 x -> fle f0 x /\ fle x f1.
Proof. intros H. by apply (between_fle f0 f1) in H as (_ & ? & ?). Qed.

Lemma between_not_nan a b x : between a b x -> is_nan x = false.
Proof. intros (_ & F & _). by destruct x. Qed.

Lemma rounds_not_nan N D r : rounds N D r -> is_nan r = false.
Proof.
  intros [_ H]. destruct (H f0 eq_refl eq_refl) as [H1 H2].
  destruct (Z.le_ge_cases N (sv f0 * D)) as [Hc|Hc]; [apply H1, fle_not_nan in Hc|apply H2, fle_not_nan in Hc]; tauto.
Qed.

(** ** Values that are not negative, infinity included *)

Definition nonneg (x : float64) : Prop := valid x = true /\ fle f0 x.

Lemma nonneg_cases x : nonneg x -> x = fInf \/ (valid x = true /\ fin x = true /\ 0 <= sv x).
Proof.
  intros [V H]. destruct (fin x) eqn:F.
  - right. split_and!; [done|done|]. by apply (sv_le f0) in H.
  - left. destruct x as [|[]| |]; done.
Qed.

Lemma nonneg_of_between a b x : between a b x -> 0 <= sv a -> nonneg x.
Proof.
  intros (V & F & ? & ?) Ha. split; [done|]. apply sv_le; [done|done|done|done|].
  change (sv f0) with 0. lia.
Qed.

Lemma rounds_nonneg N D r : 0 <= N -> rounds N D r -> nonneg r.
Proof.
  intros HN [V H]. split; [done|]. apply (H f0 eq_refl eq_refl). change (sv f0) with 0. lia.
Qed.

Lemma nonneg_mul a b x y : between a b x -> 0 < sv a -> nonneg y -> nonneg (fmul x y).
Proof.
  intros (Vx & Fx & ? & ?) Ha Hy. destruct (nonneg_cases y Hy) as [->|(V & F & H')].
  - destruct x as [s|s| |[] m e]; try done; cbn [sv] in *; nia.
  - eapply rounds_nonneg; [|by apply fmul_rounds]. nia.
Qed.

Lemma nonneg_div a b x y : nonneg x -> between a b y -> 0 < sv a -> nonneg (fdiv x y).
Proof.
  intros Hx (Vy & Fy & ? & ?) Ha. destruct (nonneg_cases x Hx) as [->|(V & F & H')].
  - destruct y as [s|s| |[] m e]; try done; cbn [sv] in *; nia.
  - eapply rounds_nonneg; [|apply fdiv_rounds; try done; lia]. assert (0 < unit_sv) by (unfold unit_sv; lia). nia.
Qed.

(** Gradual underflow: the difference of two different numbers is not zero. *)
Lemma sv_multiple x : valid x = true -> exists k, sv x = k * 2 ^ 1126.
Proof.
  intros V. destruct x as [s|s| |s m e]; try (exists 0; cbn [sv]; lia).
  apply valid_exp in V. exists ((if s then -1 else 1) * (Z.pos m * 2 ^ (e + 1074))). cbn [sv].
  replace (e + 2200) with (e + 1074 + 1126) by lia. rewrite Z.pow_add_r by lia. ring.
Qed.

Definition tiny : float64 := S754_finite false 1 (-1074).

Lemma sub_pos a b c d x y :
  between a b x -> between c d y -> sv y < sv x -> 0 <= sv c -> number b = true ->
  between tiny b (fsub x y).
Proof.
  intros (Vx & Fx & ? & ?) (Vy & Fy & ? & ?) Hlt Hc Nb.
  eapply rounds_between; [by apply fsub_rounds|done|done|].
  destruct (sv_multiple x Vx) as [k Ek], (sv_multiple y Vy) as [k' Ek'].
  change (sv tiny) with (2 ^ 1126). assert (0 < 2 ^ 1126) by lia. split; [nia|lia].
Qed.

(** ** Square roots *)

Lemma fsqrt_core_spec mx ex :
  let '(q, e, l) := SFsqrt_core_binary 53 1024 (Z.pos mx) ex in
  let s := ex - 2 * e in
  0 <= s /\ e = Z.min (fx ((dg (Z.pos mx) + ex + 1) / 2)) (ex / 2) /\
  q = Z.sqrt (Z.pos mx * 2 ^ s) /\ (l = loc_Exact <-> q * q = Z.pos mx * 2 ^ s).
Proof.
  unfold SFsqrt_core_binary. rewrite fexp_fx, !Z.div2_div. fold (dg (Z.pos mx)).
  set (e := Z.min _ _). assert (0 <= ex - 2 * e) as Hs.
  { assert (e <= ex / 2) by lia. pose proof (Z.div_mod ex 2 ltac:(lia)).
    pose proof (Z.mod_pos_bound ex 2 ltac:(lia)). lia. }
  assert (match ex - 2 * e with Z0 => Z.pos mx | Z.pos _ => Z.shiftl (Z.pos mx) (ex - 2 * e) | Z.neg _ => 0 end
          = Z.pos mx * 2 ^ (ex - 2 * e)) as ->.
  { rewrite <- Z.shiftl_mul_pow2 by done. destruct (ex - 2 * e); [done|done|lia]. }
  set (m' := Z.pos mx * 2 ^ (ex - 2 * e)). assert (0 <= m') by (unfold m'; nia).
  pose proof (Z.sqrtrem_spec m' ltac:(done)) as Hsp. pose proof (Z.sqrtrem_sqrt m') as Hq.
  destruct (Z.sqrtrem m') as [q r]. cbn in Hq. destruct Hsp as [Em Hr].
  cbv zeta. split_and!; [done|done|done|].
  destruct (Z.eqb_spec r 0) as [->|Hr0]; split; intros; [lia|done|congruence|lia].
Qed.

Lemma fsqrt_rounds x :
  valid x = true -> fin x = true -> 0 < sv x ->
  valid (fsqrt x) = true /\
  forall c, valid c = true -> fin c = true -> 0 <= sv c ->
    (sv x * unit_sv <= sv c * sv c -> fle (fsqrt x) c) /\
    (sv c * sv c <= sv x * unit_sv -> fle c (fsqrt x)).
Proof.
  intros Vx Fx Px. destruct x as [s|s| |[] mx ex]; try done; [cbn [sv] in Px; nia|].
  apply valid_exp in Vx as Ex. apply valid_finite in Vx as [Vx _]. cbn [fsqrt SFsqrt].
  pose proof (fsqrt_core_spec mx ex) as Hc.
  destruct (SFsqrt_core_binary _ _ _ _) as [[q e] l]. cbv zeta in Hc.
  destruct Hc as (Hs & Ee & Eq & El). set (m' := Z.pos mx * 2 ^ (ex - 2 * e)) in *.
  assert (0 < m') by (unfold m'; nia).
  pose proof (Z.sqrt_spec m' ltac:(lia)) as Hq. rewrite <- Eq in Hq. cbv zeta in Hq.
  assert (0 <= q) by (rewrite Eq; apply Z.sqrt_nonneg).
  assert (-1101 <= e) by (unfold fx in Ee; pose proof (Z.div_le_mono (-1074) ex 2); change (-1074 / 2) with (-537) in *; lia).
  assert (e <= fx (dg q + e)) as He.
  { assert ((dg (Z.pos mx) + ex + 1) / 2 <= dg q + e) as Hd; [|unfold fx in *; lia].
    assert (dg m' = dg (Z.pos mx) + (ex - 2 * e)) as Em by (apply dg_shift; lia).
    assert (dg m' <= 2 * dg q).
    { pose proof (dg_bounds m' ltac:(done)) as [Hl _]. assert (0 < q) by nia.
      pose proof (dg_bounds q ltac:(done)) as [_ Hu]. pose proof (dg_nonneg q ltac:(lia)).
      assert (2 ^ (dg m' - 1) < 2 ^ (dg q + dg q)) as Hp by (rewrite Z.pow_add_r by lia; nia).
      apply Z.pow_lt_mono_r_iff in Hp; lia. }
    assert ((dg (Z.pos mx) + ex + 1) / 2 < dg q + e + 1); [|lia].
    apply Z.div_lt_upper_bound; lia. }
  set (P := 2 ^ (e + 2200)). assert (0 < P) by (unfold P; lia).
  assert (sv (S754_finite false mx ex) * unit_sv = m' * (P * P)) as EN.
  { cbn [sv]. unfold m', P, unit_sv. rewrite Z.mul_1_l, <- !Z.mul_assoc. f_equal.
    rewrite <- !Z.pow_add_r by lia. f_equal. lia. }
  rewrite EN. split; [by apply round_aux_valid|]. intros c Vc Fc Pc.
  assert (forall N D, 0 < D -> (l = loc_Exact -> N = q * P * D) ->
     (l <> loc_Exact -> q * P * D < N < (q + 1) * P * D) ->
     (N <= sv c * D -> fle (binary_round_aux 53 1024 false q e l) c) /\
     (sv c * D <= N -> fle c (binary_round_aux 53 1024 false q e l))) as Hr.
  { intros N D HD HN1 HN2. apply (round_aux_rounds q e l N D); try done; lia. }
  destruct (decide (l = loc_Exact)) as [E|E].
  - destruct (Hr (q * P) 1 eq_refl) as [Hr1 Hr2]; [intros; lia|done|].
    pose proof (proj1 El E) as E'. rewrite <- E'. split; intros; [apply Hr1|apply Hr2]; nia.
  - assert (q * q <> m') by tauto. destruct (Hr ((2 * q + 1) * P) 2 eq_refl) as [Hr1 Hr2]; [done|intros; lia|].
    assert (q * P < sv c < (q + 1) * P -> fle (binary_round_aux 53 1024 false q e l) c /\
            fle c (binary_round_aux 53 1024 false q e l)) as Hr3.
    { intros. destruct (Hr (sv c) 1 eq_refl) as [Hr4 Hr5]; [done|intros; lia|]. split; [apply Hr4|apply Hr5]; lia. }
    assert (0 < P * P) by nia. assert (q * q * (P * P) < m' * (P * P) < (q + 1) * (q + 1) * (P * P)) by nia.
    split; intros Hcc.
    + destruct (Z.le_gt_cases ((q + 1) * P) (sv c)); [apply Hr1; lia|]. apply Hr3. split; [|lia].
      destruct (Z.le_gt_cases (sv c) (q * P)); [exfalso|done].
      assert (sv c * sv c <= q * P * (q * P)) by nia. lia.
    + destruct (Z.le_gt_cases (sv c) (q * P)); [apply Hr2; lia|]. apply Hr3. split; [done|].
      destruct (Z.le_gt_cases ((q + 1) * P) (sv c)); [exfalso|done].
      assert ((q + 1) * P * ((q + 1) * P) <= sv c * sv c) by nia. lia.
Qed.

Lemma between_sqrt a b p q x :
  between a b x -> 0 < sv a -> number p = true -> number q = true -> 0 <= sv p -> 0 <= sv q ->
  sv p * sv p <= sv a * unit_sv -> sv b * unit_sv <= sv q * sv q -> between p q (fsqrt x).
Proof.
  intros (V & F & ? & ?) Ha Np Nq Hp Hq ? ?. assert (0 < unit_sv) by (unfold unit_sv; lia).
  apply between_fle; [done|done|]. apply number_spec in Np as [? ?], Nq as [? ?].
  destruct (fsqrt_rounds x V F ltac:(lia)) as [Vr Hr]. split_and!; [done|apply Hr; try done; nia..].
Qed.

(** Integers of 64 bits convert to numbers, and small ones exactly. *)
Lemma between_of_Z i j p q z :
  i <= z <= j -> number p = true -> number q = true -> sv p <= i * unit_sv -> j * unit_sv <= sv q ->
  between p q (of_Z z).
Proof.
  intros Hz Np Nq ? ?. assert (0 < unit_sv) by (unfold unit_sv; lia).
  eapply rounds_between; [apply of_Z_rounds|done|done|nia].
Qed.

(** Side conditions on constants are decided by computation. *)
Ltac fcomp :=
  match goal with
  | H : ?P |- ?Q => constr_eq P Q; exact H
  | H : in01 ?x |- between f0 f1 ?y => constr_eq x y; exact H
  | |- between ?x ?x ?x => apply between_const; vm_compute; reflexivity
  | |- (_ <= _)%Z => vm_compute; discriminate
  | |- (_ < _)%Z => vm_compute; reflexivity
  | |- _ = true => vm_compute; reflexivity
  end.

(** Constants are kept folded. *)
#[global] Opaque unit_sv sv.

(** Integers below [2^53] convert exactly. *)
Lemma of_Z_exact z : 0 <= z < 2 ^ 53 -> number (of_Z z) = true /\ sv (of_Z z) = z * unit_sv.
Proof.
  intros Hz. destruct (decide (z = 0)) as [->|]; [done|].
  pose proof (dg_bounds z ltac:(lia)) as [Hl Hu].
  assert (1 <= dg z <= 53) as Hd.
  { rewrite dg_pos by lia. pose proof (Z.log2_nonneg z). pose proof (Z.log2_lt_pow2 z 53). lia. }
  set (m := z * 2 ^ (53 - dg z)). assert (0 < m) by (unfold m; nia).
  set (c := S754_finite false (Z.to_pos m) (dg z - 53)).
  assert (Z.pos (Z.to_pos m) = m) as Em by (apply Z2Pos.id; lia).
  assert (valid c = true) as Vc.
  { apply valid_finite. rewrite Em. unfold m. rewrite dg_shift by lia. unfold fx. lia. }
  assert (sv c = z * unit_sv) as Ec.
  { unfold c. with_strategy transparent [sv unit_sv] (cbn [sv]; unfold unit_sv). rewrite Em. unfold m.
    rewrite Z.mul_1_l, <- Z.mul_assoc, <- Z.pow_add_r by lia. do 2 f_equal. lia. }
  destruct (rounds_between (z * unit_sv) 1 (of_Z z) c c (of_Z_rounds z)) as (V & F & S1 & S2).
  - by apply number_spec.
  - by apply number_spec.
  - lia.
  - split; [by apply number_spec|lia].
Qed.

(** A value that is not NaN; infinities included. *)
Definition input (x : float64) : Prop := valid x = true /\ is_nan x = false.

Lemma between_input a b x : between a b x -> input x.
Proof. intros H. split; [by destruct H|by eapply between_not_nan]. Qed.

Lemma nonneg_input x : nonneg x -> input x.
Proof. intros [V H]. split; [done|]. by apply fle_not_nan in H as [_ ?]. Qed.

Lemma rounds_input N D r : rounds N D r -> input r.
Proof. intros H. split; [by destruct H|by eapply rounds_not_nan]. Qed.

(** Adding, subtracting and multiplying by a positive constant gives no NaN. *)
Lemma input_add x c : input x -> number c = true -> input (fadd c x).
Proof.
  intros [V N] [Vc Fc]%number_spec. destruct (fin x) eqn:F.
  - by eapply rounds_input, fadd_rounds.
  - destruct x as [|[]| |]; try done; destruct c as [| | |]; done.
Qed.
Lemma input_sub x c : input x -> number c = true -> input (fsub x c).
Proof.
  intros [V N] [Vc Fc]%number_spec. destruct (fin x) eqn:F.
  - by eapply rounds_input, fsub_rounds.
  - destruct x as [|[]| |]; try done; destruct c as [| | |]; done.
Qed.
Lemma input_mul x c : input x -> number c = true -> 0 < sv c -> input (fmul c x).
Proof.
  intros [V N] [Vc Fc]%number_spec Pc. destruct (fin x) eqn:F.
  - by eapply rounds_input, fmul_rounds.
  - destruct x as [|[]| |]; try done; (destruct c as [s|[]| |s m e]; try done; by destruct s).
Qed.

Lemma input_rsub x c : input x -> number c = true -> input (fsub c x).
Proof.
  intros [V N] [Vc Fc]%number_spec. destruct (fin x) eqn:F.
  - by eapply rounds_input, fsub_rounds.
  - destruct x as [|[]| |]; try done; destruct c as [| | |]; done.
Qed.

Lemma input_div x y : number x = true -> number y = true -> 0 < sv y -> input (fdiv x y).
Proof. intros [? ?]%number_spec [? ?]%number_spec Hy. by eapply rounds_input, fdiv_rounds. Qed.

Lemma between_fmax a b c x y :
  number x = true -> between a b x -> between a b y -> number a = true -> number b = true -> c = fmax x y ->
  between a b c /\ fle y c.
Proof.
  intros Hx Bx By Na Nb ->. pose proof (between_not_nan _ _ _ Bx). pose proof (between_not_nan _ _ _ By).
  destruct (fmax_spec x y) as ([->| ->] & H1 & H2); done.
Qed.

Lemma flt_sv x : valid x = true -> fin x = true -> flt f0 x -> 0 < sv x.
Proof.
  intros V F H. destruct (Z.le_gt_cases (sv x) (sv f0)) as [Hle|]; [exfalso|done].
  apply (sv_le x f0) in Hle; [|done..]. by eapply flt_not_fle.
Qed.

Lemma of_Z_neg p : of_Z (Z.neg p) = fopp (of_Z (Z.pos p)).
Proof.
  unfold of_Z, binary_normalize, binary_round. destruct (shl_align p 0 _) as [mz ez].
  by rewrite (round_aux_opp true).
Qed.

Lemma of_Z_abs z : Z.abs z < 2 ^ 53 -> sv (fabs (of_Z z)) = Z.abs z * unit_sv /\ number (fabs (of_Z z)) = true.
Proof.
  intros Hz. assert (forall p, Z.pos p < 2 ^ 53 -> fabs (of_Z (Z.pos p)) = of_Z (Z.pos p)) as Hp.
  { intros p Hp. apply fabs_pos. destruct (of_Z_exact (Z.pos p)) as [_ ->]; [lia|].
    assert (0 < unit_sv) by fcomp. nia. }
  assert (fabs (of_Z z) = of_Z (Z.abs z)) as ->.
  { destruct z as [|p|p]; [done|by apply Hp|]. rewrite of_Z_neg. cbn [Z.abs] in *.
    transitivity (fabs (of_Z (Z.pos p))); [by destruct (of_Z (Z.pos p))|by apply Hp]. }
  destruct (of_Z_exact (Z.abs z)); [lia|done].
Qed.
