(* ===== verification/Model.v ===== *)
(** * Shared types ([internal/model/model.go])

    The structs of the data layer and the API as records, in field order.  A Go
    pointer is an [option]; [omitempty] fields are options or lists. *)

From S2P Require Import Prelude Float64.

(** One decoded rtlamr packet as stored. *)
Record Reading := mkReading {
  r_TS : time;
  r_MsgType : string;
  r_EndpointID : Z;
  r_EndpointType : option Z;
  r_Consumption : option float64;
  r_Source : string
}.

(** A per-endpoint summary row joined with its annotations. *)
Record Meter := mkMeter {
  m_EndpointID : Z;
  m_MsgType : string;
  m_EndpointType : option Z;
  m_Commodity : string;
  m_Packets : Z;
  m_PacketsPerHour : float64;
  m_Sources : Z;
  m_FirstSeen : string;
  m_LastSeen : string;
  m_LatestConsumption : option float64;
  m_TotalMovement : option float64;
  m_Label : option string;
  m_Notes : option string;
  m_IsCandidate : bool;
  m_IsMine : bool;
  m_Ignored : bool;
  m_Publish : bool;
  m_PubName : option string;
  m_PubMultiplier : float64;
  m_PubUnit : option string
}.

(** The zero value of [Meter]. *)
Definition zero_Meter : Meter :=
  mkMeter 0 "" None "" 0 f0 0 "" "" None None None None false false false false None f0 None.

(** A cumulative consumption sample for charts. *)
Record Point := mkPoint { p_TS : string; p_Consumption : option float64 }.

(** A per-interval consumption delta. *)
Record Bucket := mkBucket { b_Bucket : string; b_Delta : option float64; b_Packets : Z }.

(** The per-meter detail payload. *)
Record Series := mkSeries {
  s_EndpointID : Z; s_Bucket : string; s_Points : list Point; s_Deltas : list Bucket
}.

(** One ranked candidate of a correlation query. *)
Record CorrRow := mkCorrRow {
  c_EndpointID : Z;
  c_Commodity : string;
  c_MsgType : string;
  c_EndpointType : option Z;
  c_R : option float64;
  c_Score : float64;
  c_WindowDelta : float64;
  c_WindowRate : float64;
  c_BaselineRate : float64;
  c_WindowPackets : Z;
  c_PlugEnergyWh : option float64;
  c_R2 : option float64;
  c_Slope : option float64;
  c_BaselineW : option float64;
  c_SuggestedMultiplier : option float64;
  c_AnchorMultiplier : option float64;
  c_UtilityMultiplier : option float64;
  c_MeterEnergyKwh : option float64;
  c_FloorOK : option bool;
  c_LagBuckets : option Z;
  c_Confidence : option float64;
  c_ConfidenceParts : gmap string float64;
  c_PubMultiplier : float64;
  c_PubUnit : option string;
  c_IsMine : bool;
  c_Publish : bool
}.

Definition zero_CorrRow : CorrRow :=
  mkCorrRow 0 "" "" None None f0 f0 f0 f0 0 None None None None None None None None None None
    None ∅ f0 None false false.

(** One bucket of the meter-against-bill comparison. *)
Record UtilityComparePoint := mkUtilityComparePoint {
  ucp_TS : string;
  ucp_UtilityKwh : float64;
  ucp_MeterKwh : option float64;
  ucp_CoveragePct : float64
}.

(** One day's estimated usage derived from a coarse bill. *)
Record UtilityDayEstimate := mkUtilityDayEstimate {
  ude_Day : string;
  ude_FlatKwh : float64;
  ude_ShapedKwh : option float64;
  ude_MeterKwh : option float64;
  ude_Projected : bool
}.

Record UtilityCompareResult := mkUtilityCompareResult {
  ucr_StatisticID : string;
  ucr_Period : string;
  ucr_UtilityMultiplier : option float64;
  ucr_BucketsCovered : Z;
  ucr_Buckets : list UtilityComparePoint;
  ucr_DailyEstimate : list UtilityDayEstimate
}.

(** One billing bucket of the bill, reconciled with the published meter. *)
Record UtilitySeriesPoint := mkUtilitySeriesPoint {
  usp_TS : string;
  usp_Kwh : float64;
  usp_MeterKwh : option float64;
  usp_CoveragePct : float64;
  usp_Cost : option float64
}.

Record UtilitySeriesResult := mkUtilitySeriesResult {
  usr_StatisticID : string;
  usr_Period : string;
  usr_Unit : string;
  usr_Currency : string;
  usr_CostPerKwh : float64;
  usr_TotalKwh : float64;
  usr_BucketCount : Z;
  usr_ReconcileMeters : list Z;
  usr_Points : list UtilitySeriesPoint;
  usr_DailyEstimate : list UtilityDayEstimate
}.

(** A load-test span. *)
Record TestWindow := mkTestWindow {
  tw_ID : Z;
  tw_Label : string;
  tw_StartTS : string;
  tw_EndTS : option string;
  tw_Source : string;
  tw_KnownLoadW : option float64;
  tw_KnownEntityID : option string
}.

(** Per-dongle capture liveness. *)
Record SourceHealth := mkSourceHealth {
  sh_Source : string;
  sh_Alive : bool;
  sh_AgeSeconds : option float64;
  sh_LastTS : option string;
  sh_TotalCount : Z;
  sh_PacketsLastMin : Z
}.

Record Health := mkHealth {
  h_Alive : bool;
  h_Sources : list SourceHealth;
  h_UniqueMeters : Z;
  h_PacketsLastMin : Z
}.
