(* ===== verification/Calendar.v ===== *)
(** * Calendar dates and timestamps

    The proleptic Gregorian calendar of package [time] on UTC instants: the
    date of a day number and back, [Date], [AddDate], and the RFC 3339 text of
    an instant.  The time-zone database is not part of the program: a
    [Location] is its offset function, a parameter of the code that uses one. *)

From S2P Require Import Prelude.

(** Day number (days since 1970-01-01) of a civil date, and back. *)
Definition days_from_civil (y m d : Z) : Z :=
  let y' := if m <=? 2 then y - 1 else y in
  let era := y' / 400 in
  let yoe := y' - era * 400 in
  let mp := (m + 9) mod 12 in
  let doy := (153 * mp + 2) / 5 + d - 1 in
  let doe := yoe * 365 + yoe / 4 - yoe / 100 + doy in
  era * 146097 + doe - 719468.

Definition civil_from_days (z0 : Z) : Z * Z * Z :=
  let z := z0 + 719468 in
  let era := z / 146097 in
  let doe := z - era * 146097 in
  let yoe := (doe - doe / 1460 + doe / 36524 - doe / 146096) / 365 in
  let doy := doe - (365 * yoe + yoe / 4 - yoe / 100) in
  let mp := (5 * doy + 2) / 153 in
  let d := doy - (153 * mp + 2) / 5 + 1 in
  let m := if mp <? 10 then mp + 3 else mp - 9 in
  (yoe + era * 400 + (if m <=? 2 then 1 else 0), m, d).

Definition Day : duration := 24 * Hour.

(** Two- and four-digit decimal fields. *)
Definition pad2 (n : Z) : string :=
  String (digit_chr (n / 10 mod 10)) (String (digit_chr (n mod 10)) EmptyString).
Definition pad4 (n : Z) : string := pad2 (n / 100) ++ pad2 (n mod 100).

Definition date_text (days : Z) : string :=
  let '(y, m, d) := civil_from_days days in
  (pad4 y ++ "-" ++ pad2 m ++ "-" ++ pad2 d)%string.

Definition clock_text (secs : Z) : string :=
  (pad2 (secs / 3600) ++ ":" ++ pad2 (secs / 60 mod 60) ++ ":" ++ pad2 (secs mod 60))%string.

(** The fraction of RFC3339Nano: up to nine digits, trailing zeros dropped. *)
Fixpoint frac_digits (n : nat) (ns : Z) : string :=
  match n with
  | O => EmptyString
  | S n' => if ns =? 0 then EmptyString
            else String (digit_chr (ns / 10 ^ Z.of_nat n'))
                   (frac_digits n' (ns mod 10 ^ Z.of_nat n'))
  end.

(** [t.UTC().Format(time.RFC3339)] and [RFC3339Nano] for the years 0 to 9999. *)
Definition RFC3339 (t : time) : string :=
  (date_text (t / Day) ++ "T" ++ clock_text (t mod Day / Second) ++ "Z")%string.
Definition RFC3339Nano (t : time) : string :=
  let ns := t mod Second in
  (date_text (t / Day) ++ "T" ++ clock_text (t mod Day / Second)
     ++ (if (ns =? 0)%Z then EmptyString else "." ++ frac_digits 9 ns) ++ "Z")%string.

(** Hours are counted from the epoch as from the zero time. *)
Lemma hour_pos : 0 < Hour.
Proof. unfold Hour, Minute, Second. lia. Qed.
Lemma Truncate_Hour t : Truncate t Hour = t - t mod Hour.
Proof.
  unfold Truncate. assert (zero_time mod Hour = 0) as Hz by reflexivity.
  rewrite Zminus_mod, Hz, Z.sub_0_r, Z.mod_mod by (unfold Hour, Minute, Second; lia). done.
Qed.
