(* ===== verification/Json.v ===== *)
(** * JSON values ([encoding/json])

    The values of a JSON text, the parser of a complete text ([json.Unmarshal]
    into an untyped value) and the decoding of object members into struct
    fields.  A number keeps its literal text, as [json.Number] does. *)

From S2P Require Import Prelude Float64.

#[warnings="-register-all"]
Inductive json :=
| JNull
| JBool (b : bool)
| JNum (lit : string)
| JStr (s : string)
| JArr (l : list json)
| JObj (l : list (string * json)).

(** ** The parser *)

(** A one-byte string holding the double quote. *)
Definition quote : string := String (chr 34) EmptyString.
(** A text written with single quotes for the double ones. *)
Definition dq (s : string) : string := str_map (fun c => if Ascii.eqb c "'" then chr 34 else c) s.

Definition is_ws (c : ascii) : bool :=
  let b := byte_of c in (b =? 32) || (b =? 9) || (b =? 10) || (b =? 13).

Fixpoint skip_ws (s : string) : string :=
  match s with
  | String c s' => if is_ws c then skip_ws s' else s
  | EmptyString => s
  end.

(** The digits at the front of a text, and the rest. *)
Fixpoint span_digits (s : string) : string * string :=
  match s with
  | String c s' => if is_digit c then let '(d, r) := span_digits s' in (String c d, r)
                   else (EmptyString, s)
  | EmptyString => (EmptyString, s)
  end.

Lemma span_digits_app s d r : span_digits s = (d, r) -> s = d ++ r.
Proof.
  revert d r. induction s as [|c s IH]; intros d r; cbn; [by intros [= <- <-]|].
  destruct (is_digit c); [|by intros [= <- <-]].
  destruct (span_digits s) as [d' r'] eqn:E. intros [= <- <-]. cbn. by rewrite (IH d' r').
Qed.

(** An optional minus sign, an integer part, an optional fraction and exponent. *)
Definition scan_int (s : string) : option (string * string) :=
  match s with
  | String "0" r => Some ("0", r)
  | _ => match span_digits s with
         | (EmptyString, _) => None
         | (d, r) => Some (d, r)
         end
  end.
Definition scan_frac (s : string) : option (string * string) :=
  match s with
  | String "." r => match span_digits r with
                    | (EmptyString, _) => None
                    | (d, r') => Some (String "." d, r')
                    end
  | _ => Some (EmptyString, s)
  end.
Definition scan_exp (s : string) : option (string * string) :=
  match s with
  | String c r =>
      if Ascii.eqb c "e" || Ascii.eqb c "E" then
        let '(sg, r1) := match r with
                         | String "+" r' => ("+", r')
                         | String "-" r' => ("-", r')
                         | _ => (EmptyString, r)
                         end in
        match span_digits r1 with
        | (EmptyString, _) => None
        | (d, r2) => Some ((String c (sg ++ d))%string, r2)
        end
      else Some (EmptyString, s)
  | EmptyString => Some (EmptyString, s)
  end.
Definition scan_number (s : string) : option (string * string) :=
  let '(sg, r) := match s with String "-" r => ("-", r) | _ => (EmptyString, s) end in
  match scan_int r with
  | None => None
  | Some (i, r1) =>
      match scan_frac r1 with
      | None => None
      | Some (f, r2) =>
          match scan_exp r2 with
          | None => None
          | Some (e, r3) => Some ((sg ++ i ++ f ++ e)%string, r3)
          end
      end
  end.

(** [isValidNumber]: the whole text is a number literal. *)
Definition is_number (s : string) : bool :=
  match scan_number s with Some (_, EmptyString) => true | _ => false end.

Definition hex_val (c : ascii) : option Z :=
  let b := byte_of c in
  if is_digit c then Some (b - 48)
  else if (97 <=? b) && (b <=? 102) then Some (b - 87)
  else if (65 <=? b) && (b <=? 70) then Some (b - 55)
  else None.
Definition hex4 (s : string) : option (Z * string) :=
  match s with
  | String a (String b (String c (String d r))) =>
      match hex_val a, hex_val b, hex_val c, hex_val d with
      | Some a, Some b, Some c, Some d => Some (((a * 16 + b) * 16 + c) * 16 + d, r)
      | _, _, _, _ => None
      end
  | _ => None
  end.

(** The UTF-8 encoding of a code point. *)
Definition utf8 (cp : Z) : string :=
  let b z := String (chr z) EmptyString in
  if cp <? 128 then b cp
  else if cp <? 2048 then (b (192 + cp / 64) ++ b (128 + cp mod 64))%string
  else if cp <? 65536 then
    (b (224 + cp / 4096) ++ b (128 + cp / 64 mod 64) ++ b (128 + cp mod 64))%string
  else (b (240 + cp / 262144) ++ b (128 + cp / 4096 mod 64) ++ b (128 + cp / 64 mod 64)
          ++ b (128 + cp mod 64))%string.
Definition replacement : string := utf8 65533.

Definition surrogate (cp : Z) : bool := (55296 <=? cp) && (cp <? 57344).
Definition high_surrogate (cp : Z) : bool := (55296 <=? cp) && (cp <? 56320).
Definition low_surrogate (cp : Z) : bool := (56320 <=? cp) && (cp <? 57344).

(** One [\u] escape (the text after [\u]): a surrogate pair is one code point,
    a lone surrogate the replacement character. *)
Definition unescape_u (s : string) : option (string * string) :=
  match hex4 s with
  | None => None
  | Some (cp, r) =>
      if surrogate cp then
        match r with
        | String "\" (String "u" r1) =>
            match hex4 r1 with
            | Some (lo, r2) =>
                if high_surrogate cp && low_surrogate lo
                then Some (utf8 ((cp - 55296) * 1024 + (lo - 56320) + 65536), r2)
                else Some (replacement, r)
            | None => Some (replacement, r)
            end
        | _ => Some (replacement, r)
        end
      else Some (utf8 cp, r)
  end.

Definition cont (c : ascii) : bool := (128 <=? byte_of c) && (byte_of c <? 192).

(** The number of bytes of the well-formed UTF-8 sequence at the front, if any. *)
Definition utf8_len (s : string) : option nat :=
  match s with
  | EmptyString => None
  | String c r =>
      let b := byte_of c in
      if b <? 128 then Some 1%nat
      else match r with
      | EmptyString => None
      | String c1 r1 =>
          let b1 := byte_of c1 in
          if (194 <=? b) && (b <=? 223) then if cont c1 then Some 2%nat else None
          else match r1 with
          | EmptyString => None
          | String c2 r2 =>
              if (224 <=? b) && (b <=? 239) then
                if ((if b =? 224 then 160 else 128) <=? b1)
                     && (b1 <=? (if b =? 237 then 159 else 191)) && cont c2
                then Some 3%nat else None
              else match r2 with
              | EmptyString => None
              | String c3 _ =>
                  if (240 <=? b) && (b <=? 244)
                       && ((if b =? 240 then 144 else 128) <=? b1)
                       && (b1 <=? (if b =? 244 then 143 else 191)) && cont c2 && cont c3
                  then Some 4%nat else None
              end
          end
      end
  end.

Definition str_take (n : nat) (s : string) : string := String.substring 0 n s.
Fixpoint str_drop (n : nat) (s : string) : string :=
  match n, s with
  | S n', String _ s' => str_drop n' s'
  | _, _ => s
  end.

(** The body of a string literal, after its opening quote. *)
Fixpoint scan_string (fuel : nat) (s : string) : option (string * string) :=
  match fuel with
  | O => None
  | S f =>
      let cons_str p o := match o with Some (t, r) => Some ((p ++ t)%string, r) | None => None end in
      match s with
      | EmptyString => None
      | String c r =>
          if byte_of c =? 34 then Some (EmptyString, r)
          else if byte_of c <? 32 then None
          else if byte_of c =? 92 then
            match r with
            | String "n" r' => cons_str (String (chr 10) EmptyString) (scan_string f r')
            | String "t" r' => cons_str (String (chr 9) EmptyString) (scan_string f r')
            | String "r" r' => cons_str (String (chr 13) EmptyString) (scan_string f r')
            | String "b" r' => cons_str (String (chr 8) EmptyString) (scan_string f r')
            | String "f" r' => cons_str (String (chr 12) EmptyString) (scan_string f r')
            | String "u" r' => match unescape_u r' with
                               | Some (t, r2) => cons_str t (scan_string f r2)
                               | None => None
                               end
            | String d r' => if (byte_of d =? 34) || (byte_of d =? 92) || (byte_of d =? 47)
                             then cons_str (String d EmptyString) (scan_string f r') else None
            | EmptyString => None
            end
          else match utf8_len s with
               | Some n => cons_str (str_take n s) (scan_string f (str_drop n s))
               | None => cons_str replacement (scan_string f r)
               end
      end
  end.

Definition maxNestingDepth : Z := 10000.

(** The literals [true], [false], [null] and the numbers. *)
Definition pscalar (s : string) : option (json * string) :=
  match strip_prefix "true" s, strip_prefix "false" s, strip_prefix "null" s with
  | Some r, _, _ => Some (JBool true, r)
  | _, Some r, _ => Some (JBool false, r)
  | _, _, Some r => Some (JNull, r)
  | _, _, _ => match scan_number s with
               | Some (t, r) => Some (JNum t, r)
               | None => None
               end
  end.

Fixpoint pvalue (fuel : nat) (depth : Z) (s : string) : option (json * string) :=
  match fuel with
  | O => None
  | S f =>
      match skip_ws s with
      | String "{" r =>
          if maxNestingDepth <=? depth then None
          else match skip_ws r with
               | String "}" r' => Some (JObj [], r')
               | r' => match pmembers f (depth + 1) r' with
                       | Some (l, r2) => Some (JObj l, r2)
                       | None => None
                       end
               end
      | String "[" r =>
          if maxNestingDepth <=? depth then None
          else match skip_ws r with
               | String "]" r' => Some (JArr [], r')
               | r' => match pelems f (depth + 1) r' with
                       | Some (l, r2) => Some (JArr l, r2)
                       | None => None
                       end
               end
      | s' =>
          match strip_prefix quote s' with
          | Some r => match scan_string (S (String.length r)) r with
                      | Some (t, r') => Some (JStr t, r')
                      | None => None
                      end
          | None => pscalar s'
          end
      end
  end
with pmembers (fuel : nat) (depth : Z) (s : string) : option (list (string * json) * string) :=
  match fuel with
  | O => None
  | S f =>
      match strip_prefix quote (skip_ws s) with
      | Some r =>
          match scan_string (S (String.length r)) r with
          | Some (k, r1) =>
              match skip_ws r1 with
              | String ":" r2 =>
                  match pvalue f depth r2 with
                  | Some (v, r3) =>
                      match skip_ws r3 with
                      | String "," r4 => match pmembers f depth r4 with
                                         | Some (l, r5) => Some ((k, v) :: l, r5)
                                         | None => None
                                         end
                      | String "}" r4 => Some ([(k, v)], r4)
                      | _ => None
                      end
                  | None => None
                  end
              | _ => None
              end
          | None => None
          end
      | None => None
      end
  end
with pelems (fuel : nat) (depth : Z) (s : string) : option (list json * string) :=
  match fuel with
  | O => None
  | S f =>
      match pvalue f depth s with
      | Some (v, r) =>
          match skip_ws r with
          | String "," r1 => match pelems f depth r1 with
                             | Some (l, r2) => Some (v :: l, r2)
                             | None => None
                             end
          | String "]" r1 => Some ([v], r1)
          | _ => None
          end
      | None => None
      end
  end.

(** [json.Unmarshal] of a whole text: one value, then only white space.  Every
    recursive call consumes a byte or is preceded by one that does. *)
Definition parse (s : string) : option json :=
  match pvalue (S (2 * String.length s)) 0 s with
  | Some (v, r) => match skip_ws r with EmptyString => Some v | _ => None end
  | None => None
  end.

(** ** Numbers *)

(** The correctly rounded value of a number literal; [None] on overflow
    ([strconv.ErrRange]).  Literals whose magnitude is far outside the range of
    binary64 are cut off before the power of ten is computed. *)
Definition scale10 (neg : bool) (m e : Z) : option float64 :=
  let sgn (x : float64) := if neg then fopp x else x in
  if m =? 0 then Some (sgn f0)
  else
    let nd := Z.of_nat (String.length (dec_digits (Z.to_nat (Z.log2 m + 1)) m EmptyString)) in
    if 400 <? nd + e then None
    else if nd + e <? -400 then Some (sgn f0)
    else
      let v := if 0 <=? e then of_Z (m * 10 ^ e)
               else match m, 10 ^ (- e) with
                    | Z.pos n, Z.pos d =>
                        fdiv (SpecFloat.S754_finite false n 0) (SpecFloat.S754_finite false d 0)
                    | _, _ => f0
                    end in
      match v with
      | SpecFloat.S754_infinity _ => None
      | _ => Some (sgn v)
      end.

(** [json.Number.Float64] on a number literal. *)
Definition number_float (s : string) : option float64 :=
  if negb (is_number s) then None
  else
    let '(neg, r) := match s with String "-" r => (true, r) | _ => (false, s) end in
    let '(ip, r1) := span_digits r in
    let '(fp, r2) := match r1 with String "." r' => span_digits r' | _ => (EmptyString, r1) end in
    let e := match r2 with
             | String _ r' => fst (ParseInt r')
             | EmptyString => 0
             end in
    match digits_val (ip ++ fp)%string 0 with
    | Some m => scale10 neg m (e - Z.of_nat (String.length fp))
    | None => None
    end.

(** [json.Number.Int64] on a number literal. *)
Definition number_int (s : string) : option Z :=
  match ParseInt s with (v, true) => Some v | _ => None end.

(** ** Members of an object *)

Definition member (k : string) (l : list (string * json)) : option json :=
  fold_left (fun acc kv => if String.eqb (fst kv) k then Some (snd kv) else acc) l None.

(** Struct decoding matches a field name exactly, else by case folding. *)
Definition field_match (names : list string) (k : string) : option string :=
  match List.find (String.eqb k) names with
  | Some n => Some n
  | None => List.find (EqualFold k) names
  end.

(** ** Struct decoding *)

(** A string field of a struct: the last member that names it; [None] when a
    member has another type (an error of [json.Unmarshal]). *)
Definition get_str (names : list string) (f : string) (ms : list (string * json)) : option string :=
  fold_left (fun acc kv =>
    match acc, field_match names kv.1 with
    | Some old, Some g => if (g =? f)%string
                          then match kv.2 with JStr s => Some s | JNull => Some old | _ => None end
                          else acc
    | _, _ => acc
    end) ms (Some "").

(** The same when the error is ignored: the field keeps its value. *)
Definition get_str_lenient (names : list string) (f : string) (ms : list (string * json)) : string :=
  fold_left (fun old kv =>
    match field_match names kv.1 with
    | Some g => if (g =? f)%string then match kv.2 with JStr s => s | _ => old end else old
    | None => old
    end) ms "".

(** The last member of a name, undecoded ([json.RawMessage]). *)
Definition get_raw (names : list string) (f : string) (ms : list (string * json)) : json :=
  fold_left (fun old kv =>
    match field_match names kv.1 with
    | Some g => if (g =? f)%string then kv.2 else old
    | None => old
    end) ms JNull.

(** [map[string]any] with the last of equal keys. *)
Definition to_map (j : json) : gmap string json :=
  match j with JObj ms => fold_left (fun m kv => <[kv.1 := kv.2]> m) ms ∅ | _ => ∅ end.

Example parse_ex :
  parse (dq "{'a': [1, -2.5e3, true, null], 'b': 'x\u00e9\n'}") =
  Some (JObj [("a", JArr [JNum "1"; JNum "-2.5e3"; JBool true; JNull]);
              ("b", JStr (String "x" (utf8 233 ++ String (chr 10) EmptyString)))]).
Proof. vm_compute. reflexivity. Qed.
Example number_ex : number_float "-2.5e3" = Some (lit (-2500) 1).
Proof. vm_compute. reflexivity. Qed.
Example number_ex2 : number_float "0.1" = Some (lit 1 10).
Proof. vm_compute. reflexivity. Qed.
