(* ===== verification/Encoding.v ===== *)
(** * Text and digest encodings ([encoding/base64], [crypto/sha256], [encoding/json])

    What the agent channel and the event stream use of the standard library:
    base64, SHA-256 and the JSON text of strings and flat objects, with the
    round trips their users rely on.  Byte strings are [string]s. *)

From S2P Require Import Prelude Json.

(** ** Base64, standard alphabet *)

Definition b64_char (v : Z) : ascii :=
  if v <? 26 then chr (65 + v) else if v <? 52 then chr (97 + (v - 26))
  else if v <? 62 then chr (48 + (v - 52)) else if v =? 62 then chr 43 else chr 47.
Definition b64_val (c : ascii) : option Z :=
  let b := byte_of c in
  if is_upper c then Some (b - 65) else if is_lower c then Some (b - 97 + 26)
  else if is_digit c then Some (b - 48 + 52)
  else if b =? 43 then Some 62 else if b =? 47 then Some 63 else None.

(** [base64.StdEncoding.EncodeToString] ([pad] is [=]) and the unpadded
    [RawStdEncoding] ([pad] empty). *)
Fixpoint b64_encode (pad : string) (s : string) : string :=
  match s with
  | EmptyString => EmptyString
  | String a EmptyString =>
      let v := byte_of a * 16 in
      String (b64_char (v / 64)) (String (b64_char (v mod 64)) (pad ++ pad))
  | String a (String b EmptyString) =>
      let v := (byte_of a * 256 + byte_of b) * 4 in
      String (b64_char (v / 4096)) (String (b64_char (v / 64 mod 64)) (String (b64_char (v mod 64)) pad))
  | String a (String b (String c r)) =>
      let v := (byte_of a * 256 + byte_of b) * 256 + byte_of c in
      String (b64_char (v / 262144)) (String (b64_char (v / 4096 mod 64))
        (String (b64_char (v / 64 mod 64)) (String (b64_char (v mod 64)) (b64_encode pad r))))
  end.
Definition EncodeToString (s : string) : string := b64_encode "=" s.
Definition RawEncodeToString (s : string) : string := b64_encode "" s.

(** [StdEncoding.DecodeString]: line breaks are skipped, the last quantum may be
    padded, trailing bits are not checked. *)
Definition b64_break (c : ascii) : bool := (byte_of c =? 10) || (byte_of c =? 13).
Fixpoint drop_breaks (s : string) : string :=
  match s with
  | EmptyString => EmptyString
  | String c r => if b64_break c then drop_breaks r else String c (drop_breaks r)
  end.
Definition b64_bytes1 (a b : Z) : string := String (chr ((a * 64 + b) / 16)) EmptyString.
Definition b64_bytes2 (a b c : Z) : string :=
  let v := ((a * 64 + b) * 64 + c) / 4 in String (chr (v / 256)) (String (chr (v mod 256)) EmptyString).
Definition b64_bytes3 (a b c d : Z) : string :=
  let v := ((a * 64 + b) * 64 + c) * 64 + d in
  String (chr (v / 65536)) (String (chr (v / 256 mod 256)) (String (chr (v mod 256)) EmptyString)).
Fixpoint b64_decode (s : string) : option string :=
  match s with
  | EmptyString => Some EmptyString
  | String c0 (String c1 (String c2 (String c3 r))) =>
      match b64_val c0, b64_val c1 with
      | Some a, Some b =>
          match b64_val c2, b64_val c3 with
          | Some c, Some d =>
              match b64_decode r with
              | Some t => Some (b64_bytes3 a b c d ++ t)%string
              | None => None
              end
          | Some c, None => if Ascii.eqb c3 "=" && is_empty r then Some (b64_bytes2 a b c) else None
          | None, _ => if Ascii.eqb c2 "=" && Ascii.eqb c3 "=" && is_empty r
                       then Some (b64_bytes1 a b) else None
          end
      | _, _ => None
      end
  | _ => None
  end.
Definition DecodeString (s : string) : option string := b64_decode (drop_breaks s).

(** ** SHA-256 *)

Definition mask32 (z : Z) : Z := Z.land z 4294967295.
Definition rotr (x n : Z) : Z := Z.lor (Z.shiftr x n) (mask32 (Z.shiftl x (32 - n))).

(** The first 32 bits of the fractional parts of the roots of the first primes. *)
Definition sha_k : list Z :=
  [1116352408; 1899447441; 3049323471; 3921009573; 961987163; 1508970993; 2453635748; 2870763221;
   3624381080; 310598401; 607225278; 1426881987; 1925078388; 2162078206; 2614888103; 3248222580;
   3835390401; 4022224774; 264347078; 604807628; 770255983; 1249150122; 1555081692; 1996064986;
   2554220882; 2821834349; 2952996808; 3210313671; 3336571891; 3584528711; 113926993; 338241895;
   666307205; 773529912; 1294757372; 1396182291; 1695183700; 1986661051; 2177026350; 2456956037;
   2730485921; 2820302411; 3259730800; 3345764771; 3516065817; 3600352804; 4094571909; 275423344;
   430227734; 506948616; 659060556; 883997877; 958139571; 1322822218; 1537002063; 1747873779;
   1955562222; 2024104815; 2227730452; 2361852424; 2428436474; 2756734187; 3204031479; 3329325298].
Definition sha_init : list Z :=
  [1779033703; 3144134277; 1013904242; 2773480762; 1359893119; 2600822924; 528734635; 1541459225].

Definition be_bytes (n : nat) (v : Z) : list Z :=
  map (fun i => Z.land (Z.shiftr v (8 * Z.of_nat (n - 1 - i))) 255) (seq 0 n).
Fixpoint bytes_of (s : string) : list Z :=
  match s with EmptyString => [] | String c r => byte_of c :: bytes_of r end.
Definition sha_pad (m : list Z) : list Z :=
  let n := Z.of_nat (length m) in
  (m ++ 128 :: replicate (Z.to_nat ((55 - n) mod 64)) 0 ++ be_bytes 8 (8 * n))%list.

Fixpoint words (l : list Z) : list Z :=
  match l with
  | a :: b :: c :: d :: r => (((a * 256 + b) * 256 + c) * 256 + d) :: words r
  | _ => []
  end.
(** The message schedule, newest word first. *)
Fixpoint schedule (n : nat) (w : list Z) : list Z :=
  match n with
  | O => w
  | S n' =>
      let at_ i := nth i w 0 in
      let s0 x := Z.lxor (Z.lxor (rotr x 7) (rotr x 18)) (Z.shiftr x 3) in
      let s1 x := Z.lxor (Z.lxor (rotr x 17) (rotr x 19)) (Z.shiftr x 10) in
      schedule n' (mask32 (s1 (at_ 1%nat) + at_ 6%nat + s0 (at_ 14%nat) + at_ 15%nat) :: w)
  end.
Definition sha_round (st : list Z) (kw : Z * Z) : list Z :=
  match st with
  | [a; b; c; d; e; f; g; h] =>
      let S1 := Z.lxor (Z.lxor (rotr e 6) (rotr e 11)) (rotr e 25) in
      let ch := Z.lxor (Z.land e f) (Z.land (Z.lxor e 4294967295) g) in
      let t1 := mask32 (h + S1 + ch + kw.1 + kw.2) in
      let S0 := Z.lxor (Z.lxor (rotr a 2) (rotr a 13)) (rotr a 22) in
      let maj := Z.lxor (Z.lxor (Z.land a b) (Z.land a c)) (Z.land b c) in
      [mask32 (t1 + mask32 (S0 + maj)); a; b; c; mask32 (d + t1); e; f; g]
  | _ => st
  end.
Definition sha_block (st w : list Z) : list Z :=
  let ws := rev (schedule 48 (rev w)) in
  zip_with (fun x y => mask32 (x + y)) st (fold_left sha_round (combine sha_k ws) st).
Fixpoint sha_blocks (fuel : nat) (st w : list Z) : list Z :=
  match fuel, w with
  | S f, _ :: _ => sha_blocks f (sha_block st (take 16 w)) (drop 16 w)
  | _, _ => st
  end.
(** [sha256.Sum256], 32 bytes. *)
Definition Sum256 (s : string) : string :=
  let w := words (sha_pad (bytes_of s)) in
  fold_right (fun v acc => fold_right (fun b r => String (chr b) r) acc (be_bytes 4 v)) EmptyString
    (sha_blocks (length w) sha_init w).

(** [hexFP] of [cmd/capture/agent.go] and [cmd/api/agent.go]: lower-case
    hexadecimal digits, high nibble first. *)
Definition hexdigit (v : Z) : ascii := if v <? 10 then chr (48 + v) else chr (87 + v).
Fixpoint hexFP (s : string) : string :=
  match s with
  | EmptyString => EmptyString
  | String c r => let x := byte_of c in
                  String (hexdigit (Z.shiftr x 4)) (String (hexdigit (Z.land x 15)) (hexFP r))
  end.

Example sha256_abc :
  hexFP (Sum256 "abc") = "ba7816bf8f01cfea414140de5dae2223b00361a396177a9cb410ff61f20015ad".
Proof. vm_compute. reflexivity. Qed.
Example sha256_two_blocks :
  hexFP (Sum256 "abcdbcdecdefdefgefghfghighijhijkijkljklmklmnlmnomnopnopq") =
  "248d6a61d20638b8e5c026930c3e6039a33ce45964ff2167f6ecedd419db06c1".
Proof. vm_compute. reflexivity. Qed.

(** ** Base64 round trip *)

Lemma byte_range c : 0 <= byte_of c < 256.
Proof. unfold byte_of. pose proof (N_ascii_bounded c). lia. Qed.

Lemma chr_byte_of c : chr (byte_of c) = c.
Proof. unfold chr, byte_of. by rewrite N2Z.id, ascii_N_embedding. Qed.

Lemma b64_val_char v : 0 <= v < 64 -> b64_val (b64_char v) = Some v /\ b64_break (b64_char v) = false.
Proof.
  intros Hv.
  assert (forallb (fun n => bool_decide (b64_val (b64_char (Z.of_nat n)) = Some (Z.of_nat n)) &&
                            negb (b64_break (b64_char (Z.of_nat n)))) (seq 0 64) = true) as F.
  { vm_compute. reflexivity. }
  rewrite forallb_forall in F. specialize (F (Z.to_nat v) ltac:(apply in_seq; lia)).
  rewrite Z2Nat.id in F by lia. apply andb_true_iff in F as [E ?%negb_true_iff].
  apply bool_decide_eq_true in E. done.
Qed.

Ltac euclid := Z.to_euclidean_division_equations; lia.

Lemma drop_breaks_encode_aux n s :
  (String.length s < n)%nat -> drop_breaks (EncodeToString s) = EncodeToString s.
Proof.
  unfold EncodeToString. revert s. induction n as [|n IH]; [lia|]. intros s Hs.
  destruct s as [|a [|b [|c r]]]; cbn [b64_encode drop_breaks String.append]; [done|..];
    pose proof (byte_range a); try pose proof (byte_range b); try pose proof (byte_range c).
  - rewrite 2 (fun v H => proj2 (b64_val_char v H)) by euclid. done.
  - rewrite 3 (fun v H => proj2 (b64_val_char v H)) by euclid. done.
  - rewrite 4 (fun v H => proj2 (b64_val_char v H)) by euclid.
    do 4 f_equal. apply IH. cbn in Hs. lia.
Qed.

Lemma DecodeString_EncodeToString s : DecodeString (EncodeToString s) = Some s.
Proof.
  unfold DecodeString. rewrite (drop_breaks_encode_aux (S (String.length s))) by lia.
  unfold EncodeToString.
  assert (forall n s, (String.length s < n)%nat -> b64_decode (b64_encode "=" s) = Some s) as H;
    [|by apply (H (S (String.length s))); lia].
  clear s. induction n as [|n IH]; [lia|]. intros s Hs.
  destruct s as [|a [|b [|c r]]]; cbn [b64_encode String.append]; [done|..].
  - pose proof (byte_range a). cbn [b64_decode].
    rewrite 2 (fun v H => proj1 (b64_val_char v H)) by euclid.
    cbn [b64_val Ascii.eqb is_empty]. unfold b64_bytes1.
    replace ((byte_of a * 16 / 64 * 64 + (byte_of a * 16) mod 64) / 16) with (byte_of a) by euclid.
    rewrite chr_byte_of. reflexivity.
  - pose proof (byte_range a). pose proof (byte_range b). cbn [b64_decode].
    rewrite 3 (fun v H => proj1 (b64_val_char v H)) by euclid.
    set (v := (byte_of a * 256 + byte_of b) * 4). unfold b64_bytes2. cbv zeta.
    assert (((v / 4096 * 64 + v / 64 mod 64) * 64 + v mod 64) / 4 = byte_of a * 256 + byte_of b) as ->
      by (subst v; euclid).
    assert ((byte_of a * 256 + byte_of b) / 256 = byte_of a) as -> by euclid.
    assert ((byte_of a * 256 + byte_of b) mod 256 = byte_of b) as -> by euclid.
    rewrite !chr_byte_of. reflexivity.
  - pose proof (byte_range a). pose proof (byte_range b). pose proof (byte_range c). cbn [b64_decode].
    rewrite 4 (fun v H => proj1 (b64_val_char v H)) by euclid.
    rewrite IH by (cbn in Hs; lia).
    unfold b64_bytes3. cbv zeta. cbn [String.append]. f_equal.
    set (v := (byte_of a * 256 + byte_of b) * 256 + byte_of c).
    assert (((v / 262144 * 64 + v / 4096 mod 64) * 64 + v / 64 mod 64) * 64 + v mod 64 = v) as -> by (subst v; euclid).
    assert (v / 65536 = byte_of a) as -> by (subst v; euclid).
    assert (v / 256 mod 256 = byte_of b) as -> by (subst v; euclid).
    assert (v mod 256 = byte_of c) as -> by (subst v; euclid).
    by rewrite !chr_byte_of.
Qed.

(** ** The JSON text of strings, flat objects and lists of them *)

Definition hex4_of (v : Z) : string :=
  String (hexdigit (v / 4096)) (String (hexdigit (v / 256 mod 16))
    (String (hexdigit (v / 16 mod 16)) (String (hexdigit (v mod 16)) EmptyString))).
Definition u_escape (v : Z) : string := String "\" (String "u" (hex4_of v)).

(** The escape of one ASCII character ([json.Marshal] escapes [<], [>] and [&] too). *)
Definition escape_ascii (c : ascii) : string :=
  let b := byte_of c in
  if (b =? 34) || (b =? 92) then String "\" (String c EmptyString)
  else if b =? 8 then "\b" else if b =? 12 then "\f" else if b =? 10 then "\n"
  else if b =? 13 then "\r" else if b =? 9 then "\t"
  else if (b <? 32) || (b =? 60) || (b =? 62) || (b =? 38) then u_escape b
  else String c EmptyString.

(** The code point of a three-byte sequence, for the two line separators. *)
Definition line_separator (s : string) : option Z :=
  match s with
  | String a (String b (String c _)) =>
      if (byte_of a =? 226) && (byte_of b =? 128) && ((byte_of c =? 168) || (byte_of c =? 169))
      then Some (8232 + (byte_of c - 168)) else None
  | _ => None
  end.

Fixpoint escape (fuel : nat) (s : string) : string :=
  match fuel, s with
  | S f, String c r =>
      if byte_of c <? 128 then (escape_ascii c ++ escape f r)%string
      else match utf8_len s with
           | None => (u_escape 65533 ++ escape f r)%string
           | Some n =>
               match line_separator s with
               | Some cp => (u_escape cp ++ escape f (str_drop n s))%string
               | None => (str_take n s ++ escape f (str_drop n s))%string
               end
           end
  | _, _ => EmptyString
  end.
Definition marshal_string (s : string) : string := quote ++ escape (String.length s) s ++ quote.

(** An object of members whose values are already texts. *)
Definition marshal_member (kv : string * string) : string := marshal_string kv.1 ++ ":" ++ kv.2.
Definition marshal_object (l : list (string * string)) : string :=
  "{" ++ str_join "," (map marshal_member l) ++ "}".
Definition marshal_array (l : list string) : string := "[" ++ str_join "," l ++ "]".

(** Texts the round trips are stated for: printable ASCII and the usual controls. *)
Definition is_ascii (c : ascii) : bool := byte_of c <? 128.
Fixpoint all_ascii (s : string) : bool :=
  match s with EmptyString => true | String c r => is_ascii c && all_ascii r end.

Example marshal_ex :
  marshal_object [("label", marshal_string (String "a" (String (chr 34) "<b")));
                  ("x", marshal_string "")] =
  dq "{'label':'a\'\u003cb','x':''}".
Proof. vm_compute. reflexivity. Qed.

(** ** Round trip of the JSON text *)

Definition cons_scan (c : ascii) (o : option (string * string)) : option (string * string) :=
  match o with Some (t, r) => Some (String c t, r) | None => None end.

Lemma hex_val_digit v : 0 <= v < 16 -> hex_val (hexdigit v) = Some v.
Proof.
  intros Hv. assert (v ∈ map Z.of_nat (seq 0 16)) as E.
  { apply list_elem_of_fmap. exists (Z.to_nat v). rewrite elem_of_seq. lia. }
  revert E. clear Hv. cbn. rewrite !elem_of_cons. intros E.
  repeat destruct E as [-> | E]; try reflexivity. by apply elem_of_nil in E.
Qed.

Lemma unescape_hex4 v t : 0 <= v < 128 ->
  unescape_u (hex4_of v ++ t) = Some (String (chr v) EmptyString, t).
Proof.
  intros Hv. unfold unescape_u, hex4_of. cbn [String.append hex4].
  rewrite !hex_val_digit by euclid.
  assert (((v / 4096 * 16 + v / 256 mod 16) * 16 + v / 16 mod 16) * 16 + v mod 16 = v) as -> by euclid.
  unfold surrogate. replace (55296 <=? v) with false by lia. cbn [andb].
  unfold utf8. by replace (v <? 128) with true by lia.
Qed.

Lemma scan_plain f c t :
  32 <= byte_of c < 128 -> byte_of c <> 34 -> byte_of c <> 92 ->
  scan_string (S f) (String c t) = cons_scan c (scan_string f t).
Proof.
  intros Hc H34 H92. cbn [scan_string]. cbv zeta.
  replace (byte_of c =? 34) with false by lia. replace (byte_of c <? 32) with false by lia.
  replace (byte_of c =? 92) with false by lia. cbn [utf8_len].
  replace (byte_of c <? 128) with true by lia.
  unfold str_take. replace (String.substring 0 1 (String c t)) with (String c EmptyString) by (by destruct t).
  reflexivity.
Qed.

Lemma scan_u_escape f v t : 0 <= v < 128 ->
  scan_string (S f) (u_escape v ++ t) = cons_scan (chr v) (scan_string f t).
Proof.
  intros Hv. unfold u_escape. cbn [String.append].
  transitivity (match unescape_u (hex4_of v ++ t) with
                | Some (u, r2) => match scan_string f r2 with
                                  | Some (t', r) => Some ((u ++ t')%string, r) | None => None end
                | None => None end); [reflexivity|].
  rewrite unescape_hex4 by done. reflexivity.
Qed.

Lemma byte_of_inj c z : byte_of c = z -> c = chr z.
Proof. intros <-. by rewrite chr_byte_of. Qed.

Lemma scan_escape_char f c t :
  is_ascii c = true ->
  scan_string (S f) (escape_ascii c ++ t) = cons_scan c (scan_string f t).
Proof.
  intros Hc. pose proof (byte_range c). apply Z.ltb_lt in Hc. unfold escape_ascii.
  repeat match goal with
  | |- context [if ?b then _ else _] =>
      lazymatch b with context [byte_of c] => destruct b eqn:? end
  end; zbool.
  { assert (byte_of c = 34 \/ byte_of c = 92) as [E|E] by lia;
      rewrite (byte_of_inj c _ E); reflexivity. }
  1-5: match goal with E : byte_of _ = _ |- _ => rewrite (byte_of_inj _ _ E) end;
    reflexivity.
  - rewrite scan_u_escape by lia. by rewrite chr_byte_of.
  - cbn [String.append]. apply scan_plain; lia.
Qed.

Lemma scan_escape s n f rest :
  all_ascii s = true -> (String.length s <= n)%nat -> (String.length s < f)%nat ->
  scan_string f (escape n s ++ (quote ++ rest)) = Some (s, rest).
Proof.
  revert n f. induction s as [|c s IH]; intros n f Hs Hn Hf.
  - destruct f as [|f]; [cbn in Hf; lia|]. by destruct n.
  - destruct f as [|f]; [cbn in Hf; lia|]. destruct n as [|n]; [cbn in Hn; lia|].
    cbn [all_ascii] in Hs. apply andb_true_iff in Hs as [Hc Hs]. cbn [escape].
    pose proof Hc as Hc'. unfold is_ascii in Hc'. rewrite Hc', <- str_app_assoc, scan_escape_char by done.
    rewrite IH by (done || cbn in *; lia). done.
Qed.

Lemma str_length_app a b : String.length (a ++ b) = (String.length a + String.length b)%nat.
Proof. induction a as [|c a IH]; cbn; [done|]. by rewrite IH. Qed.

Lemma length_escape s n :
  all_ascii s = true -> (String.length s <= n)%nat -> (String.length s <= String.length (escape n s))%nat.
Proof.
  revert n. induction s as [|c s IH]; intros n Hs Hn; [by destruct n|].
  destruct n as [|n]; [cbn in Hn; lia|]. cbn [all_ascii] in Hs. apply andb_true_iff in Hs as [Hc Hs].
  cbn [escape]. unfold is_ascii in Hc. rewrite Hc, str_length_app.
  specialize (IH n Hs ltac:(cbn in Hn; lia)).
  assert (1 <= String.length (escape_ascii c))%nat.
  { unfold escape_ascii, u_escape, hex4_of. repeat case_match_goal; cbn; lia. }
  cbn [String.length]. lia.
Qed.

(** The text of a value, wherever it stands before a separator: [k] bounds the
    fuel and the nesting it needs. *)
Definition at_separator (rest : string) : Prop :=
  exists c r, rest = String c r /\ (c = "," \/ c = "}" \/ c = "]")%char.
Definition value_text (k : nat) (t : string) (v : json) : Prop :=
  forall f d rest, (k <= f)%nat -> 0 <= d -> d + Z.of_nat k <= maxNestingDepth -> at_separator rest ->
    pvalue f d (t ++ rest) = Some (v, rest).

Lemma pvalue_string f d s rest :
  all_ascii s = true -> pvalue (S f) d (marshal_string s ++ rest) = Some (JStr s, rest).
Proof.
  intros Hs. unfold marshal_string. rewrite <- !str_app_assoc. cbn [pvalue].
  change (skip_ws (quote ++ ?x)) with (quote ++ x).
  set (r := (escape (String.length s) s ++ (quote ++ rest))%string).
  transitivity (match scan_string (S (String.length r)) r with
                | Some (t, r') => Some (JStr t, r') | None => None end); [reflexivity|].
  subst r. rewrite scan_escape; [done|done|done|].
  rewrite str_length_app. pose proof (length_escape s (String.length s) Hs ltac:(done)). lia.
Qed.

Definition closed_text (k : nat) (t : string) (v : json) : Prop :=
  forall f d rest, (k <= f)%nat -> 0 <= d -> d + Z.of_nat k <= maxNestingDepth ->
    pvalue f d (t ++ rest) = Some (v, rest).
Lemma closed_value_text k t v : closed_text k t v -> value_text k t v.
Proof. intros H f d rest Hf H0 Hd _. by apply H. Qed.

Lemma value_text_string s : all_ascii s = true -> value_text 1 (marshal_string s) (JStr s).
Proof. intros Hs f d rest Hf _ _ _. destruct f; [lia|]. by apply pvalue_string. Qed.

Lemma value_text_mono k k' t v : (k <= k')%nat -> value_text k t v -> value_text k' t v.
Proof. intros Hk H f d rest Hf H0 Hd Hr. apply H; [lia|lia|lia|done]. Qed.

Lemma skip_ws_sep rest : at_separator rest -> skip_ws rest = rest.
Proof. by intros (c & r & -> & [-> | [-> | ->]]). Qed.

Definition texts_of (l : list (string * (string * json))) : list (string * string) :=
  map (fun m => (m.1, m.2.1)) l.
Definition values_of (l : list (string * (string * json))) : list (string * json) :=
  map (fun m => (m.1, m.2.2)) l.

Lemma pmembers_text k l f d rest :
  l <> [] -> (length l + k <= f)%nat -> 0 <= d -> d + Z.of_nat k <= maxNestingDepth ->
  Forall (fun m => all_ascii m.1 = true /\ value_text k m.2.1 m.2.2) l ->
  pmembers f d (str_join "," (map marshal_member (texts_of l)) ++ String "}" rest) =
  Some (values_of l, rest).
Proof.
  revert f. induction l as [|[key [t v]] l IH]; intros f Hne Hf H0 Hd Hl; [done|].
  apply Forall_cons in Hl as [[Hkey Hv] Hl]. cbn [fst snd] in *.
  destruct f as [|f]; [cbn in Hf; lia|].
  set (tail := match l with [] => String "}" rest
               | _ => String "," (str_join "," (map marshal_member (texts_of l)) ++ String "}" rest) end).
  assert ((str_join "," (map marshal_member (texts_of ((key, (t, v)) :: l))) ++ String "}" rest)%string
          = (quote ++ (escape (String.length key) key ++ (quote ++ String ":" (t ++ tail))))%string) as ->.
  { unfold str_join, tail. cbn [texts_of map String.concat fst snd].
    destruct l as [|m l]; cbn [texts_of map]; unfold marshal_member at 1, marshal_string at 1;
      cbn [fst snd]; rewrite <- !str_app_assoc; reflexivity. }
  assert (at_separator tail) as Htail.
  { unfold tail. destruct l; eexists _, _; eauto. }
  cbn [pmembers]. change (skip_ws (quote ++ ?x)) with (quote ++ x).
  set (r := (escape (String.length key) key ++ (quote ++ String ":" (t ++ tail)))%string).
  change (strip_prefix quote (quote ++ r)) with (Some r). cbv match.
  subst r. rewrite scan_escape; [|done|done|].
  2: { rewrite str_length_app. pose proof (length_escape key _ Hkey ltac:(done)). lia. }
  cbn [skip_ws is_ws]. change (is_ws ":") with false. cbv match.
  rewrite Hv by (cbn in Hf; lia || done). rewrite skip_ws_sep by done.
  unfold tail. destruct l as [|m l]; [done|].
  rewrite IH by (done || cbn in *; lia). done.
Qed.

Lemma closed_text_object k l :
  l <> [] -> Forall (fun m => all_ascii m.1 = true /\ value_text k m.2.1 m.2.2) l ->
  closed_text (S (length l + k)) (marshal_object (texts_of l)) (JObj (values_of l)).
Proof.
  intros Hne Hl f d rest Hf H0 Hd. destruct f as [|f]; [lia|].
  unfold marshal_object. rewrite <- !str_app_assoc. cbn [pvalue].
  change (skip_ws ("{" ++ ?x)) with (String "{" x).
  cbv match. replace (maxNestingDepth <=? d) with false by lia.
  assert (exists r, (str_join "," (map marshal_member (texts_of l)) ++ ("}" ++ rest))%string
                    = String (chr 34) r) as [r Er].
  { destruct l as [|[key [t v]] l]; [done|]. unfold str_join. cbn [texts_of map String.concat fst snd].
    destruct l; cbn [texts_of map]; unfold marshal_member at 1, marshal_string at 1;
      rewrite <- !str_app_assoc; eexists; reflexivity. }
  change ("}" ++ rest)%string with (String "}" rest) in *.
  transitivity (match pmembers f (d + 1) (str_join "," (map marshal_member (texts_of l)) ++ String "}" rest)
                with Some (l0, r2) => Some (JObj l0, r2) | None => None end).
  { rewrite Er. reflexivity. }
  rewrite (pmembers_text k) by (done || lia). done.
Qed.

Lemma pelems_text k (l : list (string * json)) f d rest :
  l <> [] -> (length l + k <= f)%nat -> 0 <= d -> d + Z.of_nat k <= maxNestingDepth ->
  Forall (fun m => value_text k m.1 m.2) l ->
  pelems f d (str_join "," (map fst l) ++ String "]" rest) = Some (map snd l, rest).
Proof.
  revert f. induction l as [|[t v] l IH]; intros f Hne Hf H0 Hd Hl; [done|].
  apply Forall_cons in Hl as [Hv Hl]. cbn [fst snd] in *.
  destruct f as [|f]; [cbn in Hf; lia|].
  set (tail := match l with [] => String "]" rest
               | _ => String "," (str_join "," (map fst l) ++ String "]" rest) end).
  assert ((str_join "," (map fst ((t, v) :: l)) ++ String "]" rest)%string = (t ++ tail)%string) as ->.
  { unfold str_join, tail. cbn [map String.concat fst]. destruct l as [|m l]; cbn [map]; [done|].
    rewrite <- !str_app_assoc. reflexivity. }
  assert (at_separator tail) as Htail.
  { unfold tail. destruct l; eexists _, _; eauto. }
  cbn [pelems]. rewrite Hv by (cbn in Hf; lia || done). rewrite skip_ws_sep by done.
  unfold tail. destruct l as [|m l]; [done|].
  rewrite IH by (done || cbn in *; lia). done.
Qed.

(** The first byte of a value is not white space or a closing bracket. *)
Definition starts_value (t : string) : Prop :=
  exists c r, t = String c r /\ is_ws c = false /\ c <> "]"%char.

Lemma closed_text_array k (l : list (string * json)) :
  Forall (fun m => value_text k m.1 m.2 /\ starts_value m.1) l ->
  closed_text (S (length l + k)) (marshal_array (map fst l)) (JArr (map snd l)).
Proof.
  intros Hl f d rest Hf H0 Hd. destruct f as [|f]; [lia|].
  unfold marshal_array. rewrite <- !str_app_assoc. cbn [pvalue].
  change (skip_ws ("[" ++ ?x)) with (String "[" x).
  cbv match. replace (maxNestingDepth <=? d) with false by lia.
  destruct l as [|m l]; [done|].
  assert (exists c r, (str_join "," (map fst (m :: l)) ++ ("]" ++ rest))%string = String c r /\
            is_ws c = false /\ c <> "]"%char) as (c & r & Er & Hc & Hc').
  { apply Forall_cons in Hl as [[_ (c & r & E & Hc)] _]. unfold str_join. cbn [map String.concat].
    rewrite E. destruct (map fst l); eexists _, _; split; [reflexivity|done|reflexivity|done]. }
  change ("]" ++ rest)%string with (String "]" rest) in *.
  transitivity (match pelems f (d + 1) (str_join "," (map fst (m :: l)) ++ String "]" rest)
                with Some (l0, r2) => Some (JArr l0, r2) | None => None end).
  { rewrite Er. cbn [skip_ws]. rewrite Hc.
    destruct c as [[] [] [] [] [] [] [] []]; try reflexivity. by destruct Hc'. }
  rewrite (pelems_text k); [done|done|lia|lia|lia|].
  eapply Forall_impl; [exact Hl|]. by intros ? [? _].
Qed.


(** A whole text parses to its value. *)
Lemma parse_closed k t v :
  closed_text k t v -> (k <= S (2 * String.length t))%nat -> Z.of_nat k <= maxNestingDepth ->
  parse t = Some v.
Proof.
  intros H Hk Hd. unfold parse.
  specialize (H (S (2 * String.length t)) 0 EmptyString Hk ltac:(lia) ltac:(lia)).
  rewrite str_app_nil_r in H. by rewrite H.
Qed.

(** *** Integers *)

Fixpoint all_digits (s : string) : bool :=
  match s with EmptyString => true | String c r => is_digit c && all_digits r end.

Lemma dec_digits_all f n acc :
  0 <= n -> all_digits acc = true -> all_digits (dec_digits f n acc) = true.
Proof.
  revert n acc. induction f as [|f IH]; intros n acc Hn Ha; [done|]. rewrite dec_digits_S; cbv zeta.
  assert (0 <= n mod 10 < 10) by (apply Z.mod_pos_bound; lia).
  assert (all_digits (String (digit_chr (n mod 10)) acc) = true).
  { cbn. by rewrite is_digit_chr, Ha by done. }
  destruct (n / 10 =? 0); [done|]. apply IH; [apply Z.div_pos; lia|done].
Qed.

Lemma dec_digits_nonzero f n acc :
  0 < n < 10 ^ Z.of_nat f -> exists c s, dec_digits f n acc = String c s /\ c <> "0"%char.
Proof.
  revert n acc. induction f as [|f IH]; intros n acc Hn; [cbn in Hn; lia|].
  rewrite dec_digits_S; cbv zeta. assert (0 <= n mod 10 < 10) by (apply Z.mod_pos_bound; lia).
  destruct (Z.eqb_spec (n / 10) 0) as [E|E].
  - eexists _, _; split; [done|]. intros Heq.
    assert (digit_val (digit_chr (n mod 10)) = 0) as H0 by (by rewrite Heq).
    rewrite digit_val_chr in H0 by done. euclid.
  - apply IH. rewrite Nat2Z.inj_succ, Z.pow_succ_r in Hn by lia.
    split; [|apply Z.div_lt_upper_bound; lia].
    assert (0 <= n / 10) by (apply Z.div_pos; lia). lia.
Qed.

Lemma span_digits_sep s rest :
  all_digits s = true -> at_separator rest -> span_digits (s ++ rest) = (s, rest).
Proof.
  intros Hs Hr. induction s as [|c s IH]; cbn in *.
  - destruct Hr as (c & r & -> & [-> | [-> | ->]]); reflexivity.
  - apply andb_true_iff in Hs as [-> Hs]. by rewrite IH.
Qed.

Lemma scan_digits_number c s rest :
  all_digits (String c s) = true -> (c <> "0"%char \/ s = EmptyString) -> at_separator rest ->
  scan_number (String c s ++ rest) = Some (String c s, rest).
Proof.
  intros Hs H0 Hr.
  assert (scan_int (String c s ++ rest) = Some (String c s, rest)) as Hi.
  { pose proof (span_digits_sep _ _ Hs Hr) as E. cbn in Hs. apply andb_true_iff in Hs as [Hc _].
    destruct H0 as [H0 | ->].
    - unfold scan_int. rewrite E. cbn [String.append].
      destruct c as [[] [] [] [] [] [] [] []]; try reflexivity; [by destruct H0|..].
    - cbn [String.append] in *. unfold scan_int. rewrite E.
      destruct c as [[] [] [] [] [] [] [] []]; try reflexivity. }
  unfold scan_number. cbn in Hs. apply andb_true_iff in Hs as [Hc _].
  destruct Hr as (x & r & -> & Hx).
  assert (c <> "-"%char) as Hm by (by intros ->).
  destruct c as [[] [] [] [] [] [] [] []]; try discriminate Hc;
    cbn [String.append] in *; rewrite Hi; destruct Hx as [-> | [-> | ->]]; cbn;
    rewrite ?str_app_nil_r; reflexivity.
Qed.

Lemma value_text_nat n : 0 <= n <= int64_max -> value_text 1 (FormatInt n) (JNum (FormatInt n)).
Proof.
  intros Hn f d rest Hf H0 Hd Hr. destruct f as [|f]; [lia|].
  assert (FormatInt n = dec_digits 20 n EmptyString) as E.
  { unfold FormatInt. by replace (n <? 0) with false by lia. }
  assert (exists c s, FormatInt n = String c s /\ is_digit c = true /\
            all_digits (String c s) = true /\ (c <> "0"%char \/ s = EmptyString)) as (c & s & Es & Hc & Ha & Hz).
  { destruct (dec_digits_first 19 n EmptyString ltac:(lia)) as (c & s & E' & Hc).
    exists c, s. rewrite E. split; [done|]. split; [done|]. rewrite <- E'. split; [apply dec_digits_all; [lia|done]|].
    destruct (decide (n = 0)) as [-> |]; [right|left].
    { change (dec_digits 20 0 EmptyString) with (String "0" EmptyString) in E'. congruence. }
    destruct (dec_digits_nonzero 20 n EmptyString) as (c' & s' & E2 & Hc').
    { unfold int64_max in Hn. lia. } rewrite E2 in E'. by simplify_eq. }
  rewrite Es.
  pose proof (scan_digits_number c s rest Ha Hz Hr) as Hn'.
  cbn [String.append] in *. cbn [pvalue].
  transitivity (pscalar (String c (s ++ rest))).
  { destruct c as [[] [] [] [] [] [] [] []]; try discriminate Hc; reflexivity. }
  unfold pscalar. rewrite Hn'.
  destruct c as [[] [] [] [] [] [] [] []]; try discriminate Hc; reflexivity.
Qed.

(** White space is not trimmed from a text in brackets or braces. *)
Definition enclosing (a b : ascii) : Prop := (a = "[" /\ b = "]")%char \/ (a = "{" /\ b = "}")%char.
Lemma TrimSpace_enclosed a b t :
  enclosing a b -> TrimSpace (String a (t ++ String b EmptyString)) = String a (t ++ String b EmptyString).
Proof.
  intros Hab. set (s := String a (t ++ String b EmptyString)).
  assert (trim_left utf8_spaces s = s) as E by (unfold s; destruct Hab as [[-> ->]|[-> ->]]; reflexivity).
  unfold TrimSpace. rewrite E. unfold trim_right.
  assert (str_rev s = String b (str_rev t ++ String a EmptyString)) as Er.
  { unfold s, str_rev. cbn [str_rev_app]. rewrite str_rev_app_spec.
    assert (forall x y acc, str_rev_app (x ++ y) acc = str_rev_app y (str_rev_app x acc)) as Happ.
    { induction x as [|c x IH]; intros y acc; cbn; auto. }
    unfold str_rev. rewrite Happ. reflexivity. }
  assert (trim_left (map str_rev utf8_spaces) (str_rev s) = str_rev s) as ->
    by (rewrite Er; destruct Hab as [[-> ->]|[-> ->]]; reflexivity).
  assert (forall x acc, str_rev (str_rev_app x acc) = str_rev_app acc x) as Hinv.
  { unfold str_rev. induction x as [|c x IH]; intros acc; cbn; [|by rewrite IH].
    done. }
  unfold str_rev at 2. apply Hinv.
Qed.

Lemma length_join_ge k (l : list string) :
  Forall (fun t => k <= String.length t)%nat l -> (k * length l <= String.length (str_join "," l))%nat.
Proof.
  unfold str_join. induction l as [|t l IH]; intros Hl; cbn [length]; [lia|].
  apply Forall_cons in Hl as [Ht Hl]. specialize (IH Hl). cbn [String.concat].
  destruct l as [|u l]; [cbn in *; lia|]. rewrite !str_length_app. cbn [length] in *.
  change (String.length ",") with 1%nat. lia.
Qed.
