(* ===== verification/Numbers.v ===== *)
(** * Whole numbers between text and floating point

    A decimal integer of at most 53 bits reads back as exactly that number, both as
    a JSON number and as a conversion to an integer. *)

From S2P Require Import Prelude Float64 Rounding Json Encoding.

Lemma span_all_digits s : all_digits s = true -> span_digits s = (s, EmptyString).
Proof. induction s as [|c s IH]; cbn; [done|]. intros [-> Hs]%andb_true_iff. by rewrite IH. Qed.

(** The digits of a number: no sign, no leading zero. *)
Lemma FormatInt_digits n : 0 <= n <= int64_max ->
  exists c s, FormatInt n = String c s /\ all_digits (String c s) = true /\ is_digit c = true /\ (c <> "0"%char \/ s = EmptyString).
Proof.
  intros Hn. assert (FormatInt n = dec_digits 20 n EmptyString) as -> by (unfold FormatInt; by replace (n <? 0) with false by lia).
  destruct (dec_digits_first 19 n EmptyString ltac:(lia)) as (c & s & E & Hc). exists c, s. split; [exact E|].
  rewrite <- E. split; [apply dec_digits_all; [lia|done]|]. split; [done|].
  destruct (decide (n = 0)) as [-> |]; [right|left].
  - change (dec_digits 20 0 EmptyString) with (String "0" EmptyString) in E. congruence.
  - destruct (dec_digits_nonzero 20 n EmptyString) as (c' & s' & E2 & Hc'); [unfold int64_max in Hn; lia|]. congruence.
Qed.

Lemma is_number_digits c s :
  all_digits (String c s) = true -> c <> "0"%char \/ s = EmptyString -> is_number (String c s) = true.
Proof.
  intros Ha H0. pose proof (span_all_digits _ Ha) as Es. pose proof Ha as Hc. cbn in Hc. apply andb_true_iff in Hc as [Hc _].
  assert (scan_int (String c s) = Some (String c s, EmptyString)) as Hi.
  { unfold scan_int. rewrite Es. destruct H0 as [H0| ->].
    - destruct c as [[] [] [] [] [] [] [] []]; try reflexivity; by destruct H0.
    - destruct c as [[] [] [] [] [] [] [] []]; reflexivity. }
  unfold is_number, scan_number.
  destruct c as [[] [] [] [] [] [] [] []]; try discriminate Hc; rewrite Hi; reflexivity.
Qed.

Lemma dec_digits_length f n acc : (String.length (dec_digits f n acc) <= f + String.length acc)%nat.
Proof.
  revert n acc. induction f as [|f IH]; intros n acc; [done|]. rewrite dec_digits_S; cbv zeta.
  destruct (n / 10 =? 0); [cbn; lia|]. specialize (IH (n / 10) (String (digit_chr (n mod 10)) acc)). cbn in IH. lia.
Qed.

Lemma number_of_Z n : 0 <= n < 2 ^ 53 -> forall b, of_Z n <> SpecFloat.S754_infinity b.
Proof. intros Hn b E. destruct (of_Z_exact n Hn) as [H _]. rewrite E in H. discriminate H. Qed.

Lemma scale10_Z n : 0 <= n < 2 ^ 53 -> scale10 false n 0 = Some (of_Z n).
Proof.
  intros Hn. unfold scale10. destruct (Z.eqb_spec n 0) as [->|Hz]; [done|].
  set (nd := Z.of_nat _). assert (0 <= nd <= 60) as Hnd.
  { unfold nd. pose proof (dec_digits_length (Z.to_nat (Z.log2 n + 1)) n EmptyString) as H. cbn [String.length] in H.
    assert (Z.log2 n < 53) by (apply Z.log2_lt_pow2; lia). lia. }
  replace (400 <? nd + 0) with false by lia. replace (nd + 0 <? -400) with false by lia. cbn [Z.leb Z.compare].
  rewrite Z.mul_1_r. pose proof (number_of_Z n Hn) as H. destruct (of_Z n); try reflexivity. by destruct (H s).
Qed.

Lemma number_float_FormatInt n : 0 <= n < 2 ^ 53 -> number_float (FormatInt n) = Some (of_Z n).
Proof.
  intros Hn. destruct (FormatInt_digits n ltac:(unfold int64_max; lia)) as (c & s & E & Ha & Hc & H0).
  unfold number_float. rewrite E, (is_number_digits c s Ha H0). cbn [negb].
  assert (c <> "-"%char) as Hm by (by intros ->).
  assert (forall A (x y : A), match String c s with String "-" _ => x | _ => y end = y) as Hd.
  { intros A x y. destruct c as [[] [] [] [] [] [] [] []]; try reflexivity. by destruct Hm. }
  transitivity (let '(ip, r1) := span_digits (String c s) in
                let '(fp, r2) := match r1 with String "." r' => span_digits r' | _ => (EmptyString, r1) end in
                let e := match r2 with String _ r' => fst (ParseInt r') | EmptyString => 0 end in
                match digits_val (ip ++ fp)%string 0 with
                | Some m => scale10 false m (e - Z.of_nat (String.length fp))
                | None => None
                end).
  { destruct c as [[] [] [] [] [] [] [] []]; try reflexivity. by destruct Hm. }
  rewrite (span_all_digits _ Ha). cbn [String.length]. rewrite str_app_nil_r, <- E.
  assert (FormatInt n = dec_digits 20 n EmptyString) as -> by (unfold FormatInt; by replace (n <? 0) with false by lia).
  destruct (digits_val_dec 19 n EmptyString 0) as (k & Hk & ->); [lia|]. cbn [digits_val]. rewrite Z.mul_0_l, Z.add_0_l. by apply scale10_Z.
Qed.

Lemma ftrunc_sv x z : number x = true -> 0 <= z -> sv x = z * unit_sv -> ftrunc x = z.
Proof.
  intros [Hv Hf]%number_spec Hz Hs. with_strategy transparent [sv unit_sv] (unfold sv, unit_sv in Hs).
  destruct x as [b| | |b m e]; try done; [cbn in *; lia|]. pose proof (valid_exp _ _ _ Hv) as He. cbn [ftrunc].
  assert (0 < 2 ^ (e + 2200)) by (apply Z.pow_pos_nonneg; lia). assert (0 < 2 ^ 2200) by (apply Z.pow_pos_nonneg; lia).
  assert (b = false \/ z = 0) as [ -> | -> ] by (destruct b; [right; nia|by left]).
  2: { exfalso. destruct b; nia. }
  rewrite Z.mul_1_l in Hs. destruct e as [|k|k].
  - rewrite Z.add_0_l in Hs. nia.
  - rewrite Z.pow_add_r in Hs by lia. nia.
  - assert (2 ^ 2200 = 2 ^ (Z.neg k + 2200) * 2 ^ Z.pos k) as E by (rewrite <- Z.pow_add_r by lia; f_equal; lia).
    rewrite E in Hs. assert (Z.pos m = z * 2 ^ Z.pos k) as -> by nia. apply Z.div_mul. lia.
Qed.
Lemma ftrunc_of_Z n : 0 <= n < 2 ^ 53 -> ftrunc (of_Z n) = n.
Proof. intros Hn. destruct (of_Z_exact n Hn) as [Hv Hs]. apply ftrunc_sv; [done|lia|done]. Qed.
