(* ===== verification/Ert.v ===== *)
(** * Decoding rtlamr output ([internal/ert/ert.go])

    Commodity classification and the extraction of a [Reading] from one rtlamr
    JSON line.  [time.Parse] is a parameter ([Parse layout text]); [now] is the
    clock the code reads when no timestamp parses. *)

From S2P Require Import Prelude Float64 Model Json.

Definition electricTypes : list Z := [4; 5; 7; 8; 12; 13].

Definition Commodity (t : option Z) : string :=
  match t with
  | None => "unknown"
  | Some t =>
      if bool_decide (t ∈ electricTypes) then "electric"
      else if (t =? 2) || (t =? 9) || ((156 <=? t) && (t <=? 160)) then "gas"
      else if (t =? 11) || (t =? 171) || (t =? 172) then "water"
      else "other"
  end.

Definition MsgTypeToken (msgType : string) : string :=
  if (msgType =? "SCM")%string then "scm"
  else if (msgType =? "SCM+")%string then "scm+"
  else if (msgType =? "IDM")%string then "idm"
  else if (msgType =? "NetIDM")%string then "netidm"
  else "scm".

(** The fields of an rtlamr line the decoder reads. *)
Record rtlamrLine := mkLine { l_Time : string; l_Type : string; l_Message : gmap string string }.

(** A member of [Message] decoded into a [json.Number]; [None] is an error. *)
Definition as_number (v : json) : option string :=
  match v with
  | JNum t => Some t
  | JStr s => if is_number s then Some s else None
  | JNull => Some EmptyString
  | _ => None
  end.

Definition add_number (acc : option (gmap string string)) (kv : string * json)
  : option (gmap string string) :=
  match acc, as_number kv.2 with
  | Some m, Some t => Some (<[kv.1 := t]> m)
  | _, _ => None
  end.

(** One member of the line; [None] when [json.Unmarshal] reports an error. *)
Definition set_field (acc : option rtlamrLine) (kv : string * json) : option rtlamrLine :=
  match acc with
  | None => None
  | Some l =>
      match field_match ["Time"; "Type"; "Message"] kv.1, kv.2 with
      | None, _ => Some l
      | Some f, v =>
          if (f =? "Message")%string then
            match v with
            | JObj ms => match fold_left add_number ms (Some (l_Message l)) with
                         | Some m => Some (mkLine (l_Time l) (l_Type l) m)
                         | None => None
                         end
            | JNull => Some (mkLine (l_Time l) (l_Type l) ∅)
            | _ => None
            end
          else match v with
               | JStr s => Some (if (f =? "Time")%string then mkLine s (l_Type l) (l_Message l)
                                 else mkLine (l_Time l) s (l_Message l))
               | JNull => Some l
               | _ => None
               end
      end
  end.

Definition decode_line (j : json) : option rtlamrLine :=
  match j with
  | JObj ms => fold_left set_field ms (Some (mkLine "" "" ∅))
  | JNull => Some (mkLine "" "" ∅)
  | _ => None
  end.

(** The first key that is present and whose value converts. *)
Fixpoint pick_first {A} (conv : string -> option A) (m : gmap string string) (keys : list string)
  : option A :=
  match keys with
  | [] => None
  | k :: ks => match m !! k with
               | Some v => match conv v with
                           | Some n => Some n
                           | None => pick_first conv m ks
                           end
               | None => pick_first conv m ks
               end
  end.
Definition pickInt (m : gmap string string) (keys : list string) : option Z :=
  pick_first number_int m keys.
Definition pickFloat (m : gmap string string) (keys : list string) : option float64 :=
  pick_first number_float m keys.

Definition layout_RFC3339Nano := "2006-01-02T15:04:05.999999999Z07:00".
Definition layout_RFC3339 := "2006-01-02T15:04:05Z07:00".
Definition layout_millis := "2006-01-02T15:04:05.000Z".

Section Extract.
Context (Parse : string -> string -> option time).

(** [parseTime]: the first layout that parses, else the clock. *)
Definition parseTime (now : time) (s : string) : time :=
  if is_empty s then now
  else match Parse layout_RFC3339Nano s with
       | Some t => t
       | None => match Parse layout_RFC3339 s with
                 | Some t => t
                 | None => from_opt now (Parse layout_millis s)
                 end
       end.

Definition ExtractReading (now : time) (line source : string) : option Reading :=
  match match parse line with Some j => decode_line j | None => None end with
  | None => None
  | Some l =>
      match pickInt (l_Message l) ["EndpointID"; "ID"; "ERTSerialNumber"],
            pickFloat (l_Message l) ["Consumption"; "LastConsumptionCount"; "LastConsumption"] with
      | Some id, Some cn =>
          if (cn <=? f0)%f64 then None
          else Some (mkReading (parseTime now (l_Time l)) (l_Type l) id
                       (pickInt (l_Message l) ["EndpointType"; "Type"]) (Some cn) source)
      | _, _ => None
      end
  end.
End Extract.

(** ** Lemmas *)

(** The five labels, by the codes that carry them. *)
Lemma Commodity_electric t : Commodity (Some t) = "electric" <-> t ∈ electricTypes.
Proof.
  unfold Commodity. split.
  - intros H. case_bool_decide as Hb; [done|]. repeat case_match; done.
  - intros H. by rewrite bool_decide_true.
Qed.

Lemma fold_add_number_None ms : fold_left add_number ms None = None.
Proof. induction ms as [|kv ms IH]; [done|]. exact IH. Qed.

Lemma fold_add_number_bad ms k v m :
  (k, v) ∈ ms -> as_number v = None -> fold_left add_number ms (Some m) = None.
Proof.
  intros Hin Hv. revert m. induction ms as [|kv ms IH]; intros m; [set_solver|].
  apply elem_of_cons in Hin as [<-|Hin]; cbn.
  - rewrite Hv. apply fold_add_number_None.
  - destruct (as_number kv.2); [by apply IH|apply fold_add_number_None].
Qed.

Lemma fold_set_field_None ms : fold_left set_field ms None = None.
Proof. induction ms as [|kv ms IH]; [done|]. exact IH. Qed.

Lemma decode_line_bad_message ms k v l :
  ("Message", JObj l) ∈ ms -> (k, v) ∈ l -> as_number v = None ->
  decode_line (JObj ms) = None.
Proof.
  intros Hm Hk Hv. cbn. generalize (mkLine "" "" ∅) as acc.
  induction ms as [|kv ms IH]; intros acc; [set_solver|].
  apply elem_of_cons in Hm as [<-|Hm]; cbn [fold_left].
  - cbn. erewrite fold_add_number_bad by done. apply fold_set_field_None.
  - destruct (set_field (Some acc) kv); [by apply IH|apply fold_set_field_None].
Qed.

Lemma pick_first_Some {A} (conv : string -> option A) m keys x :
  pick_first conv m keys = Some x -> exists k v, k ∈ keys /\ m !! k = Some v /\ conv v = Some x.
Proof.
  induction keys as [|k ks IH]; cbn; [done|]. intros H.
  destruct (m !! k) as [v|] eqn:Hk.
  - destruct (conv v) as [y|] eqn:Hv; [|apply IH in H as (? & ? & ? & ? & ?); set_solver].
    injection H as ->. exists k, v. set_solver.
  - apply IH in H as (? & ? & ? & ? & ?). set_solver.
Qed.

Lemma number_int_range s v : number_int s = Some v -> in_int64 v.
Proof.
  unfold number_int. destruct (ParseInt s) as [w []] eqn:E; [|done]. intros [= <-].
  assert (forall neg t, signed_digits neg t = (w, true) -> in_int64 w) as Hs.
  { intros neg t. unfold signed_digits, in_int64. destruct t; [done|].
    destruct (digits_val _ _) as [n|]; [|done]. cbv zeta.
    destruct (Z.ltb_spec (if neg then - n else n) int64_min); [done|].
    destruct (Z.ltb_spec int64_max (if neg then - n else n)); [done|].
    intros [= <-]. lia. }
  revert E. unfold ParseInt. repeat case_match; apply Hs.
Qed.

Lemma ExtractReading_inv Parse now line source r :
  ExtractReading Parse now line source = Some r ->
  exists j l cn,
    parse line = Some j /\ decode_line j = Some l /\
    pickInt (l_Message l) ["EndpointID"; "ID"; "ERTSerialNumber"] = Some (r_EndpointID r) /\
    pickFloat (l_Message l) ["Consumption"; "LastConsumptionCount"; "LastConsumption"] = Some cn /\
    (cn <=? f0)%f64 = false /\ r_Consumption r = Some cn /\
    r_MsgType r = l_Type l /\ r_TS r = parseTime Parse now (l_Time l) /\ r_Source r = source /\
    r_EndpointType r = pickInt (l_Message l) ["EndpointType"; "Type"].
Proof.
  unfold ExtractReading. destruct (parse line) as [j|] eqn:Hp; [|done].
  destruct (decode_line j) as [l|] eqn:Hd; [|done].
  destruct (pickInt _ ["EndpointID"; _; _]) as [id|] eqn:Hi; [|done].
  destruct (pickFloat _ _) as [cn|] eqn:Hf; [|done].
  destruct (cn <=? f0)%f64 eqn:Hc; [done|]. intros [= <-].
  exists j, l, cn. cbn. done.
Qed.

(** ** Properties *)

(** a line whose [Message] has any member that is not a number (an array,
    such as the interval list of an IDM packet, a boolean or an object) is
    rejected whatever its other members say: the typed decoding of [Message]
    fails as a whole. *)
Theorem ExtractReading_rejects_non_number (Parse : string -> string -> option time)
    (now : time) (line source k : string) (v : json) (ms l : list (string * json)) :
  parse line = Some (JObj ms) -> ("Message", JObj l) ∈ ms -> (k, v) ∈ l -> as_number v = None ->
  ExtractReading Parse now line source = None.
Proof.
  intros Hp Hm Hk Hv. unfold ExtractReading. rewrite Hp. by erewrite decode_line_bad_message.
Qed.

Definition idm_line : string :=
  dq "{'Time':'t','Type':'IDM','Message':{'ERTSerialNumber':17,'LastConsumptionCount':5,'DifferentialConsumptionIntervals':[1,0]}}".

Lemma ExtractReading_rejects_non_number_witness :
  parse idm_line <> None /\ ExtractReading (fun _ _ => None) 0 idm_line "s" = None.
Proof.
  split; [by vm_compute|].
  eapply (ExtractReading_rejects_non_number (fun _ _ => None) 0 idm_line "s"
            "DifferentialConsumptionIntervals" (JArr [JNum "1"; JNum "0"])).
  - vm_compute. reflexivity.
  - do 2 apply list_elem_of_further. apply list_elem_of_here.
  - do 2 apply list_elem_of_further. apply list_elem_of_here.
  - reflexivity.
Defined.

(** an accepted reading is one the decoder may store: its consumption is
    present and not [<= 0] (such a counter is a bad decode), its endpoint id is an int64 and comes from one of the three id
    members, and it is tagged with the source it was read from. *)
Theorem ExtractReading_sound (Parse : string -> string -> option time)
    (now : time) (line source : string) (r : Reading) :
  ExtractReading Parse now line source = Some r ->
  in_int64 (r_EndpointID r) /\ r_Source r = source /\
  exists c, r_Consumption r = Some c /\ (c <=? f0)%f64 = false.
Proof.
  intros H. apply ExtractReading_inv in H as (j & l & cn & _ & _ & Hi & _ & Hc & Hr & _ & _ & Hs & _).
  apply pick_first_Some in Hi as (k & v & _ & _ & Hv).
  split; [by eapply number_int_range|]. eauto.
Qed.

Definition scm_line : string :=
  dq "{'Time':'x','Type':'SCM','Message':{'ID':18273645,'Type':4,'Consumption':100012}}".
Definition scm_reading : Reading :=
  mkReading 77 "SCM" 18273645 (Some 4) (Some (of_Z 100012)) "dev0".

Lemma ExtractReading_sound_witness :
  ExtractReading (fun _ _ => None) 77 scm_line "dev0" = Some scm_reading /\
  in_int64 (r_EndpointID scm_reading) /\ r_Source scm_reading = "dev0" /\
  exists c, r_Consumption scm_reading = Some c /\ (c <=? f0)%f64 = false.
Proof.
  assert (ExtractReading (fun _ _ => None) 77 scm_line "dev0" = Some scm_reading) as H
    by (vm_compute; reflexivity).
  split; [exact H|]. exact (ExtractReading_sound _ _ _ _ _ H).
Defined.
