(* ===== verification/Mock.v ===== *)
(** * The synthetic packets ([cmd/capture/mock.go])

    What a capture without a radio ingests: the dials of six meters, a line of
    rtlamr JSON for each at every instant, one in twenty lost at random, three
    hours of past instants first.  The draws of the generator are an argument.
    [%.0f] is the value rounded to an integer, ties to the even one. *)

From S2P Require Import Prelude Float64 Rounding Model Calendar Json Encoding Numbers Ert.

Record mockMeter := mkMock { mk_id : Z; mk_msg : string; mk_etype : Z; mk_base : float64; mk_rate : float64 }.
Definition mockMeters : list mockMeter := [
  mkMock 18273645 "SCM" 4 (of_Z 100000) (lit 8 10); mkMock 27384956 "SCM+" 7 (of_Z 200000) (lit 15 10);
  mkMock 39485012 "SCM" 4 (of_Z 300000) (lit 4 10); mkMock 48576123 "IDM" 4 (of_Z 400000) (lit 22 10);
  mkMock 55512345 "SCM" 2 (of_Z 50000) (lit 2 10); mkMock 66698765 "SCM" 11 (of_Z 80000) (lit 1 10)].

Definition mockSpikeID : Z := 18273645.
Definition mockSpikeRate : float64 := of_Z 30.
Definition mockSpikeLoMin : float64 := of_Z 60.
Definition mockSpikeHiMin : float64 := of_Z 150.

Definition clamp (v lo hi : float64) : float64 := if (v <? lo)%f64 then lo else if (hi <? v)%f64 then hi else v.
Definition mockConsumption (m : mockMeter) (elapsedMin : float64) : float64 :=
  let v := (mk_base m + mk_rate m * elapsedMin)%f64 in
  if mk_id m =? mockSpikeID then
    let on := (clamp elapsedMin mockSpikeLoMin mockSpikeHiMin - mockSpikeLoMin)%f64 in
    if (f0 <? on)%f64 then (v + (mockSpikeRate - mk_rate m) * on)%f64 else v
  else v.

(** [%.0f]. *)
Definition half_even (m : positive) (e : Z) : Z :=
  if 0 <=? e then Z.pos m * 2 ^ e
  else let d := 2 ^ (- e) in
       let q := Z.pos m / d in let r := Z.pos m mod d in
       if (2 * r <? d) || ((2 * r =? d) && Z.even q) then q else q + 1.
Definition fixed0 (x : float64) : string :=
  match x with
  | SpecFloat.S754_zero s => if s then "-0" else "0"
  | SpecFloat.S754_infinity s => if s then "-Inf" else "+Inf"
  | SpecFloat.S754_nan => "NaN"
  | SpecFloat.S754_finite s m e => ((if s then "-" else "") ++ FormatInt (half_even m e))%string
  end.

(** The layout ["2006-01-02T15:04:05.000Z"]: three digits of the second. *)
Definition pad3 (n : Z) : string := String (digit_chr (n / 100 mod 10)) (pad2 n).
Definition format_millis (t : time) : string :=
  (date_text (t / Day) ++ "T" ++ clock_text (t mod Day / Second) ++ "." ++ pad3 (t mod Second / 1000000) ++ "Z")%string.

Definition mockLine (m : mockMeter) (val : float64) (ts : time) : string :=
  let t := format_millis ts in
  if (mk_msg m =? "SCM+")%string then
    (dq "{'Time':'" ++ t ++ dq "','Type':'SCM+','Message':{'EndpointID':" ++ FormatInt (mk_id m)
       ++ dq ",'EndpointType':" ++ FormatInt (mk_etype m) ++ dq ",'Consumption':" ++ fixed0 val ++ "}}")%string
  else if (mk_msg m =? "IDM")%string then
    (dq "{'Time':'" ++ t ++ dq "','Type':'IDM','Message':{'ERTSerialNumber':" ++ FormatInt (mk_id m)
       ++ dq ",'LastConsumptionCount':" ++ fixed0 val ++ "}}")%string
  else
    (dq "{'Time':'" ++ t ++ dq "','Type':'SCM','Message':{'ID':" ++ FormatInt (mk_id m)
       ++ dq ",'Type':" ++ FormatInt (mk_etype m) ++ dq ",'Consumption':" ++ fixed0 val ++ "}}")%string.

(** [emit]: the lines of one instant, and the draws left. *)
Fixpoint emit_meters (ms : list mockMeter) (el : float64) (ts : time) (draws : list float64) : list string * list float64 :=
  match ms with
  | [] => ([], draws)
  | m :: ms' =>
      let '(lines, rest) := emit_meters ms' el ts (tail draws) in
      if (hd f1 draws <? lit 5 100)%f64 then (lines, rest)
      else (mockLine m (mockConsumption m el) ts :: lines, rest)
  end.
Definition emit (start ts : time) (draws : list float64) : list string * list float64 :=
  emit_meters mockMeters (Minutes (Sub ts start)) ts draws.
(** The instants of the backfill, every 30 seconds until the clock. *)
Fixpoint mock_ticks (n : nat) (ts fin : time) : list time :=
  match n with
  | O => []
  | S n' => if ts <? fin then ts :: mock_ticks n' (Add ts (30 * Second)) fin else []
  end.
Fixpoint emit_all (start : time) (tss : list time) (draws : list float64) : list string * list float64 :=
  match tss with
  | [] => ([], draws)
  | ts :: tss' => let '(l, draws) := emit start ts draws in
                  let '(l', draws) := emit_all start tss' draws in ((l ++ l')%list, draws)
  end.
(** [mockStream]: the backfill runs until its instant meets the clock, [fin]; the
    live instants follow. *)
Definition mockStream (start fin : time) (live : list time) (draws : list float64) : list string :=
  fst (emit_all start (mock_ticks (S (Z.to_nat ((fin - start) / (30 * Second)))) start fin ++ live)%list draws).

Example mock_lines :
  map (fun m => mockLine m (mockConsumption m (of_Z 100)) 1700000000123000000) (take 2 mockMeters) =
  [dq "{'Time':'2023-11-14T22:13:20.123Z','Type':'SCM','Message':{'ID':18273645,'Type':4,'Consumption':101248}}";
   dq "{'Time':'2023-11-14T22:13:20.123Z','Type':'SCM+','Message':{'EndpointID':27384956,'EndpointType':7,'Consumption':200150}}"].
Proof. vm_compute. reflexivity. Qed.

(** ** A line is a packet *)

(** Texts [json.Marshal] writes unchanged. *)
Definition plain (c : ascii) : bool :=
  let b := byte_of c in (32 <=? b) && (b <? 128) && negb ((b =? 34) || (b =? 92) || (b =? 60) || (b =? 62) || (b =? 38)).
Lemma escape_plain s n : (String.length s <= n)%nat -> all_chars plain s = true -> escape n s = s.
Proof.
  revert n. induction s as [|c s IH]; intros [|n] Hn; cbn [String.length] in Hn; [done|done|lia|].
  intros [Hc Hs]%andb_true_iff. unfold plain in Hc. cbn [escape].
  replace (byte_of c <? 128) with true by lia. rewrite IH by (done || lia). unfold escape_ascii.
  destruct (_ || _) eqn:E; [lia|]. repeat (match goal with |- context [if ?b then _ else _] => destruct b eqn:?; [lia|] end). done.
Qed.
Lemma marshal_plain s : all_chars plain s = true -> marshal_string s = (quote ++ s ++ quote)%string.
Proof. intros H. unfold marshal_string. by rewrite escape_plain. Qed.
Lemma plain_ascii s : all_chars plain s = true -> all_ascii s = true.
Proof.
  induction s as [|c s IH]; cbn; [done|]. intros [Hc Hs]%andb_true_iff. rewrite IH, andb_true_r by done.
  unfold plain in Hc. unfold is_ascii. lia.
Qed.

Lemma plain_digit d : plain (digit_chr (d mod 10)) = true.
Proof.
  pose proof (Z.mod_pos_bound d 10 ltac:(lia)). unfold plain, digit_chr. rewrite !byte_of_chr by lia. lia.
Qed.
Lemma plain_pad2 n : all_chars plain (pad2 n) = true.
Proof. unfold pad2. cbn [all_chars]. by rewrite !plain_digit. Qed.
Lemma plain_millis t : all_chars plain (format_millis t) = true.
Proof.
  unfold format_millis, date_text, clock_text, pad3, pad4. destruct (civil_from_days _) as [[y m] d].
  rewrite !all_chars_app. cbn [all_chars]. rewrite ?all_chars_app, !plain_pad2, plain_digit. reflexivity.
Qed.

(** The members of a packet, by type. *)
Definition mock_fields (m : mockMeter) (n : Z) : list (string * (string * json)) :=
  let int k v := (k, (FormatInt v, JNum (FormatInt v))) in
  if (mk_msg m =? "SCM+")%string then [int "EndpointID" (mk_id m); int "EndpointType" (mk_etype m); int "Consumption" n]
  else if (mk_msg m =? "IDM")%string then [int "ERTSerialNumber" (mk_id m); int "LastConsumptionCount" n]
  else [int "ID" (mk_id m); int "Type" (mk_etype m); int "Consumption" n].
Definition mock_type (m : mockMeter) : string :=
  if (mk_msg m =? "SCM+")%string then "SCM+" else if (mk_msg m =? "IDM")%string then "IDM" else "SCM".
Definition mock_members (m : mockMeter) (n : Z) (ts : time) : list (string * (string * json)) :=
  [("Time", (marshal_string (format_millis ts), JStr (format_millis ts)));
   ("Type", (marshal_string (mock_type m), JStr (mock_type m)));
   ("Message", (marshal_object (texts_of (mock_fields m n)), JObj (values_of (mock_fields m n))))].

Lemma mockLine_members m val n ts :
  fixed0 val = FormatInt n -> mockLine m val ts = marshal_object (texts_of (mock_members m n ts)).
Proof.
  intros E. unfold mockLine, mock_members, mock_fields, mock_type. rewrite E.
  destruct (mk_msg m =? "SCM+")%string; [|destruct (mk_msg m =? "IDM")%string];
    unfold marshal_object; cbn [texts_of map fst snd str_join String.concat]; unfold marshal_member; cbn [fst snd];
    rewrite (marshal_plain (format_millis ts)) by apply plain_millis; rewrite <- !str_app_assoc; reflexivity.
Qed.

(** A meter whose fields are 64-bit. *)
Definition mock_ok (m : mockMeter) : Prop :=
  0 <= mk_id m <= int64_max /\ 0 <= mk_etype m <= int64_max /\ mk_msg m ∈ ["SCM"; "SCM+"; "IDM"].

Lemma mock_fields_text m n : mock_ok m -> 0 <= n <= int64_max ->
  Forall (fun f => all_ascii f.1 = true /\ value_text 1 f.2.1 f.2.2) (mock_fields m n) /\
  mock_fields m n <> [] /\ (length (mock_fields m n) <= 3)%nat.
Proof.
  intros (Hid & Het & _) Hn. unfold mock_fields.
  destruct (mk_msg m =? "SCM+")%string; [|destruct (mk_msg m =? "IDM")%string];
    (split; [repeat (apply Forall_cons; split; [split; [reflexivity|by apply value_text_nat]|]); by apply Forall_nil|
             split; [done|cbn; lia]]).
Qed.
Lemma parse_mockLine m val n ts : mock_ok m -> 0 <= n <= int64_max -> fixed0 val = FormatInt n ->
  parse (mockLine m val ts) = Some (JObj (values_of (mock_members m n ts))).
Proof.
  intros Hm Hn E. rewrite (mockLine_members m val n ts E).
  destruct (mock_fields_text m n Hm Hn) as (Hf & Hne & Hl).
  assert (value_text 5 (marshal_object (texts_of (mock_fields m n))) (JObj (values_of (mock_fields m n)))) as Ho.
  { eapply value_text_mono; [|apply closed_value_text, (closed_text_object 1); [exact Hne|exact Hf]]. lia. }
  assert (Forall (fun f => all_ascii f.1 = true /\ value_text 5 f.2.1 f.2.2) (mock_members m n ts)) as Hall.
  { repeat (apply Forall_cons; split); [..|by apply Forall_nil]; cbn [fst snd]; (split; [reflexivity|]).
    - eapply value_text_mono; [|apply value_text_string, plain_ascii, plain_millis]. lia.
    - eapply value_text_mono; [|apply value_text_string]; [lia|]. unfold mock_type. repeat destruct (_ =? _)%string; reflexivity.
    - exact Ho. }
  apply (parse_closed (S (3 + 5))); [exact (closed_text_object 5 (mock_members m n ts) ltac:(done) Hall)| |vm_compute; discriminate].
  unfold marshal_object. rewrite str_length_app. cbn [texts_of mock_members map fst snd str_join String.concat].
  unfold marshal_member. cbn [fst snd].
  rewrite !str_length_app. change (String.length (marshal_string "Time")) with 6%nat. lia.
Qed.

Lemma decode_mock t ty fs :
  decode_line (JObj [("Time", JStr t); ("Type", JStr ty); ("Message", JObj fs)]) =
  option_map (mkLine t ty) (fold_left add_number fs (Some ∅)).
Proof.
  cbn [decode_line fold_left]. unfold set_field at 3. cbn [fst snd].
  assert (field_match ["Time"; "Type"; "Message"] "Time" = Some "Time") as -> by (vm_compute; reflexivity).
  cbn [fst snd String.eqb Ascii.eqb Bool.eqb]. unfold set_field at 2. cbn [fst snd].
  assert (field_match ["Time"; "Type"; "Message"] "Type" = Some "Type") as -> by (vm_compute; reflexivity).
  cbn [fst snd String.eqb Ascii.eqb Bool.eqb]. unfold set_field. cbn [fst snd].
  assert (field_match ["Time"; "Type"; "Message"] "Message" = Some "Message") as -> by (vm_compute; reflexivity).
  cbn [l_Time l_Type l_Message]. by destruct (fold_left add_number fs (Some ∅)).
Qed.

(** A synthetic line is a packet: for every 64-bit meter of the three types,
    every instant and every value that prints as a positive integer below 2^53, the
    decoder of the ingest loop reads back the meter's id and type, its endpoint type
    unless the message is an [IDM], and exactly the printed integer; the time is
    what the layouts of the decoder make of the printed milliseconds. *)
Theorem mock_line_decodes (Parse : string -> string -> option time) (now ts : time) (m : mockMeter) (val : float64)
    (n : Z) (source : string) :
  mock_ok m -> fixed0 val = FormatInt n -> 1 <= n < 2 ^ 53 ->
  ExtractReading Parse now (mockLine m val ts) source =
  Some (mkReading (parseTime Parse now (format_millis ts)) (mk_msg m) (mk_id m)
          (if (mk_msg m =? "IDM")%string then None else Some (mk_etype m)) (Some (of_Z n)) source).
Proof.
  intros Hm E Hn. pose proof Hm as (Hid & Het & Hmsg).
  assert (0 <= n <= int64_max) as Hn' by (unfold int64_max; lia).
  unfold ExtractReading. rewrite (parse_mockLine m val n ts Hm Hn' E).
  assert (number_int (FormatInt (mk_id m)) = Some (mk_id m) /\ number_int (FormatInt (mk_etype m)) = Some (mk_etype m)) as [Ei Ee]
    by (unfold number_int; rewrite !ParseInt_FormatInt by (unfold in_int64, int64_min; lia); done).
  assert (number_float (FormatInt n) = Some (of_Z n)) as En by (apply number_float_FormatInt; lia).
  assert ((of_Z n <=? f0)%f64 = false) as Epos.
  { destruct (of_Z_exact n ltac:(lia)) as [Hnum Hsv]. pose proof Hnum as [Hv Hf]%number_spec.
    destruct (of_Z n <=? f0)%f64 eqn:El; [|done]. apply sv_le in El; [|done..]. rewrite Hsv in El.
    change (sv f0) with 0 in El. assert (0 < unit_sv) by fcomp. nia. }
  unfold mock_members, mock_fields, mock_type. revert Ei Ee En Epos.
  generalize (FormatInt (mk_id m)) as si, (FormatInt (mk_etype m)) as se, (FormatInt n) as sn, (of_Z n) as x, (format_millis ts) as t.
  intros si se sn x t Ei Ee En Epos.
  rewrite !elem_of_cons, elem_of_nil in Hmsg. destruct Hmsg as [->|[->|[->|[]]]];
    repeat (match goal with |- context [(?a =? ?b)%string] =>
              let v := eval vm_compute in (a =? b)%string in change (a =? b)%string with v end);
    cbv iota;
    cbn [values_of map fst snd]; rewrite decode_mock; cbn [fold_left add_number as_number fst snd option_map];
    unfold pickInt, pickFloat; cbn [pick_first l_Message l_Type l_Time];
    repeat first [rewrite lookup_insert_eq | rewrite lookup_insert_ne by discriminate | rewrite lookup_empty];
    rewrite ?Ei, ?Ee, ?En, ?Epos; reflexivity.
Qed.

Definition gas_meter : mockMeter := mkMock 55512345 "SCM" 2 (of_Z 50000) (lit 2 10).
Lemma mock_line_decodes_witness :
  mockConsumption gas_meter (of_Z 7) = (of_Z 50000 + lit 2 10 * of_Z 7)%f64 /\
  ExtractReading (fun _ _ => Some 5) 0 (mockLine gas_meter (mockConsumption gas_meter (of_Z 7)) 0) "mock-0" =
  Some (mkReading 5 "SCM" 55512345 (Some 2) (Some (of_Z 50001)) "mock-0").
Proof.
  split; [reflexivity|].
  apply (mock_line_decodes (fun _ _ => Some 5) 0 0 gas_meter (mockConsumption gas_meter (of_Z 7)) 50001 "mock-0").
  - split; [|split]; [vm_compute; split; discriminate..|left].
  - vm_compute. reflexivity.
  - lia.
Defined.
