(* ===== verification/Store.v ===== *)
(** * The database and the statements that run on it

    The tables of [internal/db/schema.go] as records and maps, and the monad in
    which the data layer and the services are written.  A statement reads and
    writes the [DB] atomically; the oracle [w_faults] says which statements fail
    (a lost connection, a server error), and a failing statement changes
    nothing.  A column the writers never leave NULL has no [option]. *)

From S2P Require Import Prelude Float64 Model.

(** A row of [meter_index]. *)
Record IndexRow := mkIndex {
  ix_msg_type : string;
  ix_endpoint_type : option Z;
  ix_first_seen : time;
  ix_last_seen : time;
  ix_packets : Z;
  ix_min_consumption : option float64;
  ix_max_consumption : option float64;
  ix_last_consumption : option float64;
  ix_last_consumption_ts : time
}.

(** A row of [meter_source]. *)
Record SourceRow := mkSource { ms_packets : Z; ms_last_seen : time }.

(** A row of [meters]: the annotations of an endpoint. *)
Record MeterRow := mkMeterRow {
  mr_label : option string;
  mr_notes : option string;
  mr_is_candidate : option bool;
  mr_is_mine : option bool;
  mr_ignored : option bool;
  mr_publish : option bool;
  mr_pub_name : option string;
  mr_pub_multiplier : option float64;
  mr_pub_unit : option string
}.

(** The column defaults of [meters]. *)
Definition default_MeterRow : MeterRow :=
  mkMeterRow None None (Some false) (Some false) (Some false) (Some false) None (Some f1) None.

(** A row of [sdr_devices]. *)
Record DeviceRow := mkDevice {
  sd_dev_index : Z; sd_name : string; sd_tuner : string;
  sd_first_seen : time; sd_last_seen : time
}.

(** A row of [capture_heartbeat]. *)
Record Heartbeat := mkHeartbeat { hb_last_ts : time; hb_total_count : Z; hb_updated_at : time }.

(** A row of [test_windows]. *)
Record WindowRow := mkWindow {
  tt_label : string;
  tt_start_ts : time;
  tt_end_ts : option time;
  tt_source : string;
  tt_known_load_w : option float64;
  tt_known_entity_id : option string;
  tt_snoop_k : option Z
}.

(** A row of [publish_status]. *)
Record PubStatus := mkPubStatus {
  LastPublishTS : option time; LastError : option string; UpdatedAt : option time
}.

(** A row of [reference_samples] and of [hvac_samples]. *)
Record RefSample := mkRefSample {
  rs_ts : time; rs_entity_id : string; rs_power_w : float64; rs_src : string
}.
Record HvacSample := mkHvacSample {
  hs_ts : time; hs_entity_id : string; hs_action : string; hs_src : string
}.

(** The tables.  The rowsets of [readings] and of the sample tables are lists in
    insertion order; a table with a primary key is a finite map; [notifications]
    is what [pg_notify] has sent: channel and payload, oldest first.  The
    real-time continuous aggregates are functions of [readings]. *)
Record DB := mkDB {
  readings : list (Reading * string);
  meter_index : gmap Z IndexRow;
  meter_source : gmap (Z * string) SourceRow;
  meters : gmap Z MeterRow;
  settings : gmap string string;
  reference_samples : list RefSample;
  hvac_samples : list HvacSample;
  utility_energy : gmap (string * string * Z) float64;
  test_windows : gmap Z WindowRow;
  next_window_id : Z;
  publish_status : gmap Z PubStatus;
  capture_heartbeat : gmap string Heartbeat;
  sdr_devices : gmap string DeviceRow;
  notifications : list (string * string)
}.

Definition empty_DB : DB :=
  mkDB [] ∅ ∅ ∅ ∅ [] [] ∅ ∅ 1 ∅ ∅ ∅ [].

(** Updates of one table. *)
Definition set_readings v (d : DB) : DB :=
  mkDB v (meter_index d) (meter_source d) (meters d) (settings d) (reference_samples d)
    (hvac_samples d) (utility_energy d) (test_windows d) (next_window_id d) (publish_status d)
    (capture_heartbeat d) (sdr_devices d) (notifications d).
Definition set_meter_index v (d : DB) : DB :=
  mkDB (readings d) v (meter_source d) (meters d) (settings d) (reference_samples d)
    (hvac_samples d) (utility_energy d) (test_windows d) (next_window_id d) (publish_status d)
    (capture_heartbeat d) (sdr_devices d) (notifications d).
Definition set_meter_source v (d : DB) : DB :=
  mkDB (readings d) (meter_index d) v (meters d) (settings d) (reference_samples d)
    (hvac_samples d) (utility_energy d) (test_windows d) (next_window_id d) (publish_status d)
    (capture_heartbeat d) (sdr_devices d) (notifications d).
Definition set_meters v (d : DB) : DB :=
  mkDB (readings d) (meter_index d) (meter_source d) v (settings d) (reference_samples d)
    (hvac_samples d) (utility_energy d) (test_windows d) (next_window_id d) (publish_status d)
    (capture_heartbeat d) (sdr_devices d) (notifications d).
Definition set_settings v (d : DB) : DB :=
  mkDB (readings d) (meter_index d) (meter_source d) (meters d) v (reference_samples d)
    (hvac_samples d) (utility_energy d) (test_windows d) (next_window_id d) (publish_status d)
    (capture_heartbeat d) (sdr_devices d) (notifications d).
Definition set_reference_samples v (d : DB) : DB :=
  mkDB (readings d) (meter_index d) (meter_source d) (meters d) (settings d) v (hvac_samples d)
    (utility_energy d) (test_windows d) (next_window_id d) (publish_status d) (capture_heartbeat
    d) (sdr_devices d) (notifications d).
Definition set_hvac_samples v (d : DB) : DB :=
  mkDB (readings d) (meter_index d) (meter_source d) (meters d) (settings d) (reference_samples
    d) v (utility_energy d) (test_windows d) (next_window_id d) (publish_status d)
    (capture_heartbeat d) (sdr_devices d) (notifications d).
Definition set_utility_energy v (d : DB) : DB :=
  mkDB (readings d) (meter_index d) (meter_source d) (meters d) (settings d) (reference_samples
    d) (hvac_samples d) v (test_windows d) (next_window_id d) (publish_status d)
    (capture_heartbeat d) (sdr_devices d) (notifications d).
Definition set_test_windows v (d : DB) : DB :=
  mkDB (readings d) (meter_index d) (meter_source d) (meters d) (settings d) (reference_samples
    d) (hvac_samples d) (utility_energy d) v (next_window_id d) (publish_status d)
    (capture_heartbeat d) (sdr_devices d) (notifications d).
Definition set_next_window_id v (d : DB) : DB :=
  mkDB (readings d) (meter_index d) (meter_source d) (meters d) (settings d) (reference_samples
    d) (hvac_samples d) (utility_energy d) (test_windows d) v (publish_status d)
    (capture_heartbeat d) (sdr_devices d) (notifications d).
Definition set_publish_status v (d : DB) : DB :=
  mkDB (readings d) (meter_index d) (meter_source d) (meters d) (settings d) (reference_samples
    d) (hvac_samples d) (utility_energy d) (test_windows d) (next_window_id d) v
    (capture_heartbeat d) (sdr_devices d) (notifications d).
Definition set_capture_heartbeat v (d : DB) : DB :=
  mkDB (readings d) (meter_index d) (meter_source d) (meters d) (settings d) (reference_samples
    d) (hvac_samples d) (utility_energy d) (test_windows d) (next_window_id d) (publish_status
    d) v (sdr_devices d) (notifications d).
Definition set_sdr_devices v (d : DB) : DB :=
  mkDB (readings d) (meter_index d) (meter_source d) (meters d) (settings d) (reference_samples
    d) (hvac_samples d) (utility_energy d) (test_windows d) (next_window_id d) (publish_status
    d) (capture_heartbeat d) v (notifications d).
Definition set_notifications v (d : DB) : DB :=
  mkDB (readings d) (meter_index d) (meter_source d) (meters d) (settings d) (reference_samples
    d) (hvac_samples d) (utility_energy d) (test_windows d) (next_window_id d) (publish_status
    d) (capture_heartbeat d) (sdr_devices d) v.

(** ** The monad *)

Inductive result (A : Type) := Ok (a : A) | Err (msg : string).
Arguments Ok {A} _.
Arguments Err {A} _.

Definition is_ok {A} (r : result A) : bool := match r with Ok _ => true | Err _ => false end.

(** The database, the clock during the operation, and the fault oracle: the
    next statement fails when its head is [true]. *)
Record World := mkWorld { w_db : DB; w_now : time; w_faults : list bool }.

Definition M (A : Type) : Type := World -> result A * World.

#[export] Instance M_ret : MRet M := fun A a w => (Ok a, w).
#[export] Instance M_bind : MBind M := fun A B f m w =>
  match m w with
  | (Ok a, w') => f a w'
  | (Err e, w') => (Err e, w')
  end.

Definition fail {A} (e : string) : M A := fun w => (Err e, w).
Definition now : M time := fun w => (Ok (w_now w), w).

(** One statement: it fails by the oracle, or by its own [Err], and then the
    database is as before. *)
Definition statement {A} (f : DB -> time -> result (A * DB)) : M A := fun w =>
  match w_faults w with
  | true :: fs => (Err "statement failed", mkWorld (w_db w) (w_now w) fs)
  | _ => let fs := tail (w_faults w) in
         match f (w_db w) (w_now w) with
         | Ok (a, d') => (Ok a, mkWorld d' (w_now w) fs)
         | Err e => (Err e, mkWorld (w_db w) (w_now w) fs)
         end
  end.

(** [pool.Exec] of a statement that cannot fail by itself, [pool.Query], and
    [pool.QueryRow(...).Scan(...)]: no row is an error. *)
Definition exec (f : DB -> time -> DB) : M unit := statement (fun d t => Ok (tt, f d t)).
Definition query {A} (f : DB -> time -> A) : M A := statement (fun d t => Ok (f d t, d)).
Definition queryRow {A} (f : DB -> time -> option A) : M A :=
  statement (fun d t => match f d t with
                        | Some a => Ok (a, d)
                        | None => Err "no rows in result set"
                        end).

(** The error of [m] as a value ([if err := m; err != nil]), and [_ = m]. *)
Definition try {A} (m : M A) : M (result A) := fun w => let '(r, w') := m w in (Ok r, w').
Definition ignore {A} (m : M A) : M unit := fun w => let '(_, w') := m w in (Ok tt, w').

(** A loop over a list, stopping at the first error. *)
Fixpoint forM {A} (l : list A) (f : A -> M unit) : M unit :=
  match l with
  | [] => mret tt
  | x :: l' => f x ;; forM l' f
  end.
Fixpoint mapM_ {A B} (f : A -> M B) (l : list A) : M (list B) :=
  match l with
  | [] => mret []
  | x :: l' => y ← f x; ys ← mapM_ f l'; mret (y :: ys)
  end.

(** Runs of an operation. *)
Definition run {A} (m : M A) (w : World) : result A * World := m w.
Definition db_after {A} (m : M A) (w : World) : DB := w_db (snd (m w)).
Definition no_faults (w : World) : Prop := Forall (fun b => b = false) (w_faults w).

(** ** Laws *)

(** [P] holds of the database whatever fails, if every statement keeps it. *)
Definition keeps (P : DB -> Prop) {A} (m : M A) : Prop :=
  forall w, P (w_db w) -> P (w_db (snd (m w))).

Lemma keeps_ret P A (a : A) : keeps P (mret a : M A).
Proof. by intros w Hw. Qed.

Lemma keeps_fail P A (e : string) : keeps P (fail e : M A).
Proof. by intros w Hw. Qed.

Lemma keeps_bind P A B (m : M A) (f : A -> M B) :
  keeps P m -> (forall a, keeps P (f a)) -> keeps P (m ≫= f).
Proof.
  intros Hm Hf w Hw. specialize (Hm w Hw). unfold mbind, M_bind.
  destruct (m w) as [[a|e] w']; cbn in *; [by apply Hf|done].
Qed.

Lemma keeps_ignore P A (m : M A) : keeps P m -> keeps P (ignore m).
Proof. intros Hm w Hw. specialize (Hm w Hw). unfold ignore. by destruct (m w). Qed.

Lemma keeps_try P A (m : M A) : keeps P m -> keeps P (try m).
Proof. intros Hm w Hw. specialize (Hm w Hw). unfold try. by destruct (m w). Qed.

Lemma keeps_statement P A (f : DB -> time -> result (A * DB)) :
  (forall d t a d', P d -> f d t = Ok (a, d') -> P d') -> keeps P (statement f).
Proof.
  intros Hf w Hw. unfold statement.
  destruct (w_faults w) as [|[] fs]; cbn; try done;
    destruct (f (w_db w) (w_now w)) as [[a d']|e] eqn:E; cbn; eauto.
Qed.

Lemma keeps_exec P f : (forall d t, P d -> P (f d t)) -> keeps P (exec f).
Proof. intros Hf. apply keeps_statement. intros d t a d' Hd [= _ <-]. auto. Qed.

Lemma keeps_query P A (f : DB -> time -> A) : keeps P (query f).
Proof. apply keeps_statement. by intros d t a d' Hd [= _ <-]. Qed.

Lemma keeps_queryRow P A (f : DB -> time -> option A) : keeps P (queryRow f).
Proof. apply keeps_statement. intros d t a d' Hd H. by destruct (f d t); simplify_eq. Qed.

Lemma keeps_now P : keeps P now.
Proof. by intros w Hw. Qed.

Lemma keeps_forM P A (l : list A) (f : A -> M unit) :
  (forall a, a ∈ l -> keeps P (f a)) -> keeps P (forM l f).
Proof.
  induction l as [|x l IH]; intros H; cbn; [apply keeps_ret|].
  apply keeps_bind; [apply H; set_solver|intros _; apply IH; set_solver].
Qed.

#[export] Hint Resolve keeps_ret keeps_fail keeps_bind keeps_ignore keeps_try keeps_query
  keeps_queryRow keeps_now keeps_forM : winnow.

(** Without faults a statement runs. *)
Lemma statement_ok A (f : DB -> time -> result (A * DB)) w :
  no_faults w ->
  statement f w = match f (w_db w) (w_now w) with
                  | Ok (a, d') => (Ok a, mkWorld d' (w_now w) (tail (w_faults w)))
                  | Err e => (Err e, mkWorld (w_db w) (w_now w) (tail (w_faults w)))
                  end.
Proof.
  intros H. unfold statement. destruct (w_faults w) as [|[] fs] eqn:E; [done| |done].
  unfold no_faults in H. rewrite E in H. by apply Forall_cons in H as [? _].
Qed.

Lemma exec_ok f w :
  no_faults w -> exec f w = (Ok tt, mkWorld (f (w_db w) (w_now w)) (w_now w) (tail (w_faults w))).
Proof. intros H. unfold exec. by rewrite statement_ok. Qed.

Lemma query_ok A (f : DB -> time -> A) w :
  no_faults w ->
  query f w = (Ok (f (w_db w) (w_now w)), mkWorld (w_db w) (w_now w) (tail (w_faults w))).
Proof. intros H. unfold query. by rewrite statement_ok. Qed.

(** Statement [n] from here on (the first is 0) fails. *)
Definition fails (n : nat) (w : World) : bool := nth n (w_faults w) false.

(** Under any faults: what the oracle says of the next statement decides. *)
Lemma statement_oracle A (f : DB -> time -> result (A * DB)) w :
  statement f w =
  if fails 0 w then (Err "statement failed", mkWorld (w_db w) (w_now w) (tail (w_faults w)))
  else match f (w_db w) (w_now w) with
       | Ok (a, d') => (Ok a, mkWorld d' (w_now w) (tail (w_faults w)))
       | Err e => (Err e, mkWorld (w_db w) (w_now w) (tail (w_faults w)))
       end.
Proof. unfold statement, fails. by destruct (w_faults w) as [|[] fs]. Qed.

Lemma exec_oracle f w :
  exec f w = ((if fails 0 w then Err "statement failed" else Ok tt),
              mkWorld (if fails 0 w then w_db w else f (w_db w) (w_now w)) (w_now w) (tail (w_faults w))).
Proof. unfold exec. rewrite statement_oracle. by destruct (fails 0 w). Qed.

Lemma query_oracle A (f : DB -> time -> A) w :
  query f w = ((if fails 0 w then Err "statement failed" else Ok (f (w_db w) (w_now w))),
               mkWorld (w_db w) (w_now w) (tail (w_faults w))).
Proof. unfold query. rewrite statement_oracle. by destruct (fails 0 w). Qed.

Lemma fails_tail n d t w : fails n (mkWorld d t (tail (w_faults w))) = fails (S n) w.
Proof. unfold fails. cbn. by destruct (w_faults w); destruct n. Qed.

Lemma no_faults_tail d t w : no_faults w -> no_faults (mkWorld d t (tail (w_faults w))).
Proof.
  unfold no_faults. cbn. destruct (w_faults w); cbn; [done|]. by intros [_ ?]%Forall_cons.
Qed.
#[export] Hint Resolve no_faults_tail : winnow.

(** An operation consumes the fault oracle but never adds to it, nor moves the
    clock. *)
Definition faultless {A} (m : M A) : Prop :=
  forall w, no_faults w -> no_faults (snd (m w)) /\ w_now (snd (m w)) = w_now w.

Lemma faultless_ret A (a : A) : faultless (mret a : M A).
Proof. by intros w Hw. Qed.
Lemma faultless_now : faultless now.
Proof. by intros w Hw. Qed.
Lemma faultless_bind A B (m : M A) (f : A -> M B) :
  faultless m -> (forall a, faultless (f a)) -> faultless (m ≫= f).
Proof.
  intros Hm Hf w Hw. destruct (Hm w Hw) as [H1 H2]. unfold mbind, M_bind.
  destruct (m w) as [[a|e] w']; cbn in *; [|done]. rewrite <- H2. by apply Hf.
Qed.
Lemma faultless_ignore A (m : M A) : faultless m -> faultless (ignore m).
Proof. intros Hm w Hw. specialize (Hm w Hw). unfold ignore. by destruct (m w). Qed.
Lemma faultless_statement A (f : DB -> time -> result (A * DB)) : faultless (statement f).
Proof.
  intros w Hw. rewrite statement_ok by done.
  destruct (f (w_db w) (w_now w)) as [[a d']|e]; cbn; split; try done; by apply no_faults_tail.
Qed.
#[export] Hint Resolve faultless_ret faultless_now faultless_bind faultless_ignore faultless_statement
  : winnow.

(** A statement either fails and changes nothing, or runs. *)
Lemma statement_cases A (f : DB -> time -> result (A * DB)) w :
  (exists e, statement f w = (Err e, mkWorld (w_db w) (w_now w) (tail (w_faults w)))) \/
  (exists a d', f (w_db w) (w_now w) = Ok (a, d') /\
     statement f w = (Ok a, mkWorld d' (w_now w) (tail (w_faults w)))).
Proof.
  unfold statement. destruct (w_faults w) as [|[] fs]; cbn; eauto;
    destruct (f (w_db w) (w_now w)) as [[a d']|e]; eauto 6.
Qed.

Lemma ignore_ok A (f : DB -> time -> result (A * DB)) w a d' :
  no_faults w -> f (w_db w) (w_now w) = Ok (a, d') ->
  snd (ignore (statement f) w) = mkWorld d' (w_now w) (tail (w_faults w)).
Proof. intros H E. unfold ignore. by rewrite statement_ok, E by done. Qed.

Lemma exec_cases f w :
  (hd false (w_faults w) = true /\
   exec f w = (Err "statement failed", mkWorld (w_db w) (w_now w) (tail (w_faults w)))) \/
  (hd false (w_faults w) = false /\
   exec f w = (Ok tt, mkWorld (f (w_db w) (w_now w)) (w_now w) (tail (w_faults w)))).
Proof. unfold exec, statement. destruct (w_faults w) as [|[] fs]; auto. Qed.

Lemma query_cases A (f : DB -> time -> A) w :
  (hd false (w_faults w) = true /\
   query f w = (Err "statement failed", mkWorld (w_db w) (w_now w) (tail (w_faults w)))) \/
  (hd false (w_faults w) = false /\
   query f w = (Ok (f (w_db w) (w_now w)), mkWorld (w_db w) (w_now w) (tail (w_faults w)))).
Proof. unfold query, statement. destruct (w_faults w) as [|[] fs]; auto. Qed.

(** What a run that returned a value went through. *)
Lemma bind_Ok {A B} (m : M A) (f : A -> M B) w b w' :
  (m ≫= f) w = (Ok b, w') -> exists a w1, m w = (Ok a, w1) /\ f a w1 = (Ok b, w').
Proof. unfold mbind, M_bind. destruct (m w) as [[a|e] w1]; [by eauto|done]. Qed.
Lemma query_Ok {A} (f : DB -> time -> A) w a w' : query f w = (Ok a, w') -> a = f (w_db w) (w_now w).
Proof. unfold query, statement. destruct (w_faults w) as [|[] fs]; by intros [= <- _]. Qed.

(** Split on the next [exec] or [query] of the goal. *)
Ltac step_exec :=
  match goal with
  | |- context [exec ?f ?w] => destruct (exec_cases f w) as [[? ->]|[? ->]]
  | |- context [query ?f ?w] => destruct (query_cases _ f w) as [[? ->]|[? ->]]
  end; cbn [w_db w_now w_faults].

(** ** Comparisons of SQL values *)

(** Postgres orders [NaN] above every other double precision value. *)
Definition pg_le (a b : float64) : bool :=
  if is_nan b then true else if is_nan a then false else (a <=? b)%f64.

(** [LEAST]/[GREATEST] of two nullable values: NULLs are ignored. *)
Definition least (a b : option float64) : option float64 :=
  match a, b with
  | Some x, Some y => Some (if pg_le x y then x else y)
  | Some x, None | None, Some x => Some x
  | None, None => None
  end.
Definition greatest (a b : option float64) : option float64 :=
  match a, b with
  | Some x, Some y => Some (if pg_le x y then y else x)
  | Some x, None | None, Some x => Some x
  | None, None => None
  end.
Definition coalesce {A} (a b : option A) : option A := match a with Some _ => a | None => b end.

(** [ORDER BY] as a stable insertion sort on a boolean order. *)
Fixpoint insert_by {A} (le : A -> A -> bool) (x : A) (l : list A) : list A :=
  match l with
  | [] => [x]
  | y :: l' => if le x y then x :: l else y :: insert_by le x l'
  end.
Definition sort_by {A} (le : A -> A -> bool) (l : list A) : list A := foldr (insert_by le) [] l.

Lemma insert_by_perm {A} (le : A -> A -> bool) x l : insert_by le x l ≡ₚ x :: l.
Proof.
  induction l as [|y l IH]; cbn; [done|]. destruct (le x y); [done|].
  rewrite IH. apply Permutation_swap.
Qed.

Lemma sort_by_perm {A} (le : A -> A -> bool) l : sort_by le l ≡ₚ l.
Proof. induction l as [|x l IH]; cbn; [done|]. by rewrite insert_by_perm, IH. Qed.

Lemma insert_by_sorted {A} (le : A -> A -> bool) x l :
  (forall a b, le a b = true \/ le b a = true) ->
  Sorted (fun a b => le a b = true) l -> Sorted (fun a b => le a b = true) (insert_by le x l).
Proof.
  intros Htot. induction 1 as [|y l Hl IH Hd]; cbn; [by repeat constructor|].
  destruct (le x y) eqn:E; [by repeat constructor|].
  constructor; [done|]. destruct l as [|z l]; cbn in *.
  - constructor. destruct (Htot x y); congruence.
  - inversion Hd; subst. destruct (le x z); constructor; [|done].
    destruct (Htot x y); congruence.
Qed.

(** [ORDER BY] gives a sorted list. *)
Lemma sort_by_sorted {A} (le : A -> A -> bool) l :
  (forall a b, le a b = true \/ le b a = true) -> Sorted (fun a b => le a b = true) (sort_by le l).
Proof. intros Htot. induction l; cbn; [constructor|]. by apply insert_by_sorted. Qed.

Lemma pg_le_refl x : pg_le x x = true.
Proof. unfold pg_le. destruct (is_nan x) eqn:E; [done|]. by apply fle_refl. Qed.

Lemma pg_le_total x y : pg_le x y = true \/ pg_le y x = true.
Proof.
  unfold pg_le. destruct (is_nan x) eqn:Ex, (is_nan y) eqn:Ey; auto.
  destruct (x <=? y)%f64 eqn:E; [by left|right]. by apply flt_le, fleb_false.
Qed.

Lemma pg_le_trans x y z : pg_le x y = true -> pg_le y z = true -> pg_le x z = true.
Proof.
  unfold pg_le. destruct (is_nan x) eqn:Ex, (is_nan y) eqn:Ey, (is_nan z) eqn:Ez; try done.
  apply fle_trans.
Qed.

(** NULL-aware bounds: [x] is NULL or [m] is present and at most (at least) [x]. *)
Definition le_opt (m x : option float64) : Prop :=
  match x with None => True | Some v => exists u, m = Some u /\ pg_le u v = true end.
Definition ge_opt (m x : option float64) : Prop :=
  match x with None => True | Some v => exists u, m = Some u /\ pg_le v u = true end.

Lemma least_lower a b : le_opt (least a b) a /\ le_opt (least a b) b.
Proof.
  destruct a as [x|], b as [y|]; cbn; repeat split; try (eexists; split; [done|apply pg_le_refl]).
  - eexists; split; [done|]. destruct (pg_le x y) eqn:E; [apply pg_le_refl|].
    destruct (pg_le_total x y); congruence.
  - eexists; split; [done|]. destruct (pg_le x y) eqn:E; [done|apply pg_le_refl].
Qed.

Lemma greatest_upper a b : ge_opt (greatest a b) a /\ ge_opt (greatest a b) b.
Proof.
  destruct a as [x|], b as [y|]; cbn; repeat split; try (eexists; split; [done|apply pg_le_refl]).
  - eexists; split; [done|]. destruct (pg_le x y) eqn:E; [done|apply pg_le_refl].
  - eexists; split; [done|]. destruct (pg_le x y) eqn:E; [apply pg_le_refl|].
    destruct (pg_le_total x y); congruence.
Qed.

Lemma le_opt_trans a b x : le_opt a b -> le_opt b x -> le_opt a x.
Proof.
  destruct x as [v|]; [|done]. cbn. intros Hab (u & -> & Hu). cbn in Hab.
  destruct Hab as (t & -> & Ht). eauto using pg_le_trans.
Qed.

Lemma ge_opt_trans a b x : ge_opt a b -> ge_opt b x -> ge_opt a x.
Proof.
  destruct x as [v|]; [|done]. cbn. intros Hab (u & -> & Hu). cbn in Hab.
  destruct Hab as (t & -> & Ht). eauto using pg_le_trans.
Qed.

Lemma least_one_of a b : least a b = a \/ least a b = b.
Proof. destruct a as [x|], b as [y|]; cbn; auto. destruct (pg_le x y); auto. Qed.

Lemma greatest_one_of a b : greatest a b = a \/ greatest a b = b.
Proof. destruct a as [x|], b as [y|]; cbn; auto. destruct (pg_le x y); auto. Qed.

(** The state after an ignored statement: unchanged, or that of the statement. *)
Lemma ignore_statement_db A (f : DB -> time -> result (A * DB)) w (P : DB -> Prop) :
  P (w_db w) -> (forall a d', f (w_db w) (w_now w) = Ok (a, d') -> P d') ->
  P (w_db (snd (ignore (statement f) w))).
Proof.
  intros H0 H1. unfold ignore. destruct (statement_cases A f w) as [[e ->]|(a & d' & E & ->)]; cbn; eauto.
Qed.

(** Sequencing after a computation that cannot fail. *)
Lemma bind_ignore A B (m : M A) (k : unit -> M B) w :
  (ignore m ≫= k) w = k tt (snd (ignore m w)).
Proof. unfold mbind, M_bind, ignore. by destruct (m w). Qed.

(** [no_faults] of a world built by steps of a run. *)
Lemma Forall_tail {A} (P : A -> Prop) l : Forall P l -> Forall P (tail l).
Proof. by destruct 1. Qed.

Ltac nofault :=
  unfold no_faults in *; cbn [w_faults] in *;
  repeat first [assumption | apply Forall_tail | constructor].

(** Run the next statement of a run without faults. *)
Ltac step_ok :=
  first [rewrite exec_ok by nofault | rewrite query_ok by nofault | rewrite statement_ok by nofault];
  cbn [w_db w_now w_faults].

(** The first row of an ordered query: one of the rows, or there is none. *)
Lemma head_sort_by {A} (le : A -> A -> bool) l :
  match head (sort_by le l) with Some x => x ∈ l | None => l = [] end.
Proof.
  pose proof (sort_by_perm le l) as Hp. destruct (sort_by le l) as [|x l']; cbn.
  - by apply Permutation_nil in Hp.
  - rewrite <- Hp. left.
Qed.
