(* ===== verification/Effects.v ===== *)
(** * What an operation leaves alone

    [keeps P m] says that the statements of [m] keep [P] whatever fails.  The
    tactic [keep] proves it by walking the program: binds, branches and loops are
    decomposed, queries keep everything, and the operations are unfolded until a
    write is left, which the hint database [keeps] or the user discharges. *)

From S2P Require Import Prelude Store.

Create HintDb keeps.

Lemma keeps_mapM_ P A B (f : A -> M B) l : (forall a, keeps P (f a)) -> keeps P (mapM_ f l).
Proof.
  intros Hf. induction l as [|x l IH]; cbn [mapM_]; [apply keeps_ret|].
  apply keeps_bind; [done|]. intros y. apply keeps_bind; [done|]. intros ys. apply keeps_ret.
Qed.
Lemma keeps_forM_all P A (f : A -> M unit) l : (forall a, keeps P (f a)) -> keeps P (forM l f).
Proof. intros Hf. apply keeps_forM. auto. Qed.

(** The head of an application, to unfold. *)
Ltac head_of t := lazymatch t with ?f _ => head_of f | _ => t end.

Lemma ok_db {A} (a b : A) (d d' : DB) : Ok (a, d) = Ok (b, d') -> d = d'.
Proof. by intros [= _ ->]. Qed.
(** A statement all of whose results carry the database it saw. *)
Ltac keep_statement :=
  apply keeps_statement; intros ? ? ? ? ? Hst; revert Hst;
  repeat match goal with |- context [match ?x with _ => _ end] => destruct x end;
  first [discriminate | intros Hst; apply ok_db in Hst; subst; assumption].

(** One step; a goal that is neither a combinator nor unfoldable is left. *)
Ltac keep_step :=
  lazymatch goal with
  | |- forall _, _ => intros ?
  | |- keeps _ (mbind _ _) => apply keeps_bind
  | |- keeps _ (mret _) => apply keeps_ret
  | |- keeps _ (fail _) => apply keeps_fail
  | |- keeps _ now => apply keeps_now
  | |- keeps _ (query _) => apply keeps_query
  | |- keeps _ (queryRow _) => apply keeps_queryRow
  | |- keeps _ (try _) => apply keeps_try
  | |- keeps _ (ignore _) => apply keeps_ignore
  | |- keeps _ (forM _ _) => apply keeps_forM_all
  | |- keeps _ (mapM_ _ _) => apply keeps_mapM_
  | |- keeps _ (exec _) => fail
  | |- keeps _ (statement _) => solve [keep_statement]
  | |- keeps _ (let _ := _ in _) => cbv zeta
  | |- keeps _ (match ?x with _ => _ end) => first [progress cbv beta iota | destruct x]
  | |- keeps _ ?m => let h := head_of m in progress unfold h
  end.
Ltac keep := repeat first [solve [auto with keeps nocore] | keep_step].

(** [m] writes nothing: it keeps every property. *)
Definition reads {A} (m : M A) : Prop := forall P, keeps P m.
Lemma reads_db {A} (m : M A) w : reads m -> w_db (snd (m w)) = w_db w.
Proof. intros H. by apply (H (fun d => d = w_db w)). Qed.

(** [m] keeps [P], and a value it returns satisfies [Q]. *)
Definition ensures (P : DB -> Prop) {A} (m : M A) (Q : A -> Prop) : Prop :=
  forall w, P (w_db w) -> P (w_db (snd (m w))) /\ forall a, fst (m w) = Ok a -> Q a.

Lemma ensures_keeps P A (m : M A) : keeps P m -> ensures P m (fun _ => True).
Proof. intros H w Hw. split; [by apply H|done]. Qed.
Lemma ensures_ret P A (a : A) (Q : A -> Prop) : Q a -> ensures P (mret a) Q.
Proof. intros H w Hw. split; [done|]. by intros b [= <-]. Qed.
Lemma ensures_bind P A B (m : M A) (f : A -> M B) (Q : A -> Prop) (R : B -> Prop) :
  ensures P m Q -> (forall a, Q a -> ensures P (f a) R) -> ensures P (m ≫= f) R.
Proof.
  intros Hm Hf w Hw. destruct (Hm w Hw) as [H1 H2]. unfold mbind, M_bind.
  destruct (m w) as [[a|e] w']; cbn [fst snd] in *; [by apply Hf; [apply H2|]|]. by split.
Qed.
(** The value of the first part does not matter. *)
Lemma ensures_then P A B (m : M A) (f : A -> M B) (R : B -> Prop) :
  keeps P m -> (forall a, ensures P (f a) R) -> ensures P (m ≫= f) R.
Proof. intros Hm Hf. apply (ensures_bind _ _ _ _ _ (fun _ => True)); [by apply ensures_keeps|auto]. Qed.
Lemma ensures_weaken P A (m : M A) (Q R : A -> Prop) : ensures P m Q -> (forall a, Q a -> R a) -> ensures P m R.
Proof. intros H HQ w Hw. destruct (H w Hw) as [H1 H2]. split; [done|]. intros a Ha. by apply HQ, H2. Qed.

Lemma ensures_try P A (m : M A) (Q : A -> Prop) :
  ensures P m Q -> ensures P (try m) (fun r => match r with Ok a => Q a | Err _ => True end).
Proof.
  intros H w Hw. destruct (H w Hw) as [H1 H2]. unfold try. destruct (m w) as [[a|e] w']; (split; [exact H1|]); intros r [= <-]; auto.
Qed.
Lemma ensures_query P A (f : DB -> time -> A) (Q : A -> Prop) :
  (forall d t, P d -> Q (f d t)) -> ensures P (query f) Q.
Proof.
  intros H w Hw. split; [by apply keeps_query|]. intros a. destruct (query_cases A f w) as [[_ ->]|[_ ->]]; intros [= <-]. auto.
Qed.

(** A loop whose errors are discarded returns, and consumes no future fault. *)
Lemma forM_ignore_ok {A B} (f : A -> M B) l w : fst (forM l (fun x => ignore (f x)) w) = Ok tt.
Proof.
  revert w. induction l as [|x l IH]; intros w; cbn [forM]; [done|]. unfold mbind, M_bind. unfold ignore at 1.
  destruct (f x w) as [r w']. apply IH.
Qed.
Lemma faultless_forM {A} (f : A -> M unit) l : (forall x, faultless (f x)) -> faultless (forM l f).
Proof. intros Hf. induction l as [|x l IH]; cbn [forM]; [apply faultless_ret|]. by apply faultless_bind. Qed.
