(* ===== verification/Database.v ===== *)
(** * Readings, devices, heartbeats, settings and health ([internal/db/db.go])

    Each exported method of [db.go] in the monad of [Store], one statement per
    [Exec]/[Query], with the SQL translated to a function on the tables.  The
    invariant [registries_ok] says what the ingest-maintained registries promise
    about the readings whatever statements fail; [registries_exact] what they
    promise when none does. *)

From S2P Require Import Prelude Float64 Model Calendar Config Store.

(** [iso]. *)
Definition iso (t : option time) : option string := option_map RFC3339Nano t.

(** ** Writers *)

Definition insert_reading_row (r : Reading) (raw : string) (d : DB) : DB :=
  set_readings (readings d ++ [(r, raw)])%list d.

(** The upsert of [meter_index]. *)
Definition index_insert (r : Reading) : IndexRow :=
  mkIndex (r_MsgType r) (r_EndpointType r) (r_TS r) (r_TS r) 1
    (r_Consumption r) (r_Consumption r) (r_Consumption r) (r_TS r).

Definition index_update (x : IndexRow) (r : Reading) : IndexRow :=
  mkIndex (r_MsgType r)
    (coalesce (r_EndpointType r) (ix_endpoint_type x))
    (ix_first_seen x)
    (Z.max (ix_last_seen x) (r_TS r))
    (ix_packets x + 1)
    (least (ix_min_consumption x) (r_Consumption r))
    (greatest (ix_max_consumption x) (r_Consumption r))
    (if negb (is_nil (r_Consumption r)) && (ix_last_consumption_ts x <=? r_TS r)
     then r_Consumption r else ix_last_consumption x)
    (Z.max (ix_last_consumption_ts x) (r_TS r)).

Definition upsert_index (r : Reading) (d : DB) : result (unit * DB) :=
  match meter_index d !! r_EndpointID r with
  | None => Ok (tt, set_meter_index (<[r_EndpointID r := index_insert r]> (meter_index d)) d)
  | Some x =>
      if ix_packets x =? int64_max then Err "bigint out of range"
      else Ok (tt, set_meter_index (<[r_EndpointID r := index_update x r]> (meter_index d)) d)
  end.

(** The upsert of [meter_source]. *)
Definition upsert_source (r : Reading) (d : DB) : result (unit * DB) :=
  let k := (r_EndpointID r, r_Source r) in
  match meter_source d !! k with
  | None => Ok (tt, set_meter_source (<[k := mkSource 1 (r_TS r)]> (meter_source d)) d)
  | Some x =>
      if ms_packets x =? int64_max then Err "bigint out of range"
      else Ok (tt, set_meter_source
                     (<[k := mkSource (ms_packets x + 1) (Z.max (ms_last_seen x) (r_TS r))]>
                        (meter_source d)) d)
  end.

(** [SELECT pg_notify(channel, payload)]. *)
Definition pg_notify (channel payload : string) : M unit :=
  exec (fun d _ => set_notifications (notifications d ++ [(channel, payload)])%list d).

(** The unit separator ["\x1f"] of the payload. *)
Definition unit_sep : ascii := chr 31.
Definition notify_payload (r : Reading) : string :=
  FormatInt (r_EndpointID r) ++ String unit_sep (r_Source r).

Definition InsertReading (r : Reading) (raw : string) : M unit :=
  exec (fun d _ => insert_reading_row r raw d) ;;
  ignore (statement (fun d _ => upsert_index r d)) ;;
  (if negb (is_empty (r_Source r))
   then ignore (statement (fun d _ => upsert_source r d)) else mret tt) ;;
  ignore (pg_notify "winnow" (notify_payload r)).

Definition UpsertDevice (serial : string) (idx : Z) (name tuner : string) : M unit :=
  exec (fun d t =>
    let row := match sdr_devices d !! serial with
               | None => mkDevice idx name tuner t t
               | Some x => mkDevice idx name tuner (sd_first_seen x) t
               end in
    set_sdr_devices (<[serial := row]> (sdr_devices d)) d).

(** [serial <> ALL(keep)] selects the rows to delete. *)
Definition PruneDevices (keep : list string) : M unit :=
  match keep with
  | [] => mret tt
  | _ =>
      exec (fun d _ => set_sdr_devices (filter (fun kv => kv.1 ∈ keep) (sdr_devices d)) d) ;;
      exec (fun d _ =>
        set_capture_heartbeat (filter (fun kv => kv.1 ∈ keep) (capture_heartbeat d)) d)
  end.

Definition UpdateHeartbeat (source : string) (lastTS : time) (total : Z) : M unit :=
  exec (fun d t =>
    set_capture_heartbeat (<[source := mkHeartbeat lastTS total t]> (capture_heartbeat d)) d).

Definition NotifyConfig : M unit := pg_notify "winnow_config" "".
Definition NotifyTests : M unit := ignore (pg_notify "winnow_tests" "").

(** ** Devices *)

Record Device := mkDev {
  Serial : string; DevIndex : Z; Name : string; Tuner : string;
  LastSeen : option string; Enabled : bool; Label : string;
  Freq : string; Gain : string; PPM : string; MsgType : string; FilterID : string;
  Alive : bool; PacketsLastMin : Z; MetersHeard : Z; AgeSeconds : option float64
}.

(** Readings of a source at or after an instant. *)
Definition count_source_since (source : string) (since : time) (d : DB) : Z :=
  Z.of_nat (length (filter (fun rr => r_Source rr.1 = source /\ since <= r_TS rr.1) (readings d))).
(** Distinct endpoints of a source in [meter_source]. *)
Definition count_heard (source : string) (d : DB) : Z :=
  Z.of_nat (size (filter (fun kv : Z * string * SourceRow => kv.1.2 = source) (meter_source d))).

(** Age and liveness of a heartbeat: [age <= staleAfter] in seconds. *)
Definition age_of (nw updated : time) : float64 := Seconds (Sub nw updated).
Definition alive (nw updated : time) (staleAfter : duration) : bool :=
  (age_of nw updated <=? Seconds staleAfter)%f64.

Definition device_row (d : DB) (nw : time) (staleAfter : duration) (serial : string) (s : DeviceRow)
  : Device :=
  let hb := capture_heartbeat d !! serial in
  mkDev serial (sd_dev_index s) (sd_name s) (sd_tuner s) (Some (RFC3339Nano (sd_last_seen s)))
    false "" "" "" "" "" ""
    (match hb with Some h => alive nw (hb_updated_at h) staleAfter | None => false end)
    (count_source_since serial (nw - Minute) d)
    (count_heard serial d)
    (option_map (fun h => age_of nw (hb_updated_at h)) hb).

Definition ListDevices (staleAfter : duration) : M (list Device) :=
  query (fun d t =>
    map (fun kv => device_row d t staleAfter kv.1 kv.2)
      (sort_by (fun a b => sd_dev_index a.2 <=? sd_dev_index b.2) (map_to_list (sdr_devices d)))).

(** ** Settings *)

Definition GetSettings : M (gmap string string) := query (fun d _ => settings d).
Definition SetSetting (key value : string) : M unit :=
  exec (fun d _ => set_settings (<[key := value]> (settings d)) d).

Section LoadConfig.
Context (getenv : string -> string) (ParseFloat : string -> float64 * bool).
Definition LoadConfig : M Config := m ← GetSettings; mret (FromMap getenv ParseFloat m).
End LoadConfig.

(** ** Health *)

(** One source of the report; [recent] is 0 when its count query fails. *)
Definition source_health (nw : time) (staleAfter : duration) (source : string) (h : Heartbeat)
    (recent : Z) : SourceHealth :=
  mkSourceHealth source (alive nw (hb_updated_at h) staleAfter)
    (Some (age_of nw (hb_updated_at h))) (Some (RFC3339Nano (hb_last_ts h)))
    (hb_total_count h) recent.

Fixpoint health_sources (nw : time) (staleAfter : duration) (rows : list (string * Heartbeat))
  : M (list SourceHealth) :=
  match rows with
  | [] => mret []
  | (source, hb) :: rows' =>
      recent ← try (query (fun d _ => count_source_since source (nw - Minute) d));
      rest ← health_sources nw staleAfter rows';
      mret (source_health nw staleAfter source hb
              (match recent with Ok n => n | Err _ => 0 end) :: rest)
  end.

Definition unique_meters (d : DB) : Z :=
  Z.of_nat (size (list_to_set (map (fun rr => r_EndpointID rr.1) (readings d)) : gset Z)).

Definition Health (staleAfter : duration) : M Model.Health :=
  ignore (exec (fun d t =>
    set_capture_heartbeat
      (filter (fun kv => t - Hour <= hb_updated_at kv.2) (capture_heartbeat d)) d)) ;;
  rows ← query (fun d _ =>
    sort_by (fun a b => String.leb a.1 b.1) (map_to_list (capture_heartbeat d)));
  nw ← now;
  sources ← health_sources nw staleAfter rows;
  unique ← try (query (fun d _ => unique_meters d));
  mret (mkHealth (existsb sh_Alive sources) sources
          (match unique with Ok n => n | Err _ => 0 end)
          (foldr (fun s n => sh_PacketsLastMin s + n) 0 sources)).

(** ** What the registries promise *)

Definition readings_of (id : Z) (d : DB) : list Reading :=
  filter (fun r => r_EndpointID r = id) (map fst (readings d)).
Definition readings_from (id : Z) (source : string) (d : DB) : list Reading :=
  filter (fun r => r_EndpointID r = id /\ r_Source r = source) (map fst (readings d)).

(** A value of a registry column comes from a stored reading. *)
Definition seen_value (rs : list Reading) (v : option float64) : Prop :=
  match v with None => True | Some _ => exists r, r ∈ rs /\ r_Consumption r = v end.

(** Whatever fails: a registry never counts a packet that is not stored, and
    every value it shows is the value of a stored packet of that meter. *)
Record index_sound (rs : list Reading) (x : IndexRow) : Prop := {
  is_count : 0 < ix_packets x <= Z.of_nat (length rs);
  is_min : seen_value rs (ix_min_consumption x);
  is_max : seen_value rs (ix_max_consumption x);
  is_last : seen_value rs (ix_last_consumption x);
  is_first_seen : exists r, r ∈ rs /\ r_TS r = ix_first_seen x;
  is_last_seen : exists r, r ∈ rs /\ r_TS r = ix_last_seen x;
  is_order : ix_first_seen x <= ix_last_seen x
}.

Definition registries_ok (d : DB) : Prop :=
  (forall id x, meter_index d !! id = Some x -> index_sound (readings_of id d) x) /\
  (forall id s x, meter_source d !! (id, s) = Some x ->
     s <> EmptyString /\ 0 < ms_packets x <= Z.of_nat (length (readings_from id s d))).

(** When nothing fails: counts are exact and the extrema bound every packet. *)
Record index_exact (rs : list Reading) (x : IndexRow) : Prop := {
  ie_count : ix_packets x = Z.of_nat (length rs);
  ie_bounds : forall r, r ∈ rs ->
    le_opt (ix_min_consumption x) (r_Consumption r) /\
    ge_opt (ix_max_consumption x) (r_Consumption r) /\ r_TS r <= ix_last_seen x
}.

Definition registries_exact (d : DB) : Prop :=
  (forall id, match meter_index d !! id with
              | None => readings_of id d = []
              | Some x => index_exact (readings_of id d) x
              end) /\
  (forall id s, s <> EmptyString ->
     match meter_source d !! (id, s) with
     | None => readings_from id s d = []
     | Some x => ms_packets x = Z.of_nat (length (readings_from id s d))
     end).

(** ** Lemmas *)

Lemma SetSetting_ok key value w : no_faults w ->
  SetSetting key value w =
  (Ok tt, mkWorld (set_settings (<[key := value]> (settings (w_db w))) (w_db w)) (w_now w) (tail (w_faults w))).
Proof. intros H. unfold SetSetting. by rewrite exec_ok. Qed.

Lemma LoadConfig_ok getenv ParseFloat w : no_faults w ->
  LoadConfig getenv ParseFloat w =
  (Ok (FromMap getenv ParseFloat (settings (w_db w))), mkWorld (w_db w) (w_now w) (tail (w_faults w))).
Proof. intros H. unfold LoadConfig, GetSettings, mbind, M_bind. by rewrite query_ok. Qed.

Lemma readings_of_insert id r raw d :
  readings_of id (insert_reading_row r raw d) =
  (readings_of id d ++ (if decide (r_EndpointID r = id) then [r] else []))%list.
Proof.
  unfold readings_of, insert_reading_row. cbn.
  rewrite map_app, filter_app. f_equal.
Qed.

Lemma readings_from_insert id s r raw d :
  readings_from id s (insert_reading_row r raw d) =
  (readings_from id s d ++
    (if decide (r_EndpointID r = id /\ r_Source r = s) then [r] else []))%list.
Proof.
  unfold readings_from, insert_reading_row. cbn.
  rewrite map_app, filter_app. f_equal.
Qed.

Lemma seen_value_app rs rs' v : seen_value rs v -> seen_value (rs ++ rs')%list v.
Proof. destruct v; [|done]. intros (r & ? & ?). exists r. set_solver. Qed.

Lemma seen_value_one_of rs v a b :
  v = a \/ v = b -> seen_value rs a -> seen_value rs b -> seen_value rs v.
Proof. intros [-> | ->]; auto. Qed.

Lemma seen_value_self rs r : r ∈ rs -> seen_value rs (r_Consumption r).
Proof. intros H. unfold seen_value. destruct (r_Consumption r) eqn:E; eauto. Qed.

Lemma index_sound_app rs rs' x : index_sound rs x -> index_sound (rs ++ rs')%list x.
Proof.
  intros [H1 H2 H3 H4 H5 H6 H7]. split; auto using seen_value_app.
  - rewrite length_app. lia.
  - destruct H5 as (r & ? & ?). exists r. set_solver.
  - destruct H6 as (r & ? & ?). exists r. set_solver.
Qed.

Lemma index_sound_insert rs r : r ∈ rs -> index_sound rs (index_insert r).
Proof.
  intros H. split; cbn; eauto using seen_value_self; [|lia].
  destruct rs; [by apply not_elem_of_nil in H|cbn; lia].
Qed.

(** The upsert counts the packet just stored. *)
Lemma index_sound_update rs r x :
  index_sound rs x -> index_sound (rs ++ [r])%list (index_update x r).
Proof.
  intros H. pose proof (index_sound_app rs [r] x H) as [H1 H2 H3 H4 H5 H6 H7].
  destruct H as [H0 _ _ _ _ _ _].
  assert (r ∈ (rs ++ [r])%list) as Hr by set_solver.
  split; cbn; eauto using seen_value_self, seen_value_one_of, least_one_of, greatest_one_of.
  - rewrite length_app. cbn. lia.
  - case_match_goal; eauto using seen_value_self.
  - destruct (Z.max_spec (ix_last_seen x) (r_TS r)) as [[? ->]|[? ->]]; eauto.
  - lia.
Qed.

Lemma index_exact_update rs r x :
  index_exact rs x -> index_exact (rs ++ [r])%list (index_update x r).
Proof.
  intros [Hc Hb]. split; cbn; [rewrite length_app; cbn; lia|].
  intros r' [Hr'|Hr']%elem_of_app.
  - specialize (Hb r' Hr') as (? & ? & ?).
    destruct (least_lower (ix_min_consumption x) (r_Consumption r)) as [? _].
    destruct (greatest_upper (ix_max_consumption x) (r_Consumption r)) as [? _].
    split_and!; eauto using le_opt_trans, ge_opt_trans. lia.
  - apply list_elem_of_singleton in Hr' as ->.
    split_and!; [apply least_lower|apply greatest_upper|lia].
Qed.

Lemma index_exact_insert r : index_exact [r] (index_insert r).
Proof.
  split; cbn; [done|]. intros r' ->%list_elem_of_singleton.
  unfold le_opt, ge_opt. destruct (r_Consumption r); split_and!; eauto using pg_le_refl; lia.
Qed.

(** The effect of each statement of [InsertReading] on the tables. *)
Lemma upsert_index_ok r d u d' :
  upsert_index r d = Ok (u, d') ->
  d' = set_meter_index (<[r_EndpointID r :=
         match meter_index d !! r_EndpointID r with
         | None => index_insert r | Some x => index_update x r end]> (meter_index d)) d.
Proof.
  unfold upsert_index. destruct (meter_index d !! r_EndpointID r) as [x|].
  - destruct (ix_packets x =? int64_max); congruence.
  - congruence.
Qed.

Lemma upsert_source_ok r d u d' :
  upsert_source r d = Ok (u, d') ->
  d' = set_meter_source (<[(r_EndpointID r, r_Source r) :=
         match meter_source d !! (r_EndpointID r, r_Source r) with
         | None => mkSource 1 (r_TS r)
         | Some x => mkSource (ms_packets x + 1) (Z.max (ms_last_seen x) (r_TS r)) end]>
         (meter_source d)) d.
Proof.
  unfold upsert_source. destruct (meter_source d !! _) as [x|].
  - destruct (ms_packets x =? int64_max); congruence.
  - congruence.
Qed.

Definition index_ok (rs : Z -> list Reading) (m : gmap Z IndexRow) : Prop :=
  forall id x, m !! id = Some x -> index_sound (rs id) x.
Definition source_ok (rs : Z -> string -> list Reading) (m : gmap (Z * string) SourceRow) : Prop :=
  forall id s x, m !! (id, s) = Some x ->
    s <> EmptyString /\ 0 < ms_packets x <= Z.of_nat (length (rs id s)).

Lemma index_ok_insert r raw d m :
  index_ok (fun id => readings_of id d) m ->
  index_ok (fun id => readings_of id (insert_reading_row r raw d)) m.
Proof. intros H id x Hx. rewrite readings_of_insert. by apply index_sound_app, H. Qed.

Lemma index_ok_upsert r raw d m :
  index_ok (fun id => readings_of id d) m ->
  index_ok (fun id => readings_of id (insert_reading_row r raw d))
    (<[r_EndpointID r := match m !! r_EndpointID r with
                         | None => index_insert r | Some x => index_update x r end]> m).
Proof.
  intros H id x Hx. rewrite readings_of_insert.
  apply lookup_insert_Some in Hx as [[<- <-]|[Hne Hx]].
  - rewrite decide_True by done. destruct (m !! r_EndpointID r) as [x|] eqn:E.
    + by apply index_sound_update, H.
    + apply index_sound_insert. set_solver.
  - rewrite decide_False by done. rewrite app_nil_r. by apply H.
Qed.

Lemma source_ok_insert r raw d m :
  source_ok (fun id s => readings_from id s d) m ->
  source_ok (fun id s => readings_from id s (insert_reading_row r raw d)) m.
Proof.
  intros H id s x Hx. rewrite readings_from_insert, length_app.
  destruct (H id s x Hx). split; [done|lia].
Qed.

Lemma source_ok_upsert r raw d m :
  r_Source r <> EmptyString ->
  source_ok (fun id s => readings_from id s d) m ->
  source_ok (fun id s => readings_from id s (insert_reading_row r raw d))
    (<[(r_EndpointID r, r_Source r) := match m !! (r_EndpointID r, r_Source r) with
         | None => mkSource 1 (r_TS r)
         | Some x => mkSource (ms_packets x + 1) (Z.max (ms_last_seen x) (r_TS r)) end]> m).
Proof.
  intros Hs H id s x Hx. rewrite readings_from_insert, length_app.
  apply lookup_insert_Some in Hx as [[[= <- <-] <-]|[Hne Hx]].
  - rewrite decide_True by done. split; [done|].
    destruct (m !! (r_EndpointID r, r_Source r)) as [x|] eqn:E; cbn; [|lia].
    specialize (H _ _ _ E). lia.
  - destruct (H id s x Hx). split; [done|lia].
Qed.

(** A run of [InsertReading] stores the row and then touches the two registries
    and the notifications, or it stores nothing. *)
Definition inserted (r : Reading) (raw : string) (d d' : DB) : Prop :=
  readings d' = readings (insert_reading_row r raw d).

Lemma registries_ok_inserted r raw d d' :
  inserted r raw d d' ->
  index_ok (fun id => readings_of id (insert_reading_row r raw d)) (meter_index d') ->
  source_ok (fun id s => readings_from id s (insert_reading_row r raw d)) (meter_source d') ->
  registries_ok d'.
Proof.
  unfold inserted. intros H HI HS. split.
  - intros id x Hx. unfold readings_of. rewrite H. by apply HI.
  - intros id s x Hx. unfold readings_from. rewrite H. by apply HS.
Qed.

Lemma InsertReading_index_step r raw d w :
  w_db w = insert_reading_row r raw d ->
  let d2 := w_db (snd (ignore (statement (fun d _ => upsert_index r d)) w)) in
  inserted r raw d d2 /\ meter_source d2 = meter_source d /\
  (registries_ok d ->
     index_ok (fun id => readings_of id (insert_reading_row r raw d)) (meter_index d2)).
Proof.
  intros E. cbv zeta. apply ignore_statement_db; rewrite E.
  - split_and!; try done. intros [H _]. by apply index_ok_insert.
  - intros a d' H%upsert_index_ok. subst d'. cbn. split_and!; try done.
    intros [H _]. by apply index_ok_upsert.
Qed.

Lemma InsertReading_source_step r raw d w :
  is_empty (r_Source r) = false ->
  inserted r raw d (w_db w) -> meter_source (w_db w) = meter_source d ->
  (registries_ok d ->
     index_ok (fun id => readings_of id (insert_reading_row r raw d)) (meter_index (w_db w))) ->
  let d3 := w_db (snd (ignore (statement (fun d _ => upsert_source r d)) w)) in
  inserted r raw d d3 /\ (registries_ok d -> registries_ok d3).
Proof.
  intros Es I S X. cbv zeta. apply ignore_statement_db.
  - split; [done|]. intros Hd. apply (registries_ok_inserted r raw d); auto. rewrite S.
    exact (source_ok_insert _ _ _ _ (proj2 Hd)).
  - intros a d' H%upsert_source_ok. subst d'. split; [done|].
    intros Hd. apply (registries_ok_inserted r raw d); [done|by apply X|]. cbn. rewrite S.
    refine (source_ok_upsert _ _ _ _ _ (proj2 Hd)). unfold is_empty in Es. zbool. done.
Qed.

Lemma notify_step_keeps (P : DB -> Prop) c m w :
  P (w_db w) -> (forall d l, P d -> P (set_notifications l d)) ->
  ignore (pg_notify c m) w = (Ok tt, snd (ignore (pg_notify c m) w)) /\
  P (w_db (snd (ignore (pg_notify c m) w))).
Proof.
  intros H0 H1. split; [unfold ignore; by destruct (pg_notify c m w)|].
  unfold pg_notify, exec. apply ignore_statement_db; [done|]. intros a d' [= _ <-]. by apply H1.
Qed.

Lemma InsertReading_cases r raw w :
  (hd false (w_faults w) = true /\
   exists e, InsertReading r raw w = (Err e, mkWorld (w_db w) (w_now w) (tail (w_faults w)))) \/
  (hd false (w_faults w) = false /\
   exists w', InsertReading r raw w = (Ok tt, w') /\ inserted r raw (w_db w) (w_db w') /\
    (registries_ok (w_db w) -> registries_ok (w_db w'))).
Proof.
  unfold InsertReading. destruct w as [d t fs].
  destruct (match fs with true :: _ => true | _ => false end) eqn:Ef.
  { left. destruct fs as [|[] fs]; try done. split; [done|]. by eexists. }
  right. split; [by destruct fs as [|[] fs]|].
  assert (exec (fun d _ => insert_reading_row r raw d) (mkWorld d t fs) =
    (Ok tt, mkWorld (insert_reading_row r raw d) t (tail fs))) as E
    by (by destruct fs as [|[] fs]).
  unfold mbind at 1, M_bind. rewrite E, bind_ignore. set (w1 := mkWorld _ _ _).
  pose proof (InsertReading_index_step r raw d w1 eq_refl) as (I2 & S2 & X2).
  set (w2 := snd (ignore _ w1)) in *. clearbody w2. cbn [w_db].
  destruct (is_empty (r_Source r)) eqn:Es; cbn [negb].
  - unfold mbind at 1, M_bind, mret at 1, M_ret.
    destruct (notify_step_keeps (fun d2 => inserted r raw d d2 /\ (registries_ok d -> registries_ok d2))
      "winnow" (notify_payload r) w2) as (-> & H); [|done|eauto].
    split; [done|]. intros Hd. apply (registries_ok_inserted r raw d); [done|auto|]. rewrite S2.
    exact (source_ok_insert _ _ _ _ (proj2 Hd)).
  - rewrite bind_ignore.
    pose proof (InsertReading_source_step r raw d w2 Es I2 S2 X2) as H3. cbv zeta in H3.
    destruct (notify_step_keeps (fun d2 => inserted r raw d d2 /\ (registries_ok d -> registries_ok d2))
      "winnow" (notify_payload r) _ H3) as (-> & H); [done|eauto].
Qed.

(** ** The exact registries of a run without faults *)

Definition notified (c p : string) (d : DB) : DB :=
  set_notifications (notifications d ++ [(c, p)])%list d.
Definition index_row (r : Reading) (d : DB) : IndexRow :=
  match meter_index d !! r_EndpointID r with
  | None => index_insert r | Some x => index_update x r
  end.
Definition source_row (r : Reading) (d : DB) : SourceRow :=
  match meter_source d !! (r_EndpointID r, r_Source r) with
  | None => mkSource 1 (r_TS r)
  | Some x => mkSource (ms_packets x + 1) (Z.max (ms_last_seen x) (r_TS r))
  end.

(** Counts that an upsert can still increment. *)
Definition counts_fit (d : DB) : Prop := Z.of_nat (length (readings d)) < int64_max.

Lemma readings_of_le id d : Z.of_nat (length (readings_of id d)) <= Z.of_nat (length (readings d)).
Proof.
  unfold readings_of. rewrite <- (length_map fst (readings d)). apply Nat2Z.inj_le, length_filter.
Qed.
Lemma readings_from_le id s d :
  Z.of_nat (length (readings_from id s d)) <= Z.of_nat (length (readings d)).
Proof.
  unfold readings_from. rewrite <- (length_map fst (readings d)). apply Nat2Z.inj_le, length_filter.
Qed.

Lemma upsert_index_runs r raw d :
  registries_exact d -> counts_fit d ->
  upsert_index r (insert_reading_row r raw d) =
  Ok (tt, set_meter_index (<[r_EndpointID r := index_row r d]> (meter_index d))
            (insert_reading_row r raw d)).
Proof.
  intros [HI _] Hf. unfold upsert_index, index_row. cbn. specialize (HI (r_EndpointID r)).
  destruct (meter_index d !! r_EndpointID r) as [x|]; [|done].
  destruct HI as [Hc _]. pose proof (readings_of_le (r_EndpointID r) d). unfold counts_fit in Hf.
  destruct (Z.eqb_spec (ix_packets x) int64_max); [lia|done].
Qed.

Lemma upsert_source_runs r d d' :
  registries_exact d -> counts_fit d -> r_Source r <> EmptyString ->
  meter_source d' = meter_source d ->
  upsert_source r d' =
  Ok (tt, set_meter_source (<[(r_EndpointID r, r_Source r) := source_row r d]> (meter_source d)) d').
Proof.
  intros [_ HS] Hf Hs E. unfold upsert_source, source_row. rewrite E.
  specialize (HS (r_EndpointID r) (r_Source r) Hs).
  destruct (meter_source d !! _) as [x|]; [|done].
  pose proof (readings_from_le (r_EndpointID r) (r_Source r) d). unfold counts_fit in Hf.
  destruct (Z.eqb_spec (ms_packets x) int64_max); [lia|done].
Qed.

Lemma registries_exact_row r raw d :
  registries_exact d ->
  let d1 := set_meter_index (<[r_EndpointID r := index_row r d]> (meter_index d))
              (insert_reading_row r raw d) in
  registries_exact
    (if is_empty (r_Source r) then d1
     else set_meter_source (<[(r_EndpointID r, r_Source r) := source_row r d]> (meter_source d)) d1).
Proof.
  intros [HI HS] d1. split.
  - intros id. replace (readings_of id _) with (readings_of id (insert_reading_row r raw d))
      by (by destruct (is_empty _)).
    replace (meter_index _) with (<[r_EndpointID r := index_row r d]> (meter_index d))
      by (by destruct (is_empty _)).
    rewrite readings_of_insert. specialize (HI id). unfold index_row.
    destruct (decide (r_EndpointID r = id)) as [<-|Hne].
    + rewrite lookup_insert_eq. destruct (meter_index d !! r_EndpointID r) as [x|].
      * by apply index_exact_update.
      * rewrite HI. apply index_exact_insert.
    + rewrite lookup_insert_ne, app_nil_r by done. done.
  - intros id s Hs. replace (readings_from id s _) with (readings_from id s (insert_reading_row r raw d))
      by (by destruct (is_empty _)).
    rewrite readings_from_insert. specialize (HS id s Hs). unfold source_row, is_empty.
    destruct (decide (r_EndpointID r = id /\ r_Source r = s)) as [[<- <-]|Hne].
    + apply String.eqb_neq in Hs. rewrite Hs. cbn. rewrite lookup_insert_eq, length_app.
      destruct (meter_source d !! _) as [x|]; cbn; [lia|]. by rewrite HS.
    + rewrite app_nil_r. destruct (r_Source r =? "")%string; cbn; [done|].
      rewrite lookup_insert_ne; [done|]. intros [= <- <-]. tauto.
Qed.

Lemma registries_ok_empty : registries_ok empty_DB.
Proof. split; intros *; cbn; by rewrite lookup_empty. Qed.

Lemma registries_exact_empty : registries_exact empty_DB.
Proof. split; intros *; cbn; by rewrite lookup_empty. Qed.

(** ** Properties *)

(** [InsertReading] fails exactly when its first statement fails, and then
    the whole database is unchanged; otherwise it returns no error and the raw
    row is appended, even if every registry upsert and the NOTIFY fail. *)
Theorem InsertReading_stores r raw w :
  let '(res, w') := InsertReading r raw w in
  is_ok res = negb (hd false (w_faults w)) /\
  match res with
  | Ok _ => readings (w_db w') = (readings (w_db w) ++ [(r, raw)])%list
  | Err _ => w_db w' = w_db w
  end.
Proof.
  destruct (InsertReading_cases r raw w) as [[-> [e ->]]|[-> (w' & -> & I & _)]]; done.
Qed.

(** C23: Whatever statements fail, the ingest registries stay sound: a packet
    count never exceeds the stored packets of that meter (or meter and dongle),
    minimum, maximum, last value and first/last times all come from stored
    packets, and first seen is not after last seen. *)
Theorem InsertReading_keeps_registries r raw w :
  registries_ok (w_db w) -> registries_ok (w_db (snd (InsertReading r raw w))).
Proof.
  intros H. destruct (InsertReading_cases r raw w) as [[_ [e ->]]|[_ (w' & -> & _ & K)]]; cbn; auto.
Qed.

(** A first packet whose NOTIFY and registry upserts are tried on an empty database. *)
Definition sample_reading : Reading := mkReading (1000 * Second) "SCM" 42 (Some 7) (Some (of_Z 100)) "dongle0".

Lemma InsertReading_keeps_registries_witness :
  registries_ok (w_db (snd (InsertReading sample_reading "{}" (mkWorld empty_DB 0 [false; false; true])))).
Proof.
  apply (InsertReading_keeps_registries sample_reading "{}" (mkWorld empty_DB 0 [false; false; true])).
  apply registries_ok_empty.
Defined.

(** C24: When no statement fails and the counts fit in 64 bits, registries that
    are exact (as installing the schema leaves them) stay exact after every
    [InsertReading]: packet counts equal the stored packets per meter and per
    meter and dongle, and minimum and maximum bound every stored value. *)
Theorem InsertReading_exact r raw w :
  no_faults w -> registries_exact (w_db w) -> counts_fit (w_db w) ->
  registries_exact (w_db (snd (InsertReading r raw w))).
Proof.
  intros Hf He Hc. unfold InsertReading. unfold mbind at 1, M_bind. rewrite exec_ok by done.
  set (w1 := mkWorld _ _ _). assert (no_faults w1) by (by apply no_faults_tail).
  rewrite bind_ignore. erewrite ignore_ok; [|done|by apply upsert_index_runs]. set (w2 := mkWorld _ _ _).
  assert (no_faults w2) by (by apply no_faults_tail).
  pose proof (registries_exact_row r raw (w_db w) He) as Hx. cbv zeta in Hx.
  destruct (is_empty (r_Source r)) eqn:Es; cbn [negb].
  - unfold mbind at 1, M_bind, mret at 1, M_ret, ignore, pg_notify. rewrite exec_ok by done. exact Hx.
  - rewrite bind_ignore.
    assert (r_Source r <> EmptyString) by (intros E; unfold is_empty in Es; by rewrite E in Es).
    erewrite (ignore_ok _ _ w2); [|done|by apply (upsert_source_runs r (w_db w))]. unfold ignore, pg_notify. rewrite exec_ok by (by apply no_faults_tail). exact Hx.
Qed.

Lemma InsertReading_exact_witness :
  registries_exact (w_db (snd (InsertReading sample_reading "{}" (mkWorld empty_DB 0 [])))).
Proof.
  apply (InsertReading_exact sample_reading "{}" (mkWorld empty_DB 0 [])).
  - constructor.
  - apply registries_exact_empty.
  - reflexivity.
Defined.

(** [PruneDevices] with a non-empty set, when it succeeds, leaves exactly the
    inventory rows and heartbeats of the dongles in the set, unchanged; with the
    empty set (an enumeration that found nothing) it runs no statement at all. *)
Theorem PruneDevices_keeps_detected keep w :
  match PruneDevices keep w with
  | (Ok _, w') =>
      (keep = [] -> w' = w) /\
      (keep <> [] -> forall s,
        sdr_devices (w_db w') !! s = (if decide (s ∈ keep) then sdr_devices (w_db w) !! s else None) /\
        capture_heartbeat (w_db w') !! s =
          (if decide (s ∈ keep) then capture_heartbeat (w_db w) !! s else None))
  | (Err _, w') =>
      capture_heartbeat (w_db w') = capture_heartbeat (w_db w) /\ readings (w_db w') = readings (w_db w)
  end.
Proof.
  assert (forall A (m : gmap string A) s,
    filter (fun kv : string * A => kv.1 ∈ keep) m !! s = if decide (s ∈ keep) then m !! s else None) as Hl.
  { intros A m s. destruct (decide (s ∈ keep)).
    - destruct (m !! s) eqn:E; [by apply map_lookup_filter_Some|apply map_lookup_filter_None; by left].
    - apply map_lookup_filter_None. right. by intros ? _. }
  destruct keep as [|k keep]; [done|]. unfold PruneDevices. set (ks := k :: keep) in *.
  unfold mbind, M_bind. step_exec; [done|]. step_exec; [done|].
  split; [done|]. intros _ s. cbn. rewrite !Hl. done.
Qed.
