(* ===== verification/AgentWire.v ===== *)
(** * The protocol of the remote agent ([internal/agentwire/agentwire.go])

    Keys, the sealed session and the two-message handshake.  A run of one side
    is a [proto]: a finite tree of its transport, randomness and callback
    actions, run by [advance] against any environment.  The functions of
    golang.org/x/crypto are the class [Crypto]; [CryptoLaws] states what the code
    relies on: a box opens under the matching keys, the two sides of a
    Diffie-Hellman agreement compute the same secret, keys have 32 bytes. *)

From S2P Require Import Prelude Float64 Model Json Encoding Store.

Definition ctxTag : string := "winnow-agent-v1".

(** ** Application messages *)

Record DeviceInfo := mkDeviceInfo { di_Source : string; di_Name : string; di_Tuner : string }.
Record ReadingMsg := mkReadingMsg { rm_Reading : Reading; rm_Raw : string }.
Record HeartbeatMsg := mkHeartbeatMsg { hm_Source : string; hm_LastTS : string; hm_Total : Z }.
Record SourceConfig := mkSourceConfig {
  sc_Source : string; sc_Enabled : bool; sc_Freq : string; sc_Gain : string; sc_PPM : string;
  sc_MsgType : string; sc_FilterID : string
}.
Record Message := mkMessage {
  msg_Type : string;
  msg_Agent : string;
  msg_Devices : list DeviceInfo;
  msg_Reading : option ReadingMsg;
  msg_Heartbeat : option HeartbeatMsg;
  msg_Config : list SourceConfig
}.
Definition plain_message (ty : string) : Message := mkMessage ty "" [] None None [].

(** ** Keys *)

Class Crypto := {
  x25519_base : string -> string;
  box_seal : string -> string -> string -> string -> string;
  box_open : string -> string -> string -> string -> option string;
  precompute : string -> string -> string;
  secretbox_seal : string -> string -> string -> string;
  secretbox_open : string -> string -> string -> option string
}.

Class CryptoLaws (C : Crypto) := {
  x25519_length s : String.length (x25519_base s) = 32%nat;
  box_open_seal m n a b :
    box_open (box_seal m n (x25519_base b) a) n (x25519_base a) b = Some m;
  precompute_comm a b : precompute (x25519_base a) b = precompute (x25519_base b) a;
  secretbox_open_seal m n k : secretbox_open (secretbox_seal m n k) n k = Some m
}.

Definition EncodeKey (k : string) : string := EncodeToString k.
Definition DecodeKey (s : string) : option string :=
  match DecodeString s with
  | Some b => if (String.length b =? 32)%nat then Some b else None
  | None => None
  end.
Definition Fingerprint (k : string) : string := str_take 16 (RawEncodeToString (Sum256 k)).

(** ** The runs of one side *)

Inductive proto (A : Type) : Type :=
  | Return (r : result A)
  | WriteMsg (m : string) (k : bool -> proto A)
  | ReadMsg (k : option string -> proto A)
  | GenKey (k : option string -> proto A)
  | RandNonce (k : option string -> proto A)
  | Authorized (pub : string) (k : option string -> proto A)
  | OnUnauthorized (pub name : string) (k : proto A).
Arguments Return {A} _.
Arguments WriteMsg {A} _ _.
Arguments ReadMsg {A} _.
Arguments GenKey {A} _.
Arguments RandNonce {A} _.
Arguments Authorized {A} _ _.
Arguments OnUnauthorized {A} _ _ _.

Fixpoint proto_bind {A B} (f : A -> proto B) (p : proto A) : proto B :=
  match p with
  | Return (Ok a) => f a
  | Return (Err e) => Return (Err e)
  | WriteMsg m k => WriteMsg m (fun b => proto_bind f (k b))
  | ReadMsg k => ReadMsg (fun o => proto_bind f (k o))
  | GenKey k => GenKey (fun o => proto_bind f (k o))
  | RandNonce k => RandNonce (fun o => proto_bind f (k o))
  | Authorized pub k => Authorized pub (fun o => proto_bind f (k o))
  | OnUnauthorized pub name k => OnUnauthorized pub name (proto_bind f k)
  end.
#[export] Instance proto_ret : MRet proto := fun A a => Return (Ok a).
#[export] Instance proto_mbind : MBind proto := fun A B f p => proto_bind f p.

Definition abort {A} (e : string) : proto A := Return (Err e).
Definition of_option {A} (e : string) (o : option A) : proto A :=
  match o with Some a => Return (Ok a) | None => abort e end.
Definition read_msg : proto string := ReadMsg (of_option "read").
Definition write_msg (m : string) : proto unit :=
  WriteMsg m (fun ok => if ok then mret tt else abort "write").
Definition randNonce : proto string := RandNonce (of_option "rand").

(** The environment of a run: what reads return (an empty list blocks the run),
    the private keys and nonces the random source gives ([None] is its error),
    and whether writes succeed; and what the run did. *)
Record env := mkEnv {
  e_in : list (option string); e_keys : list (option string);
  e_nonces : list (option string); e_writes : list bool
}.
Inductive event := Sent (m : string) | Asked (pub : string) | Refused (pub name : string).

Fixpoint advance {A} (auth : string -> option string) (p : proto A) (e : env)
  : proto A * list event :=
  match p with
  | Return r => (Return r, [])
  | WriteMsg m k =>
      let '(q, l) := advance auth (k (hd true (e_writes e)))
                       (mkEnv (e_in e) (e_keys e) (e_nonces e) (tail (e_writes e))) in
      (q, Sent m :: l)
  | ReadMsg k =>
      match e_in e with
      | [] => (ReadMsg k, [])
      | o :: rest => advance auth (k o) (mkEnv rest (e_keys e) (e_nonces e) (e_writes e))
      end
  | GenKey k => advance auth (k (hd None (e_keys e)))
                  (mkEnv (e_in e) (tail (e_keys e)) (e_nonces e) (e_writes e))
  | RandNonce k => advance auth (k (hd None (e_nonces e)))
                     (mkEnv (e_in e) (e_keys e) (tail (e_nonces e)) (e_writes e))
  | Authorized pub k => let '(q, l) := advance auth (k (auth pub)) e in (q, Asked pub :: l)
  | OnUnauthorized pub name k => let '(q, l) := advance auth k e in (q, Refused pub name :: l)
  end.

Section Wire.
Context {C : Crypto}.

Definition GenerateKey : proto (string * string) :=
  GenKey (fun o => match o with
                   | Some s => Return (Ok (x25519_base s, s))
                   | None => abort "rand"
                   end).
Definition PublicFromPrivate (priv : string) : string := x25519_base priv.

(** ** The session *)

Record Session := mkSession { key : string }.

Definition Seal (s : Session) (plain : string) : proto string :=
  n ← randNonce; mret (n ++ secretbox_seal plain n (key s)).
Definition Open (s : Session) (data : string) : result string :=
  if (String.length data <? 24)%nat then Err "short frame"
  else match secretbox_open (str_drop 24 data) (str_take 24 data) (key s) with
       | Some p => Ok p
       | None => Err "decrypt failed"
       end.

Definition SendMsg (Marshal : Message -> string) (s : Session) (m : Message) : proto unit :=
  sealed ← Seal s (Marshal m); write_msg sealed.
Definition RecvMsg (Unmarshal : string -> option Message) (s : Session) : proto Message :=
  data ← read_msg;
  match Open s data with
  | Err e => abort e
  | Ok plain => of_option "json" (Unmarshal plain)
  end.

(** ** The handshake *)

Record hsInit := mkInit {
  ClientStaticPub : string; ClientEphPub : string; hi_Nonce : string; hi_Box : string; hi_Label : string
}.
Record hsResp := mkResp { ServerEphPub : string; hr_Nonce : string; hr_Box : string }.

Definition marshal_init (i : hsInit) : string :=
  marshal_object
    ([("cspub", marshal_string (ClientStaticPub i)); ("cepub", marshal_string (ClientEphPub i));
      ("n", marshal_string (hi_Nonce i)); ("box", marshal_string (hi_Box i))]
     ++ (if is_empty (hi_Label i) then [] else [("label", marshal_string (hi_Label i))]))%list.
Definition marshal_resp (r : hsResp) : string :=
  marshal_object [("sepub", marshal_string (ServerEphPub r)); ("n", marshal_string (hr_Nonce r));
                  ("box", marshal_string (hr_Box r))].

(** The members of a struct text: [null] leaves the zero value. *)
Definition struct_members (raw : string) : option (list (string * json)) :=
  match parse raw with
  | Some (JObj ms) => Some ms
  | Some JNull => Some []
  | _ => None
  end.
Definition init_names : list string := ["cspub"; "cepub"; "n"; "box"; "label"].
Definition resp_names : list string := ["sepub"; "n"; "box"].
Definition decode_init (raw : string) : option hsInit :=
  match struct_members raw with
  | None => None
  | Some ms =>
      let f n := get_str init_names n ms in
      match f "cspub", f "cepub", f "n", f "box", f "label" with
      | Some a, Some b, Some c, Some d, Some e => Some (mkInit a b c d e)
      | _, _, _, _, _ => None
      end
  end.
Definition decode_resp (raw : string) : option hsResp :=
  match struct_members raw with
  | None => None
  | Some ms =>
      let f n := get_str resp_names n ms in
      match f "sepub", f "n", f "box" with
      | Some a, Some b, Some c => Some (mkResp a b c)
      | _, _, _ => None
      end
  end.

Definition seal (payload peerPub myPriv : string) : proto (string * string) :=
  n ← randNonce; mret (EncodeToString n, EncodeToString (box_seal payload n peerPub myPriv)).
Definition open (nonceB64 boxB64 peerPub myPriv : string) : option string :=
  match DecodeString nonceB64 with
  | Some n => if (String.length n =? 24)%nat
              then match DecodeString boxB64 with
                   | Some c => box_open c n peerPub myPriv
                   | None => None
                   end
              else None
  | None => None
  end.

Definition ClientHandshake (clientPub clientPriv serverPub label : string) : proto Session :=
  '(ePub, ePriv) ← GenerateKey;
  '(nonceB64, boxB64) ← seal (ePub ++ ctxTag) serverPub clientPriv;
  write_msg (marshal_init (mkInit (EncodeKey clientPub) (EncodeKey ePub) nonceB64 boxB64 label)) ;;
  raw ← read_msg;
  resp ← of_option "bad handshake response" (decode_resp raw);
  sEphPub ← of_option "bad key" (DecodeKey (ServerEphPub resp));
  match open (hr_Nonce resp) (hr_Box resp) serverPub clientPriv with
  | None => abort "server authentication failed"
  | Some payload =>
      if (String.length payload <? 64)%nat then abort "server authentication failed"
      else if negb ((str_take 32 payload =? sEphPub)%string
                    && (str_take 32 (str_drop 32 payload) =? ePub)%string
                    && (str_drop 64 payload =? ctxTag)%string)
      then abort "handshake binding mismatch"
      else mret (mkSession (precompute sEphPub ePriv))
  end.

(** [onUnauthorized] is present at the only call site; [serverPub] is unused by
    the source too. *)
Definition ServerHandshake (serverPriv : string) : proto (Session * string) :=
  raw ← read_msg;
  init ← of_option "bad handshake init" (decode_init raw);
  cStaticPub ← of_option "bad key" (DecodeKey (ClientStaticPub init));
  Authorized cStaticPub (fun o =>
    match o with
    | None => OnUnauthorized cStaticPub (hi_Label init) (abort "agent key not authorized")
    | Some label =>
        cEphPub ← of_option "bad key" (DecodeKey (ClientEphPub init));
        match open (hi_Nonce init) (hi_Box init) cStaticPub serverPriv with
        | None => abort "client authentication failed"
        | Some payload =>
            if (String.length payload <? 32)%nat then abort "client authentication failed"
            else if negb ((str_take 32 payload =? cEphPub)%string
                          && (str_drop 32 payload =? ctxTag)%string)
            then abort "handshake binding mismatch"
            else
              '(sEphPub, sEphPriv) ← GenerateKey;
              '(nonceB64, boxB64) ← seal (sEphPub ++ cEphPub ++ ctxTag) cStaticPub serverPriv;
              write_msg (marshal_resp (mkResp (EncodeKey sEphPub) nonceB64 boxB64)) ;;
              mret (mkSession (precompute cEphPub sEphPriv), label)
        end
    end).
End Wire.

(** ** Byte strings *)

Lemma str_take_app a b : str_take (String.length a) (a ++ b) = a.
Proof. unfold str_take. induction a as [|c a IH]; cbn; [by destruct b|]. by rewrite IH. Qed.

Lemma str_drop_app a b : str_drop (String.length a) (a ++ b) = b.
Proof. induction a as [|c a IH]; cbn; [by destruct b|]. done. Qed.

Lemma str_take_drop n s : str_take n s ++ str_drop n s = s.
Proof.
  unfold str_take. revert s. induction n as [|n IH]; intros s; [by destruct s|].
  destruct s as [|c s]; cbn; [done|]. by rewrite IH.
Qed.

Lemma str_drop_drop n m s : str_drop n (str_drop m s) = str_drop (m + n) s.
Proof. revert s. induction m as [|m IH]; intros s; cbn; [done|]. destruct s; [by destruct n|]. apply IH. Qed.

Lemma all_ascii_app a b : all_ascii (a ++ b) = all_ascii a && all_ascii b.
Proof. induction a as [|c a IH]; cbn; [done|]. by rewrite IH, andb_assoc. Qed.

Lemma is_ascii_b64 v : 0 <= v < 64 -> is_ascii (b64_char v) = true.
Proof.
  intros Hv. unfold is_ascii, b64_char.
  repeat case_match_goal; zbool; rewrite byte_of_chr by lia; lia.
Qed.

Lemma all_ascii_base64 s : all_ascii (EncodeToString s) = true.
Proof.
  unfold EncodeToString.
  assert (forall n s, (String.length s < n)%nat -> all_ascii (b64_encode "=" s) = true) as H;
    [|by apply (H (S (String.length s))); lia].
  clear s. induction n as [|n IH]; [lia|]. intros s Hs.
  destruct s as [|a [|b [|c r]]]; cbn [b64_encode all_ascii String.append]; [done|..];
    pose proof (byte_range a); try pose proof (byte_range b); try pose proof (byte_range c);
    rewrite ?is_ascii_b64 by euclid; [done|done|].
  cbn [andb]. apply IH. cbn in Hs. lia.
Qed.

Lemma DecodeKey_EncodeKey k : String.length k = 32%nat -> DecodeKey (EncodeKey k) = Some k.
Proof. intros Hk. unfold DecodeKey, EncodeKey. by rewrite DecodeString_EncodeToString, Hk. Qed.

Lemma EncodeKey_inj k k' : EncodeKey k = EncodeKey k' -> k = k'.
Proof.
  intros E. apply (inj Some). rewrite <- !DecodeString_EncodeToString. unfold EncodeKey in E. by rewrite E.
Qed.

Lemma DecodeKey_length s k : DecodeKey s = Some k -> String.length k = 32%nat.
Proof.
  unfold DecodeKey. destruct (DecodeString s) as [b|]; [|done].
  destruct (Nat.eqb_spec (String.length b) 32); [|done]. by intros [= <-].
Qed.

(** ** The handshake messages survive the wire *)

(** The text of an object whose members are all strings. *)
Lemma parse_string_members (l : list (string * string)) :
  l <> [] -> (length l < 5000)%nat ->
  Forall (fun m => all_ascii m.1 = true /\ all_ascii m.2 = true) l ->
  parse (marshal_object (map (fun m => (m.1, marshal_string m.2)) l)) =
  Some (JObj (map (fun m => (m.1, JStr m.2)) l)).
Proof.
  intros Hne Hlen Hl.
  set (l' := map (fun m : string * string => (m.1, (marshal_string m.2, JStr m.2))) l).
  assert (map (fun m => (m.1, marshal_string m.2)) l = texts_of l') as ->.
  { unfold texts_of, l'. rewrite map_map. done. }
  assert (map (fun m => (m.1, JStr m.2)) l = values_of l') as ->.
  { unfold values_of, l'. rewrite map_map. done. }
  assert (length l' = length l) as El by (unfold l'; by rewrite length_map).
  apply (parse_closed (S (length l' + 1))).
  - apply closed_text_object.
    + unfold l'. by destruct l.
    + unfold l'. apply Forall_map. eapply Forall_impl; [exact Hl|]. intros [k v] [Hk Hv]. cbn.
      split; [done|]. by apply value_text_string.
  - rewrite El. unfold marshal_object. rewrite !str_length_app.
    assert (length l <= S (String.length (str_join "," (map marshal_member (texts_of l')))))%nat.
    { rewrite <- El. clear. induction l' as [|[k [t v]] l' IH]; [cbn; lia|].
      unfold str_join in *. cbn [texts_of map String.concat fst snd].
      destruct l' as [|m l']; cbn [texts_of map]; [unfold marshal_member, marshal_string; cbn; lia|].
      cbn [texts_of map] in IH. unfold marshal_member at 1, marshal_string at 1.
      rewrite !str_length_app. cbn [String.length quote fst snd]. cbn [length] in *. lia. }
    cbn [String.length]. lia.
  - rewrite El. unfold maxNestingDepth. lia.
Qed.

Ltac ascii_members :=
  repeat (apply Forall_cons; split; [cbn [fst snd]; split;
    [reflexivity | unfold EncodeKey; first [done | apply all_ascii_base64]]|]); apply Forall_nil; done.

Lemma decode_marshal_init a b c d l :
  all_ascii l = true ->
  decode_init (marshal_init (mkInit (EncodeToString a) (EncodeToString b) (EncodeToString c) (EncodeToString d) l))
  = Some (mkInit (EncodeToString a) (EncodeToString b) (EncodeToString c) (EncodeToString d) l).
Proof.
  intros Hl. unfold decode_init, struct_members, marshal_init. cbn [hi_Label ClientStaticPub ClientEphPub hi_Nonce hi_Box].
  destruct (is_empty l) eqn:E.
  - apply String.eqb_eq in E. subst l. cbn [app].
    pose proof (parse_string_members
               [("cspub", EncodeToString a); ("cepub", EncodeToString b); ("n", EncodeToString c);
                ("box", EncodeToString d)]) as P;
      cbn [map fst snd] in P; rewrite P by (try done; try (cbn; lia); ascii_members); clear P.
    reflexivity.
  - cbn [app].
    pose proof (parse_string_members
               [("cspub", EncodeToString a); ("cepub", EncodeToString b); ("n", EncodeToString c);
                ("box", EncodeToString d); ("label", l)]) as P;
      cbn [map fst snd] in P; rewrite P by (try done; try (cbn; lia); ascii_members); clear P.
    reflexivity.
Qed.

Lemma decode_marshal_resp a b c :
  decode_resp (marshal_resp (mkResp (EncodeToString a) (EncodeToString b) (EncodeToString c)))
  = Some (mkResp (EncodeToString a) (EncodeToString b) (EncodeToString c)).
Proof.
  unfold decode_resp, struct_members, marshal_resp. cbn [ServerEphPub hr_Nonce hr_Box].
  pose proof (parse_string_members
               [("sepub", EncodeToString a); ("n", EncodeToString b); ("box", EncodeToString c)]) as P.
  cbn [map fst snd] in P. rewrite P by (try done; try (cbn; lia); ascii_members).
  reflexivity.
Qed.

(** ** What a completed handshake proves, whatever the network delivers *)

(** Only the result of a run, when it has one. *)
Definition outcome {A} (r : proto A * list event) : option (result A) :=
  match r.1 with Return x => Some x | _ => None end.

#[local] Arguments str_drop : simpl never.
#[local] Arguments str_take : simpl never.
#[local] Arguments Nat.ltb : simpl never.
#[local] Arguments String.eqb : simpl never.
#[local] Arguments String.append : simpl never.
#[local] Arguments decode_init : simpl never.
#[local] Arguments decode_resp : simpl never.
#[local] Arguments marshal_init : simpl never.
#[local] Arguments marshal_resp : simpl never.
#[local] Arguments EncodeToString : simpl never.
#[local] Arguments DecodeKey : simpl never.
#[local] Arguments open {_} _ _ _ _ : simpl never.

(** Run the monad and the environment on the goal. *)
Ltac unfold_run :=
  unfold ServerHandshake, ClientHandshake, read_msg, of_option, GenerateKey, seal, randNonce, write_msg, abort;
  cbn [advance mbind proto_mbind proto_bind].
Ltac stuck := intros; cbn in *; simplify_eq; done.

Section Safety.
Context {C : Crypto}.

Lemma open_inv nb bb pub priv p :
  open nb bb pub priv = Some p ->
  exists n c, DecodeString nb = Some n /\ DecodeString bb = Some c /\ box_open c n pub priv = Some p.
Proof.
  unfold open. destruct (DecodeString nb) as [n|]; [|done].
  destruct (String.length n =? 24)%nat; [|done]. destruct (DecodeString bb) as [c|]; [|done]. eauto.
Qed.

(** The result after the response is read or built, by the four guards. *)
Lemma split_payload n p k t :
  (str_take n p =? k)%string = true -> (str_drop n p =? t)%string = true -> p = (k ++ t)%string.
Proof. intros <-%String.eqb_eq <-%String.eqb_eq. by rewrite str_take_drop. Qed.

(** What the server has checked when it returns a session. *)
Definition server_checked (auth : string -> option string) (sk raw : string) (e : env)
  (sess : Session) (label : string) : Prop :=
  exists init cpub ceph n c priv,
    decode_init raw = Some init /\ DecodeKey (ClientStaticPub init) = Some cpub /\
    auth cpub = Some label /\ DecodeKey (ClientEphPub init) = Some ceph /\
    DecodeString (hi_Nonce init) = Some n /\ DecodeString (hi_Box init) = Some c /\
    box_open c n cpub sk = Some (ceph ++ ctxTag) /\
    hd None (e_keys e) = Some priv /\ key sess = precompute ceph priv.

Lemma server_outcome auth sk e sess label :
  outcome (advance auth (ServerHandshake sk) e) = Some (Ok (sess, label)) ->
  exists raw rest, e_in e = Some raw :: rest /\ server_checked auth sk raw e sess label.
Proof.
  unfold_run.
  destruct (e_in e) as [|[raw|] rest]; cbn; [stuck| |stuck].
  destruct (decode_init raw) as [init|] eqn:Ei; cbn; [|stuck].
  destruct (DecodeKey (ClientStaticPub init)) as [cpub|] eqn:Ek; cbn; [|stuck].
  destruct (auth cpub) as [lb|] eqn:Ea; cbn; [|stuck].
  destruct (DecodeKey (ClientEphPub init)) as [ceph|] eqn:Ee; cbn; [|stuck].
  destruct (open (hi_Nonce init) (hi_Box init) cpub sk) as [payload|] eqn:Eo; cbn; [|stuck].
  destruct (String.length payload <? 32)%nat eqn:El; cbn; [stuck|].
  destruct (_ && _) eqn:Eb; cbn; [|stuck].
  destruct (hd None (e_keys e)) as [priv|] eqn:Ep; cbn; [|stuck].
  destruct (hd None (e_nonces e)) as [n'|]; cbn; [|stuck].
  destruct (hd true (e_writes e)); cbn; [|stuck].
  intros [= <- <-]. apply andb_true_iff in Eb as [E1 E2].
  apply open_inv in Eo as (n & c & En & Ec & Eopen). rewrite (split_payload _ _ _ _ E1 E2) in Eopen.
  exists raw, rest. split; [done|]. by exists init, cpub, ceph, n, c, priv.
Qed.

(** What the client has checked: the answer's box was made for this exchange. *)
Definition client_checked (serverPub clientPriv ePriv : string) (raw : string) (sess : Session) : Prop :=
  exists resp sEph n c,
    decode_resp raw = Some resp /\ DecodeKey (ServerEphPub resp) = Some sEph /\
    DecodeString (hr_Nonce resp) = Some n /\ DecodeString (hr_Box resp) = Some c /\
    box_open c n serverPub clientPriv = Some (sEph ++ x25519_base ePriv ++ ctxTag) /\
    key sess = precompute sEph ePriv.

Lemma client_outcome auth pub priv serverPub label e sess :
  outcome (advance auth (ClientHandshake pub priv serverPub label) e) = Some (Ok sess) ->
  exists raw rest ePriv, e_in e = Some raw :: rest /\ hd None (e_keys e) = Some ePriv /\
    client_checked serverPub priv ePriv raw sess.
Proof.
  unfold_run.
  destruct (hd None (e_keys e)) as [ePriv|] eqn:Ep; cbn; [|stuck].
  destruct (hd None (e_nonces e)) as [n'|]; cbn; [|stuck].
  destruct (hd true (e_writes e)); cbn; [|stuck].
  destruct (e_in e) as [|[raw|] rest]; cbn; [stuck| |stuck].
  destruct (decode_resp raw) as [resp|] eqn:Er; cbn; [|stuck].
  destruct (DecodeKey (ServerEphPub resp)) as [sEph|] eqn:Ek; cbn; [|stuck].
  destruct (open (hr_Nonce resp) (hr_Box resp) serverPub priv) as [payload|] eqn:Eo; cbn; [|stuck].
  destruct (String.length payload <? 64)%nat eqn:El; cbn; [stuck|].
  destruct (_ && _) eqn:Eb; cbn; [|stuck].
  intros [= <-]. apply andb_true_iff in Eb as [[E1 E2]%andb_true_iff E3].
  apply open_inv in Eo as (n & c & En & Ec & Eopen).
  rewrite <- (str_drop_drop 32 32) in E3.
  pose proof (split_payload _ _ _ _ E2 E3) as Et.
  apply String.eqb_eq in E1. pose proof (str_take_drop 32 payload) as Ed. rewrite E1, Et in Ed.
  rewrite <- Ed in Eopen. exists raw, rest, ePriv. split; [done|]. split; [done|].
  by exists resp, sEph, n, c.
Qed.
End Safety.

(** ** Both sides together *)

Definition sent_frames (l : list event) : list string :=
  omap (fun ev => match ev with Sent m => Some m | _ => None end) l.

#[local] Opaque decode_init decode_resp marshal_init marshal_resp EncodeToString DecodeKey open.

Section Pair.
Context {C : Crypto}.

(** An exchange over an honest network: what the client writes first is what the
    server reads, and the server's answer is what the client reads. *)
Definition handshake (auth : string -> option string) (client : proto Session)
  (server : proto (Session * string)) (ec es : list (option string) * list (option string))
  : option (result Session) * option (result (Session * string)) :=
  let first := advance auth client (mkEnv [] ec.1 ec.2 []) in
  let answer := advance auth server (mkEnv (map Some (sent_frames first.2)) es.1 es.2 []) in
  let last := advance auth client (mkEnv (map Some (sent_frames answer.2)) ec.1 ec.2 []) in
  (outcome last, outcome answer).

Lemma DecodeKey_base `{!CryptoLaws C} p : DecodeKey (EncodeToString (x25519_base p)) = Some (x25519_base p).
Proof. apply DecodeKey_EncodeKey, x25519_length. Qed.

Lemma open_seal `{!CryptoLaws C} m n a b :
  String.length n = 24%nat ->
  open (EncodeToString n) (EncodeToString (box_seal m n (x25519_base b) a)) (x25519_base a) b = Some m.
Proof. intros Hn. with_strategy transparent [open] unfold open. by rewrite !DecodeString_EncodeToString, Hn, box_open_seal. Qed.

Lemma take_key n (k t : string) : String.length k = n -> str_take n (k ++ t) = k.
Proof. intros <-. apply str_take_app. Qed.
Lemma drop_key n (k t : string) : String.length k = n -> str_drop n (k ++ t) = t.
Proof. intros <-. apply str_drop_app. Qed.

(** The server's answer to the client's first message. *)
Lemma server_answers `{!CryptoLaws C} auth cpriv spriv ea eb name label n1 n2 :
  String.length n1 = 24%nat -> all_ascii name = true ->
  auth (x25519_base cpriv) = Some label ->
  let cpub := x25519_base cpriv in
  let box1 := EncodeToString (box_seal (x25519_base ea ++ ctxTag) n1 (x25519_base spriv) cpriv) in
  let raw := marshal_init (mkInit (EncodeKey cpub) (EncodeKey (x25519_base ea)) (EncodeToString n1) box1 name) in
  let box2 := EncodeToString (box_seal (x25519_base eb ++ x25519_base ea ++ ctxTag) n2 cpub spriv) in
  advance auth (ServerHandshake spriv) (mkEnv [Some raw] [Some eb] [Some n2] []) =
  (Return (Ok (mkSession (precompute (x25519_base ea) eb), label)),
   [Asked cpub; Sent (marshal_resp (mkResp (EncodeKey (x25519_base eb)) (EncodeToString n2) box2))]).
Proof.
  intros Hn Hname Hauth. cbv zeta. unfold_run. cbn.
  unfold EncodeKey. rewrite decode_marshal_init by done. cbn.
  rewrite ?DecodeKey_base. cbn.
  rewrite Hauth. cbn.
  rewrite ?DecodeKey_base. cbn.
  rewrite open_seal by done. cbn.
  rewrite take_key, drop_key, !String.eqb_refl by apply x25519_length.
  replace (String.length (x25519_base ea ++ ctxTag) <? 32)%nat with false
    by (rewrite str_length_app, x25519_length; reflexivity).
  reflexivity.
Qed.

(** The client's reading of an answer made for its exchange. *)
Lemma client_accepts `{!CryptoLaws C} auth cpriv spriv ea eb name n1 n2 :
  String.length n2 = 24%nat ->
  let cpub := x25519_base cpriv in
  let box2 := EncodeToString (box_seal (x25519_base eb ++ x25519_base ea ++ ctxTag) n2 cpub spriv) in
  let raw := marshal_resp (mkResp (EncodeKey (x25519_base eb)) (EncodeToString n2) box2) in
  outcome (advance auth (ClientHandshake cpub cpriv (x25519_base spriv) name)
             (mkEnv [Some raw] [Some ea] [Some n1] [])) =
  Some (Ok (mkSession (precompute (x25519_base eb) ea))).
Proof.
  intros Hn. cbv zeta. unfold_run. cbn.
  unfold EncodeKey. rewrite decode_marshal_resp. cbn.
  rewrite ?DecodeKey_base. cbn.
  rewrite open_seal by done. cbn.
  rewrite take_key, drop_key, take_key, !String.eqb_refl by apply x25519_length.
  rewrite <- (str_drop_drop 32 32), !drop_key by apply x25519_length. rewrite String.eqb_refl.
  replace (String.length (x25519_base eb ++ x25519_base ea ++ ctxTag) <? 64)%nat with false
    by (rewrite !str_length_app, !x25519_length; reflexivity).
  reflexivity.
Qed.

(** A message that survives its JSON crosses the wire: the frame that [SendMsg]
    writes under one session is read by [RecvMsg] under one with the same key. *)
Lemma frame_crosses `{!CryptoLaws C} auth Marshal Unmarshal (a b : Session) m n e rest :
  key a = key b -> String.length n = 24%nat -> Unmarshal (Marshal m) = Some m ->
  hd None (e_nonces e) = Some n -> hd true (e_writes e) = true ->
  exists frame,
    advance auth (SendMsg Marshal a m) e = (Return (Ok tt), [Sent frame]) /\
    forall e', e_in e' = Some frame :: rest ->
      advance auth (RecvMsg Unmarshal b) e' = (Return (Ok m), []).
Proof.
  intros Hk Hn Hm He Hw. exists (n ++ secretbox_seal (Marshal m) n (key a))%string. split.
  - unfold SendMsg, Seal, randNonce, write_msg. cbn. rewrite He. cbn. by rewrite Hw.
  - intros e' He'. unfold RecvMsg, read_msg. cbn. rewrite He'. cbn.
    assert (Open b (n ++ secretbox_seal (Marshal m) n (key a)) = Ok (Marshal m)) as ->.
    { unfold Open. rewrite take_key, drop_key, Hk, secretbox_open_seal by done.
      replace (String.length _ <? 24)%nat with false; [done|].
      symmetry. apply Nat.ltb_ge. rewrite str_length_app. lia. }
    by rewrite Hm.
Qed.
End Pair.

(** ** Theorems *)

(** C4: over an honest network the handshake completes on both sides with the
    same session key, and the server learns the label its allow-list gives the
    client's key; afterwards messages cross in both directions: whatever either
    side sends with [SendMsg] leaves it as one sealed frame, and [RecvMsg] on the
    other side reads that frame as the message.  The random source gives keys
    and 24-byte nonces, the writes succeed, the client's self-reported name is
    ASCII, and the messages survive their JSON. *)
Theorem handshake_agreement {C : Crypto} {L : CryptoLaws C} (auth : string -> option string)
    (cpriv spriv ea eb name label n1 n2 : string) :
  String.length n1 = 24%nat -> String.length n2 = 24%nat -> all_ascii name = true ->
  auth (x25519_base cpriv) = Some label ->
  exists sc ss,
    handshake auth (ClientHandshake (x25519_base cpriv) cpriv (x25519_base spriv) name)
      (ServerHandshake spriv) ([Some ea], [Some n1]) ([Some eb], [Some n2]) =
    (Some (Ok sc), Some (Ok (ss, label))) /\
    key sc = key ss /\
    forall (a b : Session), (a, b) = (sc, ss) \/ (a, b) = (ss, sc) ->
    forall (Marshal : Message -> string) (Unmarshal : string -> option Message) (m : Message)
      (n : string) (e : env) (rest : list (option string)),
      Unmarshal (Marshal m) = Some m -> String.length n = 24%nat ->
      hd None (e_nonces e) = Some n -> hd true (e_writes e) = true ->
      exists frame,
        advance auth (SendMsg Marshal a m) e = (Return (Ok tt), [Sent frame]) /\
        forall e', e_in e' = Some frame :: rest ->
          advance auth (RecvMsg Unmarshal b) e' = (Return (Ok m), []).
Proof.
  intros Hn1 Hn2 Hname Hauth.
  exists (mkSession (precompute (x25519_base eb) ea)), (mkSession (precompute (x25519_base ea) eb)).
  assert (precompute (x25519_base eb) ea = precompute (x25519_base ea) eb) as Hkey by apply precompute_comm.
  split; [|split; [done|]].
  - unfold handshake. cbn [fst snd].
    assert (sent_frames (advance auth (ClientHandshake (x25519_base cpriv) cpriv (x25519_base spriv) name)
              (mkEnv [] [Some ea] [Some n1] [])).2 =
            [marshal_init (mkInit (EncodeKey (x25519_base cpriv)) (EncodeKey (x25519_base ea))
               (EncodeToString n1)
               (EncodeToString (box_seal (x25519_base ea ++ ctxTag) n1 (x25519_base spriv) cpriv)) name)])
      as -> by reflexivity.
    cbn [map]. erewrite server_answers by done. cbn [snd sent_frames omap list_omap map].
    rewrite client_accepts by done. reflexivity.
  - intros a b Hab Marshal Unmarshal m n e rest Hm Hn He Hw.
    apply frame_crosses with n; [|done..]. by destruct Hab; simplify_eq.
Qed.

(** C6: a session exists on the server only for a key of its allow-list whose
    owner made the box: whatever frames the network delivers, when the handshake
    returns a session the label is the list's, the client's ephemeral key came out
    of a box opened under the client's static key and the server's, bound to this
    protocol's tag, and the session key is derived from exactly that key. *)
Theorem server_session_authenticated {C : Crypto} (auth : string -> option string) (spriv : string)
    (e : env) (sess : Session) (label : string) :
  outcome (advance auth (ServerHandshake spriv) e) = Some (Ok (sess, label)) ->
  exists raw rest init cpub ceph n c priv,
    e_in e = Some raw :: rest /\ decode_init raw = Some init /\
    DecodeKey (ClientStaticPub init) = Some cpub /\ auth cpub = Some label /\
    DecodeKey (ClientEphPub init) = Some ceph /\
    DecodeString (hi_Nonce init) = Some n /\ DecodeString (hi_Box init) = Some c /\
    box_open c n cpub spriv = Some (ceph ++ ctxTag) /\
    hd None (e_keys e) = Some priv /\ key sess = precompute ceph priv.
Proof.
  intros (raw & rest & Hin & init & cpub & ceph & n & c & priv & H)%server_outcome.
  by exists raw, rest, init, cpub, ceph, n, c, priv.
Qed.

(** a client whose key is not on the list gets nothing: the server writes no
    frame, reports the key and the self-reported name once for approval, and
    returns an error. *)
Theorem server_refuses_unknown {C : Crypto} (auth : string -> option string) (spriv : string) (e : env)
    (raw : string) (rest : list (option string)) (init : hsInit) (cpub : string) :
  e_in e = Some raw :: rest -> decode_init raw = Some init ->
  DecodeKey (ClientStaticPub init) = Some cpub -> auth cpub = None ->
  advance auth (ServerHandshake spriv) e =
  (Return (Err "agent key not authorized"), [Asked cpub; Refused cpub (hi_Label init)]).
Proof.
  intros Hin Hi Hk Ha. unfold_run. cbn. rewrite Hin. cbn. rewrite Hi. cbn. rewrite Hk. cbn. by rewrite Ha.
Qed.

(** C7: the client accepts no answer made for another exchange: a box of the
    genuine server that binds another ephemeral key, replayed in a well-formed
    response, never yields a session. *)
Theorem client_rejects_replay {C : Crypto} {L : CryptoLaws C} (auth : string -> option string)
    (cpriv spriv ea eb other sent name n2 : string) (e : env) (rest : list (option string)) :
  hd None (e_keys e) = Some ea -> String.length n2 = 24%nat ->
  String.length other = 32%nat -> other <> x25519_base ea ->
  e_in e = Some (marshal_resp (mkResp (EncodeToString sent) (EncodeToString n2)
             (EncodeToString (box_seal (x25519_base eb ++ other ++ ctxTag) n2 (x25519_base cpriv) spriv)))) :: rest ->
  forall sess,
  outcome (advance auth (ClientHandshake (x25519_base cpriv) cpriv (x25519_base spriv) name) e)
  <> Some (Ok sess).
Proof.
  intros Hkey Hn Hlen Hne Hin sess
    (raw & rest' & ePriv & Hin' & Hk & resp & sEph & n & c & Hr & Hs & Hdn & Hdc & Hopen & _)%client_outcome.
  rewrite Hin in Hin'. injection Hin' as <- <-. rewrite Hkey in Hk. injection Hk as <-.
  rewrite decode_marshal_resp in Hr. injection Hr as <-. cbn [ServerEphPub hr_Nonce hr_Box] in *.
  rewrite DecodeString_EncodeToString in Hdn, Hdc. injection Hdn as <-. injection Hdc as <-.
  rewrite box_open_seal in Hopen. injection Hopen as E. apply Hne.
  apply DecodeKey_length in Hs. pose proof (f_equal (str_drop 32) E) as E'.
  rewrite !drop_key in E' by (done || apply x25519_length).
  pose proof (f_equal (str_take 32) E') as E2. by rewrite !take_key in E2 by (done || apply x25519_length).
Qed.

(** ** A concrete instance *)

Fixpoint str_xor (a b : string) : string :=
  match a, b with
  | String x a', String y b' => String (chr (Z.lxor (byte_of x) (byte_of y))) (str_xor a' b')
  | _, _ => EmptyString
  end.
Definition toy_base (s : string) : string := str_take 32 (s ++ "0123456789abcdef0123456789abcdef").
Definition toy_shared (p s : string) : string := str_xor p (toy_base s).

#[local] Instance toy_Crypto : Crypto := {
  x25519_base := toy_base;
  box_seal m n p s := (n ++ toy_shared p s) ++ m;
  box_open c n p s := strip_prefix (n ++ toy_shared p s) c;
  precompute := toy_shared;
  secretbox_seal m n k := (n ++ k) ++ m;
  secretbox_open c n k := strip_prefix (n ++ k) c
}.

Lemma strip_prefix_app p m : strip_prefix p (p ++ m) = Some m.
Proof. induction p as [|c p IH]; [done|]. change (String c p ++ m)%string with (String c (p ++ m)). cbn. by rewrite Ascii.eqb_refl. Qed.

Lemma str_xor_comm a b : str_xor a b = str_xor b a.
Proof. revert b. induction a as [|x a IH]; intros [|y b]; cbn; [done..|]. by rewrite IH, Z.lxor_comm. Qed.

Lemma str_take_length n s : String.length (str_take n s) = Nat.min n (String.length s).
Proof.
  unfold str_take. revert s. induction n as [|n IH]; intros s; [by destruct s|].
  destruct s as [|c s]; cbn; [done|]. by rewrite IH.
Qed.

#[local] Instance toy_CryptoLaws : CryptoLaws toy_Crypto.
Proof.
  split; cbn.
  - intros s. unfold toy_base. rewrite str_take_length, str_length_app. cbn [String.length]. lia.
  - intros m n a b. unfold toy_shared. by rewrite (str_xor_comm (toy_base b)), strip_prefix_app.
  - intros a b. unfold toy_shared. apply str_xor_comm.
  - intros m n k. apply strip_prefix_app.
Qed.

Definition nonce24 : string := "nonce nonce nonce nonce ".
Definition allow (pub : string) : option string :=
  if (pub =? toy_base "client")%string then Some "attic" else None.

(** A message of the toy instance is its type, as text. *)
Definition toy_Marshal (m : Message) : string := msg_Type m.
Definition toy_Unmarshal (s : string) : option Message := Some (plain_message s).

Lemma handshake_agreement_witness :
  exists sc ss,
    handshake allow (ClientHandshake (x25519_base "client") "client" (x25519_base "server") "agent")
      (ServerHandshake "server") ([Some "e1"], [Some nonce24]) ([Some "e2"], [Some nonce24]) =
    (Some (Ok sc), Some (Ok (ss, "attic"))) /\
    exists frame,
      advance allow (SendMsg toy_Marshal ss (plain_message "config")) (mkEnv [] [] [Some nonce24] []) =
        (Return (Ok tt), [Sent frame]) /\
      advance allow (RecvMsg toy_Unmarshal sc) (mkEnv [Some frame] [] [] []) =
        (Return (Ok (plain_message "config")), []).
Proof.
  destruct (@handshake_agreement toy_Crypto _ allow "client" "server" "e1" "e2" "agent" "attic" nonce24 nonce24
              eq_refl eq_refl eq_refl eq_refl) as (sc & ss & H1 & _ & H3).
  exists sc, ss. split; [exact H1|].
  destruct (H3 ss sc (or_intror eq_refl) toy_Marshal toy_Unmarshal (plain_message "config") nonce24
              (mkEnv [] [] [Some nonce24] []) [] eq_refl eq_refl eq_refl eq_refl) as (frame & Hs & Hr).
  exists frame. split; [exact Hs|]. apply Hr. reflexivity.
Defined.

(** The first frame of the toy client, and the environment that delivers it. *)
Definition toy_frames : list string :=
  sent_frames (advance allow (ClientHandshake (x25519_base "client") "client" (x25519_base "server") "agent")
                 (mkEnv [] [Some "e1"] [Some nonce24] [])).2.
Definition toy_env : env := mkEnv (map Some toy_frames) [Some "e2"] [Some nonce24] [].

Definition toy_session : Session := mkSession (precompute (x25519_base "e1") "e2").

Lemma server_session_authenticated_witness :
  exists raw rest init cpub ceph n c priv,
    e_in toy_env = Some raw :: rest /\ decode_init raw = Some init /\
    DecodeKey (ClientStaticPub init) = Some cpub /\ allow cpub = Some "attic" /\
    DecodeKey (ClientEphPub init) = Some ceph /\
    DecodeString (hi_Nonce init) = Some n /\ DecodeString (hi_Box init) = Some c /\
    box_open c n cpub "server" = Some (ceph ++ ctxTag) /\
    hd None (e_keys toy_env) = Some priv /\ key toy_session = precompute ceph priv.
Proof.
  apply (server_session_authenticated allow "server" toy_env toy_session "attic").
  vm_compute. reflexivity.
Defined.

Lemma server_refuses_unknown_witness :
  exists raw init cpub,
    e_in toy_env = [Some raw] /\ decode_init raw = Some init /\
    DecodeKey (ClientStaticPub init) = Some cpub /\
    advance (fun _ => None) (ServerHandshake "server") toy_env =
    (Return (Err "agent key not authorized"), [Asked cpub; Refused cpub (hi_Label init)]).
Proof.
  set (raw := hd "" toy_frames).
  exists raw, (mkInit (EncodeKey (x25519_base "client")) (EncodeKey (x25519_base "e1"))
                 (EncodeToString nonce24)
                 (EncodeToString (box_seal (x25519_base "e1" ++ ctxTag) nonce24 (x25519_base "server") "client"))
                 "agent"), (x25519_base "client").
  assert (e_in toy_env = [Some raw]) as E by (vm_compute; reflexivity).
  split; [exact E|]. split; [vm_compute; reflexivity|]. split; [vm_compute; reflexivity|].
  apply (server_refuses_unknown (fun _ => None) "server" toy_env raw []);
    [exact E|vm_compute; reflexivity|vm_compute; reflexivity|reflexivity].
Defined.

Lemma client_rejects_replay_witness :
  x25519_base "old" <> x25519_base "e1" /\
  outcome (advance allow (ClientHandshake (x25519_base "client") "client" (x25519_base "server") "agent")
             (mkEnv [Some (marshal_resp (mkResp (EncodeToString "x") (EncodeToString nonce24)
                (EncodeToString (box_seal (x25519_base "e2" ++ x25519_base "old" ++ ctxTag) nonce24
                                   (x25519_base "client") "server"))))]
                [Some "e1"] [Some nonce24] [])) <> Some (Ok toy_session).
Proof.
  assert (x25519_base "old" <> x25519_base "e1") as Hne by (vm_compute; discriminate).
  split; [exact Hne|].
  apply (client_rejects_replay allow "client" "server" "e1" "e2" (x25519_base "old") "x" "agent" nonce24
           _ []); [reflexivity|reflexivity|reflexivity|exact Hne|reflexivity].
Defined.
