(* ===== verification/Gate.v ===== *)
(** * The USB gate of the capture process ([cmd/capture/main.go], [usbGate])

    The penalty arithmetic on a 64-bit [time.Duration], the operations [ok],
    [fail] and [end], and the concurrent openers as a step relation: each
    opener's program counter is a point of [begin]'s loop, and the clock may
    advance between any two steps. *)

From S2P Require Import Prelude.

Definition gateBase : duration := 30 * Second.
Definition gateMax : duration := 5 * Minute.
Definition gateHealthy : duration := 60 * Second.
Definition usbSettle : duration := 2 * Second.

(** The gate: whether the serial window is taken, the consecutive fast
    failures (an [int]) and the earliest next open. *)
Record usbGate := mkGate { sem : bool; fails : Z; nextOK : time }.
Definition new_gate : usbGate := mkGate false 0 zero_time.

(** The penalty after [n] consecutive failures. *)
Definition penalty (n : Z) : duration :=
  let d := shl64 gateBase (n - 1) in
  if (d <=? 0) || (gateMax <? d) then gateMax else d.

Definition gate_ok (nw : time) (g : usbGate) : usbGate := mkGate (sem g) 0 nw.
Definition gate_fail (nw : time) (g : usbGate) : usbGate :=
  let n := wrap64 (fails g + 1) in
  mkGate (sem g) n (Add nw (penalty n)).
Definition gate_end (g : usbGate) : usbGate := mkGate false (fails g) (nextOK g).
Definition gate_take (g : usbGate) : usbGate := mkGate true (fails g) (nextOK g).

(** ** The penalty *)

Lemma gateBase_factor : gateBase = 2 ^ 10 * 29296875.
Proof. reflexivity. Qed.

Lemma shl64_small n : 0 <= n <= 28 -> shl64 gateBase n = gateBase * 2 ^ n.
Proof.
  intros H. unfold shl64. rewrite Z.shiftl_mul_pow2 by lia. apply wrap64_id.
  assert (2 ^ 0 <= 2 ^ n <= 2 ^ 28) by (split; apply Z.pow_le_mono_r; lia).
  unfold in_int64, int64_min, int64_max, gateBase, Second. lia.
Qed.

(** From the 30th failure on the shifted base is a multiple of [2^39]
    nanoseconds, more than [gateMax]: positive or not, it is cut to the cap. *)
Lemma shl64_large n : 29 <= n -> exists k, shl64 gateBase n = 2 ^ 39 * k.
Proof.
  intros H. unfold shl64, wrap64. rewrite Z.shiftl_mul_pow2, gateBase_factor by lia.
  replace (2 ^ n) with (2 ^ 29 * 2 ^ (n - 29)) by (rewrite <- Z.pow_add_r by lia; f_equal; lia).
  set (p := 2 ^ (n - 29)).
  replace (2 ^ 10 * 29296875 * (2 ^ 29 * p) + 2 ^ 63) with (2 ^ 39 * (29296875 * p + 2 ^ 24)) by lia.
  replace (2 ^ 64) with (2 ^ 39 * 2 ^ 25) by reflexivity.
  rewrite Z.mul_mod_distr_l by lia.
  exists ((29296875 * p + 2 ^ 24) mod 2 ^ 25 - 2 ^ 24). lia.
Qed.

Lemma penalty_large n : 30 <= n -> penalty n = gateMax.
Proof.
  intros H. unfold penalty. destruct (shl64_large (n - 1)) as [k ->]; [lia|].
  destruct (Z.leb_spec (2 ^ 39 * k) 0); [done|].
  destruct (Z.ltb_spec gateMax (2 ^ 39 * k)) as [|Hk]; [done|].
  unfold gateMax, Minute, Second in Hk. lia.
Qed.

(** The bus-wide penalty after the [n]-th consecutive fast failure is thirty
    seconds doubled [n-1] times and capped at five minutes, for every count an
    [int] can hold: the wrap-around of the 64-bit shift never leaks a short or
    negative wait. *)
Theorem penalty_spec n :
  1 <= n <= int64_max -> penalty n = Z.min (gateBase * 2 ^ (n - 1)) gateMax.
Proof.
  intros H. destruct (Z.leb_spec 30 n).
  - rewrite penalty_large by done.
    assert (2 ^ 29 <= 2 ^ (n - 1)) by (apply Z.pow_le_mono_r; lia).
    unfold gateBase, gateMax, Minute, Second. lia.
  - unfold penalty. rewrite shl64_small by lia.
    assert (0 < 2 ^ (n - 1)) by lia.
    assert (0 < gateBase) by done.
    destruct (Z.leb_spec (gateBase * 2 ^ (n - 1)) 0); [nia|].
    destruct (Z.ltb_spec gateMax (gateBase * 2 ^ (n - 1))); cbn; lia.
Qed.

Lemma penalty_spec_witness : penalty 4 = 4 * Minute /\ penalty 40 = 5 * Minute.
Proof. split; [rewrite (penalty_spec 4)|rewrite (penalty_spec 40)]; done. Defined.

Lemma penalty_range n : 1 <= n <= int64_max -> gateBase <= penalty n <= gateMax.
Proof.
  intros H. destruct (Z.leb_spec 30 n).
  - rewrite penalty_large by done. done.
  - unfold penalty. rewrite shl64_small by lia.
    assert (1 <= 2 ^ (n - 1)) by lia. unfold gateBase, gateMax, Minute, Second in *.
    repeat case_match_goal; zbool; lia.
Qed.

(** ** Concurrent openers

    One opener goroutine is at one of these points. *)
Inductive pc :=
  | Idle
  | Sleeping (until : time)   (* in [sleepCtx], waiting out the backoff it read *)
  | Queued                    (* in the select on the serial window *)
  | Rechecking                (* holds the window, about to re-read [nextOK] *)
  | Holding                   (* [begin] returned true: open and settle *)
  | Running.                  (* after [end], the window given back *)

Record bus_state := mkBus { b_gate : usbGate; b_now : time; b_pcs : gmap nat pc }.

Definition at_pc (s : bus_state) (i : nat) (p : pc) : Prop := b_pcs s !! i = Some p.
Definition goto (i : nat) (p : pc) (s : bus_state) : bus_state :=
  mkBus (b_gate s) (b_now s) (<[i := p]> (b_pcs s)).
Definition with_gate (g : usbGate) (s : bus_state) : bus_state := mkBus g (b_now s) (b_pcs s).

Inductive bus_step : bus_state -> bus_state -> Prop :=
  | step_tick s t : b_now s <= t -> bus_step s (mkBus (b_gate s) t (b_pcs s))
  | step_begin s i : at_pc s i Idle \/ at_pc s i Running ->
      bus_step s (goto i (Sleeping (Z.max (b_now s) (nextOK (b_gate s)))) s)
  | step_wake s i u : at_pc s i (Sleeping u) -> u <= b_now s -> bus_step s (goto i Queued s)
  | step_take s i : at_pc s i Queued -> sem (b_gate s) = false ->
      bus_step s (goto i Rechecking (with_gate (gate_take (b_gate s)) s))
  | step_ready s i : at_pc s i Rechecking -> Before (b_now s) (nextOK (b_gate s)) = false ->
      bus_step s (goto i Holding s)
  | step_not_ready s i : at_pc s i Rechecking -> Before (b_now s) (nextOK (b_gate s)) = true ->
      bus_step s (goto i (Sleeping (Z.max (b_now s) (nextOK (b_gate s))))
                    (with_gate (gate_end (b_gate s)) s))
  | step_cancel s i : at_pc s i Queued \/ (exists u, at_pc s i (Sleeping u)) ->
      bus_step s (goto i Idle s)
  | step_end s i : at_pc s i Holding ->
      bus_step s (goto i Running (with_gate (gate_end (b_gate s)) s))
  | step_ok s i : at_pc s i Holding \/ at_pc s i Running ->
      bus_step s (with_gate (gate_ok (b_now s) (b_gate s)) s)
  | step_fail s i : at_pc s i Holding \/ at_pc s i Running ->
      bus_step s (with_gate (gate_fail (b_now s) (b_gate s)) s).

(** Initially every opener is outside and the gate is new. *)
Definition bus_init (s : bus_state) : Prop :=
  b_gate s = new_gate /\ forall i p, b_pcs s !! i = Some p -> p = Idle.

Inductive bus_reachable : bus_state -> Prop :=
  | reach_init s : bus_init s -> bus_reachable s
  | reach_step s s' : bus_reachable s -> bus_step s s' -> bus_reachable s'.

Definition has_window (p : pc) : bool :=
  match p with Rechecking | Holding => true | _ => false end.

(** The window is taken exactly when one opener, and no other, holds it. *)
Definition window_inv (s : bus_state) : Prop :=
  (forall i p, at_pc s i p -> has_window p = true -> sem (b_gate s) = true) /\
  (forall i j p q, at_pc s i p -> at_pc s j q -> has_window p = true -> has_window q = true -> i = j) /\
  (sem (b_gate s) = true -> exists i p, at_pc s i p /\ has_window p = true).

Lemma window_inv_init s : bus_init s -> window_inv s.
Proof.
  intros [Hg Hp]. split_and!.
  - intros i p H Hw. by rewrite (Hp i p H) in Hw.
  - intros i j p q H _ Hw _. by rewrite (Hp i p H) in Hw.
  - by rewrite Hg.
Qed.

(** A step of one opener that neither takes nor gives back the window. *)
Lemma window_inv_goto s i p q :
  at_pc s i p -> has_window p = has_window q -> window_inv s -> window_inv (goto i q s).
Proof.
  intros Hi Hw (H1 & H2 & H3). unfold window_inv, at_pc, goto in *. cbn [b_pcs b_gate].
  split_and!.
  - intros j r Hj Hr. apply lookup_insert_Some in Hj as [[<- <-]|[_ Hj]]; [|eauto].
    apply (H1 i p); congruence.
  - intros j k r t Hj Hk Hr Ht.
    apply lookup_insert_Some in Hj as [[<- <-]|[? Hj]];
      apply lookup_insert_Some in Hk as [[<- <-]|[? Hk]]; eauto.
  - intros Hs. destruct (H3 Hs) as (j & r & Hj & Hr). destruct (decide (i = j)) as [<-|Hne].
    + exists i, q. rewrite lookup_insert_eq. split; congruence.
    + exists j, r. by rewrite lookup_insert_ne.
Qed.

Lemma window_inv_take s i :
  at_pc s i Queued -> sem (b_gate s) = false -> window_inv s ->
  window_inv (goto i Rechecking (with_gate (gate_take (b_gate s)) s)).
Proof.
  intros Hi Hs (H1 & _ & _). unfold window_inv, at_pc, goto, with_gate in *. cbn [b_pcs b_gate].
  assert (forall j p, b_pcs s !! j = Some p -> has_window p = true -> False) as Hno
    by (intros j p Hj Hp; specialize (H1 j p Hj Hp); congruence).
  split_and!.
  - done.
  - intros j k r t Hj Hk Hr Ht.
    apply lookup_insert_Some in Hj as [[<- <-]|[? Hj]];
      apply lookup_insert_Some in Hk as [[<- <-]|[? Hk]]; try done; exfalso; eauto.
  - intros _. exists i, Rechecking. by rewrite lookup_insert_eq.
Qed.

Lemma window_inv_release s i p q :
  at_pc s i p -> has_window p = true -> has_window q = false -> window_inv s ->
  window_inv (goto i q (with_gate (gate_end (b_gate s)) s)).
Proof.
  intros Hi Hp Hq (_ & H2 & _). unfold window_inv, at_pc, goto, with_gate in *. cbn [b_pcs b_gate].
  assert (forall j r, <[i:=q]> (b_pcs s) !! j = Some r -> has_window r = true -> False) as Hno.
  { intros j r Hj Hr. apply lookup_insert_Some in Hj as [[<- <-]|[? Hj]]; [congruence|].
    assert (i = j) by eauto. congruence. }
  split_and!; [intros; exfalso; eauto..|done].
Qed.

Lemma window_inv_step s s' : bus_step s s' -> window_inv s -> window_inv s'.
Proof.
  intros H Hinv. destruct H.
  - exact Hinv.
  - destruct H as [H|H]; by eapply window_inv_goto.
  - by eapply window_inv_goto.
  - by apply window_inv_take.
  - by eapply window_inv_goto.
  - by eapply window_inv_release.
  - destruct H as [H|[u H]]; by eapply window_inv_goto.
  - by eapply window_inv_release.
  - exact Hinv.
  - exact Hinv.
Qed.

Lemma window_inv_reachable s : bus_reachable s -> window_inv s.
Proof. induction 1; eauto using window_inv_init, window_inv_step. Qed.

(** C2: Opens are serialised: in every reachable state at most one opener is in
    its open-and-settle window or re-checking the deadline with the window in
    hand, and the serial window is taken exactly when one is, so that it is free
    again as soon as its holder has ended or gone back to waiting. *)
Theorem gate_mutual_exclusion s :
  bus_reachable s ->
  let holds i := at_pc s i Holding \/ at_pc s i Rechecking in
  (forall i j, holds i -> holds j -> i = j) /\
  (sem (b_gate s) = true <-> exists i, holds i).
Proof.
  intros H holds. destruct (window_inv_reachable s H) as (H1 & H2 & H3).
  assert (forall i, holds i <-> exists p, at_pc s i p /\ has_window p = true) as Hh.
  { intros i. split; [intros [?|?]; eauto|intros ([] & Hp & Hw); try done; unfold holds; auto]. }
  split.
  - intros i j (p & ? & ?)%Hh (q & ? & ?)%Hh. by apply (H2 i j p q).
  - split; [intros (i & p & ? & ?)%H3; exists i; apply Hh; eauto|intros (i & (p & ? & ?)%Hh); eauto].
Qed.

(** Two openers, the first of which has opened. *)
Definition two_idle : bus_state := mkBus new_gate (10 * Second) (<[0%nat := Idle]> (<[1%nat := Idle]> ∅)).
Definition one_open : bus_state :=
  let s1 := goto 0 (Sleeping (10 * Second)) two_idle in
  let s2 := goto 0 Queued s1 in
  let s3 := goto 0 Rechecking (with_gate (gate_take (b_gate s2)) s2) in
  goto 0 Holding s3.

Lemma one_open_reachable : bus_reachable one_open.
Proof.
  unfold one_open. repeat (eapply reach_step; [|
    first [ apply step_ready; reflexivity | apply step_take; reflexivity
          | eapply step_wake; [reflexivity|done] | apply (step_begin two_idle 0); left; reflexivity]]).
  apply reach_init. split; [done|]. intros i p H. cbn in H.
  repeat (apply lookup_insert_Some in H as [[_ <-]|[_ H]]; [done|]). by rewrite lookup_empty in H.
Qed.

Lemma gate_mutual_exclusion_witness : sem (b_gate one_open) = true /\ forall i, at_pc one_open i Holding -> i = 0%nat.
Proof.
  destruct (gate_mutual_exclusion one_open one_open_reachable) as [H1 H2]. split.
  - apply H2. exists 0%nat. by left.
  - intros i Hi. apply (H1 i 0%nat); by left.
Defined.

(** An opener enters its open-and-settle window, from wherever it was. *)
Definition opens (s s' : bus_state) (i : nat) : Prop :=
  ~ at_pc s i Holding /\ at_pc s' i Holding.

(** C5: No opener enters the open window while a backoff is in force, even when
    another opener's failure moved the deadline after it had queued; and a
    failure moves the deadline at least thirty seconds and at most five minutes
    away. *)
Theorem gate_respects_backoff s s' i :
  bus_step s s' -> opens s s' i ->
  nextOK (b_gate s) <= b_now s /\
  (0 <= fails (b_gate s') < int64_max ->
   b_now s' + gateBase <= nextOK (gate_fail (b_now s') (b_gate s')) <= b_now s' + gateMax).
Proof.
  intros H [Ha Hb]. split.
  - unfold at_pc, goto, with_gate in *. destruct H; cbn in *; try congruence;
      unfold at_pc in *;
      (destruct (decide (i = i0)) as [<-|Hne];
       [rewrite ?lookup_insert_eq in Hb|rewrite ?lookup_insert_ne in Hb by done]; try congruence).
    unfold Before in *. zbool. lia.
  - intros Hf. unfold gate_fail, Add. cbn [nextOK].
    rewrite wrap64_id by (unfold in_int64, int64_min in *; lia).
    pose proof (penalty_range (fails (b_gate s') + 1)). lia.
Qed.

Lemma gate_respects_backoff_witness :
  let s1 := goto 0 (Sleeping (10 * Second)) two_idle in
  let s2 := goto 0 Queued s1 in
  let s3 := goto 0 Rechecking (with_gate (gate_take (b_gate s2)) s2) in
  nextOK (b_gate s3) <= b_now s3.
Proof.
  intros s1 s2 s3. refine (proj1 (gate_respects_backoff s3 one_open 0 _ _)).
  - apply step_ready; reflexivity.
  - split; [discriminate|reflexivity].
Defined.
