(* ===== verification/Regex.v ===== *)
(** * Regular expressions

    A backtracking matcher with captures for the patterns the code compiles with
    [regexp.MustCompile]: the leftmost match, with the alternatives tried in the
    order Perl (and so package [regexp]) tries them. *)

From S2P Require Import Prelude.

Inductive re :=
  | RChar (p : ascii -> bool)
  | RSeq (a b : re)
  | RStar (greedy : bool) (a : re)
  | RGroup (n : nat) (a : re)
  | REps
  | RBol
  | REol.

Fixpoint RText (s : string) : re :=
  match s with
  | EmptyString => REps
  | String c s' => RSeq (RChar (Ascii.eqb c)) (RText s')
  end.
Definition RPlus (a : re) : re := RSeq a (RStar true a).
Definition RSeqs (l : list re) : re := foldr RSeq REps l.

Definition is_re_space (c : ascii) : bool :=
  existsb (fun z => byte_of c =? z) [9; 10; 12; 13; 32].
Definition is_re_dot (c : ascii) : bool := negb (byte_of c =? 10).

(** The text between two suffixes of the subject. *)
Definition between (s s' : string) : string :=
  String.substring 0 (String.length s - String.length s') s.

(** [rmatch fuel total r s caps k]: match [r] at the suffix [s] of a subject of
    length [total], then continue with [k]. *)
Fixpoint rmatch (fuel total : nat) (r : re) (s : string) (caps : list (nat * string))
    (k : string -> list (nat * string) -> option (list (nat * string))) {struct fuel}
  : option (list (nat * string)) :=
  match fuel with
  | O => None
  | S f =>
      match r with
      | REps => k s caps
      | RBol => if (String.length s =? total)%nat then k s caps else None
      | REol => match s with EmptyString => k s caps | _ => None end
      | RChar p => match s with String c s' => if p c then k s' caps else None | _ => None end
      | RSeq a b => rmatch f total a s caps (fun s' caps' => rmatch f total b s' caps' k)
      | RGroup n a => rmatch f total a s caps (fun s' caps' => k s' ((n, between s s') :: caps'))
      | RStar g a =>
          let more := fun _ : unit =>
            rmatch f total a s caps (fun s' caps' =>
              if (String.length s' <? String.length s)%nat then rmatch f total r s' caps' k else None) in
          if g then match more tt with Some x => Some x | None => k s caps end
          else match k s caps with Some x => Some x | None => more tt end
      end
  end.

(** The leftmost match. *)
Fixpoint rsearch (fuel total : nat) (r : re) (s : string) : option (list (nat * string)) :=
  match rmatch fuel total r s [] (fun _ caps => Some caps) with
  | Some caps => Some caps
  | None => match s with String _ s' => rsearch fuel total r s' | EmptyString => None end
  end.

(** [FindStringSubmatch]: the captured groups; the fuel covers every step of a
    match, which descends the pattern once per byte at most. *)
Definition FindStringSubmatch (r : re) (s : string) : option (list (nat * string)) :=
  rsearch (40 * (String.length s + 2)) (String.length s) r s.

(** Group [n] of a match. *)
Definition group (n : nat) (caps : list (nat * string)) : string :=
  match list_find (fun kv => kv.1 = n) caps with Some (_, (_, s)) => s | None => EmptyString end.
