(* ===== verification/Capture.v ===== *)
(** * The capture process ([cmd/capture/main.go], [devices.go])

    Dongle enumeration and source naming, the manager's reconciliation, the
    supervisor of one dongle and the ingest loop.  [Sink] is the storage
    interface that the local database and the remote agent both implement. *)

From S2P Require Import Prelude Float64 Model Json Ert Config Store Effects Database Gate Regex.

(** ** Enumeration *)

Record sdrDevice := mkSdr {
  index : Z; serial : string; name : string; tuner : string; source : string
}.

#[export] Instance sdrDevice_eq_dec : EqDecision sdrDevice.
Proof. solve_decision. Defined.

(** The patterns of the count, of a device line and of the tuner line. *)
Definition foundRe : re :=
  RSeqs [RText "Found "; RGroup 1 (RPlus (RChar is_digit)); RText " device"].
Definition devLineRe : re :=
  let sp := RChar is_re_space in
  let lazy n := RGroup n (RStar false (RChar is_re_dot)) in
  RSeqs [RBol; RStar true sp; RGroup 1 (RPlus (RChar is_digit)); RText ":"; RPlus sp;
         lazy 2%nat; RText ","; RPlus sp; lazy 3%nat; RText ","; RPlus sp; RText "SN:"; RPlus sp;
         RGroup 4 (RStar true (RChar is_re_dot)); REol].
Definition tunerRe : re :=
  RSeqs [RText "Found "; RGroup 1 (RPlus (RChar is_re_dot)); RText " tuner"].

(** The scan of [rtl_test]'s output: devices, tuner, expected count. *)
Record scan := mkScan { sc_devs : list sdrDevice; sc_want : Z; sc_tuner : string }.

Definition scan_line (s : scan) (line : string) : scan :=
  let want := match FindStringSubmatch foundRe line with
              | Some m => fst (Atoi (group 1 m)) | None => sc_want s end in
  let devs := match FindStringSubmatch devLineRe line with
              | Some m =>
                  let nm := (TrimSpace (group 2 m) ++ " " ++ TrimSpace (group 3 m))%string in
                  (sc_devs s ++ [mkSdr (fst (Atoi (group 1 m))) (TrimSpace (group 4 m))
                                   (TrimSpace nm) "" ""])%list
              | None => sc_devs s end in
  let tn := match FindStringSubmatch tunerRe line with
            | Some m => TrimSpace (group 1 m) | None => sc_tuner s end in
  mkScan devs want tn.

Definition scan_done (s : scan) : bool :=
  (0 <=? sc_want s) && (sc_want s <=? Z.of_nat (length (sc_devs s))) && negb (is_empty (sc_tuner s)).

Fixpoint scan_lines (s : scan) (lines : list string) : scan :=
  match lines with
  | [] => s
  | l :: ls => let s' := scan_line s l in if scan_done s' then s' else scan_lines s' ls
  end.

(** Serials that occur once name their dongle; others are named by index. *)
Definition serial_count (devs : list sdrDevice) (s : string) : Z :=
  Z.of_nat (length (filter (fun d => serial d = s) devs)).
Definition source_of (devs : list sdrDevice) (d : sdrDevice) : string :=
  if negb (is_empty (serial d)) && (serial_count devs (serial d) =? 1)
  then serial d else "dev" ++ FormatInt (index d).
Definition set_source (d : sdrDevice) (s : string) : sdrDevice :=
  mkSdr (index d) (serial d) (name d) (tuner d) s.
Definition assignSources (devs : list sdrDevice) : list sdrDevice :=
  map (fun d => set_source d (source_of devs d)) devs.

(** [enumerateRTL] once the gate is open: the outcome of starting [rtl_test] and
    its stderr lines; [None] is a pipe or start failure. *)
Definition enumerateRTL (nw : time) (out : option (list string)) (g : usbGate)
  : list sdrDevice * usbGate :=
  match out with
  | None => ([], gate_fail nw g)
  | Some lines =>
      let s := scan_lines (mkScan [] (-1) "") lines in
      let devs := assignSources (map (fun d => mkSdr (index d) (serial d) (name d) (sc_tuner s) (source d))
                                   (sc_devs s)) in
      (devs, match devs with [] => gate_fail nw g | _ => g end)
  end.

Definition describe (devs : list sdrDevice) : string :=
  str_join ", " (map (fun d => "[" ++ FormatInt (index d) ++ "] " ++ name d ++ " (" ++ source d ++ ")")%string devs).

Definition splitCSV (s : string) : list string :=
  match filter (fun p => is_empty p = false) (map TrimSpace (split_on "," s)) with
  | [] => ["0"]
  | out => out
  end.

(** [itoa]: digits of a positive number, least significant first into the front. *)
Fixpoint itoa_loop (fuel : nat) (n : Z) (b : string) : string :=
  match fuel with
  | O => b
  | S f => if n >? 0 then itoa_loop f (go_div n 10) (String (chr (48 + go_rem n 10)) b) else b
  end.
Definition itoa (n : Z) : string := if n =? 0 then "0" else itoa_loop 20 n EmptyString.

(** [resolveDevices] with an explicit list. *)
Definition explicit_devices (raw : string) : list sdrDevice :=
  map (fun tok => mkSdr (fst (Atoi tok)) "" "" "" tok) (splitCSV raw).

(** ** The manager *)

Record scanParams := mkScanParams {
  devIndex : Z; freq : string; gain : string; ppm : string; msgtype : string; filt : string
}.
#[export] Instance scanParams_eq_dec : EqDecision scanParams.
Proof. solve_decision. Defined.

Record runningDev := mkRunning { params : scanParams; up : bool; downStreak : Z }.

(** The health check of a tick on every running dongle. *)
Definition health_tick (rd : runningDev) : runningDev :=
  if up rd then mkRunning (params rd) (up rd) 0
  else mkRunning (params rd) (up rd) (downStreak rd + 1).
Definition dongleRescanNeeded (running : gmap string runningDev) : bool * gmap string runningDev :=
  let running' := health_tick <$> running in
  (bool_decide (map_Exists (fun _ rd => up rd = false /\ 2 <= downStreak rd) running'), running').

Record manager := mkManager {
  running : gmap string runningDev; inventory : list sdrDevice; lastRescan : time
}.

(** [enumerateOnce]: the probes of the bus until one finds a dongle (an empty
    list of probes left is a cancelled context). *)
Fixpoint enumerateOnce (probes : list (list sdrDevice)) : M (list sdrDevice) :=
  match probes with
  | [] => mret []
  | [] :: probes' => enumerateOnce probes'
  | devs :: _ =>
      forM devs (fun dev => ignore (UpsertDevice (source dev) (index dev) (name dev) (tuner dev))) ;;
      ignore (PruneDevices (map source devs)) ;;
      mret devs
  end.

Definition desired_params (c : CaptureConfig) (dev : sdrDevice) : scanParams :=
  let s := source dev in
  mkScanParams (index dev) (DeviceFreq c s) (DeviceGain c s) (DevicePPM c s)
    (DeviceMsgType c s) (DeviceFilterID c s).
Definition desired (c : CaptureConfig) (inv : list sdrDevice) : gmap string scanParams :=
  fold_left (fun m dev => if DeviceEnabled c (source dev)
                          then <[source dev := desired_params c dev]> m else m) inv ∅.

(** Stop what vanished, was disabled or changed; start what is missing. *)
Definition stop_unwanted (want : gmap string scanParams) (run : gmap string runningDev)
  : gmap string runningDev :=
  filter (fun kv => want !! kv.1 = Some (params kv.2)) run.
Definition start_missing (want : gmap string scanParams) (run : gmap string runningDev)
  : gmap string runningDev :=
  run ∪ ((fun p => mkRunning p false 0) <$> want).

Section Manager.
Context (getenv : string -> string) (ParseFloat : string -> float64 * bool).

Definition reconcile (mayRescan : bool) (probes : list (list sdrDevice)) (m : manager) : M manager :=
  nw ← now;
  let '(bad, run) := if mayRescan then dongleRescanNeeded (running m) else (false, running m) in
  let m := mkManager run (inventory m) (lastRescan m) in
  let m := if bad && (5 * Minute <? Sub nw (lastRescan m))
           then mkManager ∅ [] nw else m in
  inv ← (match inventory m with [] => enumerateOnce probes | inv => mret inv end);
  let m := mkManager (running m) inv (lastRescan m) in
  cfg ← try (LoadConfig getenv ParseFloat);
  match cfg with
  | Err _ => mret m
  | Ok cfg =>
      let want := desired (Capture cfg) inv in
      mret (mkManager (start_missing want (stop_unwanted want (running m))) inv (lastRescan m))
  end.
End Manager.

(** ** Dead runs *)

Definition captureMaxDeadRuns : Z := 3.

Definition noteDeadRun (m : gmap string Z) (src : string) (stalled : bool) (pkts : Z)
  : bool * gmap string Z :=
  if stalled && (pkts =? 0) then
    let n := from_opt 0 (m !! src) + 1 in (captureMaxDeadRuns <=? n, <[src := n]> m)
  else (false, delete src m).

(** ** The supervisor of one dongle *)

Definition tcp_port (p : scanParams) : Z := 1234 + devIndex p.
Definition tcp_server (p : scanParams) : string := "127.0.0.1:" ++ itoa (tcp_port p).
Definition or_default (v def : string) : string := if is_empty v then def else v.

Definition tcpArgs (p : scanParams) : list string :=
  (["-d"; itoa (devIndex p); "-a"; "127.0.0.1"; "-p"; itoa (tcp_port p); "-P"; or_default (ppm p) "0"]
     ++ (if is_empty (gain p) then [] else ["-g"; gain p]))%list.
Definition amrArgs (p : scanParams) : list string :=
  (["-server=" ++ tcp_server p; "-msgtype=" ++ or_default (msgtype p) "scm,scm+,idm";
    "-format=json"; "-centerfreq=" ++ or_default (freq p) "912600155"]%string
     ++ (if is_empty (filt p) then [] else ["-filterid=" ++ filt p]%string))%list.

(** What the two subprocesses did in one iteration after [begin] returned true
    at [start], and what the supervisor does next. *)
Inductive pipeline :=
  | TcpStartFailed
  | NeverListened (cancelled : bool)
  | AmrStartFailed
  | Ran (stalled : bool) (pkts : Z) (cancelled : bool).
Inductive next := Again | Return | Exit.

Record supervised := mkSup { su_gate : usbGate; su_dead : gmap string Z; su_up : bool }.

Definition supervise_once (src : string) (o : pipeline) (start fin : time) (s : supervised)
  : next * supervised :=
  match o with
  | TcpStartFailed => (Again, mkSup (gate_end (gate_fail fin (su_gate s))) (su_dead s) false)
  | NeverListened cancelled =>
      let g := gate_end (su_gate s) in
      if cancelled then (Return, mkSup g (su_dead s) false)
      else (Again, mkSup (gate_fail fin g) (su_dead s) false)
  | AmrStartFailed => (Again, mkSup (gate_fail fin (gate_end (su_gate s))) (su_dead s) false)
  | Ran stalled pkts cancelled =>
      let g := gate_end (su_gate s) in
      if cancelled then (Return, mkSup g (su_dead s) false)
      else let '(dead, m) := noteDeadRun (su_dead s) src stalled pkts in
           if dead then (Exit, mkSup g m false)
           else if gateHealthy <=? Sub fin start
                then (Again, mkSup (gate_ok fin g) m false)
                else (Again, mkSup (gate_fail fin g) m false)
  end.

(** [waitListening]: dials until one is accepted, the deadline has passed after a
    refusal, or the context ends before a dial or during a pause. *)
Record dial := mkDial { dl_cancelled : bool; dl_accepted : bool; dl_at : time; dl_paused : bool }.
Fixpoint waitListening (deadline : time) (tries : list dial) : bool :=
  match tries with
  | [] => false
  | d :: tries' =>
      if dl_cancelled d then false
      else if dl_accepted d then true
      else if deadline <? dl_at d then false
      else if negb (dl_paused d) then false
      else waitListening deadline tries'
  end.

(** The silence the ingest loop tolerates. *)
Definition captureSilenceTimeout (getenv : string -> string) (ParseDuration : string -> option duration) : duration :=
  let v := getenv "CAPTURE_SILENCE_TIMEOUT" in
  if is_empty v then 5 * Minute
  else match ParseDuration v with
       | Some d => if 0 <? d then d else 5 * Minute
       | None => 5 * Minute
       end.

(** ** Ingest *)

(** The storage target of decoded readings, as the ingest loop sees it: the two
    methods (whether the error is nil, and the new state), and how many readings
    the target has accepted. *)
Class Sink (S : Type) := {
  sink_insert : Reading -> string -> S -> bool * S;
  sink_heartbeat : string -> time -> Z -> S -> S;
  sink_accepted : S -> list (Reading * string)
}.

(** What a target promises: an insert that returns no error has accepted exactly
    this reading, one that fails and a heartbeat accept nothing. *)
Class SinkSpec (S : Type) `{Sink S} := {
  sink_insert_spec r raw s :
    sink_accepted (snd (sink_insert r raw s)) =
    (sink_accepted s ++ (if fst (sink_insert r raw s) then [(r, raw)] else []))%list;
  sink_heartbeat_spec src ts n s : sink_accepted (sink_heartbeat src ts n s) = sink_accepted s
}.

(** The local database as a target. *)
#[export] Instance db_Sink : Sink World := {
  sink_insert r raw w := let '(res, w') := InsertReading r raw w in (is_ok res, w');
  sink_heartbeat src ts n w := snd (ignore (UpdateHeartbeat src ts n) w);
  sink_accepted w := readings (w_db w)
}.

#[export] Instance db_SinkSpec : SinkSpec World.
Proof.
  split.
  - intros r raw w. cbn.
    destruct (InsertReading_cases r raw w) as [[_ [e ->]]|[_ (w' & -> & I & _)]]; cbn.
    + by rewrite app_nil_r.
    + exact I.
  - intros src ts n w. cbn. unfold UpdateHeartbeat, exec.
    by apply ignore_statement_db; [|intros a d' [= _ <-]].
Qed.

(** What the select of the loop receives, in order. *)
Inductive event :=
  | Line (text : string)   (* a scanned line *)
  | Closed                 (* the reader is exhausted *)
  | Silence                (* the idle timer fired *)
  | Cancel.                (* the context is done *)

(** How a run of the loop ended; [Open] when the events ran out first. *)
Inductive ingest_end := Open | Stalled | Exhausted | Cancelled | InsertFailed.

Section Ingest.
Context {S : Type} `{Sink S} (Parse : string -> string -> option time) (nw : time) (src : string).

Fixpoint ingest_loop (evs : list event) (lastTS : time) (pkts : Z) (s : S)
  : ingest_end * Z * S :=
  match evs with
  | [] => (Open, pkts, s)
  | Cancel :: _ => (Cancelled, pkts, s)
  | Silence :: _ => (Stalled, pkts, s)
  | Closed :: _ => (Exhausted, pkts, sink_heartbeat src lastTS pkts s)
  | Line text :: evs' =>
      let line := TrimSpace text in
      if is_empty line then ingest_loop evs' lastTS pkts s
      else match ExtractReading Parse nw line src with
           | None => ingest_loop evs' lastTS pkts s
           | Some r =>
               let '(ok, s) := sink_insert r line s in
               if ok then
                 let pkts := pkts + 1 in
                 let s := if go_rem pkts 25 =? 0 then sink_heartbeat src (r_TS r) pkts s else s in
                 ingest_loop evs' (r_TS r) pkts s
               else (InsertFailed, pkts, s)
           end
  end.

(** [ingest]: a heartbeat first, then the loop.  [stalled] is true for a silence. *)
Definition ingest (evs : list event) (s : S) : ingest_end * Z * S :=
  ingest_loop evs nw 0 (sink_heartbeat src nw 0 s).

(** [superviseMock]: a fresh stream each time, until the context ends. *)
Fixpoint superviseMock (streams : list (list event)) (s : S) : S :=
  match streams with
  | [] => s
  | evs :: streams' => superviseMock streams' (ingest evs s).2
  end.

(** The readings a prefix of the events decodes to, in order. *)
Fixpoint decoded (evs : list event) : list (Reading * string) :=
  match evs with
  | [] => []
  | Line text :: evs' =>
      let line := TrimSpace text in
      if is_empty line then decoded evs'
      else match ExtractReading Parse nw line src with
           | None => decoded evs'
           | Some r => (r, line) :: decoded evs'
           end
  | _ :: _ => []
  end.
End Ingest.

(** ** Lemmas *)

Section IngestLemmas.
Context {S : Type} `{SinkSpec S} (Parse : string -> string -> option time) (nw : time) (src : string).

Definition ends_early (e : ingest_end) : bool := match e with InsertFailed => true | _ => false end.

Lemma ingest_loop_accepts evs lastTS pkts s :
  let '(e, n, s') := ingest_loop Parse nw src evs lastTS pkts s in
  exists rs, sink_accepted s' = (sink_accepted s ++ rs)%list /\ n = pkts + Z.of_nat (length rs) /\
    rs `prefix_of` decoded Parse nw src evs /\
    (ends_early e = false -> rs = decoded Parse nw src evs) /\
    (ends_early e = true -> rs <> decoded Parse nw src evs).
Proof.
  revert lastTS pkts s. induction evs as [|ev evs IH]; intros lastTS pkts s; cbn [ingest_loop decoded].
  { exists []. rewrite app_nil_r. split_and!; first [done | apply prefix_nil | cbn; lia]. }
  destruct ev as [text| | |];
    try (exists []; rewrite ?sink_heartbeat_spec, app_nil_r; split_and!; first [done | apply prefix_nil | cbn; lia]).
  cbv zeta. destruct (is_empty (TrimSpace text)); [apply IH|].
  destruct (ExtractReading Parse nw (TrimSpace text) src) as [r|]; [|apply IH].
  pose proof (sink_insert_spec r (TrimSpace text) s) as Hi.
  destruct (sink_insert r (TrimSpace text) s) as [ok s1]. cbn in Hi.
  destruct ok.
  - set (s2 := if go_rem (pkts + 1) 25 =? 0 then _ else _).
    assert (sink_accepted s2 = sink_accepted s1) as E2
      by (unfold s2; destruct (_ =? 0); [apply sink_heartbeat_spec|done]).
    specialize (IH (r_TS r) (pkts + 1) s2). destruct (ingest_loop _ _ _ _ _ _ _) as [[e n] s'].
    destruct IH as (rs & Ha & Hn & Hp & He & Hne). exists ((r, TrimSpace text) :: rs).
    rewrite Ha, E2, Hi, <- app_assoc. split_and!.
    + done.
    + cbn. lia.
    + by apply prefix_cons.
    + intros Hf. by rewrite He.
    + intros Hf [= ->]. by apply Hne.
  - exists []. rewrite Hi. split_and!; [done|cbn; lia|apply prefix_nil|done|done].
Qed.
End IngestLemmas.

(** Running sets. *)
Lemma start_missing_params want run :
  params <$> start_missing want (stop_unwanted want run) = want.
Proof.
  apply map_eq. intros s. unfold start_missing, stop_unwanted. rewrite lookup_fmap, lookup_union.
  destruct (filter _ run !! s) as [rd|] eqn:E.
  - apply map_lookup_filter_Some in E as [Hr Hw]. cbn in Hw. rewrite lookup_fmap, Hw. done.
  - rewrite lookup_fmap. destruct (want !! s); done.
Qed.

Lemma start_missing_keeps want run s rd :
  run !! s = Some rd -> want !! s = Some (params rd) ->
  start_missing want (stop_unwanted want run) !! s = Some rd.
Proof.
  intros Hr Hw. unfold start_missing, stop_unwanted. apply lookup_union_Some_l.
  by apply map_lookup_filter_Some.
Qed.

Lemma FormatInt_inj a b : in_int64 a -> in_int64 b -> FormatInt a = FormatInt b -> a = b.
Proof.
  intros Ha Hb E. pose proof (ParseInt_FormatInt a Ha) as Pa. rewrite E, (ParseInt_FormatInt b Hb) in Pa.
  congruence.
Qed.

Lemma serial_count_unique devs d d' :
  d ∈ devs -> d' ∈ devs -> d <> d' -> serial d = serial d' -> 2 <= serial_count devs (serial d).
Proof.
  intros Hd Hd' Hne E. unfold serial_count.
  assert (d ∈ filter (fun x => serial x = serial d) devs) as H1 by (by apply list_elem_of_filter).
  assert (d' ∈ filter (fun x => serial x = serial d) devs) as H2 by (by apply list_elem_of_filter).
  destruct (filter _ devs) as [|x [|y l]]; cbn; [by apply not_elem_of_nil in H1| |lia].
  apply list_elem_of_singleton in H1, H2. congruence.
Qed.

Lemma source_of_inj devs d d' :
  (forall x, x ∈ devs -> in_int64 (index x)) ->
  (forall x y, x ∈ devs -> y ∈ devs -> serial x <> "dev" ++ FormatInt (index y)) ->
  (forall x y, x ∈ devs -> y ∈ devs -> index x = index y -> x = y) ->
  d ∈ devs -> d' ∈ devs -> source_of devs d = source_of devs d' -> d = d'.
Proof.
  intros Hr Hn Hi Hd Hd' E. unfold source_of in E.
  destruct (negb (is_empty (serial d)) && (serial_count devs (serial d) =? 1)) eqn:E1;
    destruct (negb (is_empty (serial d')) && (serial_count devs (serial d') =? 1)) eqn:E2.
  - zbool. destruct (decide (d = d')) as [|Hne]; [done|].
    pose proof (serial_count_unique devs d d' Hd Hd' Hne E). lia.
  - by destruct (Hn d d').
  - by destruct (Hn d' d).
  - apply Hi; [done..|]. cbn in E. injection E as E. by apply FormatInt_inj; auto.
Qed.

Lemma itoa_loop_S f n b :
  itoa_loop (S f) n b =
  (if n >? 0 then itoa_loop f (go_div n 10) (String (chr (48 + go_rem n 10)) b) else b).
Proof. reflexivity. Qed.

Lemma itoa_loop_dec f n b : 0 < n -> itoa_loop (S f) n b = dec_digits (S f) n b.
Proof.
  revert n b. induction f as [|f IH]; intros n b Hn.
  - rewrite dec_digits_S. cbv zeta. rewrite dec_digits_0. cbn. destruct (Z.gtb_spec n 0); [|lia].
    unfold go_rem, digit_chr. rewrite Z.rem_mod_nonneg by lia. by destruct (n / 10 =? 0).
  - rewrite dec_digits_S. cbv zeta. rewrite itoa_loop_S.
    destruct (Z.gtb_spec n 0); [|lia]. unfold go_div, go_rem.
    rewrite Z.rem_mod_nonneg, Z.quot_div_nonneg by lia. fold (digit_chr (n mod 10)).
    destruct (Z.eqb_spec (n / 10) 0) as [->|E]; [done|].
    apply IH. assert (0 <= n / 10) by (apply Z.div_pos; lia). lia.
Qed.

Lemma itoa_FormatInt n : 0 <= n -> itoa n = FormatInt n.
Proof.
  intros H. unfold itoa, FormatInt. destruct (Z.eqb_spec n 0) as [->|]; [done|].
  destruct (Z.ltb_spec n 0); [lia|]. apply itoa_loop_dec. lia.
Qed.

(** A history of runs of one source: its count of trailing dead runs. *)
Definition is_dead (r : bool * Z) : bool := r.1 && (r.2 =? 0).
Definition note (acc : bool * gmap string Z) (src : string) (r : bool * Z) : bool * gmap string Z :=
  noteDeadRun acc.2 src r.1 r.2.
Definition notes (src : string) (runs : list (bool * Z)) (m : gmap string Z) : bool * gmap string Z :=
  fold_left (fun acc r => note acc src r) runs (false, m).
Fixpoint trailing_dead (rev_runs : list (bool * Z)) : Z :=
  match rev_runs with
  | r :: rs => if is_dead r then trailing_dead rs + 1 else 0
  | [] => 0
  end.

Lemma trailing_dead_nonneg l : 0 <= trailing_dead l.
Proof. induction l as [|r l IH]; cbn; [done|]. destruct (is_dead r); lia. Qed.

Lemma notes_streak src runs :
  from_opt 0 (snd (notes src runs ∅) !! src) = trailing_dead (rev runs) /\
  fst (notes src runs ∅) = (0 <? trailing_dead (rev runs)) && (captureMaxDeadRuns <=? trailing_dead (rev runs)).
Proof.
  induction runs as [|r runs [IH _]] using rev_ind; [done|].
  assert (notes src (runs ++ [r]) ∅ = note (notes src runs ∅) src r) as ->
    by (unfold notes; by rewrite fold_left_app).
  rewrite rev_unit. cbn [trailing_dead]. unfold note, noteDeadRun, is_dead.
  pose proof (trailing_dead_nonneg (rev runs)).
  destruct (r.1 && (r.2 =? 0)); cbn.
  - rewrite lookup_insert_eq, IH. cbn. split; [done|].
    destruct (Z.ltb_spec 0 (trailing_dead (rev runs) + 1)); [done|lia].
  - by rewrite lookup_delete_eq.
Qed.

(** ** Properties *)

(** C33: The ingest loop stores, in order, exactly the readings its lines decode
    to: it returns the number of readings the target accepted; unless an insert
    failed these are all the readings of the lines before the event that ended
    it, and after a failed insert a strict prefix.  Proved against the [Sink]
    interface, for any target that keeps its promise. *)
Theorem ingest_stores_decoded {S : Type} `{SinkSpec S} (Parse : string -> string -> option time)
    (nw : time) (src : string) (evs : list event) (s : S) :
  let '(e, n, s') := ingest Parse nw src evs s in
  exists rs, sink_accepted s' = (sink_accepted s ++ rs)%list /\ n = Z.of_nat (length rs) /\
    rs `prefix_of` decoded Parse nw src evs /\
    (ends_early e = true <-> rs <> decoded Parse nw src evs).
Proof.
  unfold ingest.
  pose proof (ingest_loop_accepts Parse nw src evs nw 0 (sink_heartbeat src nw 0 s)) as Hl.
  destruct (ingest_loop _ _ _ _ _ _ _) as [[e n] s'].
  destruct Hl as (rs & Ha & Hn & Hp & He & Hne). exists rs.
  rewrite sink_heartbeat_spec in Ha. split_and!; [done|lia|done|].
  split; [done|]. intros Hd. destruct (ends_early e) eqn:E; [done|]. by rewrite He in Hd.
Qed.

Definition no_layout (layout text : string) : option time := None.

Lemma ingest_stores_decoded_witness :
  let '(e, n, s') := ingest no_layout 0 "d0" [Line scm_line; Line "  "; Closed] (mkWorld empty_DB 0 []) in
  exists rs, sink_accepted s' = (sink_accepted (mkWorld empty_DB 0 []) ++ rs)%list /\
    n = Z.of_nat (length rs) /\
    rs `prefix_of` decoded no_layout 0 "d0" [Line scm_line; Line "  "; Closed] /\
    (ends_early e = true <-> rs <> decoded no_layout 0 "d0" [Line scm_line; Line "  "; Closed]).
Proof.
  pose proof (ingest_stores_decoded no_layout 0 "d0" [Line scm_line; Line "  "; Closed] (mkWorld empty_DB 0 [])) as H.
  destruct (ingest _ _ _ _ _) as [[e n] s']. exact H.
Defined.

(** A tick finds a dongle down for the second tick in a row, more than five
    minutes after the last rescan. *)
Definition wants_rescan (mayRescan : bool) (nw : time) (m : manager) : bool :=
  mayRescan && bool_decide (map_Exists (fun _ rd => up rd = false /\ 2 <= downStreak rd + 1) (running m))
  && (5 * Minute <? Sub nw (lastRescan m)).
(** The dongles of the first probe that finds any. *)
Definition first_found (probes : list (list sdrDevice)) : list sdrDevice :=
  hd [] (List.filter (fun devs => negb (bool_decide (devs = []))) probes).

Lemma dongleRescanNeeded_spec run :
  fst (dongleRescanNeeded run) =
  bool_decide (map_Exists (fun _ rd => up rd = false /\ 2 <= downStreak rd + 1) run).
Proof.
  unfold dongleRescanNeeded, map_Exists. cbn [fst]. apply bool_decide_ext. split.
  - intros (s & rd & (rd0 & <- & H)%lookup_fmap_Some & Hu & Hd). exists s, rd0.
    unfold health_tick in *. by destruct (up rd0).
  - intros (s & rd & H & Hu & Hd). exists s, (health_tick rd). split; [by apply lookup_fmap_Some; exists rd|].
    unfold health_tick. by rewrite Hu.
Qed.

(** Enumerating gives the first dongles found and leaves the settings alone; it
    consumes no fault when there is nothing to record. *)
Lemma enumerateOnce_spec probes w :
  exists w', enumerateOnce probes w = (Ok (first_found probes), w') /\ settings (w_db w') = settings (w_db w) /\
    (no_faults w -> no_faults w').
Proof.
  unfold first_found. revert w. induction probes as [|[|dev devs] probes IH]; intros w; cbn [enumerateOnce List.filter].
  { by exists w. }
  { apply IH. }
  set (m := (forM (dev :: devs) (fun d => ignore (UpsertDevice (source d) (index d) (name d) (tuner d))) ;;
             ignore (PruneDevices (map source (dev :: devs))) ;; mret (dev :: devs)) : M (list sdrDevice)).
  exists (snd (m w)). split; [|split].
  - unfold m, mbind, M_bind. rewrite (surjective_pairing (forM _ _ w)), forM_ignore_ok.
    unfold ignore. by destruct (PruneDevices _ _).
  - assert (keeps (fun d => settings d = settings (w_db w)) m) as H; [|by apply H].
    unfold m. keep. all: apply keeps_exec; by intros d t H.
  - assert (faultless m) as H; [|intros Hw; by apply H].
    apply faultless_bind; [apply faultless_forM; intros x; apply faultless_ignore, faultless_statement|intros _].
    apply faultless_bind; [|intros _; apply faultless_ret].
    apply faultless_ignore, faultless_bind; [|intros _]; apply faultless_statement.
Qed.

(** The dongles of the inventory that are enabled, with their parameters. *)
Lemma desired_elem c inv src p :
  desired c inv !! src = Some p ->
  exists dev, dev ∈ inv /\ source dev = src /\ DeviceEnabled c src = true /\ p = desired_params c dev.
Proof.
  unfold desired. induction inv as [|dev inv IH] using rev_ind; [done|]. rewrite fold_left_app. cbn.
  set (m := fold_left _ inv ∅) in *.
  assert (m !! src = Some p -> exists x, x ∈ (inv ++ [dev])%list /\ source x = src /\
            DeviceEnabled c src = true /\ p = desired_params c x) as Hold.
  { intros (x & ? & ?)%IH. exists x. set_solver. }
  destruct (DeviceEnabled c (source dev)) eqn:E; [|done].
  intros [[<- <-]|[_ ?]]%lookup_insert_Some; [|auto]. exists dev. set_solver.
Qed.
Lemma desired_wants c inv dev :
  dev ∈ inv -> DeviceEnabled c (source dev) = true -> is_Some (desired c inv !! source dev).
Proof.
  unfold desired. intros Hin Hen. revert Hin. induction inv as [|x inv IH] using rev_ind; [by intros ?%elem_of_nil|].
  rewrite fold_left_app. cbn. set (m := fold_left _ inv ∅) in *.
  intros [Hin|Hin%list_elem_of_singleton]%elem_of_app.
  - specialize (IH Hin). destruct (DeviceEnabled c (source x)); [|done].
    destruct (decide (source x = source dev)) as [-> |]; [by rewrite lookup_insert_eq|by rewrite lookup_insert_ne].
  - subst x. by rewrite Hen, lookup_insert_eq.
Qed.

(** What a reconcile does, as one manager: the settings are read, or not. *)
Lemma reconcile_reads getenv ParseFloat mayRescan probes m w :
  let rescan := wants_rescan mayRescan (w_now w) m in
  let tick rd := if mayRescan then mkRunning (params rd) (up rd) (if up rd then 0 else downStreak rd + 1) else rd in
  let inv := if rescan || bool_decide (inventory m = []) then first_found probes else inventory m in
  let run := if rescan then ∅ else tick <$> running m in
  let want := desired (Capture (FromMap getenv ParseFloat (settings (w_db w)))) inv in
  exists (read : bool) w', reconcile getenv ParseFloat mayRescan probes m w =
    (Ok (mkManager (if read then start_missing want (stop_unwanted want run) else run) inv
           (if rescan then w_now w else lastRescan m)), w') /\
    (no_faults w -> read = true) /\
    (rescan = false -> inventory m <> [] -> read = negb (hd false (w_faults w))).
Proof.
  intros rescan tick inv run want. unfold reconcile, mbind, M_bind, now.
  assert ((if mayRescan then dongleRescanNeeded (running m) else (false, running m)) =
          (mayRescan && bool_decide (map_Exists (fun _ rd => up rd = false /\ 2 <= downStreak rd + 1) (running m)),
           tick <$> running m)) as ->.
  { unfold tick. destruct mayRescan; cbn [andb]; [|by rewrite map_fmap_id].
    rewrite (surjective_pairing (dongleRescanNeeded _)), dongleRescanNeeded_spec. cbn. f_equal.
    apply map_fmap_ext. intros s rd _. unfold health_tick. by destruct (up rd). }
  cbn [lastRescan running inventory]. fold (wants_rescan mayRescan (w_now w) m). fold rescan.
  assert (exists w1, (match inventory (if rescan then mkManager ∅ [] (w_now w) else
             mkManager (tick <$> running m) (inventory m) (lastRescan m)) with
           [] => enumerateOnce probes | i => mret i end : M _) w = (Ok inv, w1) /\
           settings (w_db w1) = settings (w_db w) /\ (no_faults w -> no_faults w1) /\
           (rescan = false -> inventory m <> [] -> w1 = w)) as (w1 & E & Hs & Hf & Hw1).
  { subst inv. destruct rescan; cbn [inventory orb].
    - destruct (enumerateOnce_spec probes w) as (w1 & ? & ? & ?). by exists w1.
    - destruct (inventory m) as [|d ds].
      + destruct (enumerateOnce_spec probes w) as (w1 & ? & ? & ?). by exists w1.
      + by exists w. }
  rewrite E. unfold try. 
  unfold LoadConfig, GetSettings, query, statement, mbind, M_bind, mret, M_ret.
  exists (negb (hd false (w_faults w1))).
  assert (no_faults w -> negb (hd false (w_faults w1)) = true) as Hread.
  { intros Hw%Hf. unfold no_faults in Hw. destruct Hw as [|b l -> ?]; done. }
  destruct (w_faults w1) as [|[] fs] eqn:Ef; eexists; rewrite <- Ef in *;
    (split; [|split; [exact Hread|intros H1 H2; by rewrite <- (Hw1 H1 H2)]]);
    rewrite Ef; cbn; rewrite ?Hs; by destruct rescan.
Qed.

(** C14: A reconcile makes the running set follow the configuration it reads.  A
    tick (not a notification) that finds a dongle down for two ticks in a row, more
    than five minutes after the last rescan, first stops everything and enumerates
    again; an empty inventory is enumerated too.  When the configuration is then
    read (as it is when no statement fails), exactly the enabled dongles of the
    inventory run, with their configured parameters, and without a rescan a
    dongle whose parameters did not change is not restarted.  When the read fails
    nothing is started, and nothing is stopped but what the rescan stopped: the
    running set is what it was, or empty after a rescan.  A tick moreover counts
    for each dongle how long it has been down. *)
Theorem reconcile_converges (getenv : string -> string) (ParseFloat : string -> float64 * bool)
    (mayRescan : bool) (probes : list (list sdrDevice)) (m : manager) (w : World) :
  let rescan := wants_rescan mayRescan (w_now w) m in
  let c := Capture (FromMap getenv ParseFloat (settings (w_db w))) in
  let tick rd := if mayRescan then mkRunning (params rd) (up rd) (if up rd then 0 else downStreak rd + 1) else rd in
  exists m' (read : bool), fst (reconcile getenv ParseFloat mayRescan probes m w) = Ok m' /\
    inventory m' = (if rescan || bool_decide (inventory m = []) then first_found probes else inventory m) /\
    lastRescan m' = (if rescan then w_now w else lastRescan m) /\
    (no_faults w -> read = true) /\
    (rescan = false -> inventory m <> [] -> read = negb (hd false (w_faults w))) /\
    (read = false -> running m' = if rescan then ∅ else tick <$> running m) /\
    (read = true ->
      (forall src rd, running m' !! src = Some rd ->
         exists dev, dev ∈ inventory m' /\ source dev = src /\ DeviceEnabled c src = true /\
           params rd = mkScanParams (index dev) (DeviceFreq c src) (DeviceGain c src) (DevicePPM c src)
                         (DeviceMsgType c src) (DeviceFilterID c src)) /\
      (forall dev, dev ∈ inventory m' -> DeviceEnabled c (source dev) = true ->
         is_Some (running m' !! source dev)) /\
      params <$> running m' = desired c (inventory m') /\
      (rescan = false -> forall src rd, running m !! src = Some rd ->
         desired c (inventory m') !! src = Some (params rd) -> running m' !! src = Some (tick rd))).
Proof.
  intros rescan c tick. destruct (reconcile_reads getenv ParseFloat mayRescan probes m w) as (read & w' & E & Hf & Hr).
  fold rescan c in E. fold tick in E. set (inv := if rescan || _ then _ else _) in E.
  rewrite E. eexists _, read. split; [reflexivity|]. cbn [inventory lastRescan running].
  split; [done|]. split; [done|]. split; [exact Hf|]. split; [exact Hr|]. split; [by intros ->|]. intros ->.
  set (run := if rescan then _ else _). pose proof (start_missing_params (desired c inv) run) as Hp.
  split; [|split; [|split; [exact Hp|]]].
  - intros src rd Hrd. destruct (desired_elem c inv src (params rd)) as (dev & Hin & <- & Hen & Hpar);
      [by rewrite <- Hp, lookup_fmap, Hrd|]. by exists dev.
  - intros dev Hin Hen. pose proof (desired_wants c inv dev Hin Hen) as Hw.
    by rewrite <- Hp, lookup_fmap, fmap_is_Some in Hw.
  - intros Hno src rd Hrd Hw. unfold run. rewrite Hno. apply start_missing_keeps.
    + by rewrite lookup_fmap, Hrd.
    + rewrite Hw. unfold tick. by destruct mayRescan.
Qed.

(** Two ticks after its dongle went down a manager rescans and finds another. *)
Definition dongle (i : Z) (s : string) : sdrDevice := mkSdr i s "n" "t" s.
Definition sample_manager : manager := mkManager ∅ [dongle 0 "s"] 0.
Definition sick_manager : manager :=
  mkManager {["s" := mkRunning (mkScanParams 0 "" "" "" "" "") false 1]} [dongle 0 "s"] 0.

Lemma reconcile_converges_witness :
  exists m', fst (reconcile (fun _ => "") (fun _ => (f0, true)) true [[]; [dongle 1 "t"]] sick_manager
                    (mkWorld empty_DB 600000000000 [])) = Ok m' /\
    inventory m' = [dongle 1 "t"] /\ lastRescan m' = 600000000000 /\ is_Some (running m' !! "t").
Proof.
  destruct (reconcile_converges (fun _ => "") (fun _ => (f0, true)) true [[]; [dongle 1 "t"]] sick_manager
    (mkWorld empty_DB 600000000000 [])) as (m' & read & E & HI & L & Hr & _ & _ & Hrun).
  assert (wants_rescan true 600000000000 sick_manager = true) as W by (vm_compute; reflexivity).
  cbn [w_now] in HI, L. rewrite W in HI, L. exists m'. split; [exact E|]. split; [exact HI|]. split; [exact L|].
  destruct (Hrun (Hr ltac:(apply Forall_nil; exact I))) as (_ & Hen & _).
  apply (Hen (dongle 1 "t")); [rewrite HI; left|vm_compute; reflexivity].
Defined.

(** Source names identify dongles: two different dongles of one enumeration
    get different sources, provided no serial has the form of a fallback name
    ([dev] and the index of an enumerated dongle). *)
Theorem assignSources_distinct (devs : list sdrDevice) (d d' : sdrDevice) :
  (forall x, x ∈ devs -> in_int64 (index x)) ->
  (forall x y, x ∈ devs -> y ∈ devs -> serial x <> "dev" ++ FormatInt (index y)) ->
  (forall x y, x ∈ devs -> y ∈ devs -> index x = index y -> x = y) ->
  d ∈ assignSources devs -> d' ∈ assignSources devs -> source d = source d' -> d = d'.
Proof.
  intros Hr Hn Hi Hd Hd' E. unfold assignSources in *.
  apply list_elem_of_fmap in Hd as (x & -> & Hx). apply list_elem_of_fmap in Hd' as (y & -> & Hy).
  cbn in E. f_equal; [|done]. by apply (source_of_inj devs).
Qed.

Definition two_dongles : list sdrDevice := [mkSdr 0 "A" "n" "t" ""; mkSdr 1 "A" "n" "t" ""].

Lemma assignSources_distinct_witness :
  mkSdr 0 "A" "n" "t" "dev0" = mkSdr 0 "A" "n" "t" "dev0".
Proof.
  apply (assignSources_distinct two_dongles); [| | |left|left|reflexivity].
  - intros x Hx. repeat (apply elem_of_cons in Hx as [-> | Hx]; [split; discriminate|]). inversion Hx.
  - intros x y Hx Hy. repeat (apply elem_of_cons in Hx as [-> | Hx]; [discriminate|]). inversion Hx.
  - intros x y Hx Hy. repeat (apply elem_of_cons in Hx as [-> | Hx]);
      repeat (apply elem_of_cons in Hy as [-> | Hy]); try reflexivity; try discriminate;
      try inversion Hx; try inversion Hy.
Defined.

(** The dead-run escalation counts consecutive dead runs of a source over
    any history of its runs: it asks for the process to exit exactly when the
    last three or more runs all stalled without a packet, and any other run
    clears the streak. *)
Theorem noteDeadRun_streak (src : string) (runs : list (bool * Z)) :
  fst (notes src runs ∅) = (captureMaxDeadRuns <=? trailing_dead (rev runs)).
Proof.
  rewrite (proj2 (notes_streak src runs)). unfold captureMaxDeadRuns.
  destruct (Z.ltb_spec 0 (trailing_dead (rev runs))); cbn; [done|]. symmetry. apply Z.leb_gt. lia.
Qed.

(** One supervisor iteration always gives the serial window back and leaves
    the dongle marked down; it clears the bus-wide failure count only after a
    run of at least a minute that did not escalate, and a cancelled run leaves
    the backoff as it was. *)
Theorem supervise_once_releases (src : string) (o : pipeline) (start fin : time) (s : supervised) :
  let '(nx, s') := supervise_once src o start fin s in
  sem (su_gate s') = false /\ su_up s' = false /\
  (nx = Return -> fails (su_gate s') = fails (su_gate s) /\ nextOK (su_gate s') = nextOK (su_gate s)) /\
  (nx = Again ->
    (fails (su_gate s') = 0 /\ (exists st p, o = Ran st p false) /\ gateHealthy <= Sub fin start) \/
    fails (su_gate s') = wrap64 (fails (su_gate s) + 1)).
Proof.
  destruct o as [|c| |st p c]; cbn; try (split_and!; (done || (intros; by right))).
  - destruct c; cbn; split_and!; try done. intros _. by right.
  - destruct c; cbn; [split_and!; done|].
    destruct (noteDeadRun (su_dead s) src st p) as [dead m]. destruct dead; cbn; [split_and!; done|].
    destruct (Z.leb_spec gateHealthy (Sub fin start)); cbn; split_and!; try done; intros _; eauto 8.
Qed.

(** The hand-written [itoa] prints every non-negative [int] as
    [strconv.FormatInt] does, so a port or a device index on a command line
    parses back to itself. *)
Theorem itoa_roundtrip (n : Z) : 0 <= n <= int64_max -> ParseInt (itoa n) = (n, true).
Proof.
  intros H. rewrite itoa_FormatInt by lia. apply ParseInt_FormatInt.
  unfold in_int64, int64_min. lia.
Qed.

Lemma itoa_roundtrip_witness : ParseInt (itoa 1234) = (1234, true).
Proof. apply (itoa_roundtrip 1234). split; discriminate. Defined.
