(* ===== verification/Manager.v ===== *)
(** * The capture manager's loop ([cmd/capture/main.go])

    [manager.run] reconciles at the start, on a notification and on a tick, while
    its pipelines come up and go down and other processes write the database.  The
    loop is a step relation; [probes] are what the scans of the bus find. *)

From stdpp Require Import relations.
From S2P Require Import Prelude Float64 Model Config Store Effects Database Gate Regex Capture.

Definition stopAll (m : manager) : manager := mkManager ∅ (inventory m) (lastRescan m).
Definition new_manager : manager := mkManager ∅ [] zero_time.
(** A pipeline stores its state in the flag the health check reads. *)
Definition report_up (src : string) (b : bool) (m : manager) : manager :=
  mkManager (alter (fun rd => mkRunning (params rd) b (downStreak rd)) src (running m)) (inventory m) (lastRescan m).

(** What a scan of the bus may find: dongles with distinct, plausible indices. *)
Definition scan_ok (devs : list sdrDevice) : Prop :=
  NoDup (map index devs) /\ forall d, d ∈ devs -> 0 <= index d <= 2 ^ 62.

Section Run.
Context (getenv : string -> string) (ParseFloat : string -> float64 * bool).

Inductive mstep : manager * World -> manager * World -> Prop :=
  | m_config probes m w m' w' :
      Forall scan_ok probes -> reconcile getenv ParseFloat false probes m w = (Ok m', w') -> mstep (m, w) (m', w')
  | m_ticker probes m w m' w' :
      Forall scan_ok probes -> reconcile getenv ParseFloat true probes m w = (Ok m', w') -> mstep (m, w) (m', w')
  | m_pipeline src b m w : mstep (m, w) (report_up src b m, w)
  | m_elsewhere m w w' : mstep (m, w) (m, w')
  | m_done m w : mstep (m, w) (stopAll m, w).

(** Every pipeline runs a dongle of the inventory, under its index. *)
Definition manager_ok (m : manager) : Prop :=
  scan_ok (inventory m) /\
  forall s rd, running m !! s = Some rd ->
    exists dev, dev ∈ inventory m /\ source dev = s /\ devIndex (params rd) = index dev.

Lemma desired_lookup c inv s p :
  desired c inv !! s = Some p -> exists dev, dev ∈ inv /\ source dev = s /\ devIndex p = index dev.
Proof.
  unfold desired. assert (forall m : gmap string scanParams,
    (forall p, m !! s = Some p -> exists dev, dev ∈ inv /\ source dev = s /\ devIndex p = index dev) ->
    forall l, (forall dev, dev ∈ l -> dev ∈ inv) -> forall p,
    fold_left (fun m dev => if DeviceEnabled c (source dev) then <[source dev := desired_params c dev]> m else m) l m !! s = Some p ->
    exists dev, dev ∈ inv /\ source dev = s /\ devIndex p = index dev) as H.
  { intros m Hm l. revert m Hm. induction l as [|d l IH]; intros m Hm Hl p0; cbn [fold_left]; [auto|].
    apply IH; [|intros dev Hd; apply Hl; by right]. destruct (DeviceEnabled c (source d)); [|done].
    intros p1 [[<- <-]|[_ H1]]%lookup_insert_Some; [|auto]. exists d. split; [apply Hl; left|done]. }
  apply (H ∅); [done|auto].
Qed.

Lemma enumerateOnce_found probes w inv w' :
  enumerateOnce probes w = (Ok inv, w') -> inv = [] \/ inv ∈ probes.
Proof.
  revert w. induction probes as [|devs probes IH]; intros w; cbn [enumerateOnce]; [intros [= <- _]; by left|].
  destruct devs as [|d ds].
  - intros H. destruct (IH w H); [by left|right; by right].
  - unfold mbind, M_bind. destruct (forM _ _ w) as [[[]|e] w1]; [|done].
    unfold ignore. destruct (PruneDevices _ w1) as [r w2]. intros [= <- _]. right. left.
Qed.

Lemma reconcile_ok mayRescan probes m w m' w' :
  Forall scan_ok probes -> manager_ok m -> reconcile getenv ParseFloat mayRescan probes m w = (Ok m', w') -> manager_ok m'.
Proof.
  intros Hp [Hs Hr]. unfold reconcile, mbind, M_bind, now.
  destruct (if mayRescan then dongleRescanNeeded (running m) else (false, running m)) as [bad run] eqn:Eb.
  cbv zeta. cbn [inventory running lastRescan].
  set (m1 := if bad && _ then _ else _).
  assert (scan_ok (inventory m1) /\ forall s rd, running m1 !! s = Some rd ->
            exists dev, dev ∈ inventory m1 /\ source dev = s /\ devIndex (params rd) = index dev) as [Hs1 Hr1].
  { unfold m1. destruct (bad && _); cbn [inventory running].
    - split; [split; [constructor|]; intros d Hd; by apply elem_of_nil in Hd|]. intros s rd Hx. discriminate Hx.
    - split; [done|]. intros s rd Hx. destruct mayRescan; [|injection Eb as _ <-; auto].
      unfold dongleRescanNeeded in Eb. injection Eb as _ <-. rewrite lookup_fmap in Hx.
      apply fmap_Some in Hx as (rd0 & Hx & ->). destruct (Hr s rd0 Hx) as (dev & ?). exists dev.
      unfold health_tick. by destruct (up rd0). }
  destruct (inventory m1) as [|d ds] eqn:Ei.
  - destruct (enumerateOnce probes w) as [[inv|e] w1] eqn:Ee; [|done].
    assert (scan_ok inv) as Hi.
    { apply enumerateOnce_found in Ee as [->|Hin]; [split; [constructor|]; intros x Hx; by apply elem_of_nil in Hx|].
      rewrite Forall_forall in Hp. by apply Hp. }
    assert (running m1 = ∅) as Er.
    { apply map_empty. intros s. apply eq_None_not_Some. intros [rd Hx]. destruct (Hr1 s rd Hx) as (dev & Hd & _).
      by apply elem_of_nil in Hd. }
    rewrite Er. unfold try. destruct (LoadConfig getenv ParseFloat w1) as [[cfg|e] w2]; intros [= <- _]; (split; [done|]); cbn [running inventory].
    + intros s rd Hx. unfold start_missing, stop_unwanted in Hx. apply lookup_union_Some_raw in Hx as [Hx|[_ Hx]].
      * apply map_lookup_filter_Some in Hx as [Hx _]. discriminate Hx.
      * rewrite lookup_fmap in Hx. apply fmap_Some in Hx as (p & Hx & ->). cbn [params]. by apply desired_lookup in Hx.
    + intros s rd Hx. discriminate Hx.
  - unfold try. cbn [mret M_ret]. destruct (LoadConfig getenv ParseFloat w) as [[cfg|e] w2]; intros [= <- _]; (split; [done|]); cbn [running inventory]; [|done].
    intros s rd Hx. unfold start_missing, stop_unwanted in Hx. apply lookup_union_Some_raw in Hx as [Hx|[_ Hx]].
    + apply map_lookup_filter_Some in Hx as [Hx _]. auto.
    + rewrite lookup_fmap in Hx. apply fmap_Some in Hx as (p & Hx & ->). cbn [params]. by apply desired_lookup in Hx.
Qed.

Lemma mstep_ok x y : mstep x y -> manager_ok x.1 -> manager_ok y.1.
Proof.
  destruct 1 as [probes m w m' w' Hp E|probes m w m' w' Hp E|src b m w|m w w'|m w]; cbn [fst]; intros Hm.
  - by eapply reconcile_ok.
  - by eapply reconcile_ok.
  - destruct Hm as [Hs Hr]. split; [done|]. cbn [running inventory report_up]. intros s rd Hx.
    destruct (decide (s = src)) as [->|Hne].
    + rewrite lookup_alter_eq in Hx. apply fmap_Some in Hx as (rd0 & Hx & ->). exact (Hr src rd0 Hx).
    + rewrite lookup_alter_ne in Hx by done. auto.
  - done.
  - destruct Hm as [Hs _]. split; [done|]. intros s rd Hx. discriminate Hx.
Qed.

Lemma same_server p q : 0 <= devIndex p <= 2 ^ 62 -> 0 <= devIndex q <= 2 ^ 62 -> tcp_server p = tcp_server q -> devIndex p = devIndex q.
Proof.
  intros Hp Hq E. unfold tcp_server, tcp_port in E. injection E as E. rewrite !itoa_FormatInt in E by lia.
  apply FormatInt_inj in E; [lia|..]; unfold in_int64, int64_min, int64_max; lia.
Qed.

(** C17: Two pipelines never share an [rtl_tcp] address: in every state the
    manager's loop can reach from an empty one (any order of notifications,
    ticks with their rescans, pipelines coming up and going down, shutdowns, faults
    and writes of other processes), if scans of the bus give every dongle its own
    index, then two running dongles with the same address are the same dongle. *)
Theorem pipelines_never_collide (w0 : World) (m : manager) (w : World) (s s' : string) (rd rd' : runningDev) :
  rtc mstep (new_manager, w0) (m, w) ->
  running m !! s = Some rd -> running m !! s' = Some rd' ->
  tcp_server (params rd) = tcp_server (params rd') -> s = s'.
Proof.
  intros Hr. assert (forall x y, rtc mstep x y -> manager_ok x.1 -> manager_ok y.1) as Hrtc.
  { induction 1 as [|x y z Hxy _ IH]; [done|]. intros Hx. by eapply IH, mstep_ok. }
  assert (manager_ok m) as [Hs Hok].
  { apply (Hrtc _ _ Hr). split; [split; [constructor|]; intros d Hd; by apply elem_of_nil in Hd|]. intros x y Hx. discriminate Hx. }
  intros Hx Hx' E. destruct (Hok s rd Hx) as (dev & Hd & <- & Ei), (Hok s' rd' Hx') as (dev' & Hd' & <- & Ei').
  destruct Hs as [Hnd Hrange]. apply same_server in E; [|rewrite Ei; auto|rewrite Ei'; auto].
  rewrite Ei, Ei' in E. apply list_elem_of_lookup in Hd as [i Hi], Hd' as [j Hj].
  assert (i = j) as <-.
  { eapply (NoDup_lookup (map index (inventory m))); [done|..]; rewrite list_lookup_fmap.
    - by rewrite Hi.
    - rewrite Hj. cbn. by rewrite E. }
  congruence.
Qed.
End Run.

(** Two dongles found at start, both running, one of them reporting. *)
Definition two_found : list sdrDevice := [mkSdr 0 "A" "n" "t" "A"; mkSdr 1 "B" "n" "t" "B"].

Lemma pipelines_never_collide_witness :
  exists m w, rtc (mstep (fun _ => "") (fun _ => (f0, true))) (new_manager, mkWorld empty_DB 0 []) (m, w) /\
    map fst (map_to_list (running m)) = ["A"; "B"] /\
    forall rd rd', running m !! "A" = Some rd -> running m !! "B" = Some rd' -> tcp_server (params rd) <> tcp_server (params rd').
Proof.
  assert (exists m w, reconcile (fun _ => "") (fun _ => (f0, true)) false [[]; two_found] new_manager (mkWorld empty_DB 0 []) = (Ok m, w) /\
            map fst (map_to_list (running m)) = ["A"; "B"]) as (m & w & E & Em) by (eexists _, _; split; [vm_compute; reflexivity|reflexivity]).
  assert (rtc (mstep (fun _ => "") (fun _ => (f0, true))) (new_manager, mkWorld empty_DB 0 []) (m, w)) as Hr.
  { apply rtc_once. apply (m_config _ _ [[]; two_found]); [|exact E]. constructor; [|constructor; [|constructor]].
    - split; [constructor|]. intros d Hd. by apply elem_of_nil in Hd.
    - split; [apply NoDup_cons; split; [intros H; apply list_elem_of_singleton in H; discriminate H|apply NoDup_singleton]|].
      intros d Hd. unfold two_found in Hd. rewrite !elem_of_cons in Hd. destruct Hd as [->|[->|Hd]]; [split; discriminate..|by apply elem_of_nil in Hd]. }
  exists m, w. split; [exact Hr|]. split; [exact Em|]. intros rd rd' Ha Hb Es.
  pose proof (pipelines_never_collide (fun _ => "") (fun _ => (f0, true)) _ m w "A" "B" rd rd' Hr Ha Hb Es) as H. discriminate H.
Defined.
