(* ===== verification/Deltas.v ===== *)
(** * Counter deltas ([internal/db/helpers.go], [consumption.go])

    The continuous aggregates over [readings], the rollover-aware step of a
    cumulative counter, the glitch filter and the shared hourly ladder
    [hourlyDeltaCTEs].  [time_bucket] is TimescaleDB's function, a parameter.
    SQL sums are taken in bucket order. *)

From S2P Require Import Prelude Float64 Model Calendar Store Database.

(** [round v places]: [math.Round(v*p) / p]. *)
Definition round (v : float64) (places : Z) : float64 :=
  let p := pow10 places in (fround (v * p) / p)%f64.

Definition deref (p : option float64) : float64 := from_opt f0 p.

Definition bucket_ladder : list Z := [1; 2; 5; 10; 15; 30; 60; 120; 240].
Definition PickBucketMin (windowMin : Z) : Z :=
  let want := go_div windowMin 150 in
  match List.find (fun b => want <=? b) bucket_ladder with
  | Some b => b
  | None => from_opt 0 (last bucket_ladder)
  end.

Definition counterModulus (msgType : string) : float64 :=
  if (msgType =? "SCM")%string then of_Z 16777216 else of_Z 4294967296.

(** [rolloverDeltaSQL]: NULL in, NULL out; a reset is NULL. *)
Definition rolloverDelta (raw : option float64) (modulus : float64) : option float64 :=
  match raw with
  | None => None
  | Some raw =>
      if pg_le f0 raw then Some raw
      else if pg_le f0 (raw + modulus)%f64 && negb (pg_le (modulus * lit 1 2) (raw + modulus))%f64
      then Some (raw + modulus)%f64
      else None
  end.

(** Total least squares slope. *)
Definition demingSlope (sxx syy sxy : float64) : float64 :=
  if (fabs sxy <? lit 1 (10 ^ 12))%f64 then
    if (sxx =? f0)%f64 then f0 else (sxy / sxx)%f64
  else ((syy - sxx + fsqrt ((syy - sxx) * (syy - sxx) + of_Z 4 * sxy * sxy)) / (of_Z 2 * sxy))%f64.

Definition bucketInterval (bucket : string) : duration :=
  if (bucket =? "1d")%string then Day
  else if (bucket =? "5m")%string then 5 * Minute
  else Hour.

(** ** Aggregates of SQL *)

Definition fsum (l : list float64) : float64 := fold_left fadd l f0.
(** [sum] is NULL on no rows. *)
Definition sql_sum (l : list float64) : option float64 :=
  match l with [] => None | x :: l' => Some (fold_left fadd l' x) end.
Definition sql_max (l : list float64) : option float64 :=
  foldr (fun x acc => greatest (Some x) acc) None l.
Definition sql_min (l : list float64) : option float64 :=
  foldr (fun x acc => least (Some x) acc) None l.

(** [percentile_cont(num/den)] within the ascending order. *)
Definition percentile_cont (num den : Z) (l : list float64) : option float64 :=
  let s := sort_by pg_le l in
  let pos := num * (Z.of_nat (length l) - 1) in
  let lo := s !! Z.to_nat (pos / den) in
  if pos mod den =? 0 then lo
  else match lo, s !! Z.to_nat (pos / den + 1) with
       | Some a, Some b => Some (a + lit (pos mod den) den * (b - a))%f64
       | _, _ => None
       end.

(** ** The continuous aggregates *)

Record AggRow := mkAgg {
  ag_id : Z; ag_bucket : time; ag_min : float64; ag_max : float64; ag_n : Z
}.

(** Values of one meter in one bucket. *)
Definition distinct_Z (l : list Z) : list Z := elements (list_to_set l : gset Z).
Definition sorted_Z (l : list Z) : list Z := sort_by Z.leb (distinct_Z l).

(** A step of the counter: the bucket, its packets and the signed rise of the
    maximum since the previous bucket (NULL in the first). *)
Fixpoint lag_steps (prev : option float64) (l : list (time * float64 * Z))
  : list (time * Z * option float64) :=
  match l with
  | [] => []
  | (b, cmax, n) :: l' =>
      (b, n, option_map (fun p => (cmax - p)%f64) prev) :: lag_steps (Some cmax) l'
  end.

(** Rollover-aware deltas of one meter, in bucket order. *)
Definition meter_deltas (modulus : float64) (rows : list (time * float64 * Z))
  : list (time * Z * option float64) :=
  map (fun x => (x.1, rolloverDelta x.2 modulus)) (lag_steps None rows).

(** The positive deltas of a meter and what one bucket may add. *)
Definition positive_deltas (l : list (time * Z * option float64)) : list float64 :=
  omap (fun x => match x.2 with Some d => if negb (pg_le d f0) then Some d else None | None => None end) l.

Definition glitch_bound (pos : list float64) : float64 :=
  let md := percentile_cont 1 2 pos in
  if 3 <=? Z.of_nat (length pos)
  then match greatest (option_map (fun m => m * of_Z 50)%f64 md) (Some (of_Z 1000)) with
       | Some b => b | None => of_Z 1000 end
  else of_Z 1000.

(** [glitch_clean] of [hourlyDeltaCTEs], for one meter. *)
Definition glitch_clean (l : list (time * Z * option float64)) : list (time * Z * float64) :=
  let bound := glitch_bound (positive_deltas l) in
  omap (fun x => match x.2 with
                 | Some d => if pg_le d bound then Some (x.1, d) else None
                 | None => None
                 end) l.

(** [glitchCleanCTEs]: the same filter without the minimum-evidence rule. *)
Definition glitch_bound_simple (pos : list float64) : float64 :=
  match greatest (Some (match percentile_cont 1 2 pos with Some m => m | None => f0 end * of_Z 50)%f64)
          (Some (of_Z 1000)) with
  | Some b => b | None => of_Z 1000 end.
Definition glitch_clean_simple (l : list (time * Z * option float64)) : list (time * Z * float64) :=
  let bound := glitch_bound_simple (positive_deltas l) in
  omap (fun x => match x.2 with
                 | Some d => if pg_le d bound then Some (x.1, d) else None
                 | None => None
                 end) l.

(** A row of the ladder. *)
Record HourRow := mkHour { hr_id : Z; hr_hb : time; hr_n : Z; hr_delta : float64 }.

Section Buckets.
Context (time_bucket : duration -> time -> time).

(** Packets with a consumption of one meter in one bucket. *)
Definition in_bucket (w : duration) (id : Z) (b : time) (d : DB) : list float64 :=
  omap (fun rr => match r_Consumption rr.1 with
                  | Some c => if (r_EndpointID rr.1 =? id) && (time_bucket w (r_TS rr.1) =? b)
                              then Some c else None
                  | None => None
                  end) (readings d).
Definition buckets_of (w : duration) (id : Z) (d : DB) : list time :=
  sorted_Z (omap (fun rr => match r_Consumption rr.1 with
                            | Some _ => if r_EndpointID rr.1 =? id
                                        then Some (time_bucket w (r_TS rr.1)) else None
                            | None => None
                            end) (readings d)).

(** [readings_1m] ([w] a minute) and [readings_1h] ([w] an hour), one meter's
    rows in bucket order. *)
Definition agg_rows (w : duration) (id : Z) (d : DB) : list AggRow :=
  omap (fun b =>
    let cs := in_bucket w id b d in
    match sql_min cs, sql_max cs with
    | Some lo, Some hi => Some (mkAgg id b lo hi (Z.of_nat (length cs)))
    | _, _ => None
    end) (buckets_of w id d).

(** [GROUP BY key]: the maximum of the counter and the number of rows of each
    group, by ascending key. *)
Definition coarsen (key : time -> Z) (rows : list AggRow) : list (Z * float64 * Z) :=
  omap (fun b =>
    let here := List.filter (fun a => key (ag_bucket a) =? b) rows in
    option_map (fun cmax => (b, cmax, Z.of_nat (length here))) (sql_max (map ag_max here)))
    (sorted_Z (map (fun a => key (ag_bucket a)) rows)).

(** The rows of [hb] of one meter: the filter is on the bucket, and a meter
    without a [meter_index] row joins nothing. *)
Definition hb_rows (keep : time -> bool) (id : Z) (d : DB) : list (time * float64 * Z) :=
  map (fun a => (ag_bucket a, ag_max a, ag_n a))
    (List.filter (fun a => keep (ag_bucket a)) (agg_rows Hour id d)).

(** [hourlyDeltaCTEs] restricted to one meter. *)
Definition hourly_deltas (keep : time -> bool) (id : Z) (d : DB) : list HourRow :=
  match meter_index d !! id with
  | None => []
  | Some x =>
      map (fun r => mkHour id r.1.1 r.1.2 r.2)
        (glitch_clean (meter_deltas (counterModulus (ix_msg_type x)) (hb_rows keep id d)))
  end.

(** [consumptionLookback]. *)
Definition consumptionLookback : duration := 48 * Hour.

(** The rows of a page: looked back 48 hours so that the first has a delta. *)
Definition page_rows (id : Z) (start fin : time) (d : DB) : list HourRow :=
  List.filter (fun r => start <=? hr_hb r)
    (hourly_deltas (fun b => (start - consumptionLookback <=? b) && (b <? fin)) id d).

(** [MovementBetween]: an error is no data. *)
Definition MovementBetween (id : Z) (start fin : time) : M (option float64) :=
  r ← try (query (fun d _ => sql_sum (map hr_delta (page_rows id start fin d))));
  mret (match r with Ok v => v | Err _ => None end).
End Buckets.

(** ** Lemmas *)

Lemma rolloverDelta_cases raw m d :
  rolloverDelta (Some raw) m = Some d ->
  (pg_le f0 raw = true /\ d = raw) \/
  (pg_le f0 raw = false /\ d = (raw + m)%f64 /\ pg_le f0 d = true /\ pg_le (m * lit 1 2)%f64 d = false).
Proof.
  unfold rolloverDelta. destruct (pg_le f0 raw) eqn:E; [intros [= <-]; by left|].
  destruct (pg_le f0 (raw + m)%f64) eqn:E1; cbn; [|done].
  destruct (pg_le (m * lit 1 2) (raw + m))%f64 eqn:E2; cbn; [done|]. intros [= <-]. by right.
Qed.

Lemma glitch_clean_elem l x d :
  (x, d) ∈ glitch_clean l <->
  (x, Some d) ∈ l /\ pg_le d (glitch_bound (positive_deltas l)) = true.
Proof.
  unfold glitch_clean. set (bd := glitch_bound _). rewrite list_elem_of_omap. split.
  - intros ([y [e|]] & Hin & Hy); cbn in Hy; [|done].
    destruct (pg_le e bd) eqn:E; [|done]. by injection Hy as <- <-.
  - intros [Hin E]. exists (x, Some d). cbn. by rewrite E.
Qed.

Lemma meter_deltas_elem m rows x d :
  (x, Some d) ∈ meter_deltas m rows -> exists raw, rolloverDelta (Some raw) m = Some d.
Proof.
  unfold meter_deltas. intros ([y [raw|]] & E & _)%list_elem_of_fmap; cbn in E; [|done].
  injection E as _ E. eauto.
Qed.

(** ** Properties *)

(** C37: No consumption delta of the hourly ladder is negative, and none exceeds
    the glitch bound of its meter: 1000 counts for a meter with fewer than three
    positive deltas in the window (so a lone bit-flipped jump never counts),
    fifty times its median positive delta (at least 1000) otherwise. *)
Theorem hourly_deltas_bounded (time_bucket : duration -> time -> time)
    (keep : time -> bool) (id : Z) (d : DB) (r : HourRow) (x : IndexRow) :
  meter_index d !! id = Some x -> r ∈ hourly_deltas time_bucket keep id d ->
  let pos := positive_deltas (meter_deltas (counterModulus (ix_msg_type x)) (hb_rows time_bucket keep id d)) in
  pg_le f0 (hr_delta r) = true /\ pg_le (hr_delta r) (glitch_bound pos) = true /\
  (Z.of_nat (length pos) < 3 -> pg_le (hr_delta r) (of_Z 1000) = true).
Proof.
  intros Hx Hr pos. unfold hourly_deltas in Hr. rewrite Hx in Hr.
  apply list_elem_of_fmap in Hr as ([y dl] & -> & Hin). cbn [hr_delta fst snd].
  apply glitch_clean_elem in Hin as [Hin Hle]. fold pos in Hle.
  apply meter_deltas_elem in Hin as [raw Hraw]. split_and!.
  - by destruct (rolloverDelta_cases _ _ _ Hraw) as [[? ->]|(? & ? & ? & ?)].
  - done.
  - intros Hp. unfold glitch_bound in Hle. destruct (Z.leb_spec 3 (Z.of_nat (length pos))); [lia|done].
Qed.

(** Two hourly packets of one meter. *)
Definition floor_bucket (w : duration) (t : time) : time := w * (t / w).
Definition two_hours_DB : DB :=
  let r1 := mkReading 0 "SCM" 42 (Some 7) (Some (of_Z 100)) "d0" in
  let r2 := mkReading Hour "SCM" 42 (Some 7) (Some (of_Z 150)) "d0" in
  set_meter_index {[42 := index_update (index_insert r1) r2]}
    (set_readings [(r1, ""); (r2, "")] empty_DB).

Lemma hourly_deltas_bounded_witness :
  pg_le f0 (hr_delta (mkHour 42 Hour 1 (of_Z 50))) = true.
Proof.
  refine (proj1 (hourly_deltas_bounded floor_bucket (fun _ => true) 42 two_hours_DB
    (mkHour 42 Hour 1 (of_Z 50)) _ _ _)).
  - reflexivity.
  - apply list_elem_of_singleton. vm_compute. reflexivity.
Defined.

(** [PickBucketMin] picks a bucket of the ladder; it is the smallest entry
    that gives at most about 150 points, or the largest entry for a window the
    ladder cannot cover. *)
Theorem PickBucketMin_spec (windowMin : Z) :
  PickBucketMin windowMin ∈ bucket_ladder /\
  (forall b, b ∈ bucket_ladder -> go_div windowMin 150 <= b -> PickBucketMin windowMin <= b) /\
  (go_div windowMin 150 <= PickBucketMin windowMin \/ PickBucketMin windowMin = 240).
Proof.
  unfold PickBucketMin. set (want := go_div windowMin 150).
  assert (forall b, b ∈ bucket_ladder <-> b = 1 \/ b = 2 \/ b = 5 \/ b = 10 \/ b = 15 \/ b = 30 \/ b = 60 \/ b = 120 \/ b = 240) as HL
    by (intros b; unfold bucket_ladder; rewrite !elem_of_cons, elem_of_nil; tauto).
  clearbody want. unfold bucket_ladder in *. cbn [List.find last].
  repeat match goal with |- context [want <=? ?b] => destruct (Z.leb_spec want b) end;
    cbn [from_opt]; (split; [apply HL; lia|]; split; [intros b Hb ?; apply HL in Hb; lia|lia]).
Qed.
