(* ===== verification/Confidence.v ===== *)
(** * Identification confidence ([internal/db/confidence.go])

    The multi-signal confidence of one candidate meter, the cross-correlation
    lag and the change-point coherence.  [math.Erfinv] is a parameter of the
    model; a slice expression out of range is a run-time error, the [None] of
    [crossCorrLag]. *)

From Stdlib Require Import SpecFloat.
From S2P Require Import Prelude Float64 Rounding Deltas.

Record confidenceSignals := mkSignals {
  R : option float64; R2 : option float64;
  HasMultiplier : bool;
  MeterKwh : float64; MonitoredKwh : float64;
  FloorOK : option bool;
  WindowPackets : Z; NBuckets : Z; NCandidates : Z;
  ChangePoint : option float64; LagPenalty : option float64; AnchorAgree : option float64;
  Physics : option float64; PhysicsViolation : bool;
  RefCV : option float64 }.

Definition wCorr : float64 := lit 45 100.
Definition wR2 : float64 := lit 10 100.
Definition wRecon : float64 := lit 15 100.
Definition wPkt : float64 := lit 10 100.
Definition wFloor : float64 := lit 10 100.
Definition wChange : float64 := lit 10 100.

Local Open Scope f64_scope.

Definition clamp01 (v : float64) : float64 :=
  if v <? f0 then f0 else if v >? f1 then f1 else v.

Definition smoothstep (lo hi x : float64) : float64 :=
  if hi <=? lo then (if x >=? hi then f1 else f0)
  else let t := clamp01 ((x - lo) / (hi - lo)) in t * t * (of_Z 3 - of_Z 2 * t).

Definition pearson (a b : list float64) : float64 :=
  let n := length a in
  if negb (Nat.eqb n (length b)) || Nat.ltb n 2 then f0
  else
    let sa := fsum a in let sb := fsum b in
    let nf := of_Z (Z.of_nat n) in
    let ma := sa / nf in let mb := sb / nf in
    let '(sab, saa, sbb) :=
      fold_left (fun s p =>
        let '(sab, saa, sbb) := s in
        let da := p.1 - ma in let db := p.2 - mb in
        (sab + da * db, saa + da * da, sbb + db * db)) (zip a b) (f0, f0, f0) in
    if (saa =? f0) || (sbb =? f0) then f0 else sab / fsqrt (saa * sbb).

(** [meter[lag:]] with [ref[:n-lag]], or [meter[:n+lag]] with [ref[-lag:]]:
    a run-time error when a bound is out of range. *)
Definition lag_slices (meter ref : list float64) (lag : Z) : option (list float64 * list float64) :=
  let n := Z.of_nat (length meter) in
  if (0 <=? lag)%Z then
    if (lag <=? n)%Z then Some (drop (Z.to_nat lag) meter, take (Z.to_nat (n - lag)) ref) else None
  else
    if (0 <=? n + lag)%Z then Some (take (Z.to_nat (n + lag)) meter, drop (Z.to_nat (- lag)) ref) else None.

(** The loop from [lag] on, [steps] lags. *)
Fixpoint lag_loop (meter ref : list float64) (steps : nat) (lag : Z) (best : Z * float64)
  : option (Z * float64) :=
  match steps with
  | O => Some best
  | S k =>
      match lag_slices meter ref lag with
      | None => None
      | Some (a, b) =>
          let r := pearson a b in
          lag_loop meter ref k (lag + 1) (if r >? best.2 then (lag, r) else best)
      end
  end.

Definition crossCorrLag (meter ref : list float64) (maxLag : Z) : option (Z * float64) :=
  let n := length meter in
  if negb (Nat.eqb n (length ref)) || Nat.ltb n 4 then Some (0%Z, f0)
  else
    match lag_loop meter ref (Z.to_nat (2 * maxLag + 1)) (- maxLag)%Z (0%Z, fNegInf) with
    | None => None
    | Some (l, r) => Some (if is_inf_neg r then (0%Z, f0) else (l, r))
    end.

Definition lagPenalty (lag maxLag : Z) : float64 :=
  if (maxLag <=? 0)%Z then f1
  else let a := fabs (of_Z lag) / of_Z maxLag in clamp01 (f1 - lit 1 2 * a).

Definition changePointCoherence (windowRate baselineRate : float64) : float64 :=
  if windowRate <=? f0 then f0
  else if baselineRate <=? f0 then f1
  else let ratio := windowRate / baselineRate in
       clamp01 (lit 1 2 + lit 25 100 * (ratio - f1)).

(** The reconciliation gate. *)
Definition recon_of (s : confidenceSignals) : float64 :=
  if HasMultiplier s && (MonitoredKwh s >? f0) && (MeterKwh s >? f0) then
    let ratio := MeterKwh s / MonitoredKwh s in
    if ratio <? lit 1 2 then clamp01 (ratio / lit 1 2 * lit 4 10)
    else if ratio <=? f1 then lit 7 10 + lit 3 10 * ((ratio - lit 1 2) / lit 1 2)
    else if ratio <=? of_Z 20 then f1
    else if ratio <=? of_Z 100 then f1 - lit 1 2 * ((ratio - of_Z 20) / of_Z 80)
    else lit 3 10
  else lit 1 2.

Definition pkt_of (s : confidenceSignals) : float64 :=
  let pkt := fmin f1 (of_Z (NBuckets s) / of_Z 30) in
  if (0 <? WindowPackets s)%Z then fmin pkt (fmin f1 (of_Z (WindowPackets s) / of_Z 60)) else pkt.

(** [if p != nil { v = clamp01 *p }] over a default. *)
Definition clamped (dflt : float64) (p : option float64) : float64 :=
  match p with Some v => clamp01 v | None => dflt end.

Section Erf.
(** [math.Erfinv]. *)
Context (Erfinv : float64 -> float64).

Definition Sqrt2 : float64 := fsqrt (of_Z 2).

Definition snoopFactor (r : option float64) (nBuckets nCandidates : Z) : float64 :=
  match r with
  | None => f1
  | Some r =>
      if (nBuckets <? 4)%Z then f1
      else
        let k := if (nCandidates <? 1)%Z then 1%Z else nCandidates in
        let p := lit 5 100 / of_Z k in
        let z := Sqrt2 * Erfinv (f1 - p) in
        let rStar := z / fsqrt (of_Z nBuckets) in
        let rStar := if rStar >? lit 95 100 then lit 95 100 else rStar in
        smoothstep (lit 7 10 * rStar) (lit 13 10 * rStar) (fabs r)
  end.

(** The weights of correlation and reconciliation: a flat reference moves the
    weight of the first onto the second. *)
Definition weights (s : confidenceSignals) : float64 * float64 :=
  match RefCV s with
  | Some cv =>
      if cv <? lit 25 100 then
        let f := clamp01 (cv / lit 25 100) in
        let wc := wCorr * f in (wc, wRecon + (wCorr - wc))
      else (wCorr, wRecon)
  | None => (wCorr, wRecon)
  end.

Definition opt_part (k : string) (o : option float64) (m : gmap string float64) : gmap string float64 :=
  match o with Some v => <[k := v]> m | None => m end.

Definition combineConfidence (s : confidenceSignals) : float64 * gmap string float64 :=
  let corr := clamped f0 (R s) in
  let r2 := clamped (corr * corr) (R2 s) in
  let recon := recon_of s in
  let pkt := pkt_of s in
  let floor := match FloorOK s with Some false => lit 4 10 | _ => f1 end in
  let change := clamped (lit 1 2) (ChangePoint s) in
  let '(wc, wr) := weights s in
  let parts : gmap string float64 :=
    <["correlation" := corr]> (<["r2" := r2]> (<["reconciliation" := recon]>
    (<["packets" := pkt]> (<["floor" := floor]> (<["change_point" := change]> ∅))))) in
  let parts := match RefCV s with
               | Some cv => if cv <? lit 25 100 then <["ref_cv" := round cv 3]> parts else parts
               | None => parts end in
  let base := wc * corr + wR2 * r2 + wr * recon + wPkt * pkt + wFloor * floor + wChange * change in
  let parts := opt_part "anchor" (clamp01 <$> AnchorAgree s) parts in
  let base := match AnchorAgree s with
              | Some a => lit 45 100 * base + lit 55 100 * clamp01 a
              | None => base end in
  let lag := clamped f1 (LagPenalty s) in
  let snoop := snoopFactor (R s) (NBuckets s) (NCandidates s) in
  let parts := <["snoop" := snoop]> (<["lag" := lag]> parts) in
  let conf := clamp01 (base * lag * snoop) in
  let parts := opt_part "physics" (clamp01 <$> Physics s) parts in
  let conf := match Physics s with
              | Some p => clamp01 (lit 1 2 * conf + lit 1 2 * clamp01 p)
              | None => conf end in
  let '(conf, parts) := if PhysicsViolation s then (conf * lit 2 10, <["physics" := f0]> parts)
                        else (conf, parts) in
  (conf, <["confidence" := round conf 3]> parts).
End Erf.

Local Close Scope f64_scope.

(** ** Values of the parameter and of the signals *)

(** [math.Erfinv] on [[0, 1]]: not NaN and not negative ([+Inf] at 1). *)
Definition erfinv_spec (Erfinv : float64 -> float64) : Prop :=
  forall x, in01 x -> nonneg (Erfinv x).

Record good_signals (s : confidenceSignals) : Prop := {
  gs_R : forall v, R s = Some v -> input v;
  gs_R2 : forall v, R2 s = Some v -> input v;
  gs_change : forall v, ChangePoint s = Some v -> input v;
  gs_lag : forall v, LagPenalty s = Some v -> input v;
  gs_anchor : forall v, AnchorAgree s = Some v -> input v;
  gs_physics : forall v, Physics s = Some v -> input v;
  gs_cv : forall v, RefCV s = Some v -> input v;
  gs_meter : input (MeterKwh s);
  gs_monitored : input (MonitoredKwh s);
  gs_packets : in_int64 (WindowPackets s);
  gs_buckets : 0 <= NBuckets s <= int64_max;
  gs_candidates : in_int64 (NCandidates s) }.

(** ** Components *)

Lemma in01_const x : number x = true -> 0 <= sv x -> sv x <= sv f1 -> in01 x.
Proof. intros Hn ? ?. apply (between_weaken x x); [done|done|by apply between_const]. Qed.

Lemma in01_f0 : in01 f0.
Proof. by apply in01_const; fcomp. Qed.
Lemma in01_f1 : in01 f1.
Proof. by apply in01_const; fcomp. Qed.

Lemma clamp01_in01 v : input v -> in01 (clamp01 v).
Proof.
  intros [V N]. unfold clamp01. destruct (fltb v f0) eqn:E1; [apply in01_f0|].
  destruct (fltb f1 v) eqn:E2; [apply in01_f1|].
  apply between_fle; [done..|]. split_and!; [done| |]; by apply fltb_false.
Qed.

(** A value of [[0, 1]] is its own clamp. *)
Lemma clamp01_id a v : between a f1 v -> 0 <= sv a -> clamp01 v = v.
Proof.
  intros H Ha. assert (in01 v) as Hv by (by apply (between_weaken a f1)).
  apply in01_fle in Hv as [L U]. unfold clamp01.
  destruct (fltb v f0) eqn:E; [exfalso; by eapply flt_not_fle|].
  destruct (fltb f1 v) eqn:E'; [exfalso; by eapply flt_not_fle|done].
Qed.

Lemma clamped_in01 d o : in01 d -> (forall v, o = Some v -> input v) -> in01 (clamped d o).
Proof. intros Hd Ho. destruct o as [v|]; cbn; [by apply clamp01_in01, Ho|done]. Qed.

Lemma in01_mul x y : in01 x -> in01 y -> in01 (fmul x y).
Proof. intros. by eapply (between_mul f0 f1 f0 f1 f0 f1); fcomp. Qed.

(** A fraction of a value of [[0, 1]]. *)
Lemma part_mul c x : number c = true -> 0 <= sv c -> in01 x -> between f0 c (fmul c x).
Proof.
  intros Hn Hc Hx. eapply (between_mul c c f0 f1 f0 c); [by apply between_const|done|done|fcomp|fcomp|done| |].
  - change (sv f0) with 0. lia.
  - change (sv f1) with unit_sv. lia.
Qed.

Lemma lt_half_between x : valid x = true -> fle f0 x -> fltb x (lit 1 2) = true -> between f0 (lit 1 2) x.
Proof. intros V H0 H. apply between_fle; [done..|]. split_and!; [done|done|by apply flt_le]. Qed.

(** A quotient of positive values is NaN (both infinite) or not negative. *)
Lemma fdiv_pos x y :
  input x -> input y -> flt f0 x -> flt f0 y -> valid (fdiv x y) = true /\ (is_nan (fdiv x y) = true \/ fle f0 (fdiv x y)).
Proof.
  intros [Vx Nx] [Vy Ny] Px Py.
  assert (forall z, valid z = true -> fin z = true -> flt f0 z -> 0 < sv z) as Hpos.
  { intros z V F H. destruct z as [[]| | |[] m e]; try done. apply sv_pos. apply valid_exp in V. lia. }
  destruct (nonneg_cases x (conj Vx (flt_le _ _ Px))) as [->|(_ & Fx & Sx)];
    destruct (nonneg_cases y (conj Vy (flt_le _ _ Py))) as [->|(_ & Fy & Sy)].
  - split; [done|by left].
  - destruct y as [[]|[]| |[] m e]; try done; (split; [done|by right]).
  - destruct x as [[]|[]| |[] m e]; try done; (split; [done|by right]).
  - specialize (Hpos y Vy Fy Py).
    destruct (rounds_nonneg (sv x * unit_sv) (sv y) (fdiv x y)) as [V H].
    + assert (0 < unit_sv) by fcomp. nia.
    + by apply fdiv_rounds.
    + split; [done|by right].
Qed.

Lemma recon_in01 s : input (MeterKwh s) -> input (MonitoredKwh s) -> in01 (recon_of s).
Proof.
  intros Hm Hr. unfold recon_of.
  destruct (HasMultiplier s && _ && _) eqn:E; [|by apply in01_const; fcomp]. zbool.
  destruct (fdiv_pos (MeterKwh s) (MonitoredKwh s)) as [V Hn]; [done..|].
  set (ratio := fdiv _ _) in *. cbv zeta.
  destruct (fltb ratio (lit 1 2)) eqn:E1.
  { destruct Hn as [Hn|Hn]; [destruct ratio; done|].
    apply clamp01_in01. eapply between_input.
    eapply (between_mul f0 f1 (lit 4 10) (lit 4 10) f0 f1); try fcomp.
    eapply (between_div f0 (lit 1 2) (lit 1 2) (lit 1 2) f0 f1); try fcomp.
    by apply lt_half_between. }
  destruct (fleb ratio f1) eqn:E2.
  { assert (between (lit 1 2) f1 ratio).
    { apply between_fle; [done..|]. split_and!; [done| |done].
      apply fltb_false; [by apply fle_not_nan in E2 as [? _]|done|done]. }
    eapply (between_add (lit 7 10) (lit 7 10) f0 (lit 3 10) f0 f1); try fcomp.
    apply part_mul; try fcomp.
    eapply (between_div f0 (lit 1 2) (lit 1 2) (lit 1 2) f0 f1); try fcomp.
    eapply (between_sub (lit 1 2) f1 (lit 1 2) (lit 1 2)); fcomp. }
  destruct (fleb ratio (of_Z 20)) eqn:E3; [apply in01_f1|].
  destruct (fleb ratio (of_Z 100)) eqn:E4; [|by apply in01_const; fcomp].
  assert (between (of_Z 20) (of_Z 100) ratio).
  { apply between_fle; [done..|]. split_and!; [done| |done].
    apply flt_le, fleb_false; [by apply fle_not_nan in E4 as [? _]|done|done]. }
  eapply (between_sub f1 f1 f0 (lit 1 2) f0 f1); try fcomp.
  apply part_mul; try fcomp.
  eapply (between_div f0 (of_Z 80) (of_Z 80) (of_Z 80) f0 f1); try fcomp.
  eapply (between_sub (of_Z 20) (of_Z 100) (of_Z 20) (of_Z 20)); fcomp.
Qed.

(** [math.Min 1 x] of a value that is not negative. *)
Lemma fmin_in01 a x : in01 a -> nonneg x -> in01 (fmin a x).
Proof.
  intros Ha Hx. pose proof (between_input _ _ _ Ha) as [Va Na].
  pose proof (nonneg_input _ Hx) as [Vx Nx]. pose proof (in01_fle _ Ha) as [La Ua].
  destruct Hx as [_ Lx].
  assert (fltb a x = false -> in01 x) as Hb.
  { intros E. apply between_fle; [done..|]. split_and!; [done|done|].
    eapply fle_trans; [by apply (fltb_false a x)|done]. }
  unfold fmin. destruct a as [sa|[]| |sa ma ea]; try done; destruct x as [sx|[]| |sx mx ex]; try done;
    first [by vm_compute in Lx | destruct sa; [done|by apply Hb] | destruct (fltb _ _) eqn:E; [done|by apply Hb]].
Qed.

Lemma nonneg_count z d : 0 <= z <= int64_max -> number (of_Z d) = true -> 0 < sv (of_Z d) ->
  nonneg (fdiv (of_Z z) (of_Z d)).
Proof.
  intros Hz Hn Hd. eapply nonneg_div; [|by apply between_const|done].
  eapply rounds_nonneg; [|apply of_Z_rounds]. assert (0 < unit_sv) by fcomp. nia.
Qed.

Lemma pkt_in01 s : 0 <= NBuckets s <= int64_max -> in_int64 (WindowPackets s) -> in01 (pkt_of s).
Proof.
  intros Hb Hp. unfold pkt_of.
  assert (in01 (fmin f1 (fdiv (of_Z (NBuckets s)) (of_Z 30)))) as H1.
  { apply fmin_in01; [apply in01_f1|]. by apply nonneg_count; try fcomp. }
  destruct (Z.ltb_spec 0 (WindowPackets s)); [|done].
  apply fmin_in01; [done|]. apply (nonneg_of_between f0 f1); [|fcomp].
  apply fmin_in01; [apply in01_f1|]. apply nonneg_count; [unfold in_int64 in Hp; lia|fcomp|fcomp].
Qed.

Lemma weights_bounds s :
  (forall v, RefCV s = Some v -> input v) -> in01 (weights s).1 /\ in01 (weights s).2.
Proof.
  intros Hcv. unfold weights.
  destruct (RefCV s) as [cv|]; [|split; apply in01_const; fcomp].
  destruct (fltb cv (lit 25 100)) eqn:E; [|split; apply in01_const; fcomp].
  destruct (Hcv cv eq_refl) as [V N]. cbn [fst snd].
  assert (between f0 wCorr (fmul wCorr (clamp01 (fdiv cv (lit 25 100))))) as Hw.
  { apply part_mul; try fcomp. apply clamp01_in01. destruct (fin cv) eqn:F.
    - assert (rounds (sv cv * unit_sv) (sv (lit 25 100)) (fdiv cv (lit 25 100))) as Hr
        by (apply fdiv_rounds; fcomp).
      split; [by destruct Hr|by eapply rounds_not_nan].
    - destruct cv as [|[]| |]; try done; vm_compute; done. }
  split.
  - eapply between_weaken; [| |exact Hw]; fcomp.
  - eapply (between_add wRecon wRecon f0 wCorr); try fcomp.
    eapply (between_sub wCorr wCorr f0 wCorr); fcomp.
Qed.

Lemma smoothstep_bounds lo hi x :
  in01 lo -> between f0 (of_Z 2) hi -> nonneg x -> between f0 (of_Z 3) (smoothstep lo hi x).
Proof.
  intros Hlo Hhi Hx. unfold smoothstep. destruct (fleb hi lo) eqn:E.
  - destruct (fleb hi x); (apply (between_weaken f0 f1); [fcomp|fcomp|]); [apply in01_f1|apply in01_f0].
  - pose proof (between_not_nan _ _ _ Hlo). pose proof (between_not_nan _ _ _ Hhi).
    assert (sv lo < sv hi) as Hlt.
    { destruct (Z.le_gt_cases (sv hi) (sv lo)) as [Hle|]; [exfalso|done].
      destruct Hlo as (V1 & F1 & _), Hhi as (V2 & F2 & _).
      apply (proj2 (sv_le hi lo V2 V1 F2 F1)) in Hle. unfold fle in Hle. congruence. }
    assert (between tiny (of_Z 2) (fsub hi lo)) as Hd by (eapply sub_pos; eauto; fcomp).
    assert (in01 (clamp01 (fdiv (fsub x lo) (fsub hi lo)))) as Ht.
    { apply clamp01_in01. destruct (nonneg_cases x Hx) as [->|(V & F & Sx)].
      - destruct Hlo as (_ & F1 & _), Hd as (_ & F2 & Sd & _).
        destruct lo as [|[]| |]; try done;
          (destruct (fsub hi _) as [|[]| |]; done).
      - destruct Hlo as (V1 & F1 & S1), Hd as (V2 & F2 & S2).
        assert (0 < sv (fsub hi lo)) by (assert (0 < sv tiny) by fcomp; lia).
        assert (fin (fsub x lo) = true /\ valid (fsub x lo) = true) as [? ?].
        { assert (between (fopp f1) x (fsub x lo)) as (? & ? & _); [|done].
          eapply (between_sub x x f0 f1); [by split_and!|done|fcomp|by apply number_spec| |].
          - change (sv (fopp f1)) with (- sv f1). change (sv f0) with 0. lia.
          - change (sv f0) with 0. lia. }
        assert (rounds (sv (fsub x lo) * unit_sv) (sv (fsub hi lo)) (fdiv (fsub x lo) (fsub hi lo))) as Hr
          by by apply fdiv_rounds.
        split; [by destruct Hr|by eapply rounds_not_nan]. }
    eapply (between_mul f0 f1 f1 (of_Z 3)); try fcomp; [by apply in01_mul|].
    eapply (between_sub (of_Z 3) (of_Z 3) f0 (of_Z 2)); try fcomp.
    eapply (between_mul (of_Z 2) (of_Z 2) f0 f1); fcomp.
Qed.

Section Bounds.
Context (Erfinv : float64 -> float64) (HE : erfinv_spec Erfinv).

Lemma abs_nonneg x : input x -> nonneg (fabs x).
Proof.
  intros [V N]. split; [by destruct x|]. destruct x as [[]|[]| |[] m e]; done.
Qed.

(** The capped critical correlation. *)
Lemma rStar_bounds (r : float64) : nonneg r ->
  between f0 (lit 95 100) (if fltb (lit 95 100) r then lit 95 100 else r).
Proof.
  intros Hr. destruct (fltb (lit 95 100) r) eqn:E.
  - apply (between_weaken (lit 95 100) (lit 95 100)); [fcomp|fcomp|by apply between_const].
  - pose proof (nonneg_input _ Hr) as [V N]. apply between_fle; [done..|].
    destruct Hr as [_ L]. split_and!; [done|done|]. by apply (fltb_false (lit 95 100) r).
Qed.

Lemma snoop_bounds r nb nc :
  (forall v, r = Some v -> input v) -> nb <= int64_max -> in_int64 nc ->
  between f0 (of_Z 3) (snoopFactor Erfinv r nb nc).
Proof.
  intros Hr Hb Hc. assert (between f0 (of_Z 3) f1) as H1 by (split_and!; fcomp).
  unfold snoopFactor. destruct r as [r|]; [|done]. destruct (Z.ltb_spec nb 4); [done|]. cbv zeta.
  set (k := if nc <? 1 then 1 else nc).
  assert (1 <= k <= int64_max) as Hk by (unfold k, in_int64, int64_min, int64_max in *; destruct (Z.ltb_spec nc 1); lia).
  assert (between f1 (of_Z (2 ^ 63)) (of_Z k)) as Bk by (apply (between_of_Z 1 int64_max); fcomp).
  assert (between f1 (of_Z (2 ^ 63)) (of_Z nb)) as Bn by (apply (between_of_Z 1 int64_max); [lia|fcomp..]).
  assert (between f0 (lit 5 100) (fdiv (lit 5 100) (of_Z k))) as Bp.
  { eapply (between_div (lit 5 100) (lit 5 100) f1 (of_Z (2 ^ 63))); fcomp. }
  assert (in01 (fsub f1 (fdiv (lit 5 100) (of_Z k)))) as Bq.
  { eapply (between_sub f1 f1 f0 (lit 5 100)); fcomp. }
  assert (between f1 (of_Z (2 ^ 32)) (fsqrt (of_Z nb))) as Bs.
  { eapply (between_sqrt f1 (of_Z (2 ^ 63))); fcomp. }
  assert (nonneg (fmul Sqrt2 (Erfinv (fsub f1 (fdiv (lit 5 100) (of_Z k)))))) as Hz.
  { apply (nonneg_mul Sqrt2 Sqrt2); [by apply between_const; fcomp|fcomp|by apply HE]. }
  assert (nonneg (fdiv (fmul Sqrt2 (Erfinv (fsub f1 (fdiv (lit 5 100) (of_Z k))))) (fsqrt (of_Z nb)))) as Hq
    by (eapply nonneg_div; [done|exact Bs|fcomp]).
  pose proof (rStar_bounds _ Hq) as Hs. set (rs := if _ : bool then _ else _) in *.
  apply smoothstep_bounds; [| |by apply abs_nonneg, Hr].
  - eapply (between_mul (lit 7 10) (lit 7 10) f0 (lit 95 100)); fcomp.
  - eapply (between_mul (lit 13 10) (lit 13 10) f0 (lit 95 100)); fcomp.
Qed.

(** One weighted component added to a partial sum. *)
Lemma base_step i j w x acc :
  number j = true -> 0 <= sv i -> sv i + sv f1 <= sv j ->
  between f0 i acc -> in01 w -> in01 x -> between f0 j (fadd acc (fmul w x)).
Proof.
  intros Nj Hi Hj Ha Hw Hx. eapply (between_add f0 i f0 f1); try done. by apply in01_mul.
Qed.

Lemma base_bounds w1 w2 w3 w4 w5 w6 x1 x2 x3 x4 x5 x6 :
  in01 w1 -> in01 w2 -> in01 w3 -> in01 w4 -> in01 w5 -> in01 w6 ->
  in01 x1 -> in01 x2 -> in01 x3 -> in01 x4 -> in01 x5 -> in01 x6 ->
  between f0 (of_Z 6)
    (w1 * x1 + w2 * x2 + w3 * x3 + w4 * x4 + w5 * x5 + w6 * x6)%f64.
Proof.
  intros. apply (base_step (of_Z 5)); [fcomp..| |done|done].
  apply (base_step (of_Z 4)); [fcomp..| |done|done]. apply (base_step (of_Z 3)); [fcomp..| |done|done].
  apply (base_step (of_Z 2)); [fcomp..| |done|done]. apply (base_step f1); [fcomp..| |done|done].
  by apply in01_mul.
Qed.

Lemma weight_in01 n d : number (lit n d) = true -> 0 <= sv (lit n d) -> sv (lit n d) <= sv f1 -> in01 (lit n d).
Proof. intros. by apply in01_const. Qed.

(** The average of two values, with weights that sum to one. *)
Lemma blend_in01 c1 c2 x y :
  number c1 = true -> number c2 = true -> 0 <= sv c1 -> 0 <= sv c2 -> sv c1 + sv c2 <= sv f1 ->
  in01 x -> in01 y -> in01 (c1 * x + c2 * y)%f64.
Proof.
  intros N1 N2 P1 P2 Hs Hx Hy.
  eapply (between_add f0 c1 f0 c2); [by apply part_mul|by apply part_mul|fcomp|fcomp|fcomp|done].
Qed.

(** The confidence without the cut of a physics violation. *)
Lemma combine_uncut s : good_signals s -> PhysicsViolation s = false -> in01 (combineConfidence Erfinv s).1.
Proof.
  intros G Hv. pose proof (weights_bounds s (gs_cv _ G)) as [Bwc Bwr].
  unfold combineConfidence. rewrite Hv. destruct (weights s) as [wc wr]. cbn [fst snd] in Bwc, Bwr. cbv zeta.
  match goal with |- context [fmul (fmul ?b ?l) ?sn] =>
    set (base := b); set (lag := l); set (snoop := sn) end.
  assert (in01 (clamped f0 (R s))) as Bc by (apply clamped_in01; [apply in01_f0|apply G]).
  assert (between f0 (of_Z 7) base) as Bb.
  { match goal with base := context [fadd (fadd _ _) (fmul wChange ?h)] |- _ =>
      match goal with base := context [fadd ?a (fmul wChange h)] |- _ => set (sum := fadd a (fmul wChange h)) in base end end.
    assert (between f0 (of_Z 6) sum) as B6.
    { apply base_bounds; try (by apply weight_in01; fcomp); try done.
      - apply clamped_in01; [by apply in01_mul|apply G].
      - exact (recon_in01 s (gs_meter _ G) (gs_monitored _ G)).
      - apply pkt_in01; [exact (gs_buckets _ G)|exact (gs_packets _ G)].
      - destruct (FloorOK s) as [[]|]; apply in01_const; fcomp.
      - apply clamped_in01; [apply in01_const; fcomp|apply G]. }
    unfold base. destruct (AnchorAgree s) as [a|] eqn:Ea;
      [|by apply (between_weaken f0 (of_Z 6)); [fcomp|fcomp|]].
    eapply (between_add f0 (of_Z 6) f0 f1); [| |fcomp..].
    - eapply (between_mul (lit 45 100) (lit 45 100) f0 (of_Z 6)); fcomp.
    - apply in01_mul; [apply weight_in01; fcomp|]. by apply clamp01_in01, (gs_anchor s). }
  assert (in01 (clamp01 (fmul (fmul base lag) snoop))) as Bconf.
  { apply clamp01_in01. eapply between_input.
    eapply (between_mul f0 (of_Z 7) f0 (of_Z 3) f0 (of_Z 21)); try fcomp.
    - eapply (between_mul f0 (of_Z 7) f0 f1); try fcomp.
      apply clamped_in01; [apply in01_f1|apply G].
    - apply snoop_bounds; [exact (gs_R _ G)|apply (gs_buckets _ G)|exact (gs_candidates _ G)]. }
  destruct (Physics s) as [p|] eqn:Ep; [|done]. cbn [fst].
  apply clamp01_in01. eapply between_input, blend_in01; try fcomp. by apply clamp01_in01, (gs_physics s).
Qed.

End Bounds.
(** ** [round _ 3] of a number of [[0, 1]] *)

Definition thousandth (N : Z) : float64 := fdiv (of_Z N) (of_Z 1000).

(** Three decimals: a whole number of thousandths (or a negative zero). *)
Lemma round3_grid K b x :
  0 <= K <= 1000 -> between f0 b x -> sv b * sv (of_Z 1000) <= sv (of_Z K) * unit_sv ->
  sv (of_Z K) = K * unit_sv -> number (of_Z K) = true ->
  exists N, 0 <= N <= K /\ (round x 3 = thousandth N \/ (N = 0 /\ round x 3 = S754_zero true)).
Proof.
  intros HK Hx Hb EK NK. unfold round. change (pow10 3) with (of_Z 1000). cbv zeta.
  assert (between f0 (of_Z K) (fmul x (of_Z 1000))) as (V & F & S0 & S1).
  { eapply (between_mul f0 b (of_Z 1000) (of_Z 1000)); try fcomp. }
  rewrite EK in S1. destruct (fround_grid K (fmul x (of_Z 1000))) as (N & HN & E); try done; [lia|].
  exists N. split; [done|]. destruct E as [->|[-> ->]]; [by left|by right].
Qed.

(** Every thousandth up to [K] is at most the last. *)
Lemma thousandth_le K N :
  forallb (fun i => fleb f0 (thousandth (Z.of_nat i)) && fleb (thousandth (Z.of_nat i)) (thousandth (Z.of_nat K)))
    (seq 0 (S K)) = true ->
  0 <= N <= Z.of_nat K -> fle f0 (thousandth N) /\ fle (thousandth N) (thousandth (Z.of_nat K)).
Proof.
  intros H HN. rewrite forallb_forall in H.
  specialize (H (Z.to_nat N)). rewrite in_seq, Z2Nat.id in H by lia.
  apply andb_true_iff, H. lia.
Qed.

Lemma round3_le K b x :
  (K <= 1000)%nat -> between f0 b x -> sv b * sv (of_Z 1000) <= sv (of_Z (Z.of_nat K)) * unit_sv ->
  sv (of_Z (Z.of_nat K)) = Z.of_nat K * unit_sv -> number (of_Z (Z.of_nat K)) = true ->
  forallb (fun i => fleb f0 (thousandth (Z.of_nat i)) && fleb (thousandth (Z.of_nat i)) (thousandth (Z.of_nat K)))
    (seq 0 (S K)) = true ->
  fle f0 (round x 3) /\ fle (round x 3) (thousandth (Z.of_nat K)).
Proof.
  intros HK Hx Hb EK NK Hall.
  destruct (round3_grid (Z.of_nat K) b x) as (N & HN & [->|[-> ->]]); try done; [lia|by apply thousandth_le|].
  split; [done|]. destruct (thousandth_le K 0 Hall ltac:(lia)) as [_ H0].
  eapply fle_trans; [|exact H0]. done.
Qed.

Lemma round3_in01 x : in01 x -> fle f0 (round x 3) /\ fle (round x 3) f1.
Proof. intros Hx. apply (round3_le 1000 f1 x); [lia|done|fcomp|by vm_compute|fcomp|by vm_compute]. Qed.

(** ** The lag search *)

Lemma lag_slices_range meter ref lag :
  Z.abs lag <= Z.of_nat (length meter) -> exists a b, lag_slices meter ref lag = Some (a, b).
Proof.
  intros H. unfold lag_slices. destruct (Z.leb_spec 0 lag).
  - destruct (Z.leb_spec lag (Z.of_nat (length meter))); [eauto|lia].
  - destruct (Z.leb_spec 0 (Z.of_nat (length meter) + lag)); [eauto|lia].
Qed.

(** [r] is at least the correlation at [lag], when that is a number. *)
Definition beats (meter ref : list float64) (r : float64) (lag : Z) : Prop :=
  forall a b, lag_slices meter ref lag = Some (a, b) ->
    is_nan (pearson a b) = true \/ fle (pearson a b) r.

(** Where the best correlation was found, or the start value. *)
Definition found_at (meter ref : list float64) (start best : Z * float64) (lo hi : Z) : Prop :=
  best = start \/
  (lo <= best.1 < hi /\ exists a b, lag_slices meter ref best.1 = Some (a, b) /\ best.2 = pearson a b).

Lemma lag_loop_best meter ref steps lag best :
  is_nan best.2 = false ->
  Z.abs lag <= Z.of_nat (length meter) -> Z.abs (lag + Z.of_nat steps - 1) <= Z.of_nat (length meter) ->
  exists best', lag_loop meter ref steps lag best = Some best' /\
    is_nan best'.2 = false /\ fle best.2 best'.2 /\
    (forall l, lag <= l < lag + Z.of_nat steps -> beats meter ref best'.2 l) /\
    found_at meter ref best best' lag (lag + Z.of_nat steps).
Proof.
  revert lag best. induction steps as [|k IH]; intros lag best Hn H1 H2.
  - exists best. split_and!; [done|done|by apply fle_refl|lia|by left].
  - destruct (lag_slices_range meter ref lag H1) as (a & b & E). cbn [lag_loop]. rewrite E. cbv zeta.
    set (best1 := if fltb best.2 (pearson a b) then (lag, pearson a b) else best).
    assert (is_nan best1.2 = false /\ fle best.2 best1.2 /\ beats meter ref best1.2 lag) as (Hn1 & Hle & Hb).
    { unfold best1, beats. destruct (fltb best.2 (pearson a b)) eqn:El; cbn [snd].
      - pose proof (flt_le _ _ El) as Hl. pose proof (fle_not_nan _ _ Hl) as [_ Hn'].
        split_and!; [done|done|]. intros a' b' E'. rewrite E in E'. simplify_eq. right. by apply fle_refl.
      - split_and!; [done|by apply fle_refl|]. intros a' b' E'. rewrite E in E'. simplify_eq.
        destruct (is_nan (pearson a' b')) eqn:En; [by left|right]. by apply fltb_false. }
    assert (k = O \/ Z.abs (lag + 1) <= Z.of_nat (length meter)) as [->|Hk] by lia.
    + exists best1. cbn [lag_loop]. split_and!; [done|done|done| |].
      * intros l Hl. by replace l with lag by lia.
      * unfold found_at, best1. destruct (fltb _ _); [right; cbn; split; [lia|eauto]|by left].
    + destruct (IH (lag + 1) best1 Hn1 Hk ltac:(lia)) as (best' & El & Hn' & Hle' & Hb' & Hf).
      exists best'. split_and!; [done|done|by eapply fle_trans| |].
      * intros l Hl. destruct (decide (l = lag)) as [->|]; [|apply Hb'; lia].
        intros a' b' E'. destruct (Hb a' b' E') as [|Hx]; [by left|right; by eapply fle_trans].
      * destruct Hf as [->|(Hr & Hx)]; [|right; split; [lia|done]].
        unfold found_at, best1. destruct (fltb _ _); [right; cbn; split; [lia|eauto]|by left].
Qed.

(** A lag wider than the series slices out of range. *)
Lemma crossCorrLag_short (meter ref : list float64) (maxLag : Z) :
  length meter = length ref -> (4 <= length meter)%nat -> Z.of_nat (length meter) < maxLag ->
  crossCorrLag meter ref maxLag = None.
Proof.
  intros Hlen Hn Hlt. unfold crossCorrLag. rewrite Hlen, Nat.eqb_refl, <- Hlen.
  destruct (Nat.ltb_spec (length meter) 4); [lia|]. cbn [negb orb].
  destruct (Z.to_nat (2 * maxLag + 1)) as [|k] eqn:Ek; [lia|]. cbn [lag_loop]. unfold lag_slices.
  destruct (Z.leb_spec 0 (- maxLag)); [lia|].
  destruct (Z.leb_spec 0 (Z.of_nat (length meter) + - maxLag)); [lia|done].
Qed.

(** Otherwise it succeeds, with the best lag. *)
Lemma crossCorrLag_ok (meter ref : list float64) (maxLag : Z) :
  length meter = length ref -> (4 <= length meter)%nat -> 0 <= maxLag <= Z.of_nat (length meter) ->
  exists lag r, crossCorrLag meter ref maxLag = Some (lag, r) /\
     - maxLag <= lag <= maxLag /\ is_nan r = false /\
     (forall l, - maxLag <= l <= maxLag -> beats meter ref r l) /\
     ((lag = 0 /\ r = f0) \/ exists a b, lag_slices meter ref lag = Some (a, b) /\ r = pearson a b).
Proof.
  intros Hlen Hn Hle. unfold crossCorrLag. rewrite Hlen, Nat.eqb_refl, <- Hlen.
    destruct (Nat.ltb_spec (length meter) 4); [lia|]. cbn [negb orb].
    destruct (lag_loop_best meter ref (Z.to_nat (2 * maxLag + 1)) (- maxLag) (0, fNegInf))
      as ([lag r] & -> & Hr & _ & Hb & Hf); [done|lia|lia|]. cbn [snd fst] in *.
    assert (forall l, - maxLag <= l <= maxLag -> beats meter ref r l) as Hb' by (intros; apply Hb; lia).
    destruct (is_inf_neg r) eqn:Ei.
    - exists 0, f0. split_and!; [done|lia|lia|done| |by left]. intros l Hl a b E.
      destruct (Hb' l Hl a b E) as [|Hx]; [by left|right]. eapply fle_trans; [done|]. by destruct r as [|[]| |].
    - exists lag, r. destruct Hf as [Hf|(Hl & a & b & E & Er)]; [by simplify_eq|].
      cbn [fst snd] in *. split_and!; [done|lia|lia|done|done|right; eauto].
Qed.

Lemma crossCorrLag_none (meter ref : list float64) (maxLag : Z) :
  length meter = length ref -> (4 <= length meter)%nat -> 0 <= maxLag ->
  crossCorrLag meter ref maxLag = None <-> Z.of_nat (length meter) < maxLag.
Proof.
  intros Hlen Hn Hm. split; [|by apply crossCorrLag_short].
  intros E. destruct (Z.le_gt_cases maxLag (Z.of_nat (length meter))) as [Hle|]; [|lia].
  destruct (crossCorrLag_ok meter ref maxLag Hlen Hn) as (? & ? & E' & _); [lia|congruence].
Qed.

(** The confidence, cut to a fifth by a physics violation. *)
Lemma combine_bounds (Erfinv : float64 -> float64) (s : confidenceSignals) :
  erfinv_spec Erfinv -> good_signals s ->
  between f0 (if PhysicsViolation s then lit 2 10 else f1) (combineConfidence Erfinv s).1.
Proof.
  intros HE G.
  set (s0 := mkSignals (R s) (R2 s) (HasMultiplier s) (MeterKwh s) (MonitoredKwh s) (FloorOK s) (WindowPackets s)
    (NBuckets s) (NCandidates s) (ChangePoint s) (LagPenalty s) (AnchorAgree s) (Physics s) false (RefCV s)).
  assert (good_signals s0) as G0 by (destruct G; by constructor).
  pose proof (combine_uncut Erfinv HE s0 G0 eq_refl) as H0.
  destruct (PhysicsViolation s) eqn:E.
  - replace (combineConfidence Erfinv s).1 with (fmul (combineConfidence Erfinv s0).1 (lit 2 10)).
    + eapply (between_mul f0 f1 (lit 2 10) (lit 2 10)); fcomp.
    + unfold combineConfidence. rewrite E. change (weights s0) with (weights s). by destruct (weights s).
  - replace (combineConfidence Erfinv s).1 with (combineConfidence Erfinv s0).1; [done|].
    unfold combineConfidence. rewrite E. change (weights s0) with (weights s). by destruct (weights s).
Qed.

(** The coherence of two finite rates. *)
Lemma changePoint_in01 windowRate baselineRate :
  number windowRate = true -> number baselineRate = true -> in01 (changePointCoherence windowRate baselineRate).
Proof.
  intros Nw Nb. unfold changePointCoherence.
  destruct (fleb windowRate f0) eqn:E1; [apply in01_f0|]. destruct (fleb baselineRate f0) eqn:E2; [apply in01_f1|].
  apply number_spec in Nw as [Vw Fw], Nb as [Vb Fb]. cbv zeta.
  apply clamp01_in01, input_add; [apply input_mul; [apply input_sub; [|fcomp]|fcomp|fcomp]|fcomp].
  apply fleb_false in E1; [|by destruct windowRate|done]. apply fleb_false in E2; [|by destruct baselineRate|done].
  apply (rounds_input (sv windowRate * unit_sv) (sv baselineRate)), fdiv_rounds; try done.
  by apply flt_sv.
Qed.

(** ** The properties *)

(** C30: For signals that are not NaN the composite confidence is a number of
    [[0, 1]]; a physics violation caps it at 0.2; the breakdown shows it rounded
    to three decimals, which is again in [[0, 1]].  [math.Erfinv] is assumed not
    NaN and not negative on [[0, 1]]. *)
Theorem combineConfidence_range (Erfinv : float64 -> float64) (s : confidenceSignals) :
  erfinv_spec Erfinv -> good_signals s ->
  let '(conf, parts) := combineConfidence Erfinv s in
  fle f0 conf /\ fle conf f1 /\
  (PhysicsViolation s = true -> fle conf (lit 2 10) /\ parts !! "physics" = Some f0) /\
  parts !! "confidence" = Some (round conf 3) /\
  fle f0 (round conf 3) /\ fle (round conf 3) f1.
Proof.
  intros HE G.
  pose proof (combine_bounds Erfinv s HE G) as Hc.
  assert (in01 (combineConfidence Erfinv s).1) as H1.
  { destruct (PhysicsViolation s); [|done]. eapply between_weaken; [| |exact Hc]; fcomp. }
  assert ((combineConfidence Erfinv s).2 !! "confidence" = Some (round (combineConfidence Erfinv s).1 3) /\
          (PhysicsViolation s = true -> (combineConfidence Erfinv s).2 !! "physics" = Some f0)) as [Hp Hv].
  { unfold combineConfidence. destruct (weights s). destruct (PhysicsViolation s); cbn [fst snd].
    - rewrite lookup_insert_eq, lookup_insert_ne, lookup_insert_eq by done. done.
    - rewrite lookup_insert_eq. done. }
  destruct (combineConfidence Erfinv s) as [conf parts]. cbn [fst snd] in *.
  pose proof (in01_fle _ H1) as [? ?]. pose proof (round3_in01 _ H1) as [? ?].
  split_and!; [done|done| |done|done|done]. intros Ev. rewrite Ev in Hc. split; [|by apply Hv].
  by apply (between_fle f0 (lit 2 10)) in Hc as (_ & _ & ?).
Qed.

(** The lag search over two series of equal length [n >= 4] fails with an
    index out of range exactly when [maxLag > n] (the callers only ensure
    [n >= 4] and ask for [maxLag = 5]); otherwise it returns a lag within
    [maxLag] whose correlation is at least the correlation at every other lag,
    or (0, 0) when no lag gives a number. *)
Theorem crossCorrLag_spec (meter ref : list float64) (maxLag : Z) :
  length meter = length ref -> (4 <= length meter)%nat -> 0 <= maxLag ->
  (crossCorrLag meter ref maxLag = None <-> Z.of_nat (length meter) < maxLag) /\
  (maxLag <= Z.of_nat (length meter) ->
   exists lag r, crossCorrLag meter ref maxLag = Some (lag, r) /\
     - maxLag <= lag <= maxLag /\ is_nan r = false /\
     (forall l, - maxLag <= l <= maxLag -> beats meter ref r l) /\
     ((lag = 0 /\ r = f0) \/ exists a b, lag_slices meter ref lag = Some (a, b) /\ r = pearson a b)).
Proof.
  intros Hlen Hn Hm.
  split; [by apply crossCorrLag_none|]. intros Hle. apply crossCorrLag_ok; [done|done|lia].
Qed.

(** A ramp against itself one bucket later: the best lag is found. *)
Definition ramp : list float64 := [of_Z 1; of_Z 4; of_Z 9; of_Z 2; of_Z 7; of_Z 5].

Lemma crossCorrLag_spec_witness :
  crossCorrLag (take 4 ramp) (take 4 ramp) 5 = None /\
  exists lag r, crossCorrLag ramp (drop 1 ramp ++ [of_Z 3]) 2 = Some (lag, r) /\ -2 <= lag <= 2.
Proof.
  split.
  - apply (proj1 (crossCorrLag_spec (take 4 ramp) (take 4 ramp) 5 eq_refl (le_n 4) ltac:(lia))). vm_compute; done.
  - destruct (proj2 (crossCorrLag_spec ramp (drop 1 ramp ++ [of_Z 3])%list 2 eq_refl ltac:(cbn; lia) ltac:(lia))
      ltac:(vm_compute; discriminate)) as (lag & r & E & Hl & _). exists lag, r. split; [exact E|exact Hl].
Defined.

Definition sample_signals : confidenceSignals :=
  mkSignals (Some (lit 8 10)) (Some (lit 6 10)) true (of_Z 24) (of_Z 10) (Some true) 400 48 12
    (Some (lit 3 4)) (Some f1) None (Some (lit 9 10)) true None.

Lemma combineConfidence_range_witness :
  fle (combineConfidence (fun _ => of_Z 2) sample_signals).1 (lit 2 10) /\
  fle f0 (combineConfidence (fun _ => of_Z 2) sample_signals).1.
Proof.
  assert (erfinv_spec (fun _ => of_Z 2)) as HE by (intros x _; split; reflexivity).
  assert (good_signals sample_signals) as G.
  { constructor; try (intros v E; cbn in E; first [discriminate E | injection E as <-; split; vm_compute; reflexivity]);
      try (split; vm_compute; reflexivity); cbn; unfold in_int64, int64_min, int64_max; lia. }
  pose proof (combineConfidence_range (fun _ => of_Z 2) sample_signals HE G) as H.
  destruct (combineConfidence (fun _ => of_Z 2) sample_signals) as [conf parts].
  destruct H as (H0 & _ & Hv & _). split; [apply (Hv eq_refl)|exact H0].
Defined.

(** The lag penalty of a lag within [maxLag] is a number of [[1/2, 1]]: a
    plausible delay is penalised but never zeroed; and the change-point
    coherence of two finite rates is a number of [[0, 1]]. *)
Theorem penalties_bounded (lag maxLag : Z) (windowRate baselineRate : float64) :
  Z.abs lag <= maxLag -> maxLag < 2 ^ 53 -> number windowRate = true -> number baselineRate = true ->
  fle (lit 1 2) (lagPenalty lag maxLag) /\ fle (lagPenalty lag maxLag) f1 /\
  fle f0 (changePointCoherence windowRate baselineRate) /\ fle (changePointCoherence windowRate baselineRate) f1.
Proof.
  intros Hl Hm Nw Nb. apply and_assoc. split.
  - unfold lagPenalty. destruct (Z.leb_spec maxLag 0); [done|]. cbv zeta.
    assert (exists z, 0 <= z <= maxLag /\ sv (fabs (of_Z lag)) = z * unit_sv /\ number (fabs (of_Z lag)) = true)
      as (z & Hz & Ez & Nz).
    { destruct (of_Z_abs lag) as [E N]; [lia|]. exists (Z.abs lag). split_and!; [lia|lia|done|done]. }
    destruct (of_Z_exact maxLag) as [NM EM]; [lia|]. assert (0 < unit_sv) by fcomp.
    assert (in01 (fdiv (fabs (of_Z lag)) (of_Z maxLag))) as Ha.
    { apply number_spec in Nz as [V F], NM as [V' F'].
      eapply rounds_between; [apply fdiv_rounds; try done; nia|done|done|].
      change (sv f0) with 0. change (sv f1) with unit_sv. nia. }
    assert (between (lit 1 2) f1 (fsub f1 (fmul (lit 1 2) (fdiv (fabs (of_Z lag)) (of_Z maxLag))))) as Hr.
    { eapply (between_sub f1 f1 f0 (lit 1 2)); try fcomp. apply part_mul; fcomp. }
    pose proof (clamp01_id _ _ Hr) as ->; [by apply (between_fle (lit 1 2) f1) in Hr as (_ & ? & ?)|fcomp].
  - by apply in01_fle, changePoint_in01.
Qed.

Lemma penalties_bounded_witness :
  fle (lit 1 2) (lagPenalty (-5) 5) /\ fle (changePointCoherence (of_Z 9) (of_Z 2)) f1.
Proof.
  destruct (penalties_bounded (-5) 5 (of_Z 9) (of_Z 2)) as (H & _ & _ & H'); [lia|lia|reflexivity|reflexivity|].
  split; [exact H|exact H'].
Defined.
