(* ===== verification/Windows.v ===== *)
(** * Test windows ([internal/db/windows.go])

    The methods on [test_windows].  The daily physics screen that
    [FreezeTestSnoopK] reads is an argument: its survivor count as a query on
    the database. *)

From S2P Require Import Prelude Float64 Model Calendar Store Database.

Record windowRow := mkWindowRow {
  wr_id : Z; wr_label : string; wr_start : time; wr_end : time;
  wr_knownLoadW : option float64; wr_knownEntity : option string; wr_snoopK : option Z
}.

(** [scanTest]: a row as the API type. *)
Definition scanTest (id : Z) (t : WindowRow) : TestWindow :=
  mkTestWindow id (tt_label t) (RFC3339Nano (tt_start_ts t)) (iso (tt_end_ts t))
    (tt_source t) (tt_known_load_w t) (tt_known_entity_id t).

Definition window_list (d : DB) : list (Z * WindowRow) := map_to_list (test_windows d).

Definition closed_row (source : string) (kv : Z * WindowRow) : option windowRow :=
  let '(id, t) := kv in
  match tt_end_ts t with
  | Some e => if is_empty source || (tt_source t =? source)%string
              then Some (mkWindowRow id (tt_label t) (tt_start_ts t) e (tt_known_load_w t)
                           (tt_known_entity_id t) (tt_snoop_k t))
              else None
  | None => None
  end.

Definition closedWindows (source : string) : M (list windowRow) :=
  query (fun d _ => sort_by (fun a b => wr_start a <=? wr_start b)
                      (omap (closed_row source) (window_list d))).

Definition SetTestSnoopK (id k : Z) : M unit :=
  exec (fun d _ =>
    set_test_windows (alter (fun t => mkWindow (tt_label t) (tt_start_ts t) (tt_end_ts t) (tt_source t)
      (tt_known_load_w t) (tt_known_entity_id t) (Some k)) id (test_windows d)) d).

(** [CreateTest]: the serial id, the row and its API form. *)
Definition CreateTest (label : string) (start : time) (fin : option time) (source : string)
    (knownLoadW : option float64) (knownEntity : option string) : M TestWindow :=
  statement (fun d _ =>
    let id := next_window_id d in
    let t := mkWindow label start fin source knownLoadW knownEntity None in
    Ok (scanTest id t, set_next_window_id (id + 1) (set_test_windows (<[id := t]> (test_windows d)) d))).

Definition GetTest (id : Z) : M TestWindow :=
  queryRow (fun d _ => scanTest id <$> test_windows d !! id).

(** The row with [end_ts] set, if it was NULL. *)
Definition end_row (fin : time) (t : WindowRow) : WindowRow :=
  match tt_end_ts t with
  | Some _ => t
  | None => mkWindow (tt_label t) (tt_start_ts t) (Some fin) (tt_source t)
              (tt_known_load_w t) (tt_known_entity_id t) (tt_snoop_k t)
  end.

Definition StopTest (id : Z) (fin : time) : M TestWindow :=
  ignore (exec (fun d _ => set_test_windows (alter (end_row fin) id (test_windows d)) d)) ;;
  GetTest id.

Definition ListTests : M (list TestWindow) :=
  query (fun d _ =>
    map (fun kv => scanTest kv.1 kv.2)
      (sort_by (fun a b => tt_start_ts b.2 <=? tt_start_ts a.2) (window_list d))).

Definition DeleteTest (id : Z) : M unit :=
  exec (fun d _ => set_test_windows (delete id (test_windows d)) d).

Definition is_open_from (source : string) (kv : Z * WindowRow) : Prop :=
  tt_end_ts kv.2 = None /\ tt_source kv.2 = source.
#[export] Instance is_open_from_dec source kv : Decision (is_open_from source kv).
Proof. unfold is_open_from. apply _. Defined.

(** [OpenWindow]: the latest running window of a source; an error is "none". *)
Definition OpenWindow (source : string) : M (option TestWindow) :=
  r ← try (queryRow (fun d _ =>
    (fun kv => scanTest kv.1 kv.2) <$>
      head (sort_by (fun a b => tt_start_ts b.2 <=? tt_start_ts a.2)
              (filter (is_open_from source) (window_list d)))));
  mret (match r with Ok t => Some t | Err _ => None end).

Section Freeze.
(** The survivor count of the daily screen; [None] when the screen is absent or
    its query fails. *)
Context (survivors : list string -> string -> DB -> time -> option Z).

Definition FreezeTestSnoopK (id : Z) (entities : list string) (tz : string) : M unit :=
  s ← try (query (survivors entities tz));
  match s with
  | Ok (Some n) => if n =? 0 then mret tt else ignore (SetTestSnoopK id n)
  | _ => mret tt
  end.
End Freeze.

(** ** Runs without faults *)

Lemma CreateTest_ok label start fin source load ent w :
  no_faults w ->
  let d := w_db w in
  let t := mkWindow label start fin source load ent None in
  CreateTest label start fin source load ent w =
    (Ok (scanTest (next_window_id d) t),
     mkWorld (set_next_window_id (next_window_id d + 1)
                (set_test_windows (<[next_window_id d := t]> (test_windows d)) d))
       (w_now w) (tail (w_faults w))).
Proof. intros H. unfold CreateTest. by step_ok. Qed.

Lemma StopTest_ok id fin w t :
  no_faults w -> test_windows (w_db w) !! id = Some t ->
  StopTest id fin w =
    (Ok (scanTest id (end_row fin t)),
     mkWorld (set_test_windows (<[id := end_row fin t]> (test_windows (w_db w))) (w_db w))
       (w_now w) (tail (tail (w_faults w)))).
Proof.
  intros H Ht. unfold StopTest, GetTest, queryRow, mbind, M_bind, ignore. do 2 step_ok.
  cbn [set_test_windows test_windows].
  assert (alter (end_row fin) id (test_windows (w_db w)) =
    <[id := end_row fin t]> (test_windows (w_db w))) as ->.
  { apply map_eq. intros j. destruct (decide (j = id)) as [->|].
    - by rewrite lookup_alter_eq, lookup_insert_eq, Ht.
    - by rewrite lookup_alter_ne, lookup_insert_ne by done. }
  rewrite lookup_insert_eq. done.
Qed.

Lemma DeleteTest_ok id w :
  no_faults w ->
  DeleteTest id w =
    (Ok tt, mkWorld (set_test_windows (delete id (test_windows (w_db w))) (w_db w))
              (w_now w) (tail (w_faults w))).
Proof. intros H. unfold DeleteTest. by step_ok. Qed.

(** ** Properties *)

(** A test window, once created, is read back with the values it was created
    with, under a fresh id; stopping it sets its end exactly once, so stopping a
    window twice keeps the first end; deleting it restores the table. *)
Theorem test_window_lifecycle label start fin1 fin2 source load ent w :
  no_faults w -> test_windows (w_db w) !! next_window_id (w_db w) = None ->
  exists id w1 w2 w3 w4,
    CreateTest label start None source load ent w =
      (Ok (mkTestWindow id label (RFC3339Nano start) None source load ent), w1) /\
    StopTest id fin1 w1 =
      (Ok (mkTestWindow id label (RFC3339Nano start) (Some (RFC3339Nano fin1)) source load ent), w2) /\
    StopTest id fin2 w2 =
      (Ok (mkTestWindow id label (RFC3339Nano start) (Some (RFC3339Nano fin1)) source load ent), w3) /\
    DeleteTest id w3 = (Ok tt, w4) /\ test_windows (w_db w4) = test_windows (w_db w).
Proof.
  intros Hf Hn. exists (next_window_id (w_db w)).
  rewrite CreateTest_ok by nofault. do 4 eexists. split; [reflexivity|].
  erewrite (StopTest_ok _ fin1); [|nofault|apply lookup_insert_eq].
  split; [reflexivity|].
  erewrite (StopTest_ok _ fin2); [|nofault|apply lookup_insert_eq].
  split; [reflexivity|]. rewrite DeleteTest_ok by nofault. split; [reflexivity|].
  cbn. rewrite !insert_insert_eq. by rewrite delete_insert_id.
Qed.

Lemma test_window_lifecycle_witness :
  exists id w1 w2 w3 w4,
    CreateTest "dryer" 0 None "manual" None None (mkWorld empty_DB 0 []) =
      (Ok (mkTestWindow id "dryer" (RFC3339Nano 0) None "manual" None None), w1) /\
    StopTest id Hour w1 =
      (Ok (mkTestWindow id "dryer" (RFC3339Nano 0) (Some (RFC3339Nano Hour)) "manual" None None), w2) /\
    StopTest id Minute w2 =
      (Ok (mkTestWindow id "dryer" (RFC3339Nano 0) (Some (RFC3339Nano Hour)) "manual" None None), w3) /\
    DeleteTest id w3 = (Ok tt, w4) /\
    test_windows (w_db w4) = test_windows (w_db (mkWorld empty_DB 0 [])).
Proof.
  apply (test_window_lifecycle "dryer" 0 Hour Minute "manual" None None (mkWorld empty_DB 0 [])).
  - constructor.
  - reflexivity.
Defined.
