(* ===== verification/AutoWindow.v ===== *)
(** * The auto-window detector of the worker ([cmd/worker/main.go])

    [autoDecide] is the pure open/close policy on one power sample; [autoWindow]
    runs it against the [test_windows] table.  Every statement error the code
    discards is discarded here. *)

From S2P Require Import Prelude Float64 Model Calendar Store Database Windows.

Record autoState := mkAuto {
  inited : bool;
  baseline : float64;
  dev : float64;
  open : bool;
  openID : Z;
  openedAt : time;
  lastClosedAt : time
}.
Definition new_auto : autoState := mkAuto false f0 f0 false 0 zero_time zero_time.

Definition autoMaxDuration : duration := 15 * Minute.
Definition autoMinDuration : duration := 3 * Minute.
Definition autoCooldown : duration := 5 * Minute.
Definition autoBaselineA : float64 := lit 2 100.
Definition autoDevA : float64 := lit 5 100.

Inductive autoAction := autoNone | autoOpen | autoClose | autoDiscard.

Definition set_levels (b dv : float64) (aw : autoState) : autoState :=
  mkAuto (inited aw) b dv (open aw) (openID aw) (openedAt aw) (lastClosedAt aw).

Definition autoDecide (aw : autoState) (power openDelta : float64) (now : time)
  : autoAction * autoState :=
  let openDelta := if (openDelta <=? f0)%f64 then of_Z 400 else openDelta in
  if negb (open aw) then
    let dv := (dev aw * lit 95 100 + fabs (power - baseline aw) * autoDevA)%f64 in
    let b := (baseline aw * lit 98 100 + power * autoBaselineA)%f64 in
    let aw := set_levels b dv aw in
    if (b + fmax openDelta (of_Z 3 * dv) <=? power)%f64
       && (autoCooldown <=? Sub now (lastClosedAt aw))
    then (autoOpen, aw) else (autoNone, aw)
  else
    if (power <? baseline aw + fmax (openDelta * lit 1 2) (lit 3 2 * dev aw))%f64
       || (autoMaxDuration <=? Sub now (openedAt aw))
    then if Sub now (openedAt aw) <? autoMinDuration then (autoDiscard, aw) else (autoClose, aw)
    else (autoNone, aw).

(** [now.Format("15:04")]. *)
Definition hour_minute (t : time) : string :=
  let s := t mod Day / Second in (pad2 (s / 3600) ++ ":" ++ pad2 (s / 60 mod 60))%string.

Definition opened (id : Z) (at_ : time) (aw : autoState) : autoState :=
  mkAuto (inited aw) (baseline aw) (dev aw) true id at_ (lastClosedAt aw).
Definition closed (at_ : time) (aw : autoState) : autoState :=
  mkAuto (inited aw) (baseline aw) (dev aw) false (openID aw) (openedAt aw) at_.

Section Worker.
(** [time.Parse] with the RFC 3339 layout, the daily screen's survivor count,
    and the configured entities and zone. *)
Context (Parse : string -> option time)
        (survivors : list string -> string -> DB -> time -> option Z)
        (entities : list string) (tz : string).

(** First sample: adopt a window a previous process left open. *)
Definition autoInit (power : float64) (aw : autoState) : M autoState :=
  if inited aw then mret aw
  else
    nw ← now;
    o ← OpenWindow "auto";
    let aw := match o with
              | Some t => opened (tw_ID t) (from_opt nw (Parse (tw_StartTS t))) aw
              | None => aw
              end in
    mret (mkAuto true power (dev aw) (open aw) (openID aw) (openedAt aw) (lastClosedAt aw)).

Definition autoWindow (power openDelta : float64) (on : bool) (aw : autoState) : M autoState :=
  nw ← now;
  aw ← autoInit power aw;
  if negb on then
    if open aw then
      ignore (StopTest (openID aw) nw) ;; NotifyTests ;; mret (closed nw aw)
    else mret aw
  else
    let '(act, aw) := autoDecide aw power openDelta nw in
    match act with
    | autoNone => mret aw
    | autoOpen =>
        let step := fround (power - baseline aw)%f64 in
        t ← try (CreateTest ("auto load " ++ hour_minute nw)%string nw None "auto" (Some step) None);
        match t with
        | Ok t => NotifyTests ;; mret (opened (tw_ID t) nw aw)
        | Err _ => mret aw
        end
    | autoClose =>
        ignore (StopTest (openID aw) nw) ;;
        FreezeTestSnoopK survivors (openID aw) entities tz ;;
        NotifyTests ;; mret (closed nw aw)
    | autoDiscard =>
        ignore (DeleteTest (openID aw)) ;; NotifyTests ;; mret (closed nw aw)
    end.
End Worker.

(** ** Lemmas *)

(** The windows of the detector: open, of source [auto]. *)
Definition auto_open (t : WindowRow) : Prop := tt_end_ts t = None /\ tt_source t = "auto".

Definition ids_fresh (d : DB) : Prop :=
  forall id t, test_windows d !! id = Some t -> id < next_window_id d.

(** The detector and the table agree: the detector's window is the only open
    auto window, and it is there from [openedAt] on. *)
Record auto_inv (aw : autoState) (d : DB) : Prop := {
  ai_only : forall id t, test_windows d !! id = Some t -> auto_open t ->
              open aw = true /\ id = openID aw;
  ai_row : open aw = true -> exists t, test_windows d !! openID aw = Some t /\ auto_open t /\
              tt_start_ts t = openedAt aw;
  ai_fresh : ids_fresh d
}.

Lemma auto_inv_levels b dv aw d : auto_inv aw d -> auto_inv (set_levels b dv aw) d.
Proof. by intros []. Qed.

Lemma auto_inv_notify c m aw d : auto_inv aw d -> auto_inv aw (notified c m d).
Proof. by intros []. Qed.

Lemma auto_inv_insert aw d t nw :
  open aw = false -> auto_open t -> tt_start_ts t = nw -> auto_inv aw d ->
  auto_inv (opened (next_window_id d) nw aw)
    (set_next_window_id (next_window_id d + 1)
       (set_test_windows (<[next_window_id d := t]> (test_windows d)) d)).
Proof.
  intros Ho Ht Hs [H1 _ H3]. split.
  - intros id t' Hl Ha. cbn in *. apply lookup_insert_Some in Hl as [[<- _]|[_ Hl]]; [done|].
    destruct (H1 id t' Hl Ha). congruence.
  - intros _. cbn. exists t. by rewrite lookup_insert_eq.
  - intros id t' Hl. cbn in *. apply lookup_insert_Some in Hl as [[<- _]|[_ Hl]]; [lia|].
    specialize (H3 id t' Hl). lia.
Qed.

(** Ending or deleting the detector's row closes the detector. *)
Lemma auto_inv_close aw d ts nw :
  auto_inv aw d ->
  (forall id t, ts !! id = Some t -> auto_open t -> id <> openID aw /\ test_windows d !! id = Some t) ->
  (forall id, is_Some (ts !! id) -> is_Some (test_windows d !! id)) ->
  auto_inv (closed nw aw) (set_test_windows ts d).
Proof.
  intros [H1 _ H3] Hts Hdom. split; cbn.
  - intros id t Hl Ha. destruct (Hts id t Hl Ha) as [Hne Hd]. by destruct (H1 id t Hd Ha).
  - done.
  - intros id t Hl. cbn in *. destruct (Hdom id) as [t' Ht']; [by exists t|]. by apply (H3 id t').
Qed.

Lemma auto_inv_stop aw d t nw :
  auto_inv aw d -> test_windows d !! openID aw = Some t -> auto_open t ->
  auto_inv (closed nw aw) (set_test_windows (<[openID aw := end_row nw t]> (test_windows d)) d).
Proof.
  intros Hi Ht [He _]. apply auto_inv_close; [done|..].
  - intros id t' Hl [Hn _]. apply lookup_insert_Some in Hl as [[<- <-]|[Hne Hl]]; [|by split].
    unfold end_row in Hn. by rewrite He in Hn.
  - intros id [t' Hl]. apply lookup_insert_Some in Hl as [[<- _]|[_ Hl]]; by eexists.
Qed.

Lemma auto_inv_delete aw d nw :
  auto_inv aw d -> auto_inv (closed nw aw) (set_test_windows (delete (openID aw) (test_windows d)) d).
Proof.
  intros Hi. apply auto_inv_close; [done|..].
  - intros id t' Hl _. by apply lookup_delete_Some in Hl as [? ?].
  - intros id [t' Hl]. apply lookup_delete_Some in Hl as [_ ?]. by eexists.
Qed.

Lemma auto_inv_alter aw d f id :
  (forall t, tt_end_ts (f t) = tt_end_ts t /\ tt_source (f t) = tt_source t /\ tt_start_ts (f t) = tt_start_ts t) ->
  auto_inv aw d -> auto_inv aw (set_test_windows (alter f id (test_windows d)) d).
Proof.
  intros Hf [H1 H2 H3]. unfold auto_open in *. split; cbn.
  - intros j t Hl [Hn Hs]. apply lookup_alter_Some in Hl as [(-> & t0 & Hl & ->)|[_ Hl]]; [|by apply (H1 j t)].
    destruct (Hf t0) as (E1 & E2 & _). apply (H1 j t0); [done|]. split; congruence.
  - intros Ho. destruct (H2 Ho) as (t & Hl & [Hn Hs] & Hst).
    destruct (decide (openID aw = id)) as [<-|Hne].
    + exists (f t). rewrite lookup_alter_eq, Hl. destruct (Hf t) as (E1 & E2 & E3). unfold auto_open. cbn.
      split_and!; congruence.
    + exists t. rewrite lookup_alter_ne by done. done.
  - intros j t Hl. cbn in *. apply lookup_alter_Some in Hl as [(-> & t0 & Hl & _)|[_ Hl]]; by eapply H3.
Qed.

Lemma NotifyTests_ok w :
  no_faults w ->
  NotifyTests w = (Ok tt, mkWorld (notified "winnow_tests" "" (w_db w)) (w_now w) (tail (w_faults w))).
Proof. intros H. unfold NotifyTests, pg_notify, ignore. by step_ok. Qed.

Section Invariant.
Context (Parse : string -> option time)
        (survivors : list string -> string -> DB -> time -> option Z)
        (entities : list string) (tz : string).

(** Freezing the snooping pool keeps the agreement and injects no fault. *)
Lemma Freeze_inv id aw w :
  no_faults w -> auto_inv aw (w_db w) ->
  exists w', FreezeTestSnoopK survivors id entities tz w = (Ok tt, w') /\
    no_faults w' /\ w_now w' = w_now w /\ auto_inv aw (w_db w').
Proof.
  intros Hf Hi. unfold FreezeTestSnoopK, mbind, M_bind, try. step_ok.
  destruct (survivors entities tz (w_db w) (w_now w)) as [n|].
  - destruct (n =? 0).
    + eexists. split_and!; [reflexivity|nofault|done|done].
    + unfold ignore, SetTestSnoopK. step_ok. eexists. split_and!; [reflexivity|nofault|done|].
      by apply auto_inv_alter.
  - eexists. split_and!; [reflexivity|nofault|done|done].
Qed.

(** Closing the detector's own window. *)
Lemma Stop_inv aw w nw :
  no_faults w -> auto_inv aw (w_db w) -> open aw = true ->
  exists w', ignore (StopTest (openID aw) nw) w = (Ok tt, w') /\
    no_faults w' /\ w_now w' = w_now w /\ auto_inv (closed nw aw) (w_db w').
Proof.
  intros Hf Hi Ho. destruct (ai_row _ _ Hi Ho) as (t & Ht & Ha & _).
  unfold ignore. rewrite (StopTest_ok _ nw w t) by done.
  eexists. split_and!; [reflexivity|nofault|done|]. by apply auto_inv_stop.
Qed.

(** Before the first sample: no window is the detector's, and at most one auto
    window was left open. *)
Definition auto_pre (aw : autoState) (d : DB) : Prop :=
  if inited aw then auto_inv aw d
  else open aw = false /\ ids_fresh d /\
    forall i t j u, test_windows d !! i = Some t -> test_windows d !! j = Some u ->
      auto_open t -> auto_open u -> i = j.

(** The start texts of the stored windows parse back to their instants. *)
Definition parses_back (d : DB) : Prop :=
  forall id t, test_windows d !! id = Some t -> Parse (RFC3339Nano (tt_start_ts t)) = Some (tt_start_ts t).

Lemma OpenWindow_ok source w :
  no_faults w ->
  exists o, OpenWindow source w = (Ok o, mkWorld (w_db w) (w_now w) (tail (w_faults w))) /\
    match o with
    | Some tw => exists id t, test_windows (w_db w) !! id = Some t /\ is_open_from source (id, t) /\
                   tw = scanTest id t
    | None => forall id t, test_windows (w_db w) !! id = Some t -> is_open_from source (id, t) -> False
    end.
Proof.
  intros Hf. unfold OpenWindow, queryRow, mbind, M_bind, try. step_ok.
  set (l := filter (is_open_from source) (window_list (w_db w))).
  pose proof (head_sort_by (fun a b => tt_start_ts b.2 <=? tt_start_ts a.2) l) as Hh.
  destruct (head (sort_by _ l)) as [[id t]|]; cbn; eexists; (split; [reflexivity|]).
  - apply list_elem_of_filter in Hh as [Ho Hl]. apply elem_of_map_to_list in Hl. by exists id, t.
  - intros id t Hl Ho. assert ((id, t) ∈ l) as Hin.
    { apply list_elem_of_filter. split; [done|]. by apply elem_of_map_to_list. }
    rewrite Hh in Hin. by apply not_elem_of_nil in Hin.
Qed.

Lemma autoInit_inv power aw w :
  parses_back (w_db w) -> no_faults w -> auto_pre aw (w_db w) ->
  exists aw' w', autoInit Parse power aw w = (Ok aw', w') /\ no_faults w' /\ w_now w' = w_now w /\
    inited aw' = true /\ auto_inv aw' (w_db w').
Proof.
  intros HP Hf Hpre. unfold autoInit, auto_pre in *. destruct (inited aw) eqn:Ei.
  { exists aw, w. by split_and!. }
  destruct Hpre as (Ho & Hfr & Hone). unfold mbind at 1, M_bind, now.
  unfold mbind at 1, M_bind. destruct (OpenWindow_ok "auto" w Hf) as (o & -> & Hspec).
  eexists _, _. split; [reflexivity|]. split; [nofault|]. split; [done|]. split; [done|].
  destruct o as [tw|].
  - destruct Hspec as (id & t & Hl & Hop & ->). cbn -[RFC3339Nano]. rewrite (HP id t Hl). cbn.
    split; cbn; [|intros _; by exists t|done].
    intros j u Hj Hu. split; [done|]. by apply (Hone j u id t).
  - split; cbn; [|congruence|done]. intros id t Hl Ha. by destruct (Hspec id t Hl Ha).
Qed.

(** What the decision promises. *)
Lemma autoDecide_spec aw power openDelta nw :
  let '(act, aw') := autoDecide aw power openDelta nw in
  (exists b dv, aw' = set_levels b dv aw) /\
  match act with
  | autoOpen => open aw = false /\ autoCooldown <= Sub nw (lastClosedAt aw)
  | autoClose => open aw = true /\ autoMinDuration <= Sub nw (openedAt aw) /\ aw' = aw
  | autoDiscard => open aw = true /\ Sub nw (openedAt aw) < autoMinDuration /\ aw' = aw
  | autoNone => open aw = true -> Sub nw (openedAt aw) < autoMaxDuration /\ aw' = aw
  end.
Proof.
  assert (aw = set_levels (baseline aw) (dev aw) aw) as Eaw by (by destruct aw).
  unfold autoDecide. destruct (open aw) eqn:Eo; cbn [negb].
  - destruct (_ || _) eqn:E; [destruct (Sub nw (openedAt aw) <? autoMinDuration) eqn:Em|];
      (split; [eauto|]); zbool; auto.
  - cbv zeta. destruct (_ && _) eqn:E; (split; [eauto|]); [|congruence].
    cbn [set_levels lastClosedAt] in E. zbool. auto.
Qed.

Lemma autoWindow_run power openDelta on aw w :
  parses_back (w_db w) -> no_faults w -> auto_pre aw (w_db w) ->
  exists aw' w', autoWindow Parse survivors entities tz power openDelta on aw w = (Ok aw', w') /\
    inited aw' = true /\ auto_inv aw' (w_db w') /\
    (on = false -> open aw' = false) /\
    (open aw' = true -> Sub (w_now w) (openedAt aw') < autoMaxDuration).
Proof.
  intros HP Hf Hpre. unfold autoWindow. unfold mbind at 1, M_bind at 1, now at 1.
  unfold mbind at 1, M_bind at 1.
  destruct (autoInit_inv power aw w HP Hf Hpre) as (aw1 & w1 & -> & Hf1 & Hn & Hin & Hi).
  set (nw := w_now w) in *.
  assert (forall aw2 w2, no_faults w2 -> auto_inv aw2 (w_db w2) -> inited aw2 = true -> open aw2 = false ->
    exists aw' w', (NotifyTests ;; mret aw2) w2 = (Ok aw', w') /\ inited aw' = true /\
      auto_inv aw' (w_db w') /\ (on = false -> open aw' = false) /\
      (open aw' = true -> Sub nw (openedAt aw') < autoMaxDuration)) as Hend.
  { intros aw2 w2 H2 I2 N2 O2. unfold mbind, M_bind. rewrite NotifyTests_ok by done.
    exists aw2. eexists. split; [reflexivity|]. split_and!; [done|by apply auto_inv_notify|done|congruence]. }
  destruct on; cbn [negb].
  - pose proof (autoDecide_spec aw1 power openDelta nw) as Hd.
    destruct (autoDecide aw1 power openDelta nw) as [act aw2]. destruct Hd as ((b & dv & ->) & Hd).
    destruct act.
    + exists (set_levels b dv aw1), w1. split; [done|]. split_and!; [done|by apply auto_inv_levels|done|].
      intros Ho. by destruct (Hd Ho) as [? _].
    + destruct Hd as [Ho Hc]. unfold mbind at 1, M_bind at 1, try. rewrite CreateTest_ok by done.
      unfold mbind, M_bind. rewrite NotifyTests_ok by nofault.
      eexists _, _. split; [reflexivity|]. split_and!; [done| |done|].
      * apply auto_inv_notify. cbn [w_db tw_ID scanTest]. by apply auto_inv_insert; [..|apply auto_inv_levels].
      * intros _. cbn [openedAt opened]. unfold Sub, autoMaxDuration. rewrite Z.sub_diag. done.
    + destruct Hd as (Ho & _ & ->). unfold mbind at 1, M_bind at 1.
      destruct (Stop_inv aw1 w1 nw Hf1 Hi Ho) as (w2 & -> & Hf2 & _ & Hi2).
      unfold mbind at 1, M_bind at 1.
      destruct (Freeze_inv (openID aw1) _ w2 Hf2 Hi2) as (w3 & -> & Hf3 & _ & Hi3).
      by apply Hend.
    + destruct Hd as (Ho & _ & ->). unfold mbind at 1, M_bind at 1, ignore. rewrite DeleteTest_ok by done.
      apply Hend; [nofault| |done|done]. by apply auto_inv_delete.
  - destruct (open aw1) eqn:Ho.
    + unfold mbind at 1, M_bind at 1.
      destruct (Stop_inv aw1 w1 nw Hf1 Hi Ho) as (w2 & -> & Hf2 & _ & Hi2). by apply Hend.
    + exists aw1, w1. split_and!; (done || congruence).
Qed.
End Invariant.

(** A layout under which the witnesses' instants parse back. *)
Definition parse_text (s : string) : option time :=
  if (s =? RFC3339Nano 0)%string then Some 0 else None.

(** An open auto window at the cap, with its row. *)
Definition capped : autoState := mkAuto true f0 f0 true 7 0 zero_time.
Definition capped_DB : DB :=
  set_next_window_id 8
    (set_test_windows {[7 := mkWindow "auto load" 0 None "auto" None None None]} empty_DB).
Lemma capped_DB_row id t : test_windows capped_DB !! id = Some t ->
  id = 7 /\ t = mkWindow "auto load" 0 None "auto" None None None.
Proof. unfold capped_DB. cbn. intros [<- <-]%lookup_singleton_Some. done. Qed.
Definition no_screen (es : list string) (z : string) (d : DB) (t : time) : option Z := None.

(** ** Properties *)

(** The open/close policy: a window opens only while none is open and at
    least five minutes after the last close; an open window past fifteen minutes
    is always closed; a close that keeps the window as evidence is at least
    three minutes after its opening, a shorter one is discarded; while a window
    is open the baseline and the noise estimate do not move. *)
Theorem autoDecide_policy (aw : autoState) (power openDelta : float64) (nw : time) :
  let '(act, aw') := autoDecide aw power openDelta nw in
  (act = autoOpen -> open aw = false /\ autoCooldown <= Sub nw (lastClosedAt aw)) /\
  (act = autoClose -> open aw = true /\ autoMinDuration <= Sub nw (openedAt aw)) /\
  (act = autoDiscard -> open aw = true /\ Sub nw (openedAt aw) < autoMinDuration) /\
  (open aw = true -> autoMaxDuration <= Sub nw (openedAt aw) -> act = autoClose) /\
  (open aw = true -> aw' = aw).
Proof.
  pose proof (autoDecide_spec aw power openDelta nw) as H.
  destruct (autoDecide aw power openDelta nw) as [act aw']. destruct H as [_ H].
  destruct act; split_and!; intros; try discriminate; try tauto;
    try (destruct H as [H _]; congruence);
    unfold autoMaxDuration, autoMinDuration, Minute, Second in *;
    first [lia | destruct H as [? ?]; [assumption|lia]].
Qed.

(** C1: While no statement fails, every sample keeps the detector and the
    [test_windows] table in agreement, whatever the power values (they agree when
    the process starts with at most one auto window left open, and stay so while
    nobody else closes or deletes the detector's window): the detector's window is the
    only open auto window (so at most one is ever open), a window a previous
    process left open is adopted on the first sample, no window is open past the
    fifteen-minute cap, and turning the feature off closes the window. *)
Theorem autoWindow_invariant (Parse : string -> option time)
    (survivors : list string -> string -> DB -> time -> option Z) (entities : list string) (tz : string)
    (power openDelta : float64) (on : bool) (aw : autoState) (w : World) :
  parses_back Parse (w_db w) -> no_faults w -> auto_pre aw (w_db w) ->
  exists aw' w', autoWindow Parse survivors entities tz power openDelta on aw w = (Ok aw', w') /\
    auto_pre aw' (w_db w') /\
    (forall id t, test_windows (w_db w') !! id = Some t -> auto_open t ->
       open aw' = true /\ id = openID aw' /\ Sub (w_now w) (tt_start_ts t) < autoMaxDuration) /\
    (on = false -> open aw' = false).
Proof.
  intros HP Hf Hpre.
  destruct (autoWindow_run Parse survivors entities tz power openDelta on aw w HP Hf Hpre)
    as (aw' & w' & E & Hin & Hi & Hoff & Hcap).
  exists aw', w'. split_and!; [done| |..]; [unfold auto_pre; by rewrite Hin| |done].
  intros id t Hl Ha. destruct (ai_only _ _ Hi id t Hl Ha) as [Ho ->].
  destruct (ai_row _ _ Hi Ho) as (t' & Hl' & _ & Hs). split_and!; [done|done|].
  assert (t = t') as -> by congruence. rewrite Hs. by apply Hcap.
Qed.

Lemma autoWindow_invariant_witness :
  exists aw' w', autoWindow parse_text no_screen [] "UTC" (of_Z 100) (of_Z 400) true new_auto
      (mkWorld capped_DB Minute []) = (Ok aw', w') /\ auto_pre aw' (w_db w').
Proof.
  destruct (autoWindow_invariant parse_text no_screen [] "UTC" (of_Z 100) (of_Z 400) true new_auto
    (mkWorld capped_DB Minute [])) as (aw' & w' & E & Hp & _).
  - intros id t Hl. destruct (capped_DB_row id t Hl) as [_ ->]. reflexivity.
  - constructor.
  - split; [reflexivity|]. split.
    + intros id t Hl. destruct (capped_DB_row id t Hl) as [-> _]. reflexivity.
    + intros i t j u Hi Hj _ _. destruct (capped_DB_row i t Hi) as [-> _].
      by destruct (capped_DB_row j u Hj) as [-> _].
  - exists aw', w'. by split.
Defined.

Lemma nan_ops x y : is_nan x = true ->
  is_nan (fadd x y) = true /\ is_nan (fadd y x) = true /\ is_nan (fmul x y) = true /\ fleb x y = false.
Proof. destruct x; try done. destruct y as [[]|[]| |[]]; done. Qed.

(** One sample that is not a number (Home Assistant states such as "nan"
    parse) switches the detector off: the baseline becomes NaN while no window is
    open and stays NaN after every later sample, and no window is ever opened
    again until the worker restarts. *)
Theorem autoDecide_nan_sticks (aw : autoState) (power openDelta : float64) (nw : time) :
  open aw = false -> is_nan power = true \/ is_nan (baseline aw) = true ->
  let '(act, aw') := autoDecide aw power openDelta nw in
  act = autoNone /\ is_nan (baseline aw') = true /\ open aw' = false.
Proof.
  intros Ho Hn. unfold autoDecide. rewrite Ho. cbn [negb].
  assert (is_nan (baseline aw * lit 98 100 + power * autoBaselineA)%f64 = true) as Hb.
  { destruct Hn as [Hn|Hn].
    - destruct (nan_ops power autoBaselineA Hn) as (_ & _ & Hm & _).
      exact (proj1 (proj2 (nan_ops _ _ Hm))).
    - destruct (nan_ops _ (lit 98 100) Hn) as (_ & _ & Hm & _). exact (proj1 (nan_ops _ _ Hm)). }
  cbv zeta. set (b := (baseline aw * lit 98 100 + power * autoBaselineA)%f64) in *.
  match goal with |- context [(b + ?m <=? power)%f64] => set (mm := m) end.
  destruct (nan_ops b mm Hb) as (Ha & _). destruct (nan_ops _ power Ha) as (_ & _ & _ & ->).
  cbn [andb]. by split_and!.
Qed.

Lemma autoDecide_nan_sticks_witness :
  let '(act, aw') := autoDecide new_auto fNaN (of_Z 400) 0 in
  act = autoNone /\ is_nan (baseline aw') = true /\ open aw' = false.
Proof. apply (autoDecide_nan_sticks new_auto fNaN (of_Z 400) 0); [reflexivity|left; reflexivity]. Defined.

(** The duration cap relies on [StopTest]: its error is discarded, so when
    the [UPDATE] fails at the cap the detector considers the window closed while
    its row stays open, and no later sample of this process ends it. *)
Theorem autoWindow_orphans_on_fault (Parse : string -> option time) (entities : list string) (tz : string) :
  exists aw' w', autoWindow Parse no_screen entities tz (of_Z 100) (of_Z 400) true capped
      (mkWorld capped_DB (20 * Minute) [true]) = (Ok aw', w') /\
    open aw' = false /\
    (exists t, test_windows (w_db w') !! 7 = Some t /\ auto_open t) /\
    (exists aw'' w'', autoWindow Parse no_screen entities tz (of_Z 100) (of_Z 400) true aw'
        (mkWorld (w_db w') (60 * Minute) []) = (Ok aw'', w'') /\
      open aw'' = false /\ exists t, test_windows (w_db w'') !! 7 = Some t /\ auto_open t).
Proof.
  do 2 eexists. split; [vm_compute; reflexivity|]. split; [reflexivity|].
  split; [eexists; split; [reflexivity|by split]|].
  do 2 eexists. split; [vm_compute; reflexivity|]. split; [reflexivity|].
  eexists; split; [reflexivity|by split].
Qed.
