(* ===== verification/Meters.v ===== *)
(** * Meters and their series ([internal/db/meters.go], [series.go], [overview.go])

    The annotations of a meter, the leaderboard, the publish set, the latest
    values and the chart series.  Where SQL leaves an order open the rows come in
    the order of their keys or of insertion. *)

From S2P Require Import Prelude Float64 Model Calendar Json Ert Config Store Database Deltas.

(** ** Annotations *)

Record MeterUpdate := mkUpdate {
  mu_Label : option string; mu_Notes : option string; mu_IsCandidate : option bool;
  mu_IsMine : option bool; mu_Ignored : option bool; mu_Publish : option bool;
  mu_PubName : option string; mu_PubMultiplier : option float64; mu_PubUnit : option string
}.
Definition no_update : MeterUpdate := mkUpdate None None None None None None None None None.

(** [x != nil && *x] *)
Definition is_set (b : option bool) : bool := match b with Some b => b | None => false end.

(** The annotation row scanned into a [Meter]; the defaults when there is none. *)
Definition meter_of_row (id : Z) (row : option MeterRow) : Meter :=
  match row with
  | None => mkMeter id "" None "" 0 f0 0 "" "" None None None None false false false false None f1 None
  | Some x =>
      mkMeter id "" None "" 0 f0 0 "" "" None None (mr_label x) (mr_notes x)
        (is_set (mr_is_candidate x)) (is_set (mr_is_mine x)) (is_set (mr_ignored x))
        (is_set (mr_publish x)) (mr_pub_name x) (from_opt f1 (mr_pub_multiplier x)) (mr_pub_unit x)
  end.

(** [GetMeter]: any error of the query is read as "no row". *)
Definition GetMeter (id : Z) : M Meter :=
  r ← try (queryRow (fun d _ => meters d !! id));
  mret (meter_of_row id (match r with Ok x => Some x | Err _ => None end)).

Definition with_index (m : Meter) (x : IndexRow) : Meter :=
  mkMeter (m_EndpointID m) (ix_msg_type x) (ix_endpoint_type x)
    (match ix_endpoint_type x with Some _ => Commodity (ix_endpoint_type x) | None => m_Commodity m end)
    (ix_packets x) (m_PacketsPerHour m) (m_Sources m)
    (RFC3339 (ix_first_seen x)) (RFC3339 (ix_last_seen x)) (ix_last_consumption x) (m_TotalMovement m)
    (m_Label m) (m_Notes m) (m_IsCandidate m) (m_IsMine m) (m_Ignored m) (m_Publish m)
    (m_PubName m) (m_PubMultiplier m) (m_PubUnit m).

Definition MeterInfo (id : Z) : M Meter :=
  m ← GetMeter id;
  r ← try (queryRow (fun d _ => meter_index d !! id));
  mret (match r with Ok x => with_index m x | Err _ => m end).

(** One assignment of the [UPDATE]. *)
Definition upd {A} (new : option A) (old : option A) : option A :=
  match new with Some v => Some v | None => old end.
Definition update_row (f : MeterUpdate) (x : MeterRow) : MeterRow :=
  mkMeterRow (upd (mu_Label f) (mr_label x)) (upd (mu_Notes f) (mr_notes x))
    (upd (mu_IsCandidate f) (mr_is_candidate x)) (upd (mu_IsMine f) (mr_is_mine x))
    (upd (mu_Ignored f) (mr_ignored x)) (upd (mu_Publish f) (mr_publish x))
    (upd (mu_PubName f) (mr_pub_name x)) (upd (mu_PubMultiplier f) (mr_pub_multiplier x))
    (upd (mu_PubUnit f) (mr_pub_unit x)).
(** [len(sets) > 0]. *)
Definition has_sets (f : MeterUpdate) : bool :=
  negb (is_nil (mu_Label f) && is_nil (mu_Notes f) && is_nil (mu_IsCandidate f)
        && is_nil (mu_IsMine f) && is_nil (mu_Ignored f) && is_nil (mu_Publish f)
        && is_nil (mu_PubName f) && is_nil (mu_PubMultiplier f) && is_nil (mu_PubUnit f)).

Definition UpdateMeter (id : Z) (f : MeterUpdate) : M Meter :=
  exec (fun d _ => match meters d !! id with
                   | Some _ => d
                   | None => set_meters (<[id := default_MeterRow]> (meters d)) d
                   end) ;;
  (if has_sets f
   then exec (fun d _ => set_meters (alter (update_row f) id (meters d)) d) else mret tt) ;;
  GetMeter id.

Definition DeleteMeter (id : Z) (purge : bool) : M unit :=
  exec (fun d _ => set_meters (delete id (meters d)) d) ;;
  if purge then
    exec (fun d _ => set_readings (filter (fun rr => r_EndpointID rr.1 <> id) (readings d)) d) ;;
    exec (fun d _ => set_meter_index (delete id (meter_index d)) d) ;;
    exec (fun d _ => set_meter_source (filter (fun kv => kv.1.1 <> id) (meter_source d)) d)
  else mret tt.

(** [MyMeter]: mine first, then labeled candidates, the smallest endpoint. *)
Definition my_candidate (kv : Z * MeterRow) : bool :=
  let x := kv.2 in
  negb (is_set (mr_ignored x)) &&
  (is_set (mr_is_mine x) || (is_set (mr_is_candidate x) && negb (is_nil (mr_label x)))).
(** [ORDER BY is_mine DESC, endpoint_id]: NULL sorts first in a descending order. *)
Definition mine_rank (x : MeterRow) : Z :=
  match mr_is_mine x with None => 0 | Some true => 1 | Some false => 2 end.
Definition my_le (a b : Z * MeterRow) : bool :=
  if mine_rank a.2 =? mine_rank b.2 then a.1 <=? b.1 else mine_rank a.2 <? mine_rank b.2.
Definition MyMeter : M (option Meter) :=
  r ← try (queryRow (fun d _ =>
    head (sort_by my_le (List.filter my_candidate (map_to_list (meters d))))));
  mret (match r with
        | Ok (id, x) =>
            Some (mkMeter id "" None "" 0 f0 0 "" "" None None (mr_label x) (mr_notes x)
                    (is_set (mr_is_candidate x)) (is_set (mr_is_mine x)) false
                    (is_set (mr_publish x)) (mr_pub_name x)
                    (from_opt f1 (mr_pub_multiplier x)) (mr_pub_unit x))
        | Err _ => None
        end).

(** ** The publish set *)

Definition publish_row (d : DB) (kv : Z * MeterRow) : option Meter :=
  let '(id, x) := kv in
  match mr_publish x with
  | Some true =>
      let ix := meter_index d !! id in
      let et := ix ≫= ix_endpoint_type in
      Some (mkMeter id (match ix with Some r => ix_msg_type r | None => "" end) et
              (Commodity et) 0 f0 0 "" "" None None None None false false false true
              (mr_pub_name x) (from_opt f1 (mr_pub_multiplier x)) (mr_pub_unit x))
  | _ => None
  end.
Definition MetersForPublish : M (list Meter) :=
  query (fun d _ => omap (publish_row d) (map_to_list (meters d))).

Definition RecordPublishOK (id : Z) : M unit :=
  exec (fun d t => set_publish_status (<[id := mkPubStatus (Some t) None (Some t)]> (publish_status d)) d).
Definition RecordPublishError (id : Z) (msg : string) : M unit :=
  exec (fun d t =>
    let prev := match publish_status d !! id with Some s => LastPublishTS s | None => None end in
    set_publish_status (<[id := mkPubStatus prev (Some msg) (Some t)]> (publish_status d)) d).
Definition PublishStatuses : M (gmap Z PubStatus) :=
  r ← try (query (fun d _ => publish_status d));
  mret (match r with Ok m => m | Err _ => ∅ end).

(** ** Latest values *)

(** Newest first. *)
Definition newest_first (l : list Reading) : list Reading :=
  sort_by (fun a b => r_TS b <=? r_TS a) l.
Definition with_consumption (id : Z) (d : DB) : list (time * float64) :=
  omap (fun r => option_map (fun c => (r_TS r, c)) (r_Consumption r)) (newest_first (readings_of id d)).

Definition MeterReadings (id : Z) (since until : option time) : M (list Reading) :=
  query (fun d _ =>
    sort_by (fun a b => r_TS a <=? r_TS b)
      (List.filter (fun r => (match since with Some s => s <=? r_TS r | None => true end)
                        && (match until with Some u => r_TS r <=? u | None => true end))
         (readings_of id d))).

Definition SignalPerHour (id : Z) : M float64 :=
  r ← try (query (fun d t =>
    Z.of_nat (length (filter (fun r => t - Hour <= r_TS r) (readings_of id d)))));
  mret (of_Z (match r with Ok n => n | Err _ => 0 end)).

Definition LatestMsgType (id : Z) : M (string * bool) :=
  r ← try (queryRow (fun d _ => r_MsgType <$> head (newest_first (readings_of id d))));
  mret (match r with Ok s => (s, true) | Err _ => ("", false) end).

Definition LatestReading (id : Z) : M (option (time * float64)) :=
  r ← try (queryRow (fun d _ => head (with_consumption id d)));
  mret (match r with Ok v => Some v | Err _ => None end).

(** Power from the two latest values: counts per hour, scaled. *)
Definition derive_power (multiplier : float64) (l : list (time * float64)) : option float64 :=
  match l with
  | (t0, c0) :: (t1, c1) :: _ =>
      let dh := Hours (Sub t0 t1) in
      if (dh <=? f0)%f64 then None else Some ((c0 - c1) / dh * multiplier)%f64
  | _ => None
  end.
Definition DerivedPower (id : Z) (multiplier : float64) : M (option float64) :=
  r ← try (query (fun d _ => take 2 (with_consumption id d)));
  mret (match r with Ok l => derive_power multiplier l | Err _ => None end).

(** ** The leaderboard *)

Record LeaderboardOpts := mkOpts {
  lo_Since : option time; lo_Until : option time; lo_MsgType : string;
  lo_ElectricOnly : bool; lo_IncludeIgnored : bool; lo_TrackedOnly : bool; lo_PublishedOnly : bool
}.

Section Charts.
Context (time_bucket : duration -> time -> time).

Definition in_window (o : LeaderboardOpts) (b : time) : bool :=
  (match lo_Since o with Some s => s <=? b | None => true end)
  && (match lo_Until o with Some u => b <=? u | None => true end).

(** The rows of [win]: packets, first and last minute of a meter in the window. *)
Definition win_row (o : LeaderboardOpts) (id : Z) (d : DB) : option (Z * time * time) :=
  match List.filter (fun a => in_window o (ag_bucket a)) (agg_rows time_bucket Minute id d) with
  | [] => None
  | a :: l =>
      Some (foldr (fun r n => ag_n r + n) 0 (a :: l),
            foldr (fun r t => Z.min (ag_bucket r) t) (ag_bucket a) l,
            foldr (fun r t => Z.max (ag_bucket r) t) (ag_bucket a) l)
  end.

Definition leader_row (o : LeaderboardOpts) (d : DB) (id : Z) : option Meter :=
  match win_row o id d, meter_index d !! id with
  | Some (packets, first, last), Some ix =>
      if negb (is_empty (lo_MsgType o)) && negb (ix_msg_type ix =? lo_MsgType o)%string then None
      else
        let x := meters d !! id in
        let flag f := match x with Some r => is_set (f r) | None => false end in
        let hours := Hours (Sub last first) in
        let hours := if (hours <=? f0)%f64 then lit 1 3600 else hours in
        let m := mkMeter id (ix_msg_type ix) (ix_endpoint_type ix) (Commodity (ix_endpoint_type ix))
                   packets (round (of_Z packets / hours)%f64 2)
                   (Z.of_nat (size (filter (fun kv => kv.1.1 = id) (meter_source d))))
                   (RFC3339Nano first) (RFC3339Nano last) (ix_last_consumption ix)
                   (sql_sum (map hr_delta (hourly_deltas time_bucket (in_window o) id d)))
                   (x ≫= mr_label) (x ≫= mr_notes) (flag mr_is_candidate) (flag mr_is_mine)
                   (flag mr_ignored) (flag mr_publish) (x ≫= mr_pub_name)
                   (from_opt f1 (x ≫= mr_pub_multiplier)) (x ≫= mr_pub_unit) in
        if negb (lo_IncludeIgnored o) && m_Ignored m then None
        else if lo_TrackedOnly o && negb (m_IsMine m) then None
        else if lo_PublishedOnly o && negb (m_Publish m) then None
        else if lo_ElectricOnly o && negb (m_Commodity m =? "electric")%string then None
        else Some m
  | _, _ => None
  end.

(** Descending movement, stable. *)
Definition movement_le (a b : Meter) : bool :=
  negb (deref (m_TotalMovement a) <? deref (m_TotalMovement b))%f64.

Definition endpoints (d : DB) : list Z := sorted_Z (map (fun rr => r_EndpointID rr.1) (readings d)).

Definition Leaderboard (o : LeaderboardOpts) : M (list Meter) :=
  query (fun d _ => sort_by movement_le (omap (leader_row o d) (endpoints d))).

(** ** Chart series *)

(** Packets of one meter in a time range, for the buckets of a chart. *)
Definition in_range (since until : option time) (t : time) : bool :=
  (match since with Some s => s <=? t | None => true end)
  && (match until with Some u => t <=? u | None => true end).
Definition ranged (since until : option time) (d : DB) : DB :=
  set_readings (List.filter (fun rr => in_range since until (r_TS rr.1)) (readings d)) d.
Definition chart_rows (w : duration) (id : Z) (d : DB) : list (time * float64 * Z) :=
  map (fun a => (ag_bucket a, ag_max a, ag_n a)) (agg_rows time_bucket w id d).

Definition MeterSeries (id : Z) (since until : option time) (bucket : string) : M Series :=
  points ← query (fun d _ =>
    map (fun p => mkPoint (RFC3339Nano p.1) (Some p.2)) (rev (with_consumption id (ranged since until d))));
  mt ← LatestMsgType id;
  let modulus := counterModulus mt.1 in
  deltas ← query (fun d _ =>
    map (fun x => mkBucket (RFC3339Nano x.1.1) x.2 x.1.2)
      (meter_deltas modulus (chart_rows (bucketInterval bucket) id (ranged since until d))));
  mret (mkSeries id bucket points deltas).

Record MultiSeriesPoint := mkMSP { msp_Bucket : string; msp_Value : float64 }.

(** The plotted values of one meter: NULL, reset and no-movement buckets omitted. *)
Definition plotted (l : list (time * option float64)) : list MultiSeriesPoint :=
  omap (fun x => match x.2 with
                 | Some v => if (v <=? f0)%f64 then None else Some (mkMSP (RFC3339Nano x.1) v)
                 | None => None
                 end) l.
Definition multi_rows (mode : string) (w : duration) (id : Z) (d : DB) : list (time * option float64) :=
  if (mode =? "cumulative")%string
  then map (fun r => (r.1.1, Some r.1.2)) (chart_rows w id d)
  else match meter_index d !! id with
       | None => []
       | Some x => map (fun r => (r.1.1, r.2))
                     (meter_deltas (counterModulus (ix_msg_type x)) (chart_rows w id d))
       end.
Definition MultiSeries (ids : list Z) (since until : option time) (bucket mode : string)
  : M (gmap string (list MultiSeriesPoint)) :=
  match ids with
  | [] => mret ∅
  | _ => query (fun d _ =>
      fold_left (fun m id =>
        match plotted (multi_rows mode (bucketInterval bucket) id (ranged since until d)) with
        | [] => m
        | l => <[FormatInt id := l]> m
        end) (sorted_Z ids) ∅)
  end.
End Charts.

(** ** Lemmas *)

Lemma GetMeter_ok id w :
  no_faults w ->
  GetMeter id w = (Ok (meter_of_row id (meters (w_db w) !! id)),
                   mkWorld (w_db w) (w_now w) (tail (w_faults w))).
Proof.
  intros H. unfold GetMeter, queryRow, mbind, M_bind, try. step_ok.
  by destruct (meters (w_db w) !! id).
Qed.

Lemma update_row_no_sets f x : has_sets f = false -> update_row f x = x.
Proof.
  destruct f as [[] [] [] [] [] [] [] [] []]; cbn; try done. by destruct x.
Qed.

(** The rows after [UpdateMeter]: created with the defaults if missing, then
    assigned. *)
Definition updated_meters (id : Z) (f : MeterUpdate) (ms : gmap Z MeterRow) : gmap Z MeterRow :=
  <[id := update_row f (from_opt default_MeterRow (ms !! id))]> ms.

Lemma UpdateMeter_ok id f w :
  no_faults w ->
  exists w', UpdateMeter id f w =
    (Ok (meter_of_row id (Some (update_row f (from_opt default_MeterRow (meters (w_db w) !! id))))), w') /\
    meters (w_db w') = updated_meters id f (meters (w_db w)) /\ no_faults w'.
Proof.
  intros H. unfold UpdateMeter, mbind at 1, M_bind at 1. step_ok.
  set (d1 := match meters (w_db w) !! id with Some _ => _ | None => _ end).
  assert (meters d1 = <[id := from_opt default_MeterRow (meters (w_db w) !! id)]> (meters (w_db w))) as Hd1.
  { unfold d1. destruct (meters (w_db w) !! id) eqn:E; cbn; [by rewrite insert_id|done]. }
  unfold updated_meters. destruct (has_sets f) eqn:Hs.
  - unfold mbind at 1, M_bind at 1. step_ok. rewrite GetMeter_ok by nofault. cbn [w_db set_meters meters].
    assert (alter (update_row f) id (meters d1) =
      <[id := update_row f (from_opt default_MeterRow (meters (w_db w) !! id))]> (meters (w_db w))) as ->.
    { rewrite Hd1. apply map_eq. intros j. destruct (decide (j = id)) as [->|].
      - by rewrite lookup_alter_eq, !lookup_insert_eq.
      - by rewrite lookup_alter_ne, !lookup_insert_ne by done. }
    rewrite lookup_insert_eq. eexists. split_and!; [reflexivity|done|nofault].
  - unfold mbind at 1, M_bind at 1, mret at 1, M_ret at 1. rewrite GetMeter_ok by nofault.
    cbn [w_db]. rewrite Hd1, lookup_insert_eq, update_row_no_sets by done.
    eexists. split_and!; [reflexivity|done|nofault].
Qed.

Lemma update_row_fields f x :
  let y := update_row f x in
  mr_label y = upd (mu_Label f) (mr_label x) /\ mr_publish y = upd (mu_Publish f) (mr_publish x).
Proof. done. Qed.

Lemma unless_inv {A} (b : bool) (k : option A) (x : A) : (if b then None else k) = Some x -> b = false /\ k = Some x.
Proof. by destruct b. Qed.
Lemma leader_row_filters tb o d id m :
  leader_row tb o d id = Some m ->
  m_EndpointID m = id /\ is_Some (meter_index d !! id) /\
  (lo_MsgType o = "" \/ m_MsgType m = lo_MsgType o) /\
  (lo_IncludeIgnored o = true \/ m_Ignored m = false) /\
  (lo_TrackedOnly o = true -> m_IsMine m = true) /\
  (lo_PublishedOnly o = true -> m_Publish m = true) /\
  (lo_ElectricOnly o = true -> m_Commodity m = "electric").
Proof.
  unfold leader_row. destruct (win_row tb o id d) as [[[p f] l]|]; [|done].
  destruct (meter_index d !! id) as [ix|]; [|done]. cbv zeta.
  match goal with |- context [Some ?m'] => set (mm := m') end.
  assert (m_EndpointID mm = id /\ m_MsgType mm = ix_msg_type ix) as [Hid Hmt] by done. clearbody mm.
  intros (H1 & (H2 & (H3 & (H4 & (H5 & [= <-])%unless_inv)%unless_inv)%unless_inv)%unless_inv)%unless_inv.
  unfold is_empty in H1. split_and!; [done|by eexists|..]; try (intros E; rewrite E in *; cbn [negb andb] in * ).
  - destruct (String.eqb_spec (lo_MsgType o) "") as [E|_]; [by left|right]. cbn [negb andb] in H1.
    apply negb_false_iff, String.eqb_eq in H1. congruence.
  - destruct (lo_IncludeIgnored o); [by left|by right].
  - by apply negb_false_iff in H3.
  - by apply negb_false_iff in H4.
  - by apply negb_false_iff, String.eqb_eq in H5.
Qed.

(** ** Properties *)

(** [UpdateMeter] changes exactly the supplied fields of exactly this meter:
    a missing row is first created with the column defaults, a field that was not
    supplied keeps its value, no other meter changes, and the returned meter is
    the stored row. *)
Theorem UpdateMeter_partial (id : Z) (f : MeterUpdate) (w : World) :
  no_faults w ->
  exists m w', UpdateMeter id f w = (Ok m, w') /\
    let old := from_opt default_MeterRow (meters (w_db w) !! id) in
    m = meter_of_row id (meters (w_db w') !! id) /\
    (forall j, j <> id -> meters (w_db w') !! j = meters (w_db w) !! j) /\
    exists y, meters (w_db w') !! id = Some y /\
      mr_label y = upd (mu_Label f) (mr_label old) /\
      mr_notes y = upd (mu_Notes f) (mr_notes old) /\
      mr_is_candidate y = upd (mu_IsCandidate f) (mr_is_candidate old) /\
      mr_is_mine y = upd (mu_IsMine f) (mr_is_mine old) /\
      mr_ignored y = upd (mu_Ignored f) (mr_ignored old) /\
      mr_publish y = upd (mu_Publish f) (mr_publish old) /\
      mr_pub_name y = upd (mu_PubName f) (mr_pub_name old) /\
      mr_pub_multiplier y = upd (mu_PubMultiplier f) (mr_pub_multiplier old) /\
      mr_pub_unit y = upd (mu_PubUnit f) (mr_pub_unit old).
Proof.
  intros H. destruct (UpdateMeter_ok id f w H) as (w' & E & Hm & _).
  eexists _, w'. split; [exact E|]. cbv zeta. rewrite Hm. unfold updated_meters.
  rewrite lookup_insert_eq. split; [done|].
  split; [intros j Hj; by rewrite lookup_insert_ne|]. eexists. split; [reflexivity|]. done.
Qed.

Lemma UpdateMeter_partial_witness :
  exists m w', UpdateMeter 42 no_update (mkWorld empty_DB 0 []) = (Ok m, w').
Proof.
  destruct (UpdateMeter_partial 42 no_update (mkWorld empty_DB 0 [])) as (m & w' & E & _).
  - constructor.
  - by exists m, w'.
Defined.

(** The leaderboard is sorted by total movement, largest first, lists only
    meters of the registry, each once, and every listed meter passes every
    filter of the request. *)
Theorem Leaderboard_sorted_filtered (time_bucket : duration -> time -> time) (o : LeaderboardOpts) (w : World) :
  no_faults w ->
  exists out, fst (Leaderboard time_bucket o w) = Ok out /\
    Sorted (fun a b => movement_le a b = true) out /\
    NoDup (map m_EndpointID out) /\
    Forall (fun m => is_Some (meter_index (w_db w) !! m_EndpointID m) /\
      (lo_MsgType o = "" \/ m_MsgType m = lo_MsgType o) /\
      (lo_IncludeIgnored o = true \/ m_Ignored m = false) /\
      (lo_TrackedOnly o = true -> m_IsMine m = true) /\
      (lo_PublishedOnly o = true -> m_Publish m = true) /\
      (lo_ElectricOnly o = true -> m_Commodity m = "electric")) out.
Proof.
  intros H. unfold Leaderboard. step_ok. eexists. split; [reflexivity|].
  set (d := w_db w). set (rows := omap (leader_row time_bucket o d) (endpoints d)).
  assert (forall m, m ∈ rows -> exists id, id ∈ endpoints d /\ leader_row time_bucket o d id = Some m) as Hrows
    by (intros m Hm; by apply list_elem_of_omap in Hm).
  split_and!.
  - apply sort_by_sorted. intros a b. unfold movement_le.
    destruct (deref (m_TotalMovement a) <? deref (m_TotalMovement b))%f64 eqn:E1; [|by left].
    destruct (deref (m_TotalMovement b) <? deref (m_TotalMovement a))%f64 eqn:E2; [|by right].
    exfalso. apply (flt_not_fle _ _ E1). by apply flt_le.
  - rewrite sort_by_perm.
    assert (NoDup (endpoints d)) as Hnd
      by (unfold endpoints, sorted_Z, distinct_Z; rewrite sort_by_perm; apply NoDup_elements).
    unfold rows. clear Hrows rows. induction Hnd as [|id l Hid Hnd IH]; cbn; [constructor|].
    destruct (leader_row time_bucket o d id) as [m|] eqn:E; [|done]. cbn. constructor; [|done].
    intros (m' & Em & Hm')%list_elem_of_fmap. apply list_elem_of_omap in Hm' as (j & Hj & Ej).
    apply leader_row_filters in E as [<- _]. apply leader_row_filters in Ej as [<- _]. by rewrite Em in Hid.
  - apply Forall_forall. intros m Hm.
    assert (m ∈ rows) as (id & _ & E)%Hrows by (by rewrite <- (sort_by_perm movement_le rows)).
    apply leader_row_filters in E as [<- Hf]. exact Hf.
Qed.

Lemma Leaderboard_sorted_filtered_witness :
  exists out, fst (Leaderboard floor_bucket (mkOpts None None "SCM" true false false false)
    (mkWorld two_hours_DB 0 [])) = Ok out.
Proof.
  destruct (Leaderboard_sorted_filtered floor_bucket (mkOpts None None "SCM" true false false false)
    (mkWorld two_hours_DB 0 [])) as (out & E & _).
  - constructor.
  - by exists out.
Defined.
