(* ===== verification/Publish.v ===== *)
(** * Publishing to Home Assistant ([internal/mqtt/mqtt.go], [cmd/worker/main.go])

    Discovery payloads, the publisher, and the worker's notification dispatch.
    The paho client is represented by the connection state it reports and the
    messages it takes: it refuses those given to [Publish] while it reports no
    connection ([ErrNotConnected]), and the token with the error is not looked at.
    [%g] formatting of a float is a parameter. *)

From S2P Require Import Prelude Float64 Model Calendar Json Config Store Database Meters.

Definition availabilityTopic : string := "winnow/status".

Record DiscoveryMsg := mkDiscovery { Topic : string; Payload : json }.

Definition deviceID (id : Z) : string := "winnow_" ++ FormatInt id.
Definition stateTopic (id : Z) (kind : string) : string := "winnow/" ++ FormatInt id ++ "/" ++ kind.

(** The sensors of a meter: kind, name, device class, state class, unit. *)
Record sensor := mkSensor {
  sn_kind : string; sn_nameSuffix : string; sn_deviceClass : string;
  sn_stateClass : string; sn_unit : string
}.
Definition sensors (unit : string) : list sensor :=
  [mkSensor "energy" "Energy" "energy" "total_increasing" unit;
   mkSensor "power" "Power" "power" "measurement" "W";
   mkSensor "signal" "Signal" "" "measurement" "pkt/h"].

Definition opt_member (k v : string) : list (string * json) :=
  if is_empty v then [] else [(k, JStr v)].

(** The payload as a JSON object (the keys of a Go map, unordered). *)
Definition BuildDiscovery (prefix : string) (m : Meter) : list DiscoveryMsg :=
  let dev := deviceID (m_EndpointID m) in
  let nm := match m_PubName m with Some n => if is_empty n then dev else n | None => dev end in
  let device := JObj [("identifiers", JArr [JStr dev]); ("name", JStr nm);
                      ("manufacturer", JStr "winnow");
                      ("model", JStr (m_Commodity m ++ " meter (ERT)"))] in
  let unit := from_opt "" (m_PubUnit m) in
  map (fun s =>
    mkDiscovery (prefix ++ "/sensor/" ++ dev ++ "_" ++ sn_kind s ++ "/config")
      (JObj ([("name", JStr (sn_nameSuffix s));
              ("unique_id", JStr (dev ++ "_" ++ sn_kind s)%string);
              ("object_id", JStr (dev ++ "_" ++ sn_kind s)%string);
              ("state_topic", JStr (stateTopic (m_EndpointID m) (sn_kind s)));
              ("availability_topic", JStr availabilityTopic);
              ("device", device)]
             ++ opt_member "device_class" (sn_deviceClass s)
             ++ opt_member "state_class" (sn_stateClass s)
             ++ opt_member "unit_of_measurement" (sn_unit s))%list))
    (sensors unit).

(** A message handed to the client: topic, retained, payload; an empty retained
    payload clears a discovery topic. *)
Inductive payload := PJson (j : json) | PText (s : string) | PClear.
Record message := mkMessage { msg_topic : string; msg_retained : bool; msg_payload : payload }.

(** The publisher: whether a client exists and reports a connection, the prefix, the
    meters whose discovery was sent, and every message taken by a client, oldest
    first. *)
Record Publisher := mkPublisher {
  has_client : bool; is_connected : bool; pub_prefix : string; known : gset Z;
  sent : list message
}.
Definition NewPublisher : Publisher := mkPublisher false false "" ∅ [].
Definition Connected (p : Publisher) : bool := has_client p && is_connected p.

Definition publish (m : message) (p : Publisher) : Publisher :=
  if Connected p
  then mkPublisher (has_client p) (is_connected p) (pub_prefix p) (known p) (sent p ++ [m])%list
  else p.

(** The client's connection comes or goes; at each coming the handler that
    [Connect] installed says "online". *)
Definition set_link (up : bool) (p : Publisher) : Publisher :=
  if has_client p && negb (Bool.eqb up (is_connected p))
  then let p := mkPublisher true up (pub_prefix p) (known p) (sent p) in
       if up then publish (mkMessage availabilityTopic true (PText "online")) p else p
  else p.

(** [Connect]: a new client with the new prefix and nothing announced; whether it
    then reports a connection is an argument. *)
Definition Connect (cfg : Config) (accepted : bool) (p : Publisher) : Publisher :=
  set_link accepted (mkPublisher true false (MQTTPrefix cfg) ∅ (sent p)).

Definition publish_all (ms : list message) (p : Publisher) : Publisher :=
  fold_left (fun p m => publish m p) ms p.
Definition set_known (k : gset Z) (p : Publisher) : Publisher :=
  mkPublisher (has_client p) (is_connected p) (pub_prefix p) k (sent p).

Section Publish.
Context (format_g : float64 -> string).

Definition PublishState (m : Meter) (energy power : option float64) (signal : float64)
    (p : Publisher) : Publisher :=
  if negb (has_client p) then p
  else
    let id := m_EndpointID m in
    let p := if bool_decide (id ∈ known p) then p
             else set_known (known p ∪ {[id]})
                    (publish_all (map (fun d => mkMessage (Topic d) true (PJson (Payload d)))
                                    (BuildDiscovery (pub_prefix p) m)) p) in
    let state kind v := mkMessage (stateTopic id kind) false (PText (format_g v)) in
    let p := match energy with Some e => publish (state "energy" e) p | None => p end in
    let p := match power with Some w => publish (state "power" w) p | None => p end in
    publish (state "signal" signal) p.

Definition Remove (m : Meter) (p : Publisher) : Publisher :=
  if negb (has_client p) then p
  else set_known (known p ∖ {[m_EndpointID m]})
         (publish_all (map (fun d => mkMessage (Topic d) true PClear)
                         (BuildDiscovery (pub_prefix p) m)) p).

Definition Close (p : Publisher) : Publisher :=
  if Connected p then
    let p := publish (mkMessage availabilityTopic true (PText "offline")) p in
    mkPublisher (has_client p) false (pub_prefix p) (known p) (sent p)
  else p.

(** ** The worker *)

(** The last publish outcome written for a meter. *)
Record pubNote := mkNote { pn_ok : bool; pn_err : string; pn_at : time }.

Record worker := mkWorker {
  wk_pub : Publisher;
  wk_cfg : Config;
  publishSet : gmap Z Meter;
  pubNoted : gmap Z pubNote;
  mqttDetail : string;
  haStreamState : string;
  lastRefInsert : Z;
  haRestart : bool;   (* a signal is pending on the channel, of capacity one *)
  utilRestart : bool
}.
Definition with_pub (p : Publisher) (w : worker) : worker :=
  mkWorker p (wk_cfg w) (publishSet w) (pubNoted w) (mqttDetail w) (haStreamState w)
    (lastRefInsert w) (haRestart w) (utilRestart w).
Definition with_cfg (c : Config) (w : worker) : worker :=
  mkWorker (wk_pub w) c (publishSet w) (pubNoted w) (mqttDetail w) (haStreamState w)
    (lastRefInsert w) (haRestart w) (utilRestart w).
Definition with_set (s : gmap Z Meter) (w : worker) : worker :=
  mkWorker (wk_pub w) (wk_cfg w) s (pubNoted w) (mqttDetail w) (haStreamState w)
    (lastRefInsert w) (haRestart w) (utilRestart w).
Definition with_noted (n : gmap Z pubNote) (w : worker) : worker :=
  mkWorker (wk_pub w) (wk_cfg w) (publishSet w) n (mqttDetail w) (haStreamState w)
    (lastRefInsert w) (haRestart w) (utilRestart w).
Definition with_detail (s : string) (w : worker) : worker :=
  mkWorker (wk_pub w) (wk_cfg w) (publishSet w) (pubNoted w) s (haStreamState w)
    (lastRefInsert w) (haRestart w) (utilRestart w).
Definition with_stream (s : string) (w : worker) : worker :=
  mkWorker (wk_pub w) (wk_cfg w) (publishSet w) (pubNoted w) (mqttDetail w) s
    (lastRefInsert w) (haRestart w) (utilRestart w).
Definition with_restart (w : worker) : worker :=
  mkWorker (wk_pub w) (wk_cfg w) (publishSet w) (pubNoted w) (mqttDetail w) (haStreamState w)
    (lastRefInsert w) true true.

Definition with_last (t : Z) (w : worker) : worker :=
  mkWorker (wk_pub w) (wk_cfg w) (publishSet w) (pubNoted w) (mqttDetail w) (haStreamState w)
    t (haRestart w) (utilRestart w).
(** A nudge of the backfill round; a pending one absorbs it. *)
Definition nudge_util (w : worker) : worker :=
  mkWorker (wk_pub w) (wk_cfg w) (publishSet w) (pubNoted w) (mqttDetail w) (haStreamState w)
    (lastRefInsert w) (haRestart w) true.

(** Whether an outcome is written: the throttle of repeated successes. *)
Definition note_due (n : option pubNote) (ok : bool) (errMsg : string) (nw : time) : bool :=
  let transition := match n with
                    | None => true
                    | Some p => negb (Bool.eqb (pn_ok p) ok) || (negb ok && negb (pn_err p =? errMsg)%string)
                    end in
  let at_ := match n with Some p => pn_at p | None => zero_time end in
  transition || negb ok || negb (Sub nw at_ <? 30 * Second).

Definition notePublish (id : Z) (ok : bool) (errMsg : string) (w : worker) : M worker :=
  nw ← now;
  if note_due (pubNoted w !! id) ok errMsg nw then
    let w := with_noted (<[id := mkNote ok errMsg nw]> (pubNoted w)) w in
    ignore (if ok then RecordPublishOK id else RecordPublishError id errMsg) ;; mret w
  else mret w.

Definition onReading (id : Z) (w : worker) : M worker :=
  match publishSet w !! id with
  | None => mret w
  | Some m =>
      if negb (Connected (wk_pub w)) then notePublish id false "mqtt broker not connected" w
      else
        latest ← LatestReading id;
        let energy := option_map (fun l : time * float64 => (l.2 * m_PubMultiplier m)%f64) latest in
        power ← DerivedPower id (m_PubMultiplier m);
        signal ← SignalPerHour id;
        notePublish id true "" (with_pub (PublishState m energy power signal (wk_pub w)) w)
  end.

Definition refreshPublishSet (w : worker) : M worker :=
  r ← try MetersForPublish;
  match r with
  | Err _ => mret w
  | Ok ms =>
      let next := fold_left (fun s m => <[m_EndpointID m := m]> s) ms ∅ in
      let gone := map_to_list (filter (fun kv : Z * Meter => next !! kv.1 = None) (publishSet w)) in
      mret (with_pub (fold_left (fun p kv => Remove kv.2 p) gone (wk_pub w)) (with_set next w))
  end.

(** [WorkerStatus] as the settings row the worker writes. *)
Definition workerStatusKey : string := "worker_status".
Definition status_json (connected : bool) (detail stream : string) (lastEvent : option string)
    (updated : string) : json :=
  JObj ([("mqtt_connected", JBool connected)] ++ opt_member "detail" detail
        ++ opt_member "ha_stream" stream
        ++ match lastEvent with Some t => [("ha_last_event_ts", JStr t)] | None => [] end
        ++ [("updated_at", JStr updated)])%list.

(** [json.Marshal] of the row. *)
Context (Marshal : json -> string).

Definition putWorkerStatus (w : worker) : M unit :=
  nw ← now;
  let last := if lastRefInsert w >? 0 then Some (RFC3339 (lastRefInsert w * Second)) else None in
  ignore (SetSetting workerStatusKey
    (Marshal (status_json (Connected (wk_pub w)) (mqttDetail w) (haStreamState w) last (RFC3339 nw)))).

Definition setHAStream (state : string) (w : worker) : M worker :=
  if (haStreamState w =? state)%string then mret w
  else let w := with_stream state w in putWorkerStatus w ;; mret w.

Context (getenv : string -> string) (ParseFloat : string -> float64 * bool).

(** [reloadConfig]; [accepted] is the broker's answer if it is asked. *)
Definition reloadConfig (accepted : bool) (w : worker) : M worker :=
  r ← try (LoadConfig getenv ParseFloat);
  match r with
  | Err _ => mret w
  | Ok cfg =>
      let prevHost := MQTTHost (wk_cfg w) in
      let prevUser := MQTTUser (wk_cfg w) in
      let w := with_cfg cfg w in
      let w := if MQTTConfigured cfg
                  && (negb (Connected (wk_pub w)) || negb (prevHost =? MQTTHost cfg)%string
                      || negb (prevUser =? MQTTUser cfg)%string)
               then with_pub (Connect cfg accepted (wk_pub w)) w else w in
      let w := with_detail (if MQTTConfigured cfg then "" else "not configured") w in
      putWorkerStatus w ;;
      w ← refreshPublishSet w;
      mret (with_restart w)
  end.

(** [listenLoop]'s dispatch of one notification. *)
Definition dispatch (accepted : bool) (channel pl : string) (w : worker) : M worker :=
  if (channel =? "winnow_config")%string then reloadConfig accepted w
  else if (channel =? "winnow")%string then
    let '(id, ok) := ParseInt pl in
    if ok then onReading id w else mret w
  else mret w.
End Publish.

(** ** Lemmas *)

Lemma unit_sep_not_digit : is_digit unit_sep = false.
Proof. reflexivity. Qed.

Lemma notify_payload_not_a_number r :
  in_int64 (r_EndpointID r) -> snd (ParseInt (notify_payload r)) = false.
Proof. intros H. unfold notify_payload. by apply ParseInt_FormatInt_suffix. Qed.

Lemma str_app_inj_l (p a b : string) : p ++ a = p ++ b -> a = b.
Proof. induction p as [|c p IH]; cbn; [done|]. intros [= H]. auto. Qed.

(** Texts of two numbers followed by the same separator. *)
Lemma FormatInt_sep_inj (c : ascii) (a b : Z) (s t : string) :
  is_digit c = false -> c <> "-"%char -> in_int64 a -> in_int64 b ->
  FormatInt a ++ String c s = FormatInt b ++ String c t -> a = b /\ s = t.
Proof.
  intros Hc Hm Ha Hb E.
  assert (forall v, str_contains_char c (FormatInt v) = false) as Hn
    by (intros v; by apply FormatInt_no_char).
  pose proof (str_cut_app c (FormatInt a) s (Hn a)) as Ca.
  pose proof (str_cut_app c (FormatInt b) t (Hn b)) as Cb.
  rewrite E, Cb in Ca. injection Ca as E1 ->.
  split; [|done]. pose proof (ParseInt_FormatInt a Ha) as P. rewrite <- E1, ParseInt_FormatInt in P by done.
  congruence.
Qed.

Lemma publish_connected m p : Connected (publish m p) = Connected p.
Proof. unfold publish, Connected. by destruct (has_client p && is_connected p) eqn:E; cbn; rewrite ?E. Qed.
Lemma publish_all_spec ms p :
  publish_all ms p =
  mkPublisher (has_client p) (is_connected p) (pub_prefix p) (known p)
    (sent p ++ if Connected p then ms else [])%list.
Proof.
  revert p. induction ms as [|m ms IH]; intros p; cbn.
  - destruct (Connected p); rewrite app_nil_r; by destruct p.
  - rewrite IH, publish_connected. unfold publish. destruct (Connected p); cbn; [|done]. by rewrite <- app_assoc.
Qed.
Lemma set_link_spec up p :
  has_client (set_link up p) = has_client p /\ pub_prefix (set_link up p) = pub_prefix p /\
  known (set_link up p) = known p /\
  exists l, sent (set_link up p) = (sent p ++ l)%list /\ (has_client p = false -> l = []) /\
    Forall (fun m => m = mkMessage availabilityTopic true (PText "online")) l.
Proof.
  unfold set_link, publish, Connected. destruct (has_client p) eqn:E, up, (is_connected p); cbn; rewrite ?E;
    (split_and!; [done..|]); first [by exists []; rewrite app_nil_r | eexists; split_and!; [reflexivity|done|by repeat constructor]].
Qed.

Lemma Remove_known m p :
  known (Remove m p) = (if has_client p then known p ∖ {[m_EndpointID m]} else known p) /\
  has_client (Remove m p) = has_client p /\ is_connected (Remove m p) = is_connected p.
Proof.
  unfold Remove. destruct (has_client p) eqn:E; cbn [negb]; [|by rewrite E].
  rewrite publish_all_spec. by cbn.
Qed.

Lemma Remove_all_known (l : list (Z * Meter)) p :
  has_client p = true ->
  known (fold_left (fun p kv => Remove kv.2 p) l p) =
    known p ∖ list_to_set (map (fun kv => m_EndpointID kv.2) l).
Proof.
  revert p. induction l as [|[k m] l IH]; intros p Hc; cbn; [set_solver|].
  destruct (Remove_known m p) as (Hk & Hh & _). rewrite IH by congruence. rewrite Hk, Hc. set_solver.
Qed.

Lemma fold_insert_lookup (ms : list Meter) (s : gmap Z Meter) id :
  is_Some (fold_left (fun s m => <[m_EndpointID m := m]> s) ms s !! id) <->
  is_Some (s !! id) \/ id ∈ map m_EndpointID ms.
Proof.
  revert s. induction ms as [|m ms IH]; intros s; cbn.
  - rewrite elem_of_nil. tauto.
  - rewrite IH, lookup_insert_is_Some, elem_of_cons. destruct (decide (m_EndpointID m = id)); naive_solver.
Qed.

(** A connected worker with no meter published yet. *)
Definition no_config : Config := FromMap (fun _ => "") (fun _ => (f0, true)) ∅.
Definition sample_worker0 : worker :=
  mkWorker (mkPublisher true true "homeassistant" ∅ []) no_config ∅ ∅ "" "" 0 false false.

(** ** Properties *)

(** Discovery never collides: with one prefix, the topics of two sensors are
    equal only when they are the same sensor kind of the same endpoint. *)
Theorem discovery_topics_distinct (prefix : string) (m m' : Meter) (i j : nat) (d d' : DiscoveryMsg) :
  in_int64 (m_EndpointID m) -> in_int64 (m_EndpointID m') ->
  BuildDiscovery prefix m !! i = Some d -> BuildDiscovery prefix m' !! j = Some d' ->
  Topic d = Topic d' -> m_EndpointID m = m_EndpointID m' /\ i = j.
Proof.
  intros Hm Hm' Hi Hj E.
  assert (forall x k e, BuildDiscovery prefix x !! k = Some e ->
    exists kind, Topic e = prefix ++ "/sensor/" ++ ("winnow_" ++ FormatInt (m_EndpointID x)) ++ "_" ++ kind ++ "/config" /\
      ((k = 0%nat /\ kind = "energy") \/ (k = 1%nat /\ kind = "power") \/ (k = 2%nat /\ kind = "signal"))) as Ht.
  { intros x k e H. destruct k as [|[|[|k]]]; cbn in H; try done; injection H as <-;
      [exists "energy"|exists "power"|exists "signal"]; (split; [reflexivity|]); auto. }
  destruct (Ht m i d Hi) as (k & Ek & Hk). destruct (Ht m' j d' Hj) as (k' & Ek' & Hk').
  rewrite Ek, Ek' in E. apply str_app_inj_l, str_app_inj_l in E.
  rewrite <- !(str_app_assoc "winnow_") in E. apply str_app_inj_l in E.
  apply FormatInt_sep_inj in E as [-> E]; [|done..].
  split; [done|]. cbn in E.
  destruct Hk as [[-> ->]|[[-> ->]|[-> ->]]], Hk' as [[-> ->]|[[-> ->]|[-> ->]]]; done.
Qed.

Lemma discovery_topics_distinct_witness :
  m_EndpointID zero_Meter = m_EndpointID zero_Meter /\ 1%nat = 1%nat.
Proof.
  eapply (discovery_topics_distinct "homeassistant" zero_Meter zero_Meter 1 1);
    [split; vm_compute; discriminate|split; vm_compute; discriminate|reflexivity|reflexivity|reflexivity].
Defined.

(** After a refresh of the publish set (no fault, a client present) the set
    holds exactly the meters flagged for publishing, and every meter that left it
    has its discovery withdrawn, while the others stay announced. *)
Theorem refreshPublishSet_spec (wk : worker) (w : World) :
  no_faults w -> has_client (wk_pub wk) = true ->
  (forall id m, publishSet wk !! id = Some m -> m_EndpointID m = id) ->
  exists wk' w', refreshPublishSet wk w = (Ok wk', w') /\
    (forall id, is_Some (publishSet wk' !! id) <->
       exists x, meters (w_db w) !! id = Some x /\ mr_publish x = Some true) /\
    (forall id, id ∈ known (wk_pub wk') <->
       id ∈ known (wk_pub wk) /\ (is_Some (publishSet wk !! id) -> is_Some (publishSet wk' !! id))).
Proof.
  intros Hf Hc Hids. unfold refreshPublishSet, MetersForPublish, mbind, M_bind, try. step_ok.
  set (ms := omap _ _). eexists _, _. split; [reflexivity|]. cbn [publishSet wk_pub with_pub with_set].
  set (next := fold_left _ ms ∅).
  assert (forall id, is_Some (next !! id) <->
    exists x, meters (w_db w) !! id = Some x /\ mr_publish x = Some true) as Hnext.
  { intros id. unfold next. rewrite fold_insert_lookup, lookup_empty.
    assert (id ∈ map m_EndpointID ms <-> exists x, meters (w_db w) !! id = Some x /\ mr_publish x = Some true) as ->.
    { unfold ms. split.
      - intros (m & -> & Hm)%list_elem_of_fmap. apply list_elem_of_omap in Hm as ([k x] & Hk & E).
        apply elem_of_map_to_list in Hk. unfold publish_row in E.
        destruct (mr_publish x) as [[]|] eqn:Ep; [|done..]. injection E as <-. eauto.
      - intros (x & Hx & Hp). apply list_elem_of_fmap.
        destruct (publish_row (w_db w) (id, x)) as [m|] eqn:E; [|unfold publish_row in E; by rewrite Hp in E].
        exists m. split; [|apply list_elem_of_omap; exists (id, x); split; [by apply elem_of_map_to_list|done]].
        unfold publish_row in E. rewrite Hp in E. by injection E as <-. }
    split; [intros [[? ?]|?]; [done|done]|tauto]. }
  split; [exact Hnext|]. intros id. rewrite Remove_all_known by done.
  rewrite elem_of_difference, elem_of_list_to_set. apply and_iff_compat_l.
  assert (id ∈ map (fun kv => m_EndpointID kv.2)
    (map_to_list (filter (fun kv : Z * Meter => next !! kv.1 = None) (publishSet wk))) <->
    is_Some (publishSet wk !! id) /\ next !! id = None) as ->.
  { split.
    - intros ([k m] & -> & Hm)%list_elem_of_fmap. apply elem_of_map_to_list, map_lookup_filter_Some in Hm as [Hm Hn].
      cbn in *. rewrite (Hids k m Hm). by eauto.
    - intros [[m Hm] Hn]. apply list_elem_of_fmap. exists (id, m). cbn. split; [by rewrite (Hids id m Hm)|].
      apply elem_of_map_to_list, map_lookup_filter_Some. by split. }
  rewrite <- (not_eq_None_Some (next !! id)). destruct (next !! id); naive_solver.
Qed.

Lemma refreshPublishSet_spec_witness :
  exists wk' w', refreshPublishSet sample_worker0 (mkWorld empty_DB 0 []) = (Ok wk', w').
Proof.
  destruct (refreshPublishSet_spec sample_worker0 (mkWorld empty_DB 0 [])) as (wk' & w' & E & _).
  - constructor.
  - reflexivity.
  - intros id m H. unfold sample_worker0 in H. cbn in H. by rewrite lookup_empty in H.
  - by exists wk', w'.
Defined.

(** Publish outcomes: without faults [notePublish] either records the outcome
    (a success clears the error, an error keeps the time of the last success) or,
    for a success less than thirty seconds after a recorded success, leaves the
    table alone; any change between success and error is always recorded. *)
Theorem notePublish_records (id : Z) (ok : bool) (errMsg : string) (wk : worker) (w : World) :
  no_faults w ->
  exists wk' w', notePublish id ok errMsg wk w = (Ok wk', w') /\
    ((pubNoted wk' !! id = Some (mkNote ok errMsg (w_now w)) /\
      exists s, publish_status (w_db w') !! id = Some s /\ UpdatedAt s = Some (w_now w) /\
        (if ok then LastError s = None /\ LastPublishTS s = Some (w_now w)
         else LastError s = Some errMsg /\
              LastPublishTS s = (publish_status (w_db w) !! id) ≫= LastPublishTS)) \/
     (wk' = wk /\ w_db w' = w_db w /\ ok = true /\
      exists n, pubNoted wk !! id = Some n /\ pn_ok n = true /\ Sub (w_now w) (pn_at n) < 30 * Second)).
Proof.
  intros Hf. unfold notePublish, mbind, M_bind, now, ignore.
  destruct (note_due (pubNoted wk !! id) ok errMsg (w_now w)) eqn:E.
  - destruct ok; unfold RecordPublishOK, RecordPublishError; step_ok;
      (eexists _, _; split; [reflexivity|]; left; cbn; rewrite !lookup_insert_eq; split; [done|];
       eexists; split; [reflexivity|]; cbn; split; [done|]).
    + done.
    + by destruct (publish_status (w_db w) !! id).
  - exists wk, w. split; [done|]. right. split; [done|]. split; [done|]. unfold note_due in E.
    apply orb_false_iff in E as [E E3]. apply orb_false_iff in E as [E1 E2]. zbool.
    split; [done|]. destruct (pubNoted wk !! id) as [n|]; [|done]. exists n. split; [done|].
    destruct ok; [|done]. cbn in E1. destruct (pn_ok n); [|done]. split; [done|]. lia.
Qed.

Lemma notePublish_records_witness :
  exists wk' w', notePublish 42 true "" sample_worker0 (mkWorld empty_DB 0 []) = (Ok wk', w').
Proof.
  destruct (notePublish_records 42 true "" sample_worker0 (mkWorld empty_DB 0 [])) as (wk' & w' & E & _).
  - constructor.
  - by exists wk', w'.
Defined.

(** The payload [InsertReading] notifies is never a number, so the worker's
    dispatch drops every reading notification: whatever the worker's state and
    the database, a notification on channel [winnow] publishes nothing, records
    no outcome and runs no statement. *)
Theorem dispatch_drops_readings (format_g : float64 -> string) (Marshal : json -> string)
    (getenv : string -> string) (ParseFloat : string -> float64 * bool)
    (accepted : bool) (r : Reading) (wk : worker) (w : World) :
  in_int64 (r_EndpointID r) ->
  dispatch format_g Marshal getenv ParseFloat accepted "winnow" (notify_payload r) wk w = (Ok wk, w).
Proof.
  intros H. unfold dispatch. cbn [String.eqb]. pose proof (notify_payload_not_a_number r H) as E.
  change ("winnow" =? "winnow_config")%string with false.
  change ("winnow" =? "winnow")%string with true. cbn match.
  destruct (ParseInt (notify_payload r)) as [id ok]. cbn in E. by subst ok.
Qed.

Definition sample_worker : worker :=
  mkWorker (mkPublisher true true "homeassistant" ∅ []) no_config {[42 := zero_Meter]} ∅ "" "" 0 false false.

Lemma dispatch_drops_readings_witness :
  dispatch (fun _ => "") (fun _ => "") (fun _ => "") (fun _ => (f0, true)) true "winnow"
    (notify_payload sample_reading) sample_worker (mkWorld empty_DB 0 []) =
  (Ok sample_worker, mkWorld empty_DB 0 []).
Proof.
  apply (dispatch_drops_readings (fun _ => "") (fun _ => "") (fun _ => "") (fun _ => (f0, true)) true
    sample_reading sample_worker (mkWorld empty_DB 0 [])).
  split; vm_compute; discriminate.
Defined.

(** The browser's stream, which cuts the payload at the first separator,
    gets the endpoint id and the source back, whatever bytes the source has. *)
Theorem notify_payload_cut (r : Reading) :
  in_int64 (r_EndpointID r) ->
  str_cut unit_sep (notify_payload r) = (FormatInt (r_EndpointID r), r_Source r, true) /\
  ParseInt (FormatInt (r_EndpointID r)) = (r_EndpointID r, true).
Proof.
  intros H. split.
  - unfold notify_payload. apply str_cut_app. by apply FormatInt_no_char.
  - by apply ParseInt_FormatInt.
Qed.

Lemma notify_payload_cut_witness :
  str_cut unit_sep (notify_payload sample_reading) = ("42", "dongle0", true).
Proof. apply (notify_payload_cut sample_reading). split; vm_compute; discriminate. Defined.
