(* ===== verification/Discovery.v ===== *)
(** * What the broker retains ([internal/mqtt/mqtt.go], [cmd/worker/main.go])

    The messages the worker's MQTT client takes over a run of notifications, seen
    as the retained messages they leave at the broker: what the broker already held
    when the worker started and has not been told about since, the sensors of
    meters the worker publishes, and those of meters that were unflagged while the
    client reported no connection.  The broker, which keeps the last retained
    message of a topic and forgets it at an empty one, is the specification side:
    what the client takes reaches it, in order (paho keeps a message of quality 1
    until it is acknowledged).  The program is that of [Publish], with the worker
    [main] makes and one turn of [listenLoop], between two of which the connection
    may come and go. *)

From S2P Require Import Prelude Float64 Model Json Config Store Effects Database Meters Publish.

(** ** The broker *)

Definition retain (r : gmap string payload) (m : message) : gmap string payload :=
  if msg_retained m
  then match msg_payload m with PClear => delete (msg_topic m) r | p => <[msg_topic m := p]> r end
  else r.
(** From what it held before the messages. *)
Definition retained (r0 : gmap string payload) (ms : list message) : gmap string payload := fold_left retain ms r0.
(** A topic for which no retained message was sent. *)
Definition untouched (topic : string) (ms : list message) : Prop :=
  topic ∉ map msg_topic (List.filter msg_retained ms).

(** The topics under which a meter is announced. *)
Definition discovery_topics (prefix : string) (id : Z) : list string :=
  map (fun s => prefix ++ "/sensor/" ++ deviceID id ++ "_" ++ sn_kind s ++ "/config")%string (sensors "").
Lemma BuildDiscovery_topics prefix m : map Topic (BuildDiscovery prefix m) = discovery_topics prefix (m_EndpointID m).
Proof. reflexivity. Qed.

Definition announcement (d : DiscoveryMsg) : message := mkMessage (Topic d) true (PJson (Payload d)).
Definition withdrawal (d : DiscoveryMsg) : message := mkMessage (Topic d) true PClear.

Lemma retained_app r0 a b : retained r0 (a ++ b) = fold_left retain b (retained r0 a).
Proof. unfold retained. by rewrite fold_left_app. Qed.
Lemma untouched_app topic a b : untouched topic (a ++ b) <-> untouched topic a /\ untouched topic b.
Proof. unfold untouched. by rewrite List.filter_app, map_app, not_elem_of_app. Qed.
Lemma untouched_map (f : DiscoveryMsg -> message) topic ds :
  (forall d, msg_retained (f d) = true /\ msg_topic (f d) = Topic d) ->
  topic ∉ map Topic ds -> untouched topic (map f ds).
Proof.
  intros Hf Hn. unfold untouched. rewrite (forallb_filter_id msg_retained), map_map.
  - by rewrite (map_ext _ Topic) by (intros d; apply Hf).
  - apply forallb_forall. intros m (d & <- & _)%in_map_iff. apply Hf.
Qed.

Lemma retain_withdrawals ds r topic pl :
  fold_left retain (map withdrawal ds) r !! topic = Some pl <-> r !! topic = Some pl /\ topic ∉ map Topic ds.
Proof.
  revert r. induction ds as [|d ds IH]; intros r; cbn [map fold_left].
  - rewrite elem_of_nil. tauto.
  - rewrite IH. cbn [retain withdrawal msg_retained msg_payload msg_topic]. rewrite lookup_delete_Some, elem_of_cons.
    naive_solver.
Qed.

Lemma retain_announcements ds r topic pl :
  fold_left retain (map announcement ds) r !! topic = Some pl ->
  (r !! topic = Some pl /\ topic ∉ map Topic ds) \/ exists d, d ∈ ds /\ Topic d = topic /\ pl = PJson (Payload d).
Proof.
  revert r. induction ds as [|d ds IH]; intros r; cbn [map fold_left]; [intros H; left; split; [done|by intros ?%elem_of_nil]|].
  intros [[H Hn]|(d' & Hd & E)]%IH.
  - cbn [retain announcement msg_retained msg_payload msg_topic] in H.
    apply lookup_insert_Some in H as [[<- <-]|[Hne H]]; [right; exists d; split; [left|done]|left; split; [done|]].
    by intros [->|?]%elem_of_cons.
  - right. exists d'. split; [by right|done].
Qed.
Lemma retain_announcements_is_Some ds r topic :
  is_Some (r !! topic) \/ topic ∈ map Topic ds -> is_Some (fold_left retain (map announcement ds) r !! topic).
Proof.
  revert r. induction ds as [|d ds IH]; intros r; cbn [map fold_left].
  - rewrite elem_of_nil. tauto.
  - rewrite elem_of_cons. intros H. apply IH. cbn [retain announcement msg_retained msg_payload msg_topic].
    rewrite lookup_insert_is_Some'. naive_solver.
Qed.
Lemma retained_state r0 p topic pl :
  retained r0 (sent (publish (mkMessage topic false pl) p)) = retained r0 (sent p).
Proof. unfold publish. destruct (Connected p); cbn [sent]; [by rewrite retained_app|done]. Qed.
Lemma untouched_state p topic topic' pl :
  untouched topic (sent (publish (mkMessage topic' false pl) p)) <-> untouched topic (sent p).
Proof.
  unfold publish. destruct (Connected p); cbn [sent]; [|done]. rewrite untouched_app. unfold untouched at 2. cbn.
  rewrite elem_of_nil. tauto.
Qed.
(** What the handler of a connection says is not about a meter. *)
Lemma retained_link r0 l topic ms :
  topic <> availabilityTopic -> Forall (fun m => m = mkMessage availabilityTopic true (PText "online")) l ->
  retained r0 (ms ++ l) !! topic = retained r0 ms !! topic /\ (untouched topic ms -> untouched topic (ms ++ l)).
Proof.
  intros Hne Hl. rewrite retained_app, untouched_app. generalize (retained r0 ms). intros r.
  assert (untouched topic l /\ fold_left retain l r !! topic = r !! topic) as [H1 H2].
  { revert r. induction Hl as [|m l -> _ IH]; intros r; [split; [by intros ?%elem_of_nil|done]|]. cbn [fold_left].
    destruct (IH (retain r (mkMessage availabilityTopic true (PText "online")))) as [H1 H2]. split.
    - unfold untouched in *. cbn [List.filter msg_retained map msg_topic]. by intros [?|?]%elem_of_cons.
    - rewrite H2. cbn [retain msg_retained msg_payload msg_topic]. by rewrite lookup_insert_ne. }
  by rewrite H2.
Qed.

(** A discovery topic is not the availability topic. *)
Lemma discovery_not_availability prefix id : availabilityTopic ∉ discovery_topics prefix id.
Proof.
  intros (s & E & _)%list_elem_of_fmap.
  assert (forall a b, str_rev (a ++ b) = (str_rev b ++ str_rev a)%string) as Hrev.
  { intros a b. unfold str_rev. assert (forall a acc, str_rev_app (a ++ b) acc = str_rev_app b (str_rev_app a acc)) as H
      by (induction a0 as [|c a0 IH]; intros acc; cbn; auto). rewrite H, str_rev_app_spec. done. }
  apply (f_equal str_rev) in E. rewrite !Hrev in E. discriminate E.
Qed.

(** The topics of two meters are different. *)
Lemma discovery_topics_id prefix a b topic :
  in_int64 a -> in_int64 b -> topic ∈ discovery_topics prefix a -> topic ∈ discovery_topics prefix b -> a = b.
Proof.
  intros Ha Hb (s & E & _)%list_elem_of_fmap (s' & E' & _)%list_elem_of_fmap. rewrite E' in E.
  apply str_app_inj_l, str_app_inj_l in E. unfold deviceID in E. rewrite <- !(str_app_assoc "winnow_") in E.
  apply str_app_inj_l in E. by apply FormatInt_sep_inj in E as [-> _].
Qed.

(** ** The publisher *)

Lemma Remove_all_retained r0 (l : list (Z * Meter)) p topic pl : Connected p = true ->
  let p' := fold_left (fun p kv => Remove kv.2 p) l p in
  pub_prefix p' = pub_prefix p /\ Connected p' = true /\
  (retained r0 (sent p') !! topic = Some pl <-> retained r0 (sent p) !! topic = Some pl /\
     forall kv, kv ∈ l -> topic ∉ discovery_topics (pub_prefix p) (m_EndpointID kv.2)) /\
  (untouched topic (sent p) ->
     (forall kv, kv ∈ l -> topic ∉ discovery_topics (pub_prefix p) (m_EndpointID kv.2)) -> untouched topic (sent p')).
Proof.
  cbv zeta. revert p. induction l as [|[k m] l IH]; intros p Hc; cbn [fold_left snd].
  - split_and!; [done..| |done]. split; [intros H; split; [done|by intros ? ?%elem_of_nil]|by intros []].
  - assert (Connected (Remove m p) = true /\ pub_prefix (Remove m p) = pub_prefix p /\
      sent (Remove m p) = (sent p ++ map withdrawal (BuildDiscovery (pub_prefix p) m))%list) as (H1 & H2 & H3).
    { unfold Remove. pose proof Hc as [-> _]%andb_true_iff. cbn [negb]. rewrite publish_all_spec, Hc. by split. }
    destruct (IH _ H1) as (E1 & E2 & E3 & E4). split_and!; [congruence|done| |].
    + rewrite E3, H2, H3, retained_app, retain_withdrawals, BuildDiscovery_topics.
      split; [intros [[Ha Hb] Hl]; split; [done|]; intros kv [->|?]%elem_of_cons; [done|auto]|].
      intros [Ha Hl]. split; [split; [done|]; apply (Hl (k, m)); left|intros kv ?; apply Hl; by right].
    + intros Hu Hl. apply E4; [|intros kv ?; rewrite H2; apply Hl; by right].
      rewrite H3, untouched_app. split; [done|]. apply untouched_map; [done|]. rewrite BuildDiscovery_topics.
      apply (Hl (k, m)). left.
Qed.

(** A client that reports no connection is told nothing. *)
Lemma Remove_all_refused (l : list (Z * Meter)) p : Connected p = false ->
  let p' := fold_left (fun p kv => Remove kv.2 p) l p in
  sent p' = sent p /\ pub_prefix p' = pub_prefix p /\ has_client p' = has_client p /\ Connected p' = false /\
  known p' ⊆ known p.
Proof.
  cbv zeta. revert p. induction l as [|kv l IH]; intros p Hc; cbn [fold_left]; [done|].
  assert (sent (Remove kv.2 p) = sent p /\ pub_prefix (Remove kv.2 p) = pub_prefix p /\
    has_client (Remove kv.2 p) = has_client p /\ Connected (Remove kv.2 p) = false /\ known (Remove kv.2 p) ⊆ known p)
    as (H1 & H2 & H3 & H4 & H5).
  { unfold Remove. destruct (has_client p) eqn:E; cbn [negb]; [|done]. rewrite publish_all_spec, Hc, app_nil_r.
    unfold Connected in *. cbn. rewrite E in *. split_and!; [done..|]. by intros x [? _]%elem_of_difference. }
  destruct (IH _ H4) as (E1 & E2 & E3 & E4 & E5). split_and!; [congruence..|]. by etrans.
Qed.

Lemma Remove_all_no_client (l : list (Z * Meter)) p :
  has_client p = false -> fold_left (fun p kv => Remove kv.2 p) l p = p.
Proof.
  intros Hp. induction l as [|kv l IH]; cbn [fold_left]; [done|]. unfold Remove at 2. by rewrite Hp.
Qed.

(** ** A run of notifications *)

Section Run.
Context (format_g : float64 -> string) (Marshal : json -> string)
        (getenv : string -> string) (ParseFloat : string -> float64 * bool).

(** The worker [main] makes: every field of its configuration is the zero of its
    type until the first reload. *)
Definition zero_Config : Config :=
  mkConfig "" "" "" 0 "" "" "" [] "" "" "" "" f0 false f0 "" (mkCapture "" "" "" "" "" ∅) f0 "" "" f0 f0.
Definition new_worker : worker := mkWorker NewPublisher zero_Config ∅ ∅ "" "" 0 false false.

(** One turn of [listenLoop]: whether the client reports a connection, and would
    after a [Connect]; the notification; and the database, clock and faults the
    worker meets. *)
Record turn := mkTurn {
  tn_link : bool; tn_accepted : bool; tn_channel : string; tn_payload : string; tn_world : World
}.
Definition listen_turn (wk : worker) (t : turn) : worker :=
  let wk := with_pub (set_link (tn_link t) (wk_pub wk)) wk in
  match fst (dispatch format_g Marshal getenv ParseFloat (tn_accepted t) (tn_channel t) (tn_payload t) wk (tn_world t)) with
  | Ok wk' => wk'
  | Err _ => wk
  end.
Definition listen_run (ts : list turn) (wk : worker) : worker := fold_left listen_turn ts wk.

(** A meter that left the publish set in a turn in which the client reported no
    connection: its withdrawal was refused. *)
Definition unheard (ts : list turn) (id : Z) : Prop :=
  exists ts1 t ts2, ts = (ts1 ++ t :: ts2)%list /\
    is_Some (publishSet (listen_run ts1 new_worker) !! id) /\
    publishSet (listen_run (ts1 ++ [t]) new_worker) !! id = None /\
    Connected (wk_pub (listen_run (ts1 ++ [t]) new_worker)) = false.

(** The broker and the discovery prefix that a database configures. *)
Definition target (d : DB) : string * Z * string :=
  let c := FromMap getenv ParseFloat (settings d) in (MQTTHost c, MQTTPort c, MQTTPrefix c).
Definition prefix_of (d : DB) : string := MQTTPrefix (FromMap getenv ParseFloat (settings d)).
(** The endpoint column is a BIGINT. *)
Definition bigint_ids (d : DB) : Prop := map_Forall (fun id _ => in_int64 id) (meters d).

Context (P : string) (r0 : gmap string payload).
Notation held wk := (retained r0 (sent (wk_pub wk))).

(** A retained topic announces a meter in [ids]. *)
Definition announces (ids : Z -> Prop) (topic : string) (pl : payload) : Prop :=
  exists m d, ids (m_EndpointID m) /\ d ∈ BuildDiscovery P m /\ Topic d = topic /\ pl = PJson (Payload d).
Definition in_set (wk : worker) (id : Z) : Prop := is_Some (publishSet wk !! id).

(** The client has the prefix; what is retained was there before and never
    addressed, or announces a published meter or one of [gone]; a meter remembered
    as announced is published and retained on its topics. *)
Record announced (gone : Z -> Prop) (wk : worker) : Prop := {
  an_keys : map_Forall (fun id m => m_EndpointID m = id /\ in_int64 id) (publishSet wk);
  an_silent : has_client (wk_pub wk) = false -> sent (wk_pub wk) = [] /\ known (wk_pub wk) = ∅;
  an_prefix : has_client (wk_pub wk) = true -> pub_prefix (wk_pub wk) = P;
  an_retained : forall topic pl, topic <> availabilityTopic -> held wk !! topic = Some pl ->
    (r0 !! topic = Some pl /\ untouched topic (sent (wk_pub wk))) \/ announces (in_set wk) topic pl \/ announces gone topic pl;
  an_known : forall id, id ∈ known (wk_pub wk) -> in_set wk id /\
    forall topic, topic ∈ discovery_topics P id -> is_Some (held wk !! topic)
}.

Lemma announces_mono (ids ids' : Z -> Prop) topic pl :
  (forall id, ids id -> ids' id) -> announces ids topic pl -> announces ids' topic pl.
Proof. intros H (m & d & Hm & Hd). exists m, d. auto. Qed.

(** Only the publisher and the publish set count. *)
Lemma announced_same gone wk wk' :
  wk_pub wk' = wk_pub wk -> publishSet wk' = publishSet wk -> announced gone wk -> announced gone wk'.
Proof. unfold in_set. intros E1 E2 [H1 H2 H3 H4 H5]. split; unfold in_set; rewrite ?E1, ?E2; assumption. Qed.
Lemma announced_mono (gone gone' : Z -> Prop) wk :
  (forall id, gone id -> gone' id) -> announced gone wk -> announced gone' wk.
Proof.
  intros H [H1 H2 H3 H4 H5]. split; [done..| |done]. intros topic pl Hne Hr.
  destruct (H4 topic pl Hne Hr) as [?|[?|Hg]]; [auto..|right; right]. by apply (announces_mono _ _ _ _ H).
Qed.

Lemma announced_link gone up wk : announced gone wk -> announced gone (with_pub (set_link up (wk_pub wk)) wk).
Proof.
  intros [H1 H2 H3 H4 H5]. destruct (set_link_spec up (wk_pub wk)) as (E1 & E2 & E3 & l & El & Hnil & Hl).
  split; cbn [with_pub wk_pub publishSet]; rewrite ?E1, ?E2, ?E3; [done| |done|..].
  - intros Hc. rewrite El, (Hnil Hc), app_nil_r. auto.
  - intros topic pl Hne. rewrite El. destruct (retained_link r0 l topic (sent (wk_pub wk)) Hne Hl) as [-> Hu].
    intros [[? ?]|?]%H4; [left; auto|by right|done].
  - intros id [? Ht]%H5. split; [done|]. intros topic Htop. rewrite El.
    destruct (retained_link r0 l topic (sent (wk_pub wk))) as [-> _]; [|done|auto].
    intros ->. by apply discovery_not_availability in Htop.
Qed.

Lemma announced_Connect gone cfg accepted wk :
  MQTTPrefix cfg = P -> announced gone wk -> announced gone (with_pub (Connect cfg accepted (wk_pub wk)) wk).
Proof.
  intros HP [H1 H2 H3 H4 H5].
  apply (announced_link gone accepted (with_pub (mkPublisher true false (MQTTPrefix cfg) ∅ (sent (wk_pub wk))) wk)).
  split; cbn [with_pub wk_pub publishSet has_client sent known pub_prefix]; [done..|].
  intros id Hid. by apply elem_of_empty in Hid.
Qed.

(** State messages are not retained. *)
Lemma announced_publish gone topic pl wk : has_client (wk_pub wk) = true ->
  announced gone wk -> announced gone (with_pub (publish (mkMessage topic false pl) (wk_pub wk)) wk).
Proof.
  intros Hc [H1 H2 H3 H4 H5].
  assert (has_client (publish (mkMessage topic false pl) (wk_pub wk)) = has_client (wk_pub wk) /\
    pub_prefix (publish (mkMessage topic false pl) (wk_pub wk)) = pub_prefix (wk_pub wk) /\
    known (publish (mkMessage topic false pl) (wk_pub wk)) = known (wk_pub wk)) as (E1 & E2 & E3)
    by (unfold publish; by destruct (Connected _)).
  split; cbn [with_pub wk_pub publishSet]; rewrite ?retained_state, ?E1, ?E2, ?E3; [done|congruence|done| |done].
  intros topic' pl'. rewrite untouched_state. apply H4.
Qed.

Lemma announced_announce gone m wk :
  Connected (wk_pub wk) = true -> in_set wk (m_EndpointID m) -> announced gone wk ->
  announced gone (with_pub (set_known (known (wk_pub wk) ∪ {[m_EndpointID m]})
    (publish_all (map announcement (BuildDiscovery (pub_prefix (wk_pub wk)) m)) (wk_pub wk))) wk).
Proof.
  intros Hc Hm [H1 H2 H3 H4 H5]. pose proof Hc as [Hcl _]%andb_true_iff. rewrite (H3 Hcl), publish_all_spec, Hc.
  split; cbn [with_pub wk_pub publishSet set_known has_client sent known pub_prefix]; [done|congruence|done|..].
  - intros topic pl Hne H. rewrite retained_app in H. apply retain_announcements in H as [[H Hn]|(d & Hd & E)].
    + destruct (H4 topic pl Hne H) as [[? ?]|?]; [left|by right]. split; [done|]. apply untouched_app. split; [done|].
      by apply untouched_map.
    + right. left. by exists m, d.
  - intros id Hid. apply elem_of_union in Hid as [Hid|Hid].
    + destruct (H5 id Hid) as [? H]. split; [done|]. intros topic Ht. rewrite retained_app.
      apply retain_announcements_is_Some. left. by apply H.
    + apply elem_of_singleton in Hid as ->. split; [done|]. intros topic Ht. rewrite retained_app.
      apply retain_announcements_is_Some. right. by rewrite BuildDiscovery_topics.
Qed.

Lemma announced_PublishState gone m energy power signal wk :
  Connected (wk_pub wk) = true -> in_set wk (m_EndpointID m) -> announced gone wk ->
  announced gone (with_pub (PublishState format_g m energy power signal (wk_pub wk)) wk).
Proof.
  intros Hcon Hm Ha. pose proof Hcon as [Hc _]%andb_true_iff. unfold PublishState. rewrite Hc. cbn [negb].
  assert (forall m p, has_client (publish m p) = has_client p) as Hpub
    by (intros m' p; unfold publish; by destruct (Connected p)).
  set (p1 := if bool_decide _ then _ else _).
  assert (announced gone (with_pub p1 wk) /\ has_client p1 = true) as [H1 C1].
  { unfold p1. destruct (bool_decide _); [split; [by apply (announced_same gone wk)|done]|].
    split; [by apply announced_announce|]. by rewrite publish_all_spec. }
  set (p2 := match energy with Some e => _ | None => p1 end).
  assert (announced gone (with_pub p2 wk) /\ has_client p2 = true) as [H2 C2].
  { unfold p2. destruct energy; [|done]. split; [|by rewrite Hpub]. by apply (announced_publish _ _ _ (with_pub p1 wk)). }
  set (p3 := match power with Some w => _ | None => p2 end).
  assert (announced gone (with_pub p3 wk) /\ has_client p3 = true) as [H3 C3].
  { unfold p3. destruct power; [|done]. split; [|by rewrite Hpub]. by apply (announced_publish _ _ _ (with_pub p2 wk)). }
  by apply (announced_publish _ _ _ (with_pub p3 wk)).
Qed.

(** *** Refreshing the publish set *)

Lemma fold_insert_keys (l : list Meter) (s : gmap Z Meter) (Q : Meter -> Prop) :
  map_Forall (fun id m => m_EndpointID m = id /\ Q m) s -> Forall Q l ->
  map_Forall (fun id m => m_EndpointID m = id /\ Q m) (fold_left (fun s m => <[m_EndpointID m := m]> s) l s).
Proof.
  revert s. induction l as [|m l IH]; intros s Hs Hl; cbn [fold_left]; [done|]. apply Forall_cons in Hl as [Hm Hl].
  apply IH; [|done]. by apply map_Forall_insert_2.
Qed.

(** A row of the publish query: flagged, under its own id. *)
Lemma publish_rows d m : m ∈ omap (publish_row d) (map_to_list (meters d)) ->
  exists x, meters d !! m_EndpointID m = Some x /\ mr_publish x = Some true.
Proof.
  intros ([k x] & Hk & E)%list_elem_of_omap. apply elem_of_map_to_list in Hk. unfold publish_row in E.
  destruct (mr_publish x) as [[]|] eqn:Ep; [|done..]. injection E as <-. by exists x.
Qed.

Definition flagged (d : DB) (wk : worker) : Prop :=
  map_Forall (fun id _ => exists x, meters d !! id = Some x /\ mr_publish x = Some true) (publishSet wk).

(** The meters of [gone] and those that a refresh of a client without a connection
    takes out of the set. *)
Definition gone_after (gone : Z -> Prop) (wk wk' : worker) (id : Z) : Prop :=
  gone id \/ (in_set wk id /\ publishSet wk' !! id = None /\ Connected (wk_pub wk') = false).

Lemma announced_refresh gone ms wk :
  Forall (fun m => in_int64 (m_EndpointID m)) ms -> announced gone wk ->
  let next := fold_left (fun s m => <[m_EndpointID m := m]> s) ms (∅ : gmap Z Meter) in
  let away := map_to_list (filter (fun kv : Z * Meter => next !! kv.1 = None) (publishSet wk)) in
  let wk' := with_pub (fold_left (fun p kv => Remove kv.2 p) away (wk_pub wk)) (with_set next wk) in
  announced (gone_after gone wk wk') wk'.
Proof.
  intros Hms [H1 H2 H3 H4 H5] next away wk'.
  assert (forall k m, (k, m) ∈ away <-> publishSet wk !! k = Some m /\ next !! k = None) as Haway.
  { intros k m. unfold away. by rewrite elem_of_map_to_list, map_lookup_filter_Some. }
  assert (map_Forall (fun id m => m_EndpointID m = id /\ in_int64 id) next) as Hnext.
  { intros id m Hid. unfold next in Hid. apply (fold_insert_keys ms ∅ (fun m => in_int64 (m_EndpointID m))) in Hid as [<- ?];
      [done|apply map_Forall_empty|done]. }
  (* a known meter that is kept by the refresh is published after it *)
  assert (forall id, id ∈ known (wk_pub wk') -> has_client (wk_pub wk) = true -> id ∈ known (wk_pub wk) /\ is_Some (next !! id)) as Hkept.
  { intros id Hid Hcl. unfold wk' in Hid. cbn [with_pub with_set wk_pub] in Hid. rewrite Remove_all_known in Hid by done.
    apply elem_of_difference in Hid as [Hid Hnot]. split; [done|]. destruct (H5 id Hid) as [[m Hm] _].
    destruct (next !! id) eqn:En; [done|]. destruct Hnot. apply elem_of_list_to_set, list_elem_of_fmap.
    exists (id, m). cbn [snd]. split; [by destruct (H1 _ _ Hm) as [-> _]|by apply Haway]. }
  destruct (Connected (wk_pub wk)) eqn:Hcon.
  - pose proof Hcon as [Hc _]%andb_true_iff.
    pose proof (fun topic pl => Remove_all_retained r0 away (wk_pub wk) topic pl Hcon) as Hr. cbv zeta in Hr.
    assert (Connected (wk_pub wk') = true /\ pub_prefix (wk_pub wk') = P) as [Hc' Hp'].
    { destruct (Hr "" PClear) as (Hp & Hc' & _). unfold wk'. cbn. by rewrite Hp, H3. }
    split; [exact Hnext|by pose proof Hc' as [-> _]%andb_true_iff|done|..].
    + intros topic pl Hne. destruct (Hr topic pl) as (_ & _ & Hret & Hunt). intros (Ha & Hb)%Hret.
      rewrite (H3 Hc) in Hb, Hunt. destruct (H4 topic pl Hne Ha) as [[Hr0 Hu]|[(m & d & [m0 Hm] & Hd & Ht & Hpl)|Hg]].
      * left. split; [done|]. by apply Hunt.
      * right. left. exists m, d. split_and!; [|done..]. unfold in_set. cbn.
        destruct (next !! m_EndpointID m) eqn:En; [done|]. destruct (Hb (m_EndpointID m, m0)); [by apply Haway|].
        cbn [snd]. destruct (H1 _ _ Hm) as [-> _]. rewrite <- Ht, <- BuildDiscovery_topics. by apply list_elem_of_fmap_2.
      * right. right. by eapply announces_mono; [|exact Hg]; left.
    + intros id Hid. destruct (Hkept id Hid Hc) as [Hk Hin]. split; [done|]. destruct (H5 id Hk) as [[m Hm] Ht].
      intros topic Htopic. destruct (Ht topic Htopic) as [pl Hpl]. exists pl.
      apply (proj1 (proj2 (proj2 (Hr topic pl)))). split; [done|].
      intros [k m'] [Hk' Hn]%Haway. cbn [snd]. destruct (H1 _ _ Hk') as [-> Hki]. rewrite (H3 Hc). intros Hkt.
      assert (k = id) as ->.
      { destruct (H1 _ _ Hm) as [_ Hi]. by apply (discovery_topics_id P k id topic). }
      destruct Hin as [? Hin]. congruence.
  - pose proof (Remove_all_refused away (wk_pub wk) Hcon) as Hr. cbv zeta in Hr. destruct Hr as (E1 & E2 & E3 & E4 & E5).
    split; unfold wk' in *; cbn [with_pub with_set wk_pub publishSet] in *; rewrite ?E1, ?E2, ?E3.
    + exact Hnext.
    + intros [Hs Hk]%H2. split; [done|]. apply set_eq_subseteq. split; [by rewrite <- Hk|apply empty_subseteq].
    + done.
    + intros topic pl Hne Ha. destruct (H4 topic pl Hne Ha) as [[Hr0 Hu]|[(m & d & Hm & Hd)|Hg]]; [by left| |].
      * right. destruct (next !! m_EndpointID m) eqn:En; [left|right]; exists m, d; (split; [|done]).
        -- unfold in_set. cbn. by rewrite En.
        -- right. split_and!; [done..|]. cbn. exact E4.
      * right. right. by eapply announces_mono; [|exact Hg]; left.
    + intros id Hid. destruct (has_client (wk_pub wk)) eqn:Hc; [|apply E5 in Hid; destruct (H2 eq_refl) as [_ Hk]; by rewrite Hk in Hid].
      destruct (Hkept id Hid eq_refl) as [Hk Hin]. split; [done|]. by destruct (H5 id Hk).
Qed.

Lemma refresh_announced gone ms wk : map_Forall (fun id _ => in_int64 id) ms -> announced gone wk ->
  ensures (fun d => meters d = ms) (refreshPublishSet wk) (fun wk' => announced (gone_after gone wk wk') wk').
Proof.
  intros Hms Ha. unfold refreshPublishSet. eapply ensures_bind.
  - apply (ensures_try _ _ _ (fun l => Forall (fun m => in_int64 (m_EndpointID m)) l)), ensures_query.
    intros d _ <-. apply Forall_forall. intros m (x & Hx & _)%publish_rows. exact (Hms _ _ Hx).
  - intros [l|e] Hl; apply ensures_ret; [by apply announced_refresh|].
    eapply announced_mono; [|exact Ha]. by left.
Qed.

(** *** The dispatch *)

Lemma note_announced gone id ok errMsg wk :
  announced gone wk -> ensures (fun _ => True) (notePublish id ok errMsg wk) (announced gone).
Proof.
  intros Ha. unfold notePublish. apply ensures_then; [done|]. intros nw. destruct (note_due _ _ _ _).
  - apply ensures_then; [done|]. intros _. apply ensures_ret. by apply (announced_same gone wk).
  - by apply ensures_ret.
Qed.

Lemma reading_announced gone id wk :
  announced gone wk -> ensures (fun _ => True) (onReading format_g id wk) (announced gone).
Proof.
  intros Ha. unfold onReading. destruct (publishSet wk !! id) as [m|] eqn:Em; [|by apply ensures_ret].
  assert (forall A (m : M A), keeps (fun _ => True) m) as Hk by (intros A m' w _; done).
  destruct (Connected (wk_pub wk)) eqn:Hc; cbn [negb]; [|by apply note_announced].
  do 3 (apply ensures_then; [apply Hk|intros ?]). apply note_announced, announced_PublishState; [done| |done].
  unfold in_set. destruct (an_keys _ wk Ha id m Em) as [-> _]. by eexists.
Qed.

Lemma LoadConfig_value w cfg :
  fst (LoadConfig getenv ParseFloat w) = Ok cfg -> cfg = FromMap getenv ParseFloat (settings (w_db w)).
Proof.
  assert (ensures (fun d => d = w_db w) (LoadConfig getenv ParseFloat)
            (fun c => c = FromMap getenv ParseFloat (settings (w_db w)))) as H.
  { eapply ensures_bind; [apply (ensures_query _ _ _ (fun m => m = settings (w_db w))); by intros d _ ->|].
    intros m ->. by apply ensures_ret. }
  by apply H.
Qed.

Lemma keeps_status P' wk :
  (forall s d, P' d -> P' (set_settings s d)) -> keeps P' (putWorkerStatus Marshal wk).
Proof.
  intros H. unfold putWorkerStatus, SetSetting. apply keeps_bind; [apply keeps_now|]. intros nw. cbv zeta.
  apply keeps_ignore, keeps_exec. auto.
Qed.

(** A reload, whose configuration is that of the database it reads. *)
Lemma reload_announced gone accepted wk w wk' : announced gone wk -> prefix_of (w_db w) = P -> bigint_ids (w_db w) ->
  fst (reloadConfig Marshal getenv ParseFloat accepted wk w) = Ok wk' -> announced (gone_after gone wk wk') wk'.
Proof.
  intros Ha Hp Hb.
  assert (keeps (fun d => meters d = meters (w_db w)) (LoadConfig getenv ParseFloat)) as Hk by keep.
  specialize (Hk w eq_refl). pose proof (LoadConfig_value w) as Hv.
  unfold reloadConfig, mbind at 1, M_bind at 1, try at 1.
  destruct (LoadConfig getenv ParseFloat w) as [[cfg|e] w1]; cbn [fst snd] in *;
    [|intros [= <-]; eapply announced_mono; [|exact Ha]; by left].
  specialize (Hv cfg eq_refl). cbv zeta.
  set (wk1 := if _ && _ then _ else with_cfg cfg wk).
  assert (announced gone wk1 /\ publishSet wk1 = publishSet wk) as [H1 Es].
  { unfold wk1. destruct (_ && _); split; try done; [|by apply (announced_same gone wk)].
    apply announced_Connect; [by rewrite Hv|by apply (announced_same gone wk)]. }
  match goal with |- fst (?m w1) = _ -> _ =>
    assert (ensures (fun d => meters d = meters (w_db w)) m (fun wk' => announced (gone_after gone wk wk') wk')) as He end;
    [|intros E; by apply (proj2 (He w1 Hk))].
  apply ensures_then; [by apply keeps_status|]. intros _.
  eapply ensures_bind; [apply (refresh_announced gone); [exact Hb|by apply (announced_same gone wk1)]|].
  intros wk2 H2. apply ensures_ret. apply (announced_same _ wk2); [done..|].
  eapply announced_mono; [|exact H2]. intros id [?|(Hin & ?)]; [by left|right]. split; [|done].
  unfold in_set in *. by rewrite <- Es.
Qed.

Lemma turn_announced gone wk t : prefix_of (w_db (tn_world t)) = P -> bigint_ids (w_db (tn_world t)) ->
  announced gone wk -> announced (gone_after gone wk (listen_turn wk t)) (listen_turn wk t).
Proof.
  intros Hp Hb Ha%(announced_link gone (tn_link t)). unfold listen_turn.
  set (wk0 := with_pub _ wk) in *.
  assert (forall wk', announced (gone_after gone wk0 wk') wk' -> announced (gone_after gone wk wk') wk') as H0 by done.
  assert (forall wk', announced gone wk' -> announced (gone_after gone wk wk') wk') as H1
    by (intros wk' H; eapply announced_mono; [|exact H]; by left).
  unfold dispatch.
  destruct (_ =? "winnow_config")%string; [|destruct (_ =? "winnow")%string; [destruct (ParseInt _) as [id []]|]].
  - destruct (fst _) as [wk'|] eqn:E; [|by apply H1]. apply H0. by eapply reload_announced.
  - destruct (fst _) as [wk'|] eqn:E; [|by apply H1]. apply H1. by apply (reading_announced gone id wk0 Ha (tn_world t) I).
  - by apply H1.
  - by apply H1.
Qed.

Lemma new_announced gone : announced gone new_worker.
Proof.
  split; [apply map_Forall_empty|done..| |intros id Hid; by apply elem_of_empty in Hid].
  intros topic pl _ H. left. split; [exact H|]. by intros ?%elem_of_nil.
Qed.

Lemma run_announced ts :
  Forall (fun t => prefix_of (w_db (tn_world t)) = P /\ bigint_ids (w_db (tn_world t))) ts ->
  announced (unheard ts) (listen_run ts new_worker).
Proof.
  induction ts as [|t ts IH] using rev_ind; intros Hts; [apply new_announced|].
  apply Forall_app in Hts as [Hts [[Hp Hb] _]%Forall_cons]. specialize (IH Hts).
  pose proof (turn_announced _ _ t Hp Hb IH) as H.
  assert (listen_turn (listen_run ts new_worker) t = listen_run (ts ++ [t]) new_worker) as E
    by (unfold listen_run; by rewrite fold_left_app).
  rewrite E in H. eapply announced_mono; [|exact H]. intros id [(ts1 & u & ts2 & -> & Hu)|(H1 & H2 & H3)].
  - exists ts1, u, (ts2 ++ [t])%list. split; [by rewrite <- app_assoc|done].
  - by exists ts, t, [].
Qed.

(** After a reload none of whose statements fails the set is the flagged meters. *)
Lemma reload_flagged accepted wk w : no_faults w ->
  exists wk', fst (reloadConfig Marshal getenv ParseFloat accepted wk w) = Ok wk' /\ flagged (w_db w) wk'.
Proof.
  intros Hf. unfold reloadConfig, mbind at 1, M_bind at 1, try at 1. rewrite LoadConfig_ok by done. cbn [fst snd]. cbv zeta.
  unfold putWorkerStatus, refreshPublishSet, MetersForPublish, mbind, M_bind, now, ignore, try.
  rewrite SetSetting_ok by nofault. rewrite query_ok by nofault. eexists. split; [reflexivity|].
  intros id m Hm. cbn [with_restart with_pub with_set publishSet] in Hm.
  apply (fold_insert_keys _ ∅ _ (map_Forall_empty _) (proj2 (Forall_forall (fun m => m ∈ _) _) (fun m H => H))) in Hm as [<- Hm].
  by apply publish_rows in Hm.
Qed.

(** A meter already announced is not announced again: a changed name or unit of
    it never reaches the broker on this connection. *)
Theorem known_not_reannounced (m : Meter) (energy power : option float64) (signal : float64) (p : Publisher) :
  m_EndpointID m ∈ known p ->
  retained r0 (sent (PublishState format_g m energy power signal p)) = retained r0 (sent p).
Proof.
  intros Hk. unfold PublishState. destruct (has_client p); cbn [negb]; [|done].
  rewrite bool_decide_true by done. by destruct energy, power; rewrite ?retained_state.
Qed.
End Run.

Section Theorems.
Context (format_g : float64 -> string) (Marshal : json -> string)
        (getenv : string -> string) (ParseFloat : string -> float64 * bool).
Notation run ts := (listen_run format_g Marshal getenv ParseFloat ts new_worker).
Notation left_unheard := (unheard format_g Marshal getenv ParseFloat).

Lemma targets_prefix host port prefix (ts : list turn) :
  Forall (fun t => target getenv ParseFloat (w_db (tn_world t)) = (host, port, prefix) /\ bigint_ids (w_db (tn_world t))) ts ->
  Forall (fun t => prefix_of getenv ParseFloat (w_db (tn_world t)) = prefix /\ bigint_ids (w_db (tn_world t))) ts.
Proof. intros H. eapply Forall_impl; [exact H|]. intros t [Ht ?]. split; [|done]. by injection Ht. Qed.

(** C20: Which sensors Home Assistant holds.  Over any run of notifications, with
    any databases, any statements failing and the client's connection coming and
    going between them, while the configured broker and discovery prefix stay the
    same: besides the availability topic, the broker retains what it held when the
    worker started on topics that were never addressed since, and discovery
    payloads of meters in the publish set or of meters that left it while the
    client reported no connection (their withdrawal was refused); a meter the
    worker remembers as announced is in the set and retained on its three topics;
    and after one more reload none of whose statements fails, every retained topic
    is one never addressed, or of a meter flagged in the database at that moment,
    or of one that left the set unheard. *)
Theorem retained_are_flagged (host : string) (port : Z) (prefix : string) (r0 : gmap string payload) (ts : list turn) :
  Forall (fun t => target getenv ParseFloat (w_db (tn_world t)) = (host, port, prefix) /\ bigint_ids (w_db (tn_world t))) ts ->
  (forall topic pl, topic <> availabilityTopic -> retained r0 (sent (wk_pub (run ts))) !! topic = Some pl ->
    (r0 !! topic = Some pl /\ untouched topic (sent (wk_pub (run ts)))) \/
    exists m d, d ∈ BuildDiscovery prefix m /\ Topic d = topic /\ pl = PJson (Payload d) /\
      (is_Some (publishSet (run ts) !! m_EndpointID m) \/ left_unheard ts (m_EndpointID m))) /\
  (forall id, id ∈ known (wk_pub (run ts)) -> is_Some (publishSet (run ts) !! id) /\
    forall topic, topic ∈ discovery_topics prefix id -> is_Some (retained r0 (sent (wk_pub (run ts))) !! topic)) /\
  (forall t, no_faults (tn_world t) -> tn_channel t = "winnow_config" ->
    target getenv ParseFloat (w_db (tn_world t)) = (host, port, prefix) -> bigint_ids (w_db (tn_world t)) ->
    forall topic, topic <> availabilityTopic -> is_Some (retained r0 (sent (wk_pub (run (ts ++ [t])))) !! topic) ->
      (is_Some (r0 !! topic) /\ untouched topic (sent (wk_pub (run (ts ++ [t]))))) \/
      exists id, topic ∈ discovery_topics prefix id /\
        ((exists x, meters (w_db (tn_world t)) !! id = Some x /\ mr_publish x = Some true) \/ left_unheard (ts ++ [t]) id)).
Proof.
  intros Hts%targets_prefix. pose proof (run_announced format_g Marshal getenv ParseFloat prefix r0 ts Hts) as Ha.
  split_and!.
  - intros topic pl Hne Hr. destruct (an_retained _ _ _ _ Ha topic pl Hne Hr) as [?|[(m & d & Hm & Hd)|(m & d & Hm & Hd)]];
      [by left|right; exists m, d..]; naive_solver.
  - apply (an_known _ _ _ _ Ha).
  - intros t Hf Hch Ht Hb topic Hne [pl Hpl].
    assert (announced prefix r0 (left_unheard (ts ++ [t])) (run (ts ++ [t]))) as Ha'.
    { apply run_announced, Forall_app. split; [done|]. apply Forall_singleton. split; [by injection Ht|done]. }
    destruct (an_retained _ _ _ _ Ha' topic pl Hne Hpl) as [[? ?]|[(m & d & [m0 Hm] & Hd & <- & _)|(m & d & Hm & Hd & <- & _)]];
      [left; split; [by eexists|done]|right; exists (m_EndpointID m)..];
      (split; [rewrite <- BuildDiscovery_topics; by apply list_elem_of_fmap_2|]); [left|by right].
    destruct (reload_flagged Marshal getenv ParseFloat (tn_accepted t)
      (with_pub (set_link (tn_link t) (wk_pub (run ts))) (run ts)) (tn_world t) Hf) as (wk2 & Ek & Hfl).
    assert (run (ts ++ [t]) = wk2) as E.
    { unfold listen_run at 1. rewrite fold_left_app. cbn [fold_left]. fold (run ts). unfold listen_turn, dispatch.
      rewrite Hch. change (("winnow_config" =? "winnow_config")%string) with true. cbv iota zeta. by rewrite Ek. }
    rewrite E in Hm. exact (Hfl _ _ Hm).
Qed.
End Theorems.

(** A meter is flagged, announced at a number, and its flag taken back. *)
Definition mqtt_DB (flag : bool) : DB :=
  set_settings {["mqtt_host" := "broker"]}
    (set_meters {[42 := mkMeterRow None None None None None (Some flag) None None None]} empty_DB).
Definition publish_then_not : list turn :=
  [mkTurn false true "winnow_config" "" (mkWorld (mqtt_DB true) 7 []);
   mkTurn true true "winnow" "42" (mkWorld (mqtt_DB true) 8 [])].
Definition quiet_run (ts : list turn) : worker :=
  listen_run (fun _ => "") (fun _ => "") (fun _ => "") (fun _ => (f0, true)) ts new_worker.
Definition unflag (link : bool) : turn := mkTurn link link "winnow_config" "" (mkWorld (mqtt_DB false) 9 []).
Definition power_topic : string := "homeassistant/sensor/winnow_42_power/config".

Lemma retained_are_flagged_witness :
  is_Some (retained ∅ (sent (wk_pub (quiet_run publish_then_not))) !! power_topic) /\
  retained ∅ (sent (wk_pub (quiet_run (publish_then_not ++ [unflag true])))) !! power_topic = None.
Proof.
  split; [|vm_compute; reflexivity].
  destruct (retained_are_flagged (fun _ => "") (fun _ => "") (fun _ => "") (fun _ => (f0, true)) "broker" 1883 "homeassistant"
    ∅ publish_then_not) as (_ & H & _).
  { assert (bigint_ids (mqtt_DB true)) as Hb
      by (apply map_Forall_singleton; split; vm_compute; discriminate).
    repeat apply Forall_cons_2; [split; [vm_compute; reflexivity|exact Hb]..|apply Forall_nil_2]. }
  apply (proj2 (H 42 ltac:(apply (bool_decide_unpack _); vm_compute; exact I)) power_topic).
  right. left.
Defined.

(** A meter unflagged during an outage stays with the broker, and so does one
    unflagged while no worker ran: the next worker starts with an empty set and
    withdraws nothing. *)
Example unheard_stays :
  is_Some (retained ∅ (sent (wk_pub (quiet_run (publish_then_not ++ [unflag false; unflag true])))) !! power_topic) /\
  let r1 := retained ∅ (sent (wk_pub (quiet_run publish_then_not))) in
  is_Some (retained r1 (sent (wk_pub (quiet_run [unflag true; unflag true]))) !! power_topic).
Proof. split; vm_compute; by eexists. Qed.
