(* ===== verification/Samples.v ===== *)
(** * Reference and HVAC samples ([internal/db/reference.go], [hvac.go])

    The two sample tables, their idempotent backfills, the gap search, and the
    bounded carry-forward on a per-minute grid.  TimescaleDB's [time_bucket] and
    the minute grid of [time_bucket_gapfill] are parameters; [locf] is the last
    observation on that grid. *)

From S2P Require Import Prelude Float64 Model Calendar Json Config Store Database Deltas.

Definition refCarryLimit : duration := 15 * Minute.

(** ** Writers *)

Definition InsertReferenceSample (entity : string) (ts : time) (powerW : float64) : M unit :=
  exec (fun d _ =>
    set_reference_samples (reference_samples d ++ [mkRefSample ts entity powerW "live"])%list d).

(** The rows a backfill of [entity] over [from, to] replaces. *)
Definition replaced (entity src : string) (from to : time) (e s : string) (t : time) : bool :=
  (e =? entity)%string && (s =? src)%string && (from <=? t) && (t <=? to).

Definition drop_ref (entity : string) (from to : time) (l : list RefSample) : list RefSample :=
  List.filter (fun r => negb (replaced entity "lts_backfill" from to (rs_entity_id r) (rs_src r) (rs_ts r))) l.
Definition drop_hvac (entity : string) (from to : time) (l : list HvacSample) : list HvacSample :=
  List.filter (fun r => negb (replaced entity "history_backfill" from to (hs_entity_id r) (hs_src r) (hs_ts r))) l.

Definition ReplaceBackfillSamples (entity : string) (from to : time) (ts : list time)
    (powerW : list float64) : M unit :=
  exec (fun d _ => set_reference_samples (drop_ref entity from to (reference_samples d)) d) ;;
  match ts with
  | [] => mret tt
  | _ => exec (fun d _ =>
           set_reference_samples
             (reference_samples d ++
                map (fun p => mkRefSample p.1 entity p.2 "lts_backfill") (zip ts powerW))%list d)
  end.

Definition InsertHVACSample (entity : string) (ts : time) (action : string) : M unit :=
  exec (fun d _ => set_hvac_samples (hvac_samples d ++ [mkHvacSample ts entity action "live"])%list d).

Definition ReplaceHVACBackfill (entity : string) (from to : time) (ts : list time)
    (actions : list string) : M unit :=
  exec (fun d _ => set_hvac_samples (drop_hvac entity from to (hvac_samples d)) d) ;;
  match ts with
  | [] => mret tt
  | _ => exec (fun d _ =>
           set_hvac_samples
             (hvac_samples d ++
                map (fun p => mkHvacSample p.1 entity p.2 "history_backfill") (zip ts actions))%list d)
  end.

(** ** Gaps *)

Definition ref_times (entities : list string) (d : DB) : list time :=
  map rs_ts (filter (fun r => rs_entity_id r ∈ entities) (reference_samples d)).
Definition hvac_times (entity : string) (d : DB) : list time :=
  map hs_ts (filter (fun r => hs_entity_id r = entity) (hvac_samples d)).

(** The pairs of neighbours more than [minGap] apart. *)
Fixpoint gaps_of (minGap : duration) (l : list time) : list (time * time) :=
  match l with
  | a :: (b :: _) as l' => if minGap <? b - a then (a, b) :: gaps_of minGap l' else gaps_of minGap l'
  | _ => []
  end.

Fixpoint max_time (l : list time) : option time :=
  match l with
  | [] => None
  | t :: l' => Some (match max_time l' with Some u => Z.max t u | None => t end)
  end.
Fixpoint min_time (l : list time) : option time :=
  match l with
  | [] => None
  | t :: l' => Some (match min_time l' with Some u => Z.min t u | None => t end)
  end.

Section Buckets.
Context (time_bucket : duration -> time -> time).

(** The distinct minutes with a sample at or after an instant, ascending. *)
Definition sample_minutes (since : time) (ts : list time) : list time :=
  sorted_Z (map (time_bucket Minute) (List.filter (fun t => since <=? t) ts)).

(** [sampleGaps] on the times of the selected samples. *)
Definition sampleGaps (times : DB -> list time) (lookback minGap : duration) (capEnd : time)
  : M (list (time * time)) :=
  nw ← now;
  r ← try (query (fun d _ => gaps_of minGap (sample_minutes (nw - lookback) (times d))));
  match r with
  | Err _ => mret []
  | Ok gs =>
      l ← try (query (fun d _ => max_time (times d)));
      mret (match l with
            | Ok (Some last) => if minGap <? Sub capEnd last then (gs ++ [(last, capEnd)])%list else gs
            | _ => gs
            end)
  end.

Definition ReferenceGaps (entities : list string) (lookback minGap : duration) (capEnd : time)
  : M (list (time * time)) :=
  match entities with
  | [] => mret []
  | _ => sampleGaps (ref_times entities) lookback minGap capEnd
  end.
Definition HVACGaps (entity : string) (lookback minGap : duration) (capEnd : time)
  : M (list (time * time)) :=
  if is_empty entity then mret [] else sampleGaps (hvac_times entity) lookback minGap capEnd.

Definition HVACSpan (entity : string) : M (option time * option time) :=
  r ← try (query (fun d _ => (min_time (hvac_times entity d), max_time (hvac_times entity d))));
  mret (match r with Ok p => p | Err _ => (None, None) end).

Definition HVACStatus (entity : string) : M (string * option time) :=
  r ← try (queryRow (fun d _ =>
    head (sort_by (fun a b => hs_ts b <=? hs_ts a)
            (filter (fun r => hs_entity_id r = entity) (hvac_samples d)))));
  mret (match r with Ok s => (hs_action s, Some (hs_ts s)) | Err _ => ("", None) end).

(** ** Feed health *)

Record RefGap := mkRefGap { rg_Start : string; rg_End : string }.
Record ReferenceHealth := mkRefHealth {
  rh_Configured : bool; rh_LastSampleTS : option string; rh_Stale : bool; rh_Gaps7d : list RefGap
}.

Definition reference_health (entities : list string) : M ReferenceHealth :=
  match entities with
  | [] => mret (mkRefHealth false None false [])
  | _ =>
      nw ← now;
      l ← try (query (fun d _ => max_time (ref_times entities d)));
      let last := match l with Ok o => o | Err _ => None end in
      let stale := match last with Some t => 30 * Minute <? Sub nw t | None => true end in
      r ← try (query (fun d t =>
        gaps_of (30 * Minute) (sample_minutes (t - 7 * Day) (ref_times entities d))));
      let gs := match r with Ok gs => gs | Err _ => [] end in
      mret (mkRefHealth true (option_map RFC3339 last) stale
              (map (fun g => mkRefGap (RFC3339 g.1) (RFC3339 g.2)) gs))
  end.

(** ** Bounded carry-forward *)

(** [btrim] strips spaces only. *)
Definition btrim (s : string) : string := trim_right [" "] (trim_left [" "] s).

(** [settingKW]: the numeric setting, 0 when missing or not of the form; a
    number beyond the range of a double is an error of the statement. *)
Definition settingKW (key : string) (d : DB) : result float64 :=
  match settings d !! key with
  | None => Ok f0
  | Some v =>
      match kwFormat (btrim v) with
      | None => Ok f0
      | Some (i, f) =>
          match digits_val (i ++ f)%string 0 with
          | Some m =>
              let e := match span_digits (btrim v) with
                       | (_, EmptyString) => 0
                       | _ => - Z.of_nat (String.length f)
                       end in
              match scale10 false m e with Some x => Ok x | None => Err "out of range" end
          | None => Ok f0
          end
      end
  end.

(** A sample value with its time, carried along the grid. *)
Fixpoint locf {A} (at_ : time -> option A) (last : option A) (grid : list time) : list (time * option A) :=
  match grid with
  | [] => []
  | mt :: grid' =>
      let v := match at_ mt with Some x => Some x | None => last end in
      (mt, v) :: locf at_ v grid'
  end.

(** A row of [per_entity]. *)
Record EntityMinute := mkMinute { em_mt : time; em_entity : string; em_w : option float64; em_is_hvac : bool }.

Definition avg (l : list float64) : option float64 :=
  match l with [] => None | _ => Some (fsum l / of_Z (Z.of_nat (length l)))%f64 end.

(** The average power and the latest sample time of one minute of an entity. *)
Definition minute_power (l : list RefSample) (mt : time) : option (float64 * time) :=
  let here := List.filter (fun r => time_bucket Minute (rs_ts r) =? mt) l in
  match avg (map rs_power_w here), max_time (map rs_ts here) with
  | Some w, Some t => Some (w, t)
  | _, _ => None
  end.
(** The action of the latest sample of one minute, and its time. *)
Definition minute_action (l : list HvacSample) (mt : time) : option (string * time) :=
  option_map (fun s => (hs_action s, hs_ts s))
    (head (sort_by (fun a b => hs_ts b <=? hs_ts a)
             (List.filter (fun r => time_bucket Minute (hs_ts r) =? mt) l))).

Definition bounded {A} (mt : time) (v : option (A * time)) : option A :=
  match v with
  | Some (x, src_ts) => if mt <=? src_ts + refCarryLimit then Some x else None
  | None => None
  end.

Definition hvac_case (action : string) (heat cool : float64) : float64 :=
  if (action =? "heating")%string then heat
  else if (action =? "cooling")%string then cool else f0.

(** The minute grid of [time_bucket_gapfill] for a range of [ts]. *)
Context (grid : time -> time -> list time).

Definition entity_rows (lo hi : time) (l : list RefSample) (e : string) : list EntityMinute :=
  let mine := List.filter (fun r => (rs_entity_id r =? e)%string) l in
  map (fun x => mkMinute x.1 e (bounded x.1 x.2) false) (locf (minute_power mine) None (grid lo hi)).

Definition hvac_rows (lo hi : time) (heat cool : float64) (l : list HvacSample) (e : string)
  : list EntityMinute :=
  map (fun x => mkMinute x.1 e
                  (option_map (fun a => of_Z 1000 * hvac_case a heat cool)%f64 (bounded x.1 x.2)) true)
    (locf (minute_action l) None (grid lo hi)).

(** Distinct names of the samples in range: one group each. *)
Definition names (l : list string) : list string := elements (list_to_set l : gset string).

(** [refBoundedCTEs] over [lo, hi] for the entities. *)
Definition per_entity (entities : list string) (lo hi : time) (d : DB) : result (list EntityMinute) :=
  let refs := List.filter (fun r => bool_decide (rs_entity_id r ∈ entities)
                 && (lo <=? rs_ts r) && (rs_ts r <=? hi)) (reference_samples d) in
  let ent := option_map btrim (settings d !! KeyHVACEntityID) in
  let hvs := List.filter (fun r => bool_decide (Some (hs_entity_id r) = ent)
                 && (lo <=? hs_ts r) && (hs_ts r <=? hi)) (hvac_samples d) in
  match settingKW KeyHVACHeatingKW d, settingKW KeyHVACCoolingKW d with
  | Ok heat, Ok cool =>
      Ok (concat (map (entity_rows lo hi refs) (names (map rs_entity_id refs)))
          ++ concat (map (hvac_rows lo hi heat cool hvs) (names (map hs_entity_id hvs))))%list
  | Err e, _ | _, Err e => Err e
  end.

(** [sum(coalesce(w,0))] per minute, in minute order. *)
Definition minutes_of (rows : list EntityMinute) : list time := sorted_Z (map em_mt rows).
Definition minute_total (rows : list EntityMinute) (mt : time) : float64 :=
  fsum (map (fun r => deref (em_w r)) (List.filter (fun r => em_mt r =? mt) rows)).
Definition per_min (rows : list EntityMinute) : list (time * float64) :=
  map (fun mt => (mt, minute_total rows mt)) (minutes_of rows).

(** A scalar query over [per_entity]; its error leaves the value NULL. *)
Definition scalar {A} (f : list EntityMinute -> option A) (entities : list string) (lo hi : time)
  : M (option A) :=
  r ← try (statement (fun d _ => match per_entity entities lo hi d with
                                 | Ok rows => Ok (f rows, d)
                                 | Err e => Err e
                                 end));
  mret (match r with Ok v => v | Err _ => None end).

Definition kwh_of (ws : list float64) : option float64 :=
  option_map (fun s => s / of_Z 60 / of_Z 1000)%f64 (sql_sum ws).

Definition MonitoredEnergy (entities : list string) (lo hi : time) : M float64 :=
  match entities with
  | [] => mret f0
  | _ => k ← scalar (fun rows => kwh_of (map snd (per_min rows))) entities lo hi;
         mret (match k with Some v => round v 3 | None => f0 end)
  end.

Definition EntityEnergy (entity : string) (lo hi : time) : M float64 :=
  if is_empty entity then mret f0
  else k ← scalar (fun rows => kwh_of (map (fun r => deref (em_w r))
                                (List.filter (fun r => negb (em_is_hvac r)) rows))) [entity] lo hi;
       mret (match k with Some v => round v 3 | None => f0 end).

(** [stddev_samp] is computed by the server. *)
Context (stddev_samp : list float64 -> option float64).

Definition positive_minutes (rows : list EntityMinute) : list float64 :=
  List.filter (fun w => negb (pg_le w f0)) (map snd (per_min rows)).

Definition MonitoredCV (entities : list string) (lo hi : time) : M (option float64) :=
  match entities with
  | [] => mret None
  | _ =>
      k ← scalar (fun rows => let ws := positive_minutes rows in Some (avg ws, stddev_samp ws))
            entities lo hi;
      mret (match k with
            | Some (Some mean, Some sd) =>
                if (mean <=? f0)%f64 then None else Some (round (sd / mean)%f64 3)
            | _ => None
            end)
  end.

Definition MonitoredFloor (entities : list string) (lo hi : time) : M float64 :=
  match entities with
  | [] => mret f0
  | _ => k ← scalar (fun rows => percentile_cont 5 100 (positive_minutes rows)) entities lo hi;
         mret (match k with Some v => round v 1 | None => f0 end)
  end.

(** [AggregateSeries] (series.go): a minute counts only when a monitored entity
    has an in-bound value; a bucket without one is omitted. *)
Definition live_minute (rows : list EntityMinute) (mt : time) : option float64 :=
  let here := List.filter (fun r => em_mt r =? mt) rows in
  if existsb (fun r => negb (em_is_hvac r) && negb (is_nil (em_w r))) here
  then Some (fsum (omap em_w here)) else None.
Definition aggregate (width : duration) (rows : list EntityMinute) : list (time * float64) :=
  let live := map (fun mt => (mt, live_minute rows mt)) (minutes_of rows) in
  omap (fun b =>
    option_map (fun w => (b, round w 1))
      (avg (omap snd (List.filter (fun x => time_bucket width x.1 =? b) live))))
    (sorted_Z (map (fun x => time_bucket width x.1) live)).
Definition AggregateSeries (entities : list string) (lo hi : time) (bucket : string)
  : M (list (string * float64)) :=
  match entities with
  | [] => mret []
  | _ => statement (fun d _ =>
           match per_entity entities lo hi d with
           | Ok rows => Ok (map (fun x => (RFC3339Nano x.1, x.2)) (aggregate (bucketInterval bucket) rows), d)
           | Err e => Err e
           end)
  end.
End Buckets.

(** ** Lemmas *)

Lemma gaps_of_sound minGap l a b :
  Sorted Z.lt l -> (a, b) ∈ gaps_of minGap l ->
  minGap < b - a /\ a ∈ l /\ b ∈ l /\ forall x, x ∈ l -> ~ (a < x < b).
Proof.
  induction l as [|u l IH]; intros Hs Hin; [by apply elem_of_nil in Hin|].
  destruct l as [|v l]; [by apply elem_of_nil in Hin|].
  apply Sorted_inv in Hs as [Hs Hd]. inversion Hd as [|? ? Huv]; subst.
  assert (forall x, x ∈ v :: l -> v <= x) as Hge.
  { apply Sorted_StronglySorted in Hs; [|intros ???; lia]. apply StronglySorted_inv in Hs as [_ Hf].
    rewrite Forall_forall in Hf. intros x [->|Hx]%elem_of_cons; [lia|]. specialize (Hf x Hx). lia. }
  assert ((a, b) ∈ gaps_of minGap (v :: l) \/ (minGap < v - u /\ a = u /\ b = v)) as [Hr|(Hg & -> & ->)].
  { cbn [gaps_of] in Hin. destruct (Z.ltb_spec minGap (v - u)); [|by left].
    apply elem_of_cons in Hin as [[= -> ->]|Hin]; [by right|by left]. }
  - destruct (IH Hs Hr) as (H1 & H2 & H3 & H4). split_and!; [done|by right|by right|].
    intros x [->|Hx]%elem_of_cons; [|by apply H4]. specialize (Hge a H2). lia.
  - split_and!; [done|left|right; left|]. intros x [->|Hx]%elem_of_cons; [lia|].
    specialize (Hge x Hx). lia.
Qed.

Lemma sorted_Z_lt l : Sorted Z.lt (sorted_Z l).
Proof.
  unfold sorted_Z, distinct_Z. set (e := elements _).
  assert (Sorted (fun a b => (a <=? b) = true) (sort_by Z.leb e)) as Hs
    by (apply sort_by_sorted; intros a b; lia).
  assert (NoDup (sort_by Z.leb e)) as Hn by (rewrite sort_by_perm; apply NoDup_elements).
  induction (sort_by Z.leb e) as [|x l' IH]; constructor.
  - apply IH; [by apply Sorted_inv in Hs as [? _]|by apply NoDup_cons in Hn as [_ ?]].
  - apply Sorted_inv in Hs as [_ Hd]. destruct l' as [|y l']; constructor.
    inversion Hd as [|? ? Hxy]; subst. apply Z.leb_le in Hxy.
    apply NoDup_cons in Hn as [Hx _]. assert (x <> y) by (intros ->; apply Hx; left). lia.
Qed.

Lemma sorted_Z_elem l x : x ∈ sorted_Z l <-> x ∈ l.
Proof. unfold sorted_Z, distinct_Z. by rewrite sort_by_perm, elem_of_elements, elem_of_list_to_set. Qed.

(** What [locf] carries was seen at some instant. *)
Lemma locf_from {A} (f : time -> option A) last grid mt v (P : A -> Prop) :
  (forall t x, f t = Some x -> P x) -> (forall x, last = Some x -> P x) ->
  (mt, Some v) ∈ locf f last grid -> P v.
Proof.
  intros Hf. revert last. induction grid as [|g grid IH]; intros last Hl Hin; cbn in Hin;
    [by apply elem_of_nil in Hin|].
  assert (forall x, match f g with Some x => Some x | None => last end = Some x -> P x) as Hn.
  { intros x Hx. destruct (f g) eqn:E; [|by apply Hl]. injection Hx as <-. by eapply Hf. }
  apply elem_of_cons in Hin as [[= _ E]|Hin]; [by apply Hn|by eapply IH].
Qed.

Lemma max_time_elem l t : max_time l = Some t -> t ∈ l.
Proof.
  revert t. induction l as [|x l IH]; intros t H; cbn in H; [done|].
  destruct (max_time l) as [u|]; injection H as <-.
  - destruct (Z.max_spec x u) as [[_ ->]|[_ ->]]; [right; by apply IH|left].
  - left.
Qed.

Lemma minute_power_from tb l mt w t :
  minute_power tb l mt = Some (w, t) -> exists s, s ∈ l /\ rs_ts s = t.
Proof.
  unfold minute_power. destruct (avg _) as [a|]; [|done].
  destruct (max_time _) as [u|] eqn:E; [|done]. intros [= _ <-].
  apply max_time_elem in E. apply list_elem_of_fmap in E as (s & -> & Hs).
  apply list_elem_of_In, filter_In in Hs as [Hs _]. apply list_elem_of_In in Hs. eauto.
Qed.

Lemma minute_action_from tb l mt a t :
  minute_action tb l mt = Some (a, t) -> exists s, s ∈ l /\ hs_ts s = t /\ hs_action s = a.
Proof.
  unfold minute_action. set (h := List.filter _ l).
  pose proof (head_sort_by (fun a b => hs_ts b <=? hs_ts a) h) as Hh.
  destruct (head _) as [s|]; cbn; [|done]. intros [= <- <-]. exists s.
  apply list_elem_of_In, filter_In in Hh as [Hh _]. by apply list_elem_of_In in Hh.
Qed.

Lemma entity_rows_from tb grid lo hi l e r w :
  r ∈ entity_rows tb grid lo hi l e -> em_w r = Some w ->
  em_is_hvac r = false /\ em_entity r = e /\
  exists s, s ∈ l /\ rs_entity_id s = e /\ em_mt r <= rs_ts s + refCarryLimit.
Proof.
  unfold entity_rows. intros ([mt v] & -> & Hin)%list_elem_of_fmap Hw. cbn in *. split; [done|].
  split; [done|]. destruct v as [[x src]|]; cbn in Hw; [|done].
  destruct (Z.leb_spec mt (src + refCarryLimit)); [|done].
  assert (exists s, s ∈ l /\ rs_entity_id s = e /\ rs_ts s = src) as (s & Hs & He & <-); [|eauto].
  refine (locf_from _ _ _ _ (x, src) (fun p => exists s, s ∈ l /\ rs_entity_id s = e /\ rs_ts s = p.2) _ _ Hin).
  - intros t [w' u] Hp. apply minute_power_from in Hp as (s & Hs & <-).
    apply list_elem_of_In, filter_In in Hs as [Hs He]. apply list_elem_of_In in Hs. zbool. eauto.
  - done.
Qed.

Lemma hvac_rows_from tb grid lo hi heat cool l e r w :
  r ∈ hvac_rows tb grid lo hi heat cool l e -> em_w r = Some w ->
  em_is_hvac r = true /\
  exists s, s ∈ l /\ em_mt r <= hs_ts s + refCarryLimit /\
    w = (of_Z 1000 * hvac_case (hs_action s) heat cool)%f64.
Proof.
  unfold hvac_rows. intros ([mt v] & -> & Hin)%list_elem_of_fmap Hw. cbn in *. split; [done|].
  destruct v as [[x src]|]; cbn in Hw; [|done].
  destruct (Z.leb_spec mt (src + refCarryLimit)); [|done]. injection Hw as <-.
  assert (exists s, s ∈ l /\ hs_ts s = src /\ hs_action s = x) as (s & Hs & <- & <-); [|eauto].
  refine (locf_from _ _ _ _ (x, src) (fun p => exists s, s ∈ l /\ hs_ts s = p.2 /\ hs_action s = p.1) _ _ Hin).
  - intros t [a u] Hp. by apply minute_action_from in Hp.
  - done.
Qed.

(** The table after a backfill. *)
Definition backfilled (entity : string) (from to : time) (rows l : list RefSample) : list RefSample :=
  (drop_ref entity from to l ++ rows)%list.
Definition backfill_rows (entity : string) (ts : list time) (powerW : list float64) : list RefSample :=
  map (fun p => mkRefSample p.1 entity p.2 "lts_backfill") (zip ts powerW).

Lemma ReplaceBackfillSamples_ok entity from to ts powerW w :
  no_faults w ->
  exists w', ReplaceBackfillSamples entity from to ts powerW w = (Ok tt, w') /\ no_faults w' /\
    reference_samples (w_db w') =
      backfilled entity from to (backfill_rows entity ts powerW) (reference_samples (w_db w)).
Proof.
  intros H. unfold ReplaceBackfillSamples, mbind, M_bind. step_ok.
  destruct ts as [|t ts].
  - eexists. split; [reflexivity|]. split; [nofault|].
    unfold backfilled, backfill_rows. cbn. by rewrite app_nil_r.
  - step_ok. eexists. split; [reflexivity|]. split; [nofault|]. done.
Qed.

Lemma backfilled_twice entity from to rows l :
  Forall (fun r => rs_entity_id r = entity /\ rs_src r = "lts_backfill" /\ from <= rs_ts r <= to) rows ->
  backfilled entity from to rows (backfilled entity from to rows l) = backfilled entity from to rows l.
Proof.
  intros Hr. unfold backfilled, drop_ref. rewrite List.filter_app.
  assert (List.filter (fun r => negb (replaced entity "lts_backfill" from to (rs_entity_id r) (rs_src r) (rs_ts r))) rows = [])
    as ->.
  { induction Hr as [|r rows (He & Hs & Ht) Hr IH]; [done|]. cbn. unfold replaced at 1.
    rewrite He, Hs, !String.eqb_refl. cbn.
    assert ((from <=? rs_ts r) && (rs_ts r <=? to) = true) as -> by lia. done. }
  rewrite app_nil_r. f_equal. set (f := fun r => _).
  induction l as [|x l IH]; cbn; [done|]. destruct (f x) eqn:E; cbn; [by rewrite E, IH|done].
Qed.

(** ** Properties *)

(** Re-running a statistics backfill changes nothing: when its sample times
    lie in the range, the table after two identical runs is the table after one;
    live rows, other entities' rows and rows outside the range are never touched. *)
Theorem backfill_idempotent (entity : string) (from to : time) (ts : list time)
    (powerW : list float64) (w : World) :
  no_faults w -> Forall (fun t => from <= t <= to) ts ->
  exists w1 w2,
    ReplaceBackfillSamples entity from to ts powerW w = (Ok tt, w1) /\
    ReplaceBackfillSamples entity from to ts powerW w1 = (Ok tt, w2) /\
    reference_samples (w_db w2) = reference_samples (w_db w1) /\
    (forall r, r ∈ reference_samples (w_db w) ->
       (rs_src r <> "lts_backfill" \/ rs_entity_id r <> entity \/ ~ (from <= rs_ts r <= to)) ->
       r ∈ reference_samples (w_db w1)).
Proof.
  intros H Ht. destruct (ReplaceBackfillSamples_ok entity from to ts powerW w H) as (w1 & E1 & H1 & R1).
  destruct (ReplaceBackfillSamples_ok entity from to ts powerW w1 H1) as (w2 & E2 & _ & R2).
  exists w1, w2. split_and!; [done|done| |].
  - rewrite R2, R1. apply backfilled_twice. unfold backfill_rows. apply Forall_forall.
    intros r ([t p] & -> & Hin)%list_elem_of_fmap. cbn. split; [done|]. split; [done|].
    apply elem_of_zip_l in Hin. rewrite Forall_forall in Ht. by apply Ht.
  - intros r Hr Hd. rewrite R1. unfold backfilled. apply elem_of_app. left. unfold drop_ref.
    apply list_elem_of_In, filter_In. split; [by apply list_elem_of_In|]. unfold replaced.
    apply negb_true_iff. apply not_true_iff_false. intros Hx. zbool.
    destruct Hd as [?|[?|?]]; [congruence..|lia].
Qed.

Lemma backfill_idempotent_witness :
  exists w1 w2,
    ReplaceBackfillSamples "sensor.a" 0 Hour [0; Minute] [f1; f1] (mkWorld empty_DB 0 []) = (Ok tt, w1) /\
    ReplaceBackfillSamples "sensor.a" 0 Hour [0; Minute] [f1; f1] w1 = (Ok tt, w2) /\
    reference_samples (w_db w2) = reference_samples (w_db w1).
Proof.
  destruct (backfill_idempotent "sensor.a" 0 Hour [0; Minute] [f1; f1] (mkWorld empty_DB 0 []))
    as (w1 & w2 & E1 & E2 & R & _).
  - constructor.
  - repeat constructor; discriminate.
  - exists w1, w2. by split_and!.
Defined.

(** C34: The bounded carry: whatever minute grid the server uses, a minute of a
    monitored entity has a value only if a real sample of that entity in the
    queried range is at most fifteen minutes older than the minute, and an HVAC
    minute only if a sample of the configured thermostat is; a dead feed is never
    extended further. *)
Theorem carry_is_bounded (time_bucket : duration -> time -> time) (grid : time -> time -> list time)
    (entities : list string) (lo hi : time) (d : DB) (rows : list EntityMinute)
    (r : EntityMinute) (w : float64) :
  per_entity time_bucket grid entities lo hi d = Ok rows -> r ∈ rows -> em_w r = Some w ->
  if em_is_hvac r
  then exists s, s ∈ hvac_samples d /\ Some (hs_entity_id s) = option_map btrim (settings d !! KeyHVACEntityID) /\
         lo <= hs_ts s <= hi /\ em_mt r <= hs_ts s + 15 * Minute
  else exists s, s ∈ reference_samples d /\ rs_entity_id s = em_entity r /\ em_entity r ∈ entities /\
         lo <= rs_ts s <= hi /\ em_mt r <= rs_ts s + 15 * Minute.
Proof.
  unfold per_entity. destruct (settingKW KeyHVACHeatingKW d) as [heat|]; [|done].
  destruct (settingKW KeyHVACCoolingKW d) as [cool|]; [|done]. intros [= <-] Hr Hw.
  apply elem_of_app in Hr as [Hr|Hr]; apply list_elem_of_In, in_concat in Hr as (l & Hl & Hr);
    apply in_map_iff in Hl as (e & <- & _); apply list_elem_of_In in Hr.
  - destruct (entity_rows_from _ _ _ _ _ _ _ _ Hr Hw) as (-> & He & s & Hs & Hse & Hle).
    exists s. apply list_elem_of_In, filter_In in Hs as [Hs Hc]. apply list_elem_of_In in Hs. zbool.
    match goal with H : bool_decide _ = true |- _ => apply bool_decide_eq_true in H end.
    split_and!; [done|congruence|congruence|lia|lia|done].
  - destruct (hvac_rows_from _ _ _ _ _ _ _ _ _ _ Hr Hw) as (-> & s & Hs & Hle & _).
    exists s. apply list_elem_of_In, filter_In in Hs as [Hs Hc]. apply list_elem_of_In in Hs. zbool.
    match goal with H : bool_decide _ = true |- _ => apply bool_decide_eq_true in H end.
    split_and!; [done|done|lia|lia|done].
Qed.

(** One live sample, a grid of twenty minutes. *)
Definition one_sample_DB : DB :=
  set_reference_samples [mkRefSample 0 "sensor.a" (of_Z 500) "live"] empty_DB.
Definition minute_grid (lo hi : time) : list time := map (fun k => lo + Z.of_nat k * Minute) (seq 0 20).

Lemma carry_is_bounded_witness :
  exists s, s ∈ reference_samples one_sample_DB /\ rs_entity_id s = "sensor.a" /\ "sensor.a" ∈ ["sensor.a"] /\
    0 <= rs_ts s <= 20 * Minute /\ 15 * Minute <= rs_ts s + 15 * Minute.
Proof.
  destruct (per_entity floor_bucket minute_grid ["sensor.a"] 0 (20 * Minute) one_sample_DB) as [rows|] eqn:E;
    [|vm_compute in E; discriminate E].
  refine (carry_is_bounded floor_bucket minute_grid ["sensor.a"] 0 (20 * Minute) one_sample_DB rows
    (mkMinute (15 * Minute) "sensor.a" (Some (of_Z 500)) false) (of_Z 500) E _ _); [|reflexivity].
  vm_compute in E. injection E as <-. vm_compute.
  repeat first [apply list_elem_of_here | apply list_elem_of_further].
Defined.

(** The gap search is sound: each interior gap is longer than the minimum,
    its edges are minutes that have samples, and no sample of the looked-back
    range falls in a minute strictly inside it; the extra last gap, if any, runs
    from the latest sample to the cap and is longer than the minimum too. *)
Theorem sampleGaps_sound (time_bucket : duration -> time -> time) (times : DB -> list time)
    (lookback minGap : duration) (capEnd a b : time) (w : World) (gs : list (time * time)) :
  no_faults w -> fst (sampleGaps time_bucket times lookback minGap capEnd w) = Ok gs ->
  (a, b) ∈ gs ->
  (minGap < b - a /\
   (forall t, t ∈ times (w_db w) -> w_now w - lookback <= t ->
      ~ (a < time_bucket Minute t < b)) /\
   (exists t u, t ∈ times (w_db w) /\ u ∈ times (w_db w) /\
      a = time_bucket Minute t /\ b = time_bucket Minute u)) \/
  (b = capEnd /\ minGap < Sub capEnd a /\ a ∈ times (w_db w)).
Proof.
  intros Hf. unfold sampleGaps, mbind, M_bind, now, try. do 2 step_ok. cbn [fst].
  intros [= <-] Hin.
  set (mins := sample_minutes time_bucket (w_now w - lookback) (times (w_db w))) in *.
  assert ((a, b) ∈ gaps_of minGap mins \/ (b = capEnd /\ minGap < Sub capEnd a /\ a ∈ times (w_db w)))
    as [Hg|?]; [|left|by right].
  { destruct (max_time (times (w_db w))) as [l|] eqn:El; [|by left].
    destruct (Z.ltb_spec minGap (Sub capEnd l)); [|by left].
    apply elem_of_app in Hin as [?|Hin]; [by left|right].
    apply list_elem_of_singleton in Hin as [= -> ->]. by apply max_time_elem in El. }
  destruct (gaps_of_sound minGap mins a b (sorted_Z_lt _) Hg) as (H1 & H2 & H3 & H4).
  assert (forall x, x ∈ mins <-> exists t, t ∈ times (w_db w) /\ w_now w - lookback <= t /\ x = time_bucket Minute t) as Hm.
  { intros x. unfold mins, sample_minutes. rewrite sorted_Z_elem. split.
    - intros (t & -> & Ht)%list_elem_of_fmap. apply list_elem_of_In, filter_In in Ht as [Ht Hl].
      apply list_elem_of_In in Ht. zbool. eauto.
    - intros (t & Ht & Hl & ->). apply list_elem_of_fmap. exists t. split; [done|].
      apply list_elem_of_In, filter_In. split; [by apply list_elem_of_In|lia]. }
  split; [done|]. split.
  - intros t Ht Hl. apply H4, Hm. eauto.
  - apply Hm in H2 as (t & Ht & _ & ->). apply Hm in H3 as (u & Hu & _ & ->). eauto 8.
Qed.

Definition two_samples_DB : DB :=
  set_reference_samples [mkRefSample 0 "sensor.a" (of_Z 500) "live";
                         mkRefSample (2 * Hour) "sensor.a" (of_Z 500) "live"] empty_DB.

Lemma sampleGaps_sound_witness :
  (Hour < 2 * Hour - 0 /\
   (forall t, t ∈ ref_times ["sensor.a"] two_samples_DB -> 3 * Hour - Day <= t ->
      ~ (0 < floor_bucket Minute t < 2 * Hour)) /\
   (exists t u, t ∈ ref_times ["sensor.a"] two_samples_DB /\ u ∈ ref_times ["sensor.a"] two_samples_DB /\
      0 = floor_bucket Minute t /\ 2 * Hour = floor_bucket Minute u)) \/
  (2 * Hour = 3 * Hour /\ Hour < Sub (3 * Hour) 0 /\ 0 ∈ ref_times ["sensor.a"] two_samples_DB).
Proof.
  apply (sampleGaps_sound floor_bucket (ref_times ["sensor.a"]) Day Hour (3 * Hour) 0 (2 * Hour)
    (mkWorld two_samples_DB (3 * Hour) []) [(0, 2 * Hour)]).
  - constructor.
  - vm_compute. reflexivity.
  - left.
Defined.

(** The tolerance for whitespace differs between the dashboard and the
    estimate: the dashboard's parser strips every Unicode space, SQL's [btrim]
    only spaces, so a value pasted with a tab is 3.5 kW as configured and 0 kW in
    every query, where the two are documented to agree. *)
Theorem kw_whitespace_divergence :
  let v := String (chr 9) "3.5" in
  parseKW v = lit 7 2 /\
  settingKW KeyHVACHeatingKW (set_settings {[KeyHVACHeatingKW := v]} empty_DB) = Ok f0.
Proof. vm_compute. done. Qed.

(** On every value whose ends carry no whitespace other than spaces, the two
    agree: a query that runs uses exactly the number the configuration shows. *)
Theorem kw_agreement (v : string) (d : DB) (key : string) (x : float64) :
  settings d !! key = Some v -> TrimSpace v = btrim v ->
  settingKW key d = Ok x -> x = parseKW v.
Proof.
  intros Hv Ht. unfold settingKW, parseKW. rewrite Hv, Ht. set (s := btrim v).
  unfold kwFormat, kwValue. destruct (span_digits s) as [i r] eqn:E.
  destruct r as [|c r].
  - destruct (is_empty i); [by intros [= <-]|]. cbn [String.append].
    destruct (digits_val i 0) as [m|]; [|by intros [= <-]].
    destruct (scale10 false m 0); [by intros [= <-]|done].
  - destruct (Ascii.eqb_spec c ".") as [->|Hc].
    + destruct (span_digits r) as [f r'] eqn:E'. apply span_digits_app in E'.
      destruct r' as [|c' r']; [|by intros [= <-]]. rewrite str_app_nil_r in E'. subst r.
      destruct (is_empty f); [by intros [= <-]|].
      destruct (digits_val (i ++ f) 0) as [m|]; [|by intros [= <-]].
      destruct (scale10 false m _); [by intros [= <-]|done].
    + assert (forall (A : Type) (a b : A), match c with "." => a | _ => b end%char = b) as Hm
        by (intros A a b; destruct c as [[] [] [] [] [] [] [] []]; congruence).
      rewrite !Hm. by intros [= <-].
Qed.

Lemma kw_agreement_witness : lit 7 2 = parseKW " 3.50 ".
Proof.
  apply (kw_agreement " 3.50 " (set_settings {["k" := " 3.50 "]} empty_DB) "k" (lit 7 2));
    vm_compute; reflexivity.
Defined.
