(* ===== verification/Correlate.v ===== *)
(** * Ranking meters ([internal/db/correlate.go], one window)

    The rate-ratio ranking [Correlation], the ranking against the monitored
    power [CorrelationVsReferenceAux] with its regression, confidence and lag
    stages, and the statistics helpers.  PostgreSQL's regression aggregates
    ([corr], [regr_*]) are a parameter; so are [time_bucket], the gap-fill grid,
    [stddev_samp] and [math.Erfinv].  Stable sorting is [sort_by]: it is the order
    of [sort.SliceStable] where the scores are comparable (not NaN). *)

From S2P Require Import Prelude Float64 Rounding Model Calendar Store Ert Database Deltas Samples Confidence.

Definition epsilon : float64 := lit 1 (10 ^ 9).

(** ** Helpers *)

Definition gmax (a b : float64) : float64 := if (b <? a)%f64 then a else b.
Definition mean (xs : list float64) : float64 :=
  match xs with [] => f0 | _ => (fsum xs / of_Z (Z.of_nat (length xs)))%f64 end.
Definition minOf (xs : list float64) : float64 :=
  match xs with
  | [] => f0
  | x :: _ => fold_left (fun m x => if (x <? m)%f64 then x else m) xs x
  end.
Definition stddev (xs : list float64) : float64 :=
  match xs with
  | [] | [_] => f0
  | _ => let m := mean xs in
         let s := fold_left (fun s x => s + (x - m) * (x - m))%f64 xs f0 in
         fsqrt (s / of_Z (Z.of_nat (length xs) - 1))%f64
  end.

(** [less] as the order of a stable sort. *)
Definition le_of {A} (less : A -> A -> bool) (a b : A) : bool := negb (less b a).

(** [first_seen] of the oldest and [last_seen] of the newest meter. *)
Definition span_of (d : DB) : option (time * time) :=
  let rows := map snd (map_to_list (meter_index d)) in
  match rows with
  | [] => None
  | x :: l => Some (foldr (fun r t => Z.min (ix_first_seen r) t) (ix_first_seen x) l,
                    foldr (fun r t => Z.max (ix_last_seen r) t) (ix_last_seen x) l)
  end.
Definition dataSpan : M (option (time * time)) :=
  r ← try (query (fun d _ => span_of d));
  mret (match r with Ok v => v | Err _ => None end).

(** ** The rate-ratio ranking *)

Section Bucketed.
Context (time_bucket : duration -> time -> time).

(** The rise and the packets of one meter in the window: NULLs when it has no
    row there. *)
Definition window_movement (start fin : time) (id : Z) (d : DB) : option float64 * option Z :=
  let rows := List.filter (fun a => (start <=? ag_bucket a) && (ag_bucket a <=? fin))
                (agg_rows time_bucket Minute id d) in
  match sql_max (map ag_max rows), sql_min (map ag_min rows) with
  | Some hi, Some lo => (Some (hi - lo)%f64, Some (foldr (fun a n => ag_n a + n) 0 rows))
  | _, _ => (None, None)
  end.

Definition corr_row (start fin : time) (windowHours outsideHours : float64) (d : DB) (id : Z) (ix : IndexRow)
  : CorrRow :=
  let '(windowDelta, windowPackets) := window_movement start fin id d in
  let totalDelta := match ix_max_consumption ix, ix_min_consumption ix with
                    | Some hi, Some lo => Some (hi - lo)%f64 | _, _ => None end in
  let m := meters d !! id in
  let wd := deref windowDelta in
  let outsideMovement := (deref totalDelta - wd)%f64 in
  let outsideMovement := if (outsideMovement <? f0)%f64 then f0 else outsideMovement in
  mkCorrRow id (Commodity (ix_endpoint_type ix)) (ix_msg_type ix) (ix_endpoint_type ix) None
    (round (wd / windowHours / gmax (outsideMovement / outsideHours) epsilon)%f64 3)
    wd
    (round (wd / windowHours)%f64 4)
    (round (outsideMovement / outsideHours)%f64 4)
    (from_opt 0 windowPackets)
    None None None None None None None None None None None ∅
    (from_opt f1 (m ≫= mr_pub_multiplier)) (m ≫= mr_pub_unit)
    (from_opt false (m ≫= mr_is_mine)) (from_opt false (m ≫= mr_publish)).

Definition score_less (a b : CorrRow) : bool :=
  if negb (c_Score a =? c_Score b)%f64 then (c_Score b <? c_Score a)%f64
  else (c_WindowDelta b <? c_WindowDelta a)%f64.

Definition window_hours (start fin : time) : float64 :=
  let h := Hours (Sub fin start) in if (h <=? f0)%f64 then epsilon else h.
Definition outside_hours (lo hi : time) (windowHours : float64) : float64 :=
  let h := (Hours (Sub hi lo) - windowHours)%f64 in if (h <? epsilon)%f64 then epsilon else h.

Definition Correlation (start fin : time) : M (list CorrRow) :=
  sp ← dataSpan;
  match sp with
  | None => mret []
  | Some (lo, hi) =>
      let wh := window_hours start fin in
      let oh := outside_hours lo hi wh in
      query (fun d _ =>
        sort_by (le_of score_less)
          (map (fun kv => corr_row start fin wh oh d kv.1 kv.2) (map_to_list (meter_index d))))
  end.
End Bucketed.

(** ** The ranking against the monitored power *)

(** The screen's verdict on one meter ([daily.go]) and the context of a ranking. *)
Record PhysicsSignal := mkPhysics { ps_Score : float64; ps_Pass : bool }.
Record IdentifyAux := mkAux { ia_Physics : option (gmap Z PhysicsSignal); ia_SnoopK : Z }.

(** The aggregates of PostgreSQL over the pairs (delta, reference energy). *)
Record pgRegr := mkPg {
  pg_corr : option float64; pg_slope : option float64; pg_intercept : option float64; pg_r2 : option float64;
  pg_sxx : option float64; pg_syy : option float64; pg_sxy : option float64 }.
Record regrRow := mkRegr {
  rr_r : option float64; rr_slope : option float64; rr_intercept : option float64; rr_r2 : option float64;
  rr_p10 : option float64;
  rr_sxx : option float64; rr_syy : option float64; rr_sxy : option float64;
  rr_xbar : option float64; rr_ybar : option float64;
  rr_nbuckets : option Z }.

(** The width of the aggregate [deltaSource] reads. *)
Definition deltaSource (bucketMin : Z) : duration := if 60 <=? bucketMin then Hour else Minute.

(** Updates of a row. *)
Definition set_fit (r r2 slope mult bw mkwh : option float64) (fl : option bool) (x : CorrRow) : CorrRow :=
  mkCorrRow (c_EndpointID x) (c_Commodity x) (c_MsgType x) (c_EndpointType x) r
    (c_Score x) (c_WindowDelta x) (c_WindowRate x) (c_BaselineRate x) (c_WindowPackets x) (c_PlugEnergyWh x)
    r2 slope bw mult (c_AnchorMultiplier x) (c_UtilityMultiplier x) mkwh fl (c_LagBuckets x)
    (c_Confidence x) (c_ConfidenceParts x) (c_PubMultiplier x) (c_PubUnit x) (c_IsMine x) (c_Publish x).
Definition set_conf (conf : option float64) (parts : gmap string float64) (lag : option Z) (x : CorrRow) : CorrRow :=
  mkCorrRow (c_EndpointID x) (c_Commodity x) (c_MsgType x) (c_EndpointType x) (c_R x)
    (c_Score x) (c_WindowDelta x) (c_WindowRate x) (c_BaselineRate x) (c_WindowPackets x) (c_PlugEnergyWh x)
    (c_R2 x) (c_Slope x) (c_BaselineW x) (c_SuggestedMultiplier x) (c_AnchorMultiplier x) (c_UtilityMultiplier x)
    (c_MeterEnergyKwh x) (c_FloorOK x) lag
    conf parts (c_PubMultiplier x) (c_PubUnit x) (c_IsMine x) (c_Publish x).

(** The slope: Deming's, or the least-squares one when it is not positive. *)
Definition slope_of (rr : regrRow) : float64 :=
  let slope := match rr_sxx rr, rr_syy rr, rr_sxy rr with
               | Some sxx, Some syy, Some sxy => demingSlope sxx syy sxy
               | _, _, _ => f0 end in
  if (slope <=? f0)%f64 then match rr_slope rr with Some s => s | None => slope end else slope.

(** Calibration, baseline and floor check of one row from its regression. *)
Definition fit_row (floor bucketHours : float64) (rr : regrRow) (x : CorrRow) : CorrRow :=
  let r := option_map (fun v => round v 3) (rr_r rr) in
  let r := match r with Some _ => r | None => c_R x end in
  let r2 := option_map (fun v => round v 3) (rr_r2 rr) in
  let r2 := match r2 with Some _ => r2 | None => c_R2 x end in
  let slope := slope_of rr in
  if (f0 <? slope)%f64 then
    let mult := round (f1 / (of_Z 1000 * slope))%f64 8 in
    let intercept := match rr_xbar rr, rr_ybar rr with
                     | Some xb, Some yb => (yb - slope * xb)%f64
                     | _, _ => match rr_intercept rr with Some i => i | None => f0 end end in
    let fl := match rr_p10 rr with
              | Some p10 => if (f0 <? floor)%f64
                            then Some (lit 8 10 * floor <=? p10 / slope / bucketHours)%f64
                            else c_FloorOK x
              | None => c_FloorOK x end in
    set_fit r r2 (Some (round slope 6)) (Some mult) (Some (round (intercept / slope / bucketHours)%f64 1))
      (Some (round (c_WindowDelta x * mult)%f64 3)) fl x
  else set_fit r r2 (c_Slope x) (c_SuggestedMultiplier x) (c_BaselineW x) (c_MeterEnergyKwh x) (c_FloorOK x) x.

(** [applyPhysics]: the physics score or the violation of a screened meter. *)
Definition applyPhysics (aux : option IdentifyAux) (id : Z) : option float64 * bool :=
  match aux with
  | Some a => match ia_Physics a with
              | Some ph => match ph !! id with
                           | Some p => if ps_Pass p then (Some (ps_Score p), false) else (None, true)
                           | None => (None, false) end
              | None => (None, false) end
  | None => (None, false)
  end.

Section Scoring.
Context (Erfinv : float64 -> float64)
        (aux : option IdentifyAux) (monitoredKwh : float64) (nCandidates : Z) (refCV : option float64).

Definition signals (nBuckets : Z) (lag : option float64) (x : CorrRow) : confidenceSignals :=
  let '(physics, violation) := applyPhysics aux (c_EndpointID x) in
  mkSignals (c_R x) (c_R2 x) (negb (is_nil (c_SuggestedMultiplier x)))
    (from_opt f0 (c_MeterEnergyKwh x)) monitoredKwh (c_FloorOK x) (c_WindowPackets x) nBuckets nCandidates
    (Some (changePointCoherence (c_WindowRate x) (c_BaselineRate x))) lag None physics violation refCV.

(** A meter without a correlation has no confidence, unless it passed the screen. *)
Definition score_row (rr : option regrRow) (x : CorrRow) : CorrRow :=
  match rr, c_R x with
  | Some rr, Some _ =>
      let '(conf, parts) := combineConfidence Erfinv (signals (from_opt 0 (rr_nbuckets rr)) None x) in
      set_conf (Some conf) parts (c_LagBuckets x) x
  | _, _ =>
      match applyPhysics aux (c_EndpointID x) with
      | (Some score, _) =>
          let conf := clamp01 (lit 1 2 * score)%f64 in
          set_conf (Some conf) (<["physics" := round score 3]> (<["confidence" := round conf 3]> ∅)) (c_LagBuckets x) x
      | (None, _) => x
      end
  end.

(** One candidate of the lag stage: unchanged below four points; [None] is the
    run-time error of [crossCorrLag]. *)
Definition lag_row (s : list float64 * list float64) (x : CorrRow) : option CorrRow :=
  if Nat.ltb (length s.1) 4 then Some x
  else match crossCorrLag s.1 s.2 5 with
       | None => None
       | Some (lag, _) =>
           let '(conf, parts) := combineConfidence Erfinv
             (signals (Z.of_nat (length s.1)) (Some (lagPenalty lag 5)) x) in
           Some (set_conf (Some conf) parts (Some lag) x)
       end.

(** The indices of the eight best rows by confidence. *)
Definition top_rows (base : list CorrRow) : list nat :=
  let conf i := match base !! i with Some x => deref (c_Confidence x) | None => f0 end in
  let idx := List.filter (fun i => match base !! i with Some x => negb (is_nil (c_Confidence x)) | None => false end)
               (seq 0 (length base)) in
  take 8 (sort_by (le_of (fun a b => (conf b <? conf a)%f64)) idx).

Fixpoint enrich_loop (series : gmap Z (list float64 * list float64)) (idx : list nat) (base : list CorrRow)
  : option (list CorrRow) :=
  match idx with
  | [] => Some base
  | i :: idx' =>
      match base !! i with
      | None => enrich_loop series idx' base
      | Some x =>
          match series !! c_EndpointID x with
          | None => enrich_loop series idx' base
          | Some s => match lag_row s x with
                      | None => None
                      | Some x' => enrich_loop series idx' (<[i := x']> base)
                      end
          end
      end
  end.
End Scoring.

Definition conf_less (a b : CorrRow) : bool :=
  let ci := deref (c_Confidence a) in let cj := deref (c_Confidence b) in
  if negb (ci =? cj)%f64 then (cj <? ci)%f64 else (c_Score b <? c_Score a)%f64.

Section Reference.
Context (time_bucket : duration -> time -> time) (grid : time -> time -> list time)
        (stddev_samp : list float64 -> option float64) (Erfinv : float64 -> float64)
        (pg_regr : list (float64 * float64) -> pgRegr).

(** [ref]: the monitored energy per bucket, in Wh. *)
Definition ref_energy (width : duration) (rows : list EntityMinute) : gmap Z float64 :=
  list_to_map (map (fun b =>
    let ws := map snd (List.filter (fun x => time_bucket width x.1 =? b) (per_min rows)) in
    (b, (fsum ws / of_Z 60)%f64))
    (sorted_Z (map (fun x => time_bucket width x.1) (per_min rows)))).

(** [mb]: the maximum of the counter per bucket, in bucket order. *)
Definition mb_rows (bucketMin : Z) (start fin : time) (id : Z) (d : DB) : list (time * float64 * Z) :=
  coarsen (time_bucket (bucketMin * Minute))
    (List.filter (fun a => (start <=? ag_bucket a) && (ag_bucket a <=? fin))
       (agg_rows time_bucket (deltaSource bucketMin) id d)).

(** The pairs (delta, energy) of one meter, in bucket order. *)
Definition aligned_pairs (bucketMin : Z) (start fin : time) (ref : gmap Z float64) (d : DB) (id : Z) (ix : IndexRow)
  : list (float64 * float64) :=
  omap (fun x => option_map (fun e => (x.2, e)) (ref !! x.1.1))
    (glitch_clean_simple (meter_deltas (counterModulus (ix_msg_type ix)) (mb_rows bucketMin start fin id d))).

Definition regr_row (l : list (float64 * float64)) : option regrRow :=
  if Nat.ltb (length l) 5 then None
  else let g := pg_regr l in
       Some (mkRegr (pg_corr g) (pg_slope g) (pg_intercept g) (pg_r2 g) (percentile_cont 1 10 (map fst l))
               (pg_sxx g) (pg_syy g) (pg_sxy g) (avg (map snd l)) (avg (map fst l)) (Some (Z.of_nat (length l)))).

(** [per_entity], then a pure query over its rows. *)
Definition over_reference {A} (entities : list string) (start fin : time)
    (f : list EntityMinute -> DB -> A) : M A :=
  statement (fun d _ => match per_entity time_bucket grid entities start fin d with
                        | Ok rows => Ok (f rows d, d)
                        | Err e => Err e
                        end).

Definition regressions (entities : list string) (start fin : time) (bucketMin : Z) : M (gmap Z regrRow) :=
  over_reference entities start fin (fun rows d =>
    let ref := ref_energy (bucketMin * Minute) rows in
    omap regr_row (map_imap (fun id ix => Some (aligned_pairs bucketMin start fin ref d id ix)) (meter_index d))).

Definition alignedSeries (ids : list Z) (entities : list string) (start fin : time) (bucketMin : Z)
  : M (gmap Z (list float64 * list float64)) :=
  match ids, entities with
  | [], _ | _, [] => mret ∅
  | _, _ =>
      over_reference entities start fin (fun rows d =>
        let ref := ref_energy (bucketMin * Minute) rows in
        omap (fun l => match l with [] => None | _ => Some (map fst l, map snd l) end)
          (map_imap (fun id ix => if bool_decide (id ∈ ids)
                                  then Some (aligned_pairs bucketMin start fin ref d id ix) else None)
             (meter_index d)))
  end.

(** [None] is a run-time error, which no caller recovers from. *)
Definition enrichLag (base : list CorrRow) (entities : list string) (start fin : time) (bucketMin : Z)
    (monitoredKwh : float64) (nCandidates : Z) (refCV : option float64) (aux : option IdentifyAux)
  : M (option (list CorrRow)) :=
  let idx := top_rows base in
  match idx with
  | [] => mret (Some base)
  | _ =>
      r ← try (alignedSeries (omap (fun i => c_EndpointID <$> base !! i) idx) entities start fin bucketMin);
      mret (match r with
            | Err _ => Some base
            | Ok series => enrich_loop Erfinv aux monitoredKwh nCandidates refCV series idx base
            end)
  end.

Definition CorrelationVsReferenceAux (entities : list string) (start fin : time) (bucketMin : Z)
    (electricOnly : bool) (aux : option IdentifyAux) : M (option (list CorrRow * float64)) :=
  base ← Correlation time_bucket start fin;
  let base := if electricOnly then List.filter (fun r => (c_Commodity r =? "electric")%string) base else base in
  floor ← MonitoredFloor time_bucket grid entities start fin;
  match entities with
  | [] => mret (Some (base, f0))
  | _ =>
      let bucketMin := if bucketMin <=? 0 then 1 else bucketMin in
      let bucketHours := (of_Z bucketMin / of_Z 60)%f64 in
      monitoredKwh ← MonitoredEnergy time_bucket grid entities start fin;
      r ← try (regressions entities start fin bucketMin);
      let reg := match r with Ok m => m | Err _ => ∅ end in
      let base := map (fun x => match reg !! c_EndpointID x with
                                | Some rr => fit_row floor bucketHours rr x | None => x end) base in
      let nCandidates := Z.of_nat (length (List.filter (fun x => negb (is_nil (c_R x))) base)) in
      let nCandidates := match aux with
                         | Some a => if 0 <? ia_SnoopK a then ia_SnoopK a else nCandidates
                         | None => nCandidates end in
      refCV ← MonitoredCV time_bucket grid stddev_samp entities start fin;
      let base := map (fun x => score_row Erfinv aux monitoredKwh nCandidates refCV (reg !! c_EndpointID x) x) base in
      o ← enrichLag base entities start fin bucketMin monitoredKwh nCandidates refCV aux;
      mret (option_map (fun base => (sort_by (le_of conf_less) base, floor)) o)
  end.

Definition CorrelationVsReference (entities : list string) (start fin : time) (bucketMin : Z) (electricOnly : bool)
  : M (option (list CorrRow * float64)) :=
  CorrelationVsReferenceAux entities start fin bucketMin electricOnly None.
End Reference.

(** ** Lemmas *)

Lemma fltb_asym x y : fltb x y = true -> fltb y x = false.
Proof.
  intros H. destruct (fltb y x) eqn:E; [exfalso|done]. eapply flt_not_fle; [exact H|by apply flt_le].
Qed.

Lemma feqb_sym x y : feqb x y = feqb y x.
Proof.
  assert (forall a b, feqb a b = true -> feqb b a = true) as Hs.
  { intros a b. destruct a as [[]|[]| |[] m e], b as [[]|[]| |[] m' e']; try done; unfold feqb, SpecFloat.SFeqb; cbn;
      rewrite (Z.compare_antisym e e'); destruct (Z.compare e e') eqn:Ee; try done; cbn;
      change (Pos.compare_cont Eq m m') with (Pos.compare m m'); change (Pos.compare_cont Eq m' m) with (Pos.compare m' m);
      rewrite (Pos.compare_antisym m m'); by destruct (Pos.compare m m'). }
  apply eq_true_iff_eq. split; apply Hs.
Qed.

(** A lexicographic comparison on two keys never holds both ways. *)
Lemma le_of_total {A} (less : A -> A -> bool) :
  (forall a b, less a b = true -> less b a = false) ->
  forall a b, le_of less a b = true \/ le_of less b a = true.
Proof. intros H a b. unfold le_of. destruct (less b a) eqn:E; [rewrite (H _ _ E)|]; auto. Qed.

Lemma lex_asym {A} (k1 k2 : A -> float64) a b :
  let less x y := if negb (k1 x =? k1 y)%f64 then (k1 y <? k1 x)%f64 else (k2 y <? k2 x)%f64 in
  less a b = true -> less b a = false.
Proof.
  cbv beta zeta. rewrite (feqb_sym (k1 b)). destruct (negb _); apply fltb_asym.
Qed.

Lemma dataSpan_ok w : no_faults w ->
  dataSpan w = (Ok (span_of (w_db w)), mkWorld (w_db w) (w_now w) (tail (w_faults w))).
Proof. intros H. unfold dataSpan, try, mbind, M_bind. by rewrite query_ok. Qed.

Lemma set_conf_id c p l x : c_EndpointID (set_conf c p l x) = c_EndpointID x.
Proof. done. Qed.

(** The lag stage fails on exactly four aligned points. *)
Lemma lag_row_none Erfinv aux mk nc cv s x :
  length s.1 = length s.2 -> lag_row Erfinv aux mk nc cv s x = None <-> length s.1 = 4%nat.
Proof.
  intros Hl. unfold lag_row. destruct (Nat.ltb_spec (length s.1) 4) as [H4|H4]; [split; [done|lia]|].
  destruct (crossCorrLag s.1 s.2 5) as [[lag r]|] eqn:E.
  - split; [destruct (combineConfidence _ _); done|]. intros H.
    assert (crossCorrLag s.1 s.2 5 = None) as E'; [|congruence].
    apply crossCorrLag_none; [done|done|lia|lia].
  - split; [|done]. intros _. apply crossCorrLag_none in E; [lia|done|done|lia].
Qed.

Lemma lag_row_id Erfinv aux mk nc cv s x x' :
  lag_row Erfinv aux mk nc cv s x = Some x' -> c_EndpointID x' = c_EndpointID x.
Proof.
  unfold lag_row. destruct (Nat.ltb _ _); [congruence|]. destruct (crossCorrLag _ _ _) as [[lag r]|]; [|done].
  destruct (combineConfidence _ _). by intros [= <-].
Qed.

(** Aligned series have one reference value per delta. *)
Definition aligned (series : gmap Z (list float64 * list float64)) : Prop :=
  forall id s, series !! id = Some s -> length s.1 = length s.2.

Definition four_points (series : gmap Z (list float64 * list float64)) (base : list CorrRow) (i : nat) : Prop :=
  exists x s, base !! i = Some x /\ series !! c_EndpointID x = Some s /\ length s.1 = 4%nat.

Lemma four_points_insert series base i x x' j :
  base !! i = Some x -> c_EndpointID x' = c_EndpointID x ->
  four_points series (<[i := x']> base) j <-> four_points series base j.
Proof.
  intros Hi He. unfold four_points. destruct (decide (i = j)) as [<-|].
  - rewrite list_lookup_insert_eq by (by eapply lookup_lt_Some). rewrite Hi.
    split; intros (y & s & [= <-] & Hs & H4); eexists _, s; (split; [done|]); [rewrite <- He|rewrite He]; done.
  - by rewrite list_lookup_insert_ne.
Qed.

Lemma enrich_loop_none Erfinv aux mk nc cv series idx base :
  aligned series ->
  enrich_loop Erfinv aux mk nc cv series idx base = None <-> exists i, i ∈ idx /\ four_points series base i.
Proof.
  intros Ha. revert base. induction idx as [|i idx IH]; intros base; cbn [enrich_loop].
  { split; [done|]. by intros (i & Hi%elem_of_nil & _). }
  assert ((exists j, j ∈ i :: idx /\ four_points series base j) <->
          four_points series base i \/ exists j, j ∈ idx /\ four_points series base j) as ->.
  { setoid_rewrite elem_of_cons. naive_solver. }
  destruct (base !! i) as [x|] eqn:Ei.
  2: { rewrite IH. split; [by right|]. intros [(y & s & Hy & _)|?]; [congruence|done]. }
  destruct (series !! c_EndpointID x) as [s|] eqn:Es.
  2: { rewrite IH. split; [by right|]. intros [(y & s & Hy & Hs & _)|?]; [congruence|done]. }
  destruct (lag_row _ _ _ _ _ s x) as [x'|] eqn:El.
  - rewrite IH. setoid_rewrite (four_points_insert series base i x x'); [|done|by eapply lag_row_id].
    split; [by right|]. intros [(y & s' & Hy & Hs & H4)|?]; [|done].
    rewrite Ei in Hy. injection Hy as <-. rewrite Es in Hs. injection Hs as <-.
    apply (lag_row_none Erfinv aux mk nc cv s x) in H4; [congruence|by eapply Ha].
  - split; [|done]. intros _. left. exists x, s. apply lag_row_none in El; [done|by eapply Ha].
Qed.

Lemma enrich_loop_keeps Erfinv aux mk nc cv series idx base base' :
  enrich_loop Erfinv aux mk nc cv series idx base = Some base' ->
  map c_EndpointID base' = map c_EndpointID base /\ forall i, i ∉ idx -> base' !! i = base !! i.
Proof.
  revert base. induction idx as [|i idx IH]; intros base; cbn [enrich_loop]; [by intros [= ->]|].
  destruct (base !! i) as [x|] eqn:Ei; [|intros [? Hk]%IH; split; [done|set_solver]].
  destruct (series !! c_EndpointID x) as [s|]; [|intros [? Hk]%IH; split; [done|set_solver]].
  destruct (lag_row _ _ _ _ _ s x) as [x'|] eqn:El; [|done]. intros [Hm Hk]%IH. split.
  - rewrite Hm. change (map c_EndpointID (<[i:=x']> base)) with (c_EndpointID <$> <[i:=x']> base).
    rewrite list_fmap_insert. apply list_insert_id. rewrite list_lookup_fmap, Ei. cbn. f_equal. symmetry. by eapply lag_row_id.
  - intros j Hj. rewrite Hk by set_solver. apply list_lookup_insert_ne. set_solver.
Qed.

Lemma top_rows_conf base i : i ∈ top_rows base -> exists x, base !! i = Some x /\ is_nil (c_Confidence x) = false.
Proof.
  unfold top_rows. intros Hi.
  apply elem_of_take in Hi as (k & Hi & _). apply list_elem_of_lookup_2 in Hi.
  rewrite sort_by_perm in Hi. apply list_elem_of_In, filter_In in Hi as [_ H].
  destruct (base !! i) as [x|]; [|done]. exists x. split; [done|]. by destruct (c_Confidence x).
Qed.

(** ** Properties *)

(** Without faults [Correlation] ranks every meter of the index exactly
    once; each row is the rate ratio of that meter over the window, and the rows
    come by descending score, equal scores by descending movement. *)
Theorem Correlation_ranks_all (time_bucket : duration -> time -> time) (start fin : time) (w : World) :
  no_faults w ->
  exists rows, (Correlation time_bucket start fin w).1 = Ok rows /\
    w_db (Correlation time_bucket start fin w).2 = w_db w /\
    map c_EndpointID rows ≡ₚ map fst (map_to_list (meter_index (w_db w))) /\
    Sorted (fun a b => score_less b a = false) rows /\
    (forall r, r ∈ rows -> exists lo hi ix, span_of (w_db w) = Some (lo, hi) /\
       meter_index (w_db w) !! c_EndpointID r = Some ix /\
       let wh := window_hours start fin in
       r = corr_row time_bucket start fin wh (outside_hours lo hi wh) (w_db w) (c_EndpointID r) ix).
Proof.
  intros Hf. unfold Correlation, mbind, M_bind. rewrite dataSpan_ok by done.
  destruct (span_of (w_db w)) as [[lo hi]|] eqn:Es.
  - rewrite query_ok by (by apply no_faults_tail). cbn [fst snd w_db].
    eexists. split; [done|]. split; [done|]. set (mk := fun kv : Z * IndexRow => corr_row _ _ _ _ _ _ _ _).
    assert (forall kv, c_EndpointID (mk kv) = kv.1) as Hid.
    { intros [id ix]. unfold mk, corr_row. by destruct (window_movement _ _ _ _ _). }
    split_and!.
    + rewrite sort_by_perm, map_map. by rewrite (map_ext _ fst).
    + assert (Sorted (fun a b => le_of score_less a b = true) (sort_by (le_of score_less) (map mk (map_to_list (meter_index (w_db w)))))) as Hs.
      { apply sort_by_sorted, le_of_total. intros a b. apply (lex_asym c_Score c_WindowDelta). }
      induction Hs as [|a l Hl IH Hd]; constructor; [done|].
      destruct Hd as [|b l Hab]; constructor. unfold le_of in Hab. by apply negb_true_iff in Hab.
    + intros r Hr. rewrite sort_by_perm in Hr. apply list_elem_of_fmap in Hr as ([id ix] & -> & Hin).
      apply elem_of_map_to_list in Hin. exists lo, hi, ix. rewrite Hid. done.
  - exists []. cbn. split_and!; [done|done| |constructor|by intros r ?%elem_of_nil].
    unfold span_of in Es. destruct (map_to_list (meter_index (w_db w))) as [|kv l]; [done|discriminate].
Qed.

Lemma Correlation_ranks_all_witness :
  exists rows, (Correlation floor_bucket 0 Hour (mkWorld two_hours_DB (2 * Hour) [])).1 = Ok rows /\
    map c_EndpointID rows ≡ₚ [42].
Proof.
  destruct (Correlation_ranks_all floor_bucket 0 Hour (mkWorld two_hours_DB (2 * Hour) []) (Forall_nil_2 _))
    as (rows & E & _ & Hp & _). exists rows. split; [exact E|exact Hp].
Defined.

(** The lag stage of the ranking ends in a run-time error (a slice out of
    range) exactly when one of the eight best candidates has four aligned
    buckets with the reference: four passes the [len >= 4] guard but is shorter
    than the lag of five that [crossCorrLag] tries. *)
Theorem lag_stage_panics (time_bucket : duration -> time -> time) (grid : time -> time -> list time)
    (Erfinv : float64 -> float64) (base : list CorrRow) (entities : list string) (start fin : time) (bucketMin : Z)
    (mk : float64) (nc : Z) (cv : option float64) (aux : option IdentifyAux) (w : World) (rows : list EntityMinute) :
  no_faults w -> entities <> [] ->
  per_entity time_bucket grid entities start fin (w_db w) = Ok rows ->
  let ref := ref_energy time_bucket (bucketMin * Minute) rows in
  (enrichLag time_bucket grid Erfinv base entities start fin bucketMin mk nc cv aux w).1 = Ok None <->
  exists i x ix, i ∈ top_rows base /\ base !! i = Some x /\
    meter_index (w_db w) !! c_EndpointID x = Some ix /\
    length (aligned_pairs time_bucket bucketMin start fin ref (w_db w) (c_EndpointID x) ix) = 4%nat.
Proof.
  intros Hf He Hp ref. unfold enrichLag.
  destruct (top_rows base) as [|i0 idx0] eqn:Et.
  { split; [done|]. by intros (i & x & ix & Hi%elem_of_nil & _). }
  rewrite <- Et. clear i0 idx0 Et. set (ids := omap _ (top_rows base)).
  assert (forall i x, i ∈ top_rows base -> base !! i = Some x -> c_EndpointID x ∈ ids) as Hids.
  { intros i x Hi Hx. apply list_elem_of_omap. exists i. by rewrite Hx. }
  unfold alignedSeries, over_reference, try, mbind, M_bind.
  destruct ids as [|id0 ids0] eqn:Ei.
  { split; intros H.
    - assert (enrich_loop Erfinv aux mk nc cv ∅ (top_rows base) base = None) as H' by (destruct entities; cbn in H; congruence).
      apply enrich_loop_none in H' as (i & _ & y & s & _ & Hs & _); [by rewrite lookup_empty in Hs|done].
    - destruct H as (i & x & ix & Hi & Hx & _). apply Hids in Hx; [|done]. by apply elem_of_nil in Hx. }
  destruct entities as [|e0 es]; [done|]. rewrite <- Ei in *. clear Ei id0 ids0.
  rewrite statement_ok by done. rewrite Hp. cbn [fst snd mret M_ret].
  set (series := omap _ _).
  assert (forall id s, series !! id = Some s <-> exists ix l, meter_index (w_db w) !! id = Some ix /\ id ∈ ids /\
            l = aligned_pairs time_bucket bucketMin start fin ref (w_db w) id ix /\ l <> [] /\ s = (map fst l, map snd l)) as Hser.
  { intros id s. unfold series. rewrite lookup_omap, map_lookup_imap.
    destruct (meter_index (w_db w) !! id) as [ix|] eqn:Ex; cbn; [|naive_solver].
    destruct (decide (id ∈ ids)) as [Hin|Hin]; [rewrite bool_decide_true by done|rewrite bool_decide_false by done];
      cbn; [|naive_solver].
    fold ref. destruct (aligned_pairs _ _ _ _ ref _ id ix) as [|p l] eqn:El; split.
    - done.
    - intros (ix' & l & [= <-] & _ & -> & Hn & _). by rewrite El in Hn.
    - intros [= <-]. exists ix, (p :: l). split_and!; done.
    - intros (ix' & l' & [= <-] & _ & -> & Hn & ->). by rewrite El. }
  assert (aligned series) as Ha.
  { intros id s (ix & l & _ & _ & _ & _ & ->)%Hser. cbn. by rewrite !length_map. }
  split.
  - intros [= H]. apply enrich_loop_none in H as (i & Hi & x & s & Hx & Hs & H4); [|done].
    apply Hser in Hs as (ix & l & Hix & _ & -> & _ & ->). cbn in H4. rewrite length_map in H4. by exists i, x, ix.
  - intros (i & x & ix & Hi & Hx & Hix & H4). f_equal. apply enrich_loop_none; [done|].
    exists i. split; [done|]. exists x. eexists. split; [done|]. split; [apply Hser|].
    + exists ix. eexists. split_and!; [done|by eapply Hids|done| |done]. intros E. by rewrite E in H4.
    + cbn. by rewrite length_map.
Qed.

(** Five packets a minute apart, and a reference sample in each minute. *)
Definition minute_grid (lo hi : time) : list time :=
  map (fun k => floor_bucket Minute lo + Z.of_nat k * Minute) (seq 0 (Z.to_nat ((hi - lo) / Minute) + 1)).
Definition four_DB : DB :=
  let r k c := mkReading (k * Minute) "SCM" 42 (Some 7) (Some (of_Z c)) "d0" in
  let rs := [r 0 100; r 1 150; r 2 170; r 3 230; r 4 240] in
  set_reference_samples (map (fun k => mkRefSample (k * Minute) "sensor.p" (of_Z (100 + k)) "live") [0; 1; 2; 3; 4])
    (set_meter_index {[42 := foldl index_update (index_insert (r 0 100)) (tail rs)]}
       (set_readings (map (fun x => (x, "")) rs) empty_DB)).
Definition sure_row : CorrRow := set_conf (Some f1) ∅ None
  (corr_row floor_bucket 0 (4 * Minute) f1 f1 four_DB 42 (index_insert (mkReading 0 "SCM" 42 (Some 7) None "d0"))).

Lemma lag_stage_panics_witness :
  (enrichLag floor_bucket minute_grid (fun _ => of_Z 2) [sure_row] ["sensor.p"] 0 (4 * Minute) 1 f1 1 None None
     (mkWorld four_DB 0 [])).1 = Ok None.
Proof.
  assert (exists rows, per_entity floor_bucket minute_grid ["sensor.p"] 0 (4 * Minute) four_DB = Ok rows) as [rows Hr].
  { destruct (per_entity _ _ _ _ _ _) as [rows|e] eqn:E; [by exists rows|]. vm_compute in E. discriminate E. }
  apply (lag_stage_panics floor_bucket minute_grid (fun _ => of_Z 2) [sure_row] ["sensor.p"] 0 (4 * Minute) 1 f1 1 None
    None (mkWorld four_DB 0 []) rows (Forall_nil_2 _) ltac:(done) Hr).
  assert (rows = match per_entity floor_bucket minute_grid ["sensor.p"] 0 (4 * Minute) four_DB with Ok r => r | Err _ => [] end)
    as -> by by rewrite Hr.
  eexists 0%nat, sure_row, _. split; [|split; [reflexivity|split; [reflexivity|vm_compute; reflexivity]]].
  apply list_elem_of_lookup_2 with 0%nat. vm_compute. reflexivity.
Defined.

(** The rows and the context the ranking scores: numbers, not NaN. *)
Record scorable (x : CorrRow) : Prop := {
  sc_R : forall v, c_R x = Some v -> input v;
  sc_R2 : forall v, c_R2 x = Some v -> input v;
  sc_kwh : forall v, c_MeterEnergyKwh x = Some v -> input v;
  sc_window : number (c_WindowRate x) = true;
  sc_baseline : number (c_BaselineRate x) = true;
  sc_packets : in_int64 (c_WindowPackets x) }.
Definition aux_ok (aux : option IdentifyAux) : Prop :=
  forall id score v, applyPhysics aux id = (Some score, v) -> input score.

Lemma signals_good aux mk nc cv nb lag x :
  scorable x -> aux_ok aux -> input mk -> in_int64 nc -> (forall v, cv = Some v -> input v) ->
  0 <= nb <= int64_max -> (forall v, lag = Some v -> input v) ->
  good_signals (signals aux mk nc cv nb lag x).
Proof.
  intros [] Ha Hm Hn Hc Hb Hl. unfold signals. destruct (applyPhysics aux (c_EndpointID x)) as [ph vi] eqn:E.
  constructor; cbn; try done.
  - intros v [= <-]. by apply (between_input f0 f1), changePoint_in01.
  - intros v ->. by eapply Ha.
  - destruct (c_MeterEnergyKwh x); cbn; [auto|by split].
Qed.

(** A meter gets a confidence exactly when it has a correlation with the
    reference or passed the daily screen; it is a number of [[0, 1]], and at most
    0.2 for a measured meter that violates the screen. *)
Theorem score_row_evidence (Erfinv : float64 -> float64) (aux : option IdentifyAux) (mk : float64) (nc : Z)
    (cv : option float64) (rr : option regrRow) (x : CorrRow) :
  erfinv_spec Erfinv -> scorable x -> aux_ok aux -> input mk -> in_int64 nc -> (forall v, cv = Some v -> input v) ->
  (forall r n, rr = Some r -> rr_nbuckets r = Some n -> 0 <= n <= int64_max) ->
  c_Confidence x = None ->
  let x' := score_row Erfinv aux mk nc cv rr x in
  (is_Some (c_Confidence x') <->
     (is_Some rr /\ is_Some (c_R x)) \/ exists score, applyPhysics aux (c_EndpointID x) = (Some score, false)) /\
  (forall c, c_Confidence x' = Some c ->
     fle f0 c /\ fle c f1 /\ (applyPhysics aux (c_EndpointID x) = (None, true) -> fle c (lit 2 10))).
Proof.
  intros HE Hx Ha Hm Hn Hc Hb Hnone x'. unfold x', score_row. clear x'.
  assert (forall score v, applyPhysics aux (c_EndpointID x) = (Some score, v) -> v = false /\
     in01 (clamp01 (fmul (lit 1 2) score))) as Hph.
  { intros score v E. split.
    - unfold applyPhysics in E. destruct aux as [a|]; [|done]. destruct (ia_Physics a) as [m|]; [|done].
      destruct (m !! _) as [p|]; [|done]. destruct (ps_Pass p); congruence.
    - apply clamp01_in01, input_mul; [by eapply Ha|fcomp|fcomp]. }
  assert (forall o : CorrRow, match applyPhysics aux (c_EndpointID x) with
     | (Some score, _) => o = set_conf (Some (clamp01 (fmul (lit 1 2) score))) (<["physics" := round score 3]>
          (<["confidence" := round (clamp01 (fmul (lit 1 2) score)) 3]> ∅)) (c_LagBuckets x) x
     | (None, _) => o = x end ->
     (is_Some (c_Confidence o) <-> exists score, applyPhysics aux (c_EndpointID x) = (Some score, false)) /\
     (forall c, c_Confidence o = Some c -> fle f0 c /\ fle c f1 /\
        (applyPhysics aux (c_EndpointID x) = (None, true) -> fle c (lit 2 10)))) as Hunmeasured.
  { intros o Ho. destruct (applyPhysics aux (c_EndpointID x)) as [[score|] v] eqn:E; subst o.
    - destruct (Hph score v eq_refl) as [-> H01]. split; [split; [eauto|done]|].
      intros c [= <-]. apply in01_fle in H01 as [? ?]. done.
    - rewrite Hnone. split; [split; [by intros []|by intros []]|done]. }
  destruct rr as [r|]; [destruct (c_R x) as [rv|] eqn:ER|].
  - set (nb := from_opt 0 (rr_nbuckets r)).
    assert (0 <= nb <= int64_max) as Hnb.
    { unfold nb. destruct (rr_nbuckets r) as [n|] eqn:En; cbn; [by eapply Hb|done]. }
    pose proof (combine_bounds Erfinv _ HE (signals_good aux mk nc cv nb None x Hx Ha Hm Hn Hc Hnb ltac:(done))) as HB.
    assert (PhysicsViolation (signals aux mk nc cv nb None x) = (applyPhysics aux (c_EndpointID x)).2) as Hv
      by (unfold signals; by destruct (applyPhysics _ _)).
    rewrite Hv in HB. destruct (combineConfidence _ _) as [conf parts]. cbn [fst] in HB. cbn. split; [split; eauto|].
    intros c [= <-]. destruct (applyPhysics aux (c_EndpointID x)) as [p []]; cbn [snd] in HB;
      apply between_fle in HB as (_ & L & U); try done; split_and!; try done.
    by eapply fle_trans.
  - match goal with |- context [is_Some (c_Confidence ?o)] => destruct (Hunmeasured o) as [H1 H2] end;
      [by destruct (applyPhysics aux (c_EndpointID x)) as [[?|] ?]|].
    split; [|done]. rewrite H1. split; [by right|]. by intros [[_ []]|].
  - match goal with |- context [is_Some (c_Confidence ?o)] => destruct (Hunmeasured o) as [H1 H2] end;
      [by destruct (applyPhysics aux (c_EndpointID x)) as [[?|] ?]|].
    split; [|done]. rewrite H1. split; [by right|]. by intros [[[] _]|].
Qed.

Definition measured_row : CorrRow :=
  set_fit (Some (lit 8 10)) (Some (lit 6 10)) None None None None None (set_conf None ∅ None sure_row).
Definition violating : option IdentifyAux := Some (mkAux (Some {[42 := mkPhysics f0 false]}) 12).

Lemma score_row_evidence_witness :
  exists c, c_Confidence (score_row (fun _ => of_Z 2) violating (of_Z 10) 12 None
      (Some (mkRegr None None None None None None None None None None (Some 40))) measured_row) = Some c /\
    fle c (lit 2 10).
Proof.
  destruct (score_row_evidence (fun _ => of_Z 2) violating (of_Z 10) 12 None
    (Some (mkRegr None None None None None None None None None None (Some 40))) measured_row) as [H1 H2].
  - intros x _. split; vm_compute; reflexivity.
  - constructor; try (intros v E; vm_compute in E; first [discriminate E | injection E as <-; split; vm_compute; reflexivity]);
      first [vm_compute; reflexivity | vm_compute; split; discriminate].
  - intros id score v E. unfold applyPhysics, violating in E. cbn [ia_Physics] in E.
    destruct (decide (id = 42)) as [->|Hne]; [vm_compute in E; discriminate E|].
    rewrite lookup_singleton_ne in E by congruence. discriminate E.
  - split; vm_compute; reflexivity.
  - vm_compute. split; discriminate.
  - discriminate.
  - intros r n [= <-] [= <-]. unfold int64_max. lia.
  - reflexivity.
  - destruct (proj2 H1) as [c Hc]; [left; split; eexists; reflexivity|].
    exists c. split; [exact Hc|]. apply (H2 c Hc). reflexivity.
Defined.
