(* ===== verification/Utility.v ===== *)
(** * The utility bill ([internal/db/utility.go])

    The stored bill, the alignment of every meter with it, the reconciliation
    with the published meters, the bill series and the estimated daily usage.

    The time-zone database is a parameter: [local_day] is the calendar date of an
    instant in a zone, as a day number ([AT TIME ZONE ... ::date] and [In(loc)]),
    [midnight] is [time.Date] of a date, [valid_zone] says whether
    [time.LoadLocation] succeeds.  Dates are keyed by their text. *)

From S2P Require Import Prelude Float64 Rounding Model Calendar Store Ert Config Database Deltas Samples Confidence Correlate.

(** ** Storage *)

(** A statement that would touch one row twice, or an array shorter than the
    other, is an error. *)
Definition UpsertUtilityEnergy (statID period : string) (ts : list time) (kwh : list float64) : M unit :=
  match ts with
  | [] => mret tt
  | _ =>
      statement (fun d _ =>
        if Nat.eqb (length ts) (length kwh) && bool_decide (NoDup ts)
        then Ok (tt, set_utility_energy
                       (list_to_map (zip (map (fun t => (statID, period, t)) ts) kwh) ∪ utility_energy d) d)
        else Err "constraint violation")
  end.

Definition KeepOnlyUtility (statID period : string) : M unit :=
  exec (fun d _ => set_utility_energy
    (filter (fun kv => kv.1.1.1 = statID /\ kv.1.1.2 = period) (utility_energy d)) d).

(** The buckets of a statistic and period, by time. *)
Definition bill_times (statID period : string) (d : DB) : list time :=
  sorted_Z (omap (fun kv => if bool_decide (kv.1.1 = (statID, period)) then Some kv.1.2 else None)
              (map_to_list (utility_energy d))).
Definition bill_rows (statID period : string) (d : DB) : list (time * float64) :=
  omap (fun t => option_map (pair t) (utility_energy d !! (statID, period, t))) (bill_times statID period d).

Definition UtilityEnergy (statID : string) (start fin : time) : M float64 :=
  if is_empty statID then mret f0
  else
    r ← try (query (fun d _ =>
          sql_sum (omap (fun kv => if (kv.1.1.1 =? statID)%string && (start <=? kv.1.2) && (kv.1.2 <? fin)
                                   then Some kv.2 else None) (map_to_list (utility_energy d)))));
    mret (match r with Ok v => deref v | Err _ => f0 end).

(** [resolvedPeriod]: the period of the newest stored bucket. *)
Definition stored_period (statID : string) (d : DB) : option string :=
  let rows := omap (fun kv => if (kv.1.1.1 =? statID)%string then Some (kv.1.2, kv.1.1.2) else None)
                (map_to_list (utility_energy d)) in
  option_map snd (head (sort_by (fun a b => b.1 <=? a.1) rows)).
Definition resolvedPeriod (statID : string) : M string :=
  r ← try (queryRow (fun d _ => stored_period statID d));
  mret (match r with
        | Ok p => if is_empty p then "month" else p
        | Err _ => "month"
        end).

(** The stored span and the number of buckets; zero times when there are none. *)
Definition UtilityCoverage (statID period : string) : M (time * time * Z) :=
  r ← try (query (fun d _ => let ts := bill_times statID period d in (min_time ts, max_time ts, Z.of_nat (length ts))));
  mret (match r with
        | Ok (lo, hi, n) => (from_opt zero_time lo, from_opt zero_time hi, n)
        | Err _ => (zero_time, zero_time, 0)
        end).

Definition kwhFactor (unit : string) : float64 :=
  let u := ToUpper (TrimSpace unit) in
  if (u =? "WH")%string then lit 1 1000 else if (u =? "MWH")%string then of_Z 1000 else f1.

(** ** Evidence *)

Record utilBucket := mkUtilBucket {
  ub_start : time; ub_end : time; ub_utilityKwh : float64; ub_meterDelta : float64; ub_coverage : float64 }.
Record utilEvidence := mkEvidence {
  ue_multiplier : option float64; ue_cov : option float64; ue_r : option float64;
  ue_bucketsCovered : Z; ue_buckets : list utilBucket }.

Definition weightedMean (xs ws : list float64) : float64 :=
  let '(sx, sw) := fold_left (fun s p => (s.1 + p.1 * p.2, s.2 + p.2)%f64) (zip xs ws) (f0, f0) in
  if (sw =? f0)%f64 then f0 else (sx / sw)%f64.

(** The buckets that count: the meter moved and winnow covered some of it. *)
Definition usable (b : utilBucket) : bool :=
  negb ((ub_meterDelta b <=? f0)%f64 || (ub_coverage b <=? f0)%f64).
Definition prorated (b : utilBucket) : float64 := (ub_utilityKwh b * ub_coverage b)%f64.

Definition summarizeUtilEvidence (buckets : list utilBucket) : utilEvidence :=
  let used := List.filter usable buckets in
  let mults := map (fun b => prorated b / ub_meterDelta b)%f64 used in
  let n := Z.of_nat (length used) in
  match mults with
  | [] => mkEvidence None None None n buckets
  | _ =>
      let m := weightedMean mults (map ub_coverage used) in
      let '(multiplier, cov) :=
        if (f0 <? m)%f64
        then (Some (round m 8), if (2 <=? n)%Z then Some (round (stddev mults / m)%f64 3) else None)
        else (None, None) in
      let r := if (24 <=? n)%Z then Some (round (pearson (map ub_meterDelta used) (map prorated used)) 3) else None in
      mkEvidence multiplier cov r n buckets
  end.

(** Each stored bucket with the start of the next ([lead]). *)
Fixpoint with_next (l : list (time * float64)) : list (time * option time * float64) :=
  match l with
  | [] => []
  | (t, k) :: l' => (t, head (map fst l'), k) :: with_next l'
  end.
(** [span]: from the first bucket to the last. *)
Definition bill_span (l : list (time * float64)) : option (time * time) :=
  match head l, last l with Some a, Some b => Some (a.1, b.1) | _, _ => None end.

(** Hours between two instants: [EXTRACT(EPOCH FROM ...)/3600.0]. *)
Definition bucket_hours (a b : time) : float64 := (of_Z (b - a) / of_Z Hour)%f64.

Definition coverage_of (coveredHours bucketHours : float64) : float64 :=
  clamp01 (if (f0 <? bucketHours)%f64 then (coveredHours / bucketHours)%f64 else f1).

Section Bucketed.
Context (time_bucket : duration -> time -> time).

(** [mdelta]: the hourly deltas of a meter over the span, resets dropped. *)
Definition span_deltas (sp : option (time * time)) (id : Z) (ix : IndexRow) (d : DB) : list (time * float64) :=
  match sp with
  | None => []
  | Some (lo, hi) =>
      omap (fun x => option_map (pair x.1.1) x.2)
        (meter_deltas (counterModulus (ix_msg_type ix))
           (coarsen (time_bucket Hour)
              (List.filter (fun a => (lo <=? ag_bucket a) && (ag_bucket a <? hi)) (agg_rows time_bucket Hour id d))))
  end.

(** One meter against the bill: the complete buckets in which it rose. *)
Definition align_bill (bill : list (time * float64)) (deltas : list (time * float64)) : list utilBucket :=
  omap (fun b =>
    let '(bstart, bend, kwh) := b in
    match bend with
    | None => None
    | Some bend =>
        let here := map snd (List.filter (fun x => (bstart <=? x.1) && (x.1 <? bend)) deltas) in
        match sql_sum here with
        | Some s => if pg_le s f0 then None
                    else Some (mkUtilBucket bstart bend kwh s
                                 (coverage_of (of_Z (Z.of_nat (length here))) (bucket_hours bstart bend)))
        | None => None
        end
    end) (with_next bill).

Definition utilityMeterEvidence (statID period : string) : M (gmap Z utilEvidence) :=
  if is_empty statID then mret ∅
  else query (fun d _ =>
    let bill := bill_rows statID period d in
    omap (fun l => match l with [] => None | _ => Some (summarizeUtilEvidence l) end)
      (map_imap (fun id ix => Some (align_bill bill (span_deltas (bill_span bill) id ix d))) (meter_index d))).

(** ** Reconciliation with the published meters *)

Record reconBucket := mkRecon { rb_kwh : float64; rb_coverage : float64 }.

(** [pm]: the electric meters that are published or mine, with their multiplier. *)
Definition own_meter (d : DB) (id : Z) : option float64 :=
  match meter_index d !! id, meters d !! id with
  | Some ix, Some m =>
      if (from_opt false (mr_publish m) || from_opt false (mr_is_mine m))
         && match ix_endpoint_type ix with Some t => bool_decide (t ∈ electricTypes) | None => false end
      then Some (from_opt f1 (mr_pub_multiplier m)) else None
  | _, _ => None
  end.
Definition own_meters (d : DB) : list Z :=
  List.filter (fun id => negb (is_nil (own_meter d id))) (sorted_Z (map fst (map_to_list (meter_index d)))).

(** Hour and kWh of every delta of the own meters. *)
Definition own_deltas (sp : option (time * time)) (d : DB) : list (time * float64) :=
  concat (map (fun id =>
    match meter_index d !! id, own_meter d id with
    | Some ix, Some mult => map (fun x => (x.1, x.2 * mult)%f64) (span_deltas sp id ix d)
    | _, _ => []
    end) (own_meters d)).

Definition reconcile_rows (bill : list (time * float64)) (deltas : list (time * float64)) : gmap Z reconBucket :=
  list_to_map (rev (omap (fun b =>
    let '(bstart, bend, _) := b in
    match bend with
    | None => None
    | Some bend =>
        let here := List.filter (fun x => (bstart <=? x.1) && (x.1 <? bend)) deltas in
        match sql_sum (map snd here) with
        | Some s => Some (Unix bstart,
                          mkRecon s (coverage_of (of_Z (Z.of_nat (length (distinct_Z (map fst here)))))
                                       (bucket_hours bstart bend)))
        | None => None
        end
    end) (with_next bill))).

(** The meters found before an error are returned beside it. *)
Definition utilityReconciliation (statID period : string) : M (result (gmap Z reconBucket) * list Z) :=
  ms ← try (query (fun d _ => own_meters d));
  match ms with
  | Err e => mret (Err e, [])
  | Ok [] => mret (Ok ∅, [])
  | Ok ms =>
      r ← try (query (fun d _ =>
            let bill := bill_rows statID period d in
            reconcile_rows bill (own_deltas (bill_span bill) d)));
      mret (r, ms)
  end.
End Bucketed.

(** ** Estimated daily usage *)

Definition date_of (day : Z) : string := date_text day.
(** The first day of the month of a day, and of the next month. *)
Definition month_start (day : Z) : Z := let '(y, m, _) := civil_from_days day in days_from_civil y m 1.
Definition next_month (day : Z) : Z :=
  let '(y, m, _) := civil_from_days day in
  if m =? 12 then days_from_civil (y + 1) 1 1 else days_from_civil y (m + 1) 1.

Section Zones.
Context (time_bucket : duration -> time -> time) (grid : time -> time -> list time)
        (local_day : string -> time -> Z) (midnight : string -> Z -> time) (valid_zone : string -> bool)
        (getenv : string -> string) (ParseFloat : string -> float64 * bool).

(** An unknown or empty zone is UTC. *)
Definition zone_of (tz : string) : string := if valid_zone tz && negb (is_empty tz) then tz else "UTC".

(** [days]: every local day of every complete monthly bucket, with the bill and
    its even share. *)
Definition bill_days (tz : string) (bill : list (time * float64)) : list (Z * float64 * float64) :=
  sort_by (fun a b => a.1.1 <=? b.1.1)
    (concat (map (fun b =>
       let '(bstart, bend, kwh) := b in
       match bend with
       | None => []
       | Some bend =>
           let a := local_day tz bstart in let n := local_day tz bend - a in
           map (fun k => (a + Z.of_nat k, kwh, (kwh / of_Z n)%f64)) (seq 0 (Z.to_nat n))
       end) (with_next bill))).

(** The delta of one meter per local day. *)
Definition day_deltas (tz : string) (id : Z) (d : DB) : list (Z * option float64) :=
  match meter_index d !! id with
  | None => []
  | Some ix => map (fun x => (x.1.1, x.2))
                 (meter_deltas (counterModulus (ix_msg_type ix))
                    (coarsen (local_day tz) (agg_rows time_bucket Hour id d)))
  end.

(** [utilityDailyEstimate]: one meter at a multiplier. *)
Definition day_estimate (entities : list string) (mult : float64) (tz : string)
    (deltas : list (Z * option float64)) (r : Z * float64 * float64) : M UtilityDayEstimate :=
  let '(day, monthKwh, flat) := r in
  let dayStart := midnight tz day in
  let meterDelta := match List.find (fun x => x.1 =? day) deltas with Some x => x.2 | None => None end in
  let mk := match meterDelta with
            | Some dl => if (f0 <? mult)%f64 then Some (round (dl * mult)%f64 3) else None
            | None => None end in
  shaped ← (if negb (bool_decide (entities = [])) && (f0 <? monthKwh)%f64 then
              dayE ← MonitoredEnergy time_bucket grid entities dayStart (midnight tz (day + 1));
              monE ← MonitoredEnergy time_bucket grid entities (midnight tz (month_start day))
                       (midnight tz (next_month day));
              mret (if (f0 <? monE)%f64 then Some (round (monthKwh * (dayE / monE))%f64 3) else None)
            else mret None);
  mret (mkUtilityDayEstimate (date_of (local_day tz dayStart)) (round flat 3) shaped mk false).

Definition utilityDailyEstimate (meterID : Z) (statID : string) (entities : list string) (mult : float64) (tz : string)
  : M (list UtilityDayEstimate) :=
  let tz := zone_of tz in
  r ← try (query (fun d _ => (bill_days tz (bill_rows statID "month" d), day_deltas tz meterID d)));
  match r with
  | Err _ => mret []
  | Ok (rows, deltas) => mapM_ (day_estimate entities mult tz deltas) rows
  end.

(** [UtilityCompare]. *)
Definition UtilityCompare (meterID : Z) : M UtilityCompareResult :=
  cfg ← LoadConfig getenv ParseFloat;
  let statID := UtilityStatisticID cfg in
  if is_empty statID then mret (mkUtilityCompareResult "" "" None 0 [] [])
  else
    period ← resolvedPeriod statID;
    ev ← utilityMeterEvidence time_bucket statID period;
    match ev !! meterID with
    | None => mret (mkUtilityCompareResult statID period None 0 [] [])
    | Some e =>
        let mult := deref (ue_multiplier e) in
        let pts := map (fun b => mkUtilityComparePoint (RFC3339 (ub_start b)) (round (ub_utilityKwh b) 3)
                      (if (f0 <? mult)%f64 then Some (round (ub_meterDelta b * mult)%f64 3) else None)
                      (round (ub_coverage b) 3)) (ue_buckets e) in
        est ← (if (period =? "month")%string
               then utilityDailyEstimate meterID statID (MonitoredEntities cfg) mult (HATimeZone cfg)
               else mret []);
        mret (mkUtilityCompareResult statID period (ue_multiplier e) (ue_bucketsCovered e) pts est)
    end.

(** [monitoredDailyKwh]: monitored energy per local day, clamped to the samples. *)
Definition sample_span (entities : list string) (d : DB) : option (time * time) :=
  let ts := map rs_ts (List.filter (fun r => bool_decide (rs_entity_id r ∈ entities)) (reference_samples d)) in
  match ts with [] => None | t :: l => Some (foldr Z.min t l, foldr Z.max t l) end.

Definition daily_kwh (tz : string) (rows : list EntityMinute) : gmap string float64 :=
  let pm := per_min rows in
  list_to_map (map (fun day =>
    let ws := map snd (List.filter (fun x => local_day tz x.1 =? day) pm) in
    (date_of day, (fsum ws / of_Z 60 / of_Z 1000)%f64))
    (sorted_Z (map (fun x => local_day tz x.1) pm))).

Definition monitoredDailyKwh (entities : list string) (tz : string) (lo hi : time) : M (gmap string float64) :=
  match entities with
  | [] => mret ∅
  | _ =>
      s ← try (query (fun d _ => sample_span entities d));
      match s with
      | Ok (Some (rlo, rhi)) =>
          let start := if After rlo lo then rlo else lo in
          let fin := if Before rhi hi then rhi else hi in
          if negb (Before start fin) then mret ∅
          else
            r ← try (over_reference time_bucket grid entities start fin (fun rows _ => daily_kwh tz rows));
            mret (match r with Ok m => m | Err _ => ∅ end)
      | _ => mret ∅
      end
  end.

(** [day[:7]], the month of a date. *)
Definition month_of (day : string) : string := substring 0 7 day.

(** The kWh the given meters recorded per local day. *)
Definition meters_daily (tz : string) (ids : list Z) (d : DB) : list (Z * float64) :=
  concat (map (fun id =>
    match meter_index d !! id, meters d !! id with
    | Some ix, Some m =>
        omap (fun x => option_map (fun dl => (x.1, dl * from_opt f1 (mr_pub_multiplier m))%f64) x.2) (day_deltas tz id d)
    | _, _ => []
    end) ids).
Definition day_sum (l : list (Z * float64)) (day : Z) : option float64 :=
  sql_sum (map snd (List.filter (fun x => x.1 =? day) l)).

Definition utilityDailyEstimateSeries (statID : string) (entities : list string) (tz : string) (factor : float64)
    (ids : list Z) : M (list UtilityDayEstimate) :=
  let tz := zone_of tz in
  r ← try (query (fun d _ => (bill_days tz (bill_rows statID "month" d), meters_daily tz ids d)));
  match r with
  | Err _ => mret []
  | Ok (rows, kwhs) =>
      match head rows, last rows with
      | Some r0, Some r1 =>
          dayMon ← (match entities with
                    | [] => mret None
                    | _ => m ← monitoredDailyKwh entities tz (midnight tz r0.1.1) (midnight tz (r1.1.1 + 1));
                           mret (Some m)
                    end);
          mret (map (fun r =>
            let '(day, monthKwh, flat) := r in
            let dayStr := date_of day in
            let shaped :=
              match dayMon with
              | Some m =>
                  if (f0 <? monthKwh)%f64 then
                    let monE := fsum (map snd (List.filter (fun kv => (month_of kv.1 =? month_of dayStr)%string)
                                         (map_to_list m))) in
                    if (f0 <? monE)%f64
                    then Some (round (monthKwh * factor * (from_opt f0 (m !! dayStr) / monE))%f64 3) else None
                  else None
              | None => None
              end in
            mkUtilityDayEstimate dayStr (round (flat * factor)%f64 3) shaped
              (option_map (fun k => round k 3) (day_sum kwhs day)) false) rows)
      | _, _ => mret []
      end
  end.

(** [UtilitySeries]: a failed reconciliation leaves the bill without it. *)
Definition series_point (cfg : Config) (factor : float64) (recon : option (gmap Z reconBucket)) (x : time * float64)
  : UtilitySeriesPoint :=
  let kwh := (x.2 * factor)%f64 in
  let rc := match recon with Some m => m !! Unix x.1 | None => None end in
  mkUtilitySeriesPoint (RFC3339 x.1) (round kwh 3) (option_map (fun b => round (rb_kwh b) 3) rc)
    (match rc with Some b => round (rb_coverage b) 3 | None => f0 end)
    (if (f0 <? CostPerKwh cfg)%f64 then Some (round (kwh * CostPerKwh cfg)%f64 2) else None).

Definition UtilitySeries : M UtilitySeriesResult :=
  cfg ← LoadConfig getenv ParseFloat;
  let statID := UtilityStatisticID cfg in
  if is_empty statID
  then mret (mkUtilitySeriesResult "" "" "kWh" (Currency cfg) (CostPerKwh cfg) f0 0 [] [] [])
  else
    period ← resolvedPeriod statID;
    let factor := kwhFactor (UtilityUnit cfg) in
    '(rr, ids) ← utilityReconciliation time_bucket statID period;
    let recon := match rr with Ok m => Some m | Err _ => None end in
    est ← (if (period =? "month")%string
           then utilityDailyEstimateSeries statID (MonitoredEntities cfg) (HATimeZone cfg) factor ids
           else mret []);
    rows ← query (fun d _ => bill_rows statID period d);
    mret (mkUtilitySeriesResult statID period "kWh" (Currency cfg) (CostPerKwh cfg)
            (round (fsum (map (fun x => x.2 * factor)%f64 rows)) 3) (Z.of_nat (length rows))
            (if is_ok rr then ids else [])
            (map (series_point cfg factor recon) rows) est).

(** ** Monthly rates ([daily.go]) and the projected tail *)

Definition month_text (day : Z) : string := let '(_, m, _) := civil_from_days day in pad2 m.

Definition month_rate (tz : string) (factor : float64) (x : time * float64) : string * float64 :=
  let day := local_day tz x.1 in
  (month_text day, (x.2 / of_Z (Z.max (next_month day - month_start day) 1) * factor)%f64).

(** Daily rates keyed by calendar month; an unknown zone is an error of the
    server, hence no rates. *)
Definition billMonthlyRates : M (option (list (string * float64))) :=
  c ← try (LoadConfig getenv ParseFloat);
  match c with
  | Err _ => mret None
  | Ok cfg =>
      if negb (UtilityConfigured cfg) then mret None
      else
        let tz := if is_empty (HATimeZone cfg) then "UTC" else HATimeZone cfg in
        r ← try (statement (fun d _ =>
              if valid_zone tz
              then Ok (map (month_rate tz (kwhFactor (UtilityUnit cfg)))
                         (List.filter (fun x => negb (pg_le x.2 f0)) (bill_rows (UtilityStatisticID cfg) "month" d)), d)
              else Err "time zone not recognized"));
        mret (match r with Ok [] | Err _ => None | Ok l => Some l end)
  end.

Definition monthRatesFor (rates : list (string * float64)) (month : string) : list float64 :=
  match map snd (List.filter (fun x => (x.1 =? month)%string) rates) with
  | [] => map snd rates
  | l => l
  end.

(** The lowest and highest of the rates used for a month. *)
Definition band_of (use : list float64) : option (float64 * float64) :=
  match use with
  | [] => None
  | r :: _ => let '(lo, hi) := fold_left (fun b x => (fmin b.1 x, fmax b.2 x)) use (r, r) in
              Some (round lo 2, round hi 2)
  end.
Definition billDailyBand (month : string) : M (option (float64 * float64)) :=
  rates ← billMonthlyRates;
  mret (match rates with Some r => band_of (monthRatesFor r month) | None => None end).

Definition billDailyMonthMean (rates : list (string * float64)) (month : string) : option float64 :=
  match monthRatesFor rates month with
  | [] => None
  | use => Some (round (fsum use / of_Z (Z.of_nat (length use)))%f64 3)
  end.

(** [ParseInLocation "2006-01-02"]: four, two and two digits, a real date. *)
Definition digits2 (a b : ascii) : option Z :=
  if is_digit a && is_digit b then Some (digit_val a * 10 + digit_val b) else None.
Definition parse_date (s : string) : option Z :=
  match s with
  | String a (String b (String c (String d (String "-" (String e (String f (String "-" (String g (String h
      EmptyString))))))))) =>
      match digits2 a b, digits2 c d, digits2 e f, digits2 g h with
      | Some y1, Some y2, Some m, Some dd =>
          let y := y1 * 100 + y2 in
          let first := days_from_civil y m 1 in
          if (1 <=? m) && (m <=? 12) && (1 <=? dd) && (dd <=? next_month first - first)
          then Some (first + dd - 1) else None
      | _, _, _, _ => None
      end
  | _ => None
  end.

(** The projected days from [day] on, [n] at most. *)
Fixpoint projected (tz : string) (rates : list (string * float64)) (n : nat) (day : Z) (endT : time)
  : list UtilityDayEstimate :=
  match n with
  | O => []
  | S n' =>
      let t := midnight tz day in
      if After t endT then []
      else
        let ld := local_day tz t in
        match billDailyMonthMean rates (month_text ld) with
        | Some mean => mkUtilityDayEstimate (date_of ld) mean None None true :: projected tz rates n' (day + 1) endT
        | None => projected tz rates n' (day + 1) endT
        end
  end.

Definition UtilityDailyEstimateRange (from to : string) : M (list UtilityDayEstimate) :=
  c ← try (LoadConfig getenv ParseFloat);
  match c with
  | Err _ => mret []
  | Ok cfg =>
      if negb (UtilityConfigured cfg) then mret []
      else
        all ← utilityDailyEstimateSeries (UtilityStatisticID cfg) (MonitoredEntities cfg) (HATimeZone cfg)
                (kwhFactor (UtilityUnit cfg)) [];
        let out := List.filter (fun e => String.leb from (ude_Day e) && String.leb (ude_Day e) to) all in
        let lastReal := fold_left (fun m e => if String.ltb m (ude_Day e) then ude_Day e else m) all "" in
        if String.ltb lastReal to then
          rates ← billMonthlyRates;
          match rates with
          | None => mret out
          | Some rates =>
              let tz := zone_of (HATimeZone cfg) in
              let start :=
                if negb (is_empty lastReal) && String.leb from lastReal then
                  match parse_date lastReal with
                  | Some day => date_of (local_day tz (midnight tz (day + 1)))
                  | None => from
                  end
                else from in
              match parse_date start, parse_date to with
              | Some day, Some last =>
                  mret (out ++ projected tz rates (Z.to_nat (last - day + 1)) day (midnight tz last))%list
              | _, _ => mret out
              end
          end
        else mret out
  end.
End Zones.

(** ** Lemmas *)

Lemma with_next_spec l a b k :
  Sorted (fun x y => x.1 < y.1) l -> (a, Some b, k) ∈ with_next l ->
  a < b /\ (a, k) ∈ l /\ (exists k', (b, k') ∈ l) /\ forall x, x ∈ l -> ~ (a < x.1 < b).
Proof.
  induction l as [|[t k0] l IH]; intros Hs Hin; [by apply elem_of_nil in Hin|].
  cbn [with_next] in Hin. pose proof (Sorted_inv Hs) as [Hs' Hd].
  assert (forall x, x ∈ l -> t < x.1) as Hlt.
  { apply Sorted_StronglySorted in Hs; [|intros ???; lia]. apply StronglySorted_inv in Hs as [_ Hf].
    by rewrite Forall_forall in Hf. }
  apply elem_of_cons in Hin as [[= -> Hh ->]|Hin].
  - destruct l as [|[t' k'] l]; [done|]. cbn in Hh. injection Hh as Hb'. subst t'. cbn.
    specialize (Hlt (b, k') ltac:(left)) as Hb. cbn in Hb. split_and!; [done|by left|exists k'; right; by left|].
    intros x [->|[->|Hx]%elem_of_cons]%elem_of_cons; cbn; [lia|lia|].
    apply Sorted_StronglySorted in Hs'; [|intros ???; lia]. apply StronglySorted_inv in Hs' as [_ Hf].
    rewrite Forall_forall in Hf. specialize (Hf x Hx). cbn in Hf. lia.
  - destruct (IH Hs' Hin) as (H1 & H2 & (k' & H3) & H4). split_and!; [done|by right|exists k'; by right|].
    intros x [->|Hx]%elem_of_cons; [|by apply H4]. specialize (Hlt _ H2). cbn in *. lia.
Qed.

Lemma bill_rows_elem s p d t k : (t, k) ∈ bill_rows s p d <-> utility_energy d !! (s, p, t) = Some k.
Proof.
  unfold bill_rows. rewrite list_elem_of_omap. split.
  - intros (t' & _ & E). destruct (utility_energy d !! (s, p, t')) eqn:El; cbn in E; [|done]. by injection E as -> ->.
  - intros E. exists t. rewrite E. split; [|done]. unfold bill_times. rewrite sorted_Z_elem, list_elem_of_omap.
    exists ((s, p, t), k). rewrite elem_of_map_to_list. split; [done|]. cbn. by rewrite bool_decide_true.
Qed.

Lemma strongly_sorted_omap {A B} (R : A -> A -> Prop) (S : B -> B -> Prop) (f : A -> option B) l :
  (forall x y a b, R x y -> f x = Some a -> f y = Some b -> S a b) ->
  StronglySorted R l -> StronglySorted S (omap f l).
Proof.
  intros HS Hl. induction Hl as [|x l Hl IH Hf]; cbn; [constructor|].
  destruct (f x) as [a|] eqn:E; [|done]. constructor; [done|]. apply Forall_forall.
  intros b (y & Hy & Ey)%list_elem_of_omap. rewrite Forall_forall in Hf. eapply HS; [by apply Hf, Hy|done|done].
Qed.

Lemma option_map_pair {A B} (x : A) (o : option B) a : option_map (pair x) o = Some a -> a.1 = x.
Proof. destruct o; cbn; [by intros [= <-]|done]. Qed.

Lemma bill_rows_sorted s p d : Sorted (fun x y => x.1 < y.1) (bill_rows s p d).
Proof.
  apply StronglySorted_Sorted. eapply (strongly_sorted_omap Z.lt);
    [|apply Sorted_StronglySorted; [intros ???; lia|apply sorted_Z_lt]].
  intros x y a b Hlt Ha Hb.
  apply option_map_pair in Ha as <-, Hb as <-. exact Hlt.
Qed.

Lemma bucket_hours_pos a b : 0 < b - a <= int64_max -> fltb f0 (bucket_hours a b) = true.
Proof.
  intros Hb. assert (between f1 (of_Z (2 ^ 63)) (of_Z (b - a))) as Bb by (apply (between_of_Z 1 int64_max); [lia|fcomp..]).
  assert (between (lit 1 (10 ^ 13)) (of_Z (2 ^ 63)) (bucket_hours a b)) as (V & F & H1 & _)
    by (eapply (between_div f1 (of_Z (2 ^ 63)) (of_Z Hour) (of_Z Hour)); fcomp).
  assert (0 < sv (lit 1 (10 ^ 13))) by fcomp. destruct (fltb f0 (bucket_hours a b)) eqn:E; [done|exfalso].
  apply fltb_false in E; [|done|by destruct (bucket_hours a b)]. apply sv_le in E; [|done..]. change (sv f0) with 0 in E. lia.
Qed.

(** Whole hours and a positive length: a fraction. *)
Lemma coverage_bounds n a b :
  0 <= n -> 0 < b - a <= int64_max -> in01 (coverage_of (of_Z n) (bucket_hours a b)).
Proof.
  intros Hn Hb. unfold coverage_of. destruct (fltb f0 (bucket_hours a b)); [|apply in01_f1].
  assert (between f1 (of_Z (2 ^ 63)) (of_Z (b - a))) as Bb by (apply (between_of_Z 1 int64_max); [lia|fcomp..]).
  apply clamp01_in01, nonneg_input. eapply (nonneg_div (lit 1 (10 ^ 13)) (of_Z (2 ^ 63))); [|unfold bucket_hours|fcomp].
  - eapply rounds_nonneg; [|apply of_Z_rounds]. assert (0 < unit_sv) by fcomp. nia.
  - eapply (between_div f1 (of_Z (2 ^ 63)) (of_Z Hour) (of_Z Hour)); fcomp.
Qed.

Lemma strongly_sorted_with_next l :
  Sorted (fun x y => x.1 < y.1) l ->
  StronglySorted (fun (a b : time * option time * float64) => forall e, a.1.2 = Some e -> e <= b.1.1) (with_next l).
Proof.
  induction l as [|[t k] l IH]; intros Hs; cbn [with_next]; constructor; [apply IH; by apply Sorted_inv in Hs as [? _]|].
  rewrite Forall_forall. intros [[u v] k'] Hin e He. cbn in *.
  destruct l as [|[t' k2] l]; [done|]. cbn in He. injection He as <-.
  assert (exists y, (u, y) ∈ (t', k2) :: l) as [y Hy].
  { clear -Hin. revert Hin. generalize ((t', k2) :: l). intros l0. induction l0 as [|[a b] l0 IH]; cbn [with_next]; [by intros ?%elem_of_nil|].
    intros [[= -> _ _]|Hin]%elem_of_cons; [exists b; left|destruct (IH Hin) as [y Hy]; exists y; by right]. }
  apply Sorted_inv in Hs as [Hs _]. apply Sorted_StronglySorted in Hs; [|intros ???; lia].
  apply StronglySorted_inv in Hs as [_ Hf]. rewrite Forall_forall in Hf.
  apply elem_of_cons in Hy as [[= -> _]|Hy]; [lia|]. specialize (Hf _ Hy). cbn in Hf. lia.
Qed.

Lemma with_next_complete l a b k k' :
  Sorted (fun x y => x.1 < y.1) l -> (a, k) ∈ l -> (b, k') ∈ l -> a < b ->
  (forall x, x ∈ l -> ~ (a < x.1 < b)) -> (a, Some b, k) ∈ with_next l.
Proof.
  induction l as [|[t k0] l IH]; intros Hs Ha Hb Hlt Hno; [by apply elem_of_nil in Ha|].
  pose proof (Sorted_inv Hs) as [Hs' _]. apply Sorted_StronglySorted in Hs; [|intros ???; lia].
  apply StronglySorted_inv in Hs as [_ Hf]. rewrite Forall_forall in Hf. cbn [with_next].
  apply elem_of_cons in Hb as [[= -> ->]|Hb].
  - exfalso. apply elem_of_cons in Ha as [[= -> ->]|Ha]; [lia|]. specialize (Hf _ Ha). cbn in Hf. lia.
  - apply elem_of_cons in Ha as [[= -> ->]|Ha].
    + destruct l as [|[t' k2] l]; [by apply elem_of_nil in Hb|]. cbn.
      assert (t' = b) as ->; [|by left]. apply elem_of_cons in Hb as [[= -> _]|Hb]; [done|].
      apply Sorted_StronglySorted in Hs'; [|intros ???; lia]. apply StronglySorted_inv in Hs' as [_ Hf'].
      rewrite Forall_forall in Hf'. specialize (Hf' _ Hb). specialize (Hf (t', k2) ltac:(left)).
      specialize (Hno (t', k2) ltac:(right; left)). cbn in *. lia.
    + right. apply IH; [done..|]. intros x Hx. apply Hno. by right.
Qed.

(** The deltas whose hour starts in [[a, b)]. *)
Definition charged (a b : time) (deltas : list (time * float64)) : list (time * float64) :=
  filter (fun x => a <= x.1 < b) deltas.

Lemma charged_eq a b l : List.filter (fun x => (a <=? x.1) && (x.1 <? b)) l = charged a b l.
Proof.
  induction l as [|x l IH]; [done|]. cbn [List.filter]. unfold charged in *. rewrite filter_cons, IH.
  destruct (decide (a <= x.1 < b)) as [H|H]; destruct (_ && _) eqn:E; try done.
  - exfalso. rewrite (proj2 (Z.leb_le _ _)), (proj2 (Z.ltb_lt _ _)) in E by lia. done.
  - apply andb_true_iff in E as [?%Z.leb_le ?%Z.ltb_lt]. lia.
Qed.

(** The aligned buckets: the complete buckets of the bill in which the counter rose. *)
Lemma align_bill_elem bill deltas b :
  b ∈ align_bill bill deltas <->
  let here := charged (ub_start b) (ub_end b) deltas in
  (ub_start b, Some (ub_end b), ub_utilityKwh b) ∈ with_next bill /\
  sql_sum (map snd here) = Some (ub_meterDelta b) /\ pg_le (ub_meterDelta b) f0 = false /\
  ub_coverage b = coverage_of (of_Z (Z.of_nat (length here))) (bucket_hours (ub_start b) (ub_end b)).
Proof.
  unfold align_bill. rewrite list_elem_of_omap. split.
  - intros ([[t [u|]] k] & Hin & E); [|done]. rewrite charged_eq in E.
    destruct (sql_sum _) as [s|] eqn:Ess; [|done]. destruct (pg_le s f0) eqn:Es; [done|]. injection E as <-.
    cbn. by rewrite length_map.
  - intros (Hin & Hsum & Hp & Hc). eexists. split; [exact Hin|]. cbn beta iota zeta. rewrite charged_eq, length_map.
    setoid_rewrite Hsum. rewrite Hp. destruct b. cbn in *. by rewrite Hc.
Qed.

(** The bill's buckets [s, e): consecutive stored starts, the first carrying [k]. *)
Definition billed (statID period : string) (d : DB) (s e : time) (k : float64) : Prop :=
  s < e /\ utility_energy d !! (statID, period, s) = Some k /\ is_Some (utility_energy d !! (statID, period, e)) /\
  forall t, s < t < e -> utility_energy d !! (statID, period, t) = None.

Lemma billed_with_next statID period d s e k :
  (s, Some e, k) ∈ with_next (bill_rows statID period d) <-> billed statID period d s e k.
Proof.
  pose proof (bill_rows_sorted statID period d) as Hs. split.
  - intros Hin. destruct (with_next_spec _ _ _ _ Hs Hin) as (Hlt & H1%bill_rows_elem & (k' & H2%bill_rows_elem) & Hno).
    split_and!; [done|done|by exists k'|]. intros t Ht. apply eq_None_not_Some. intros [x Hx].
    apply (Hno (t, x)); [by apply bill_rows_elem|done].
  - intros (Hlt & H1 & [k' H2] & Hno). apply (with_next_complete _ _ _ _ k'); [done|by apply bill_rows_elem..|done|].
    intros [t x] Hx%bill_rows_elem Ht. cbn in Ht. rewrite Hno in Hx by done. done.
Qed.

Lemma evidence_aligned time_bucket statID period w ev id e :
  statID <> "" -> (utilityMeterEvidence time_bucket statID period w).1 = Ok ev -> ev !! id = Some e ->
  exists ix, meter_index (w_db w) !! id = Some ix /\
    let bill := bill_rows statID period (w_db w) in
    ue_buckets e = align_bill bill (span_deltas time_bucket (bill_span bill) id ix (w_db w)).
Proof.
  intros Hs Hev He. unfold utilityMeterEvidence in Hev.
  replace (is_empty statID) with false in Hev by (symmetry; by apply String.eqb_neq).
  unfold query, statement in Hev. set (d := w_db w) in *.
  assert (forall l, ue_buckets (summarizeUtilEvidence l) = l) as Hb.
  { intros l. unfold summarizeUtilEvidence. destruct (map _ _); [done|]. by destruct (if (f0 <? _)%f64 then _ else _). }
  destruct (w_faults w) as [|[] fs]; cbn [fst snd] in Hev; try done; injection Hev as <-;
    rewrite lookup_omap, map_lookup_imap in He; destruct (meter_index d !! id) as [ix|]; cbn in He; try done;
    (exists ix; split; [done|]; cbn; destruct (align_bill _ _) as [|b l] eqn:El; [done|]; injection He as <-; apply Hb).
Qed.

(** ** Properties *)

(** C29: The buckets of a meter's evidence are exactly the complete buckets of
    the stored bill (two consecutive starts, with the energy stored for the first)
    in which the counter rose: each carries the sum of the counter's hourly deltas
    that start in it, and the fraction of its hours that have one, in [[0, 1]].
    They come in time order without overlap, so an hour of the counter is charged
    to one bill only.  (No bill bucket is longer than an int64 of nanoseconds.) *)
Theorem evidence_buckets_sound (time_bucket : duration -> time -> time) (statID period : string) (w : World)
    (ev : gmap Z utilEvidence) (id : Z) (e : utilEvidence) :
  statID <> "" -> (utilityMeterEvidence time_bucket statID period w).1 = Ok ev -> ev !! id = Some e ->
  (forall s t k, billed statID period (w_db w) s t k -> t - s <= int64_max) ->
  StronglySorted (fun a b => ub_end a <= ub_start b) (ue_buckets e) /\
  exists ix, meter_index (w_db w) !! id = Some ix /\
    let deltas := span_deltas time_bucket (bill_span (bill_rows statID period (w_db w))) id ix (w_db w) in
    (forall b, b ∈ ue_buckets e ->
       let here := charged (ub_start b) (ub_end b) deltas in
       billed statID period (w_db w) (ub_start b) (ub_end b) (ub_utilityKwh b) /\
       sql_sum (map snd here) = Some (ub_meterDelta b) /\ pg_le (ub_meterDelta b) f0 = false /\
       ub_coverage b = clamp01 (of_Z (Z.of_nat (length here)) / (of_Z (ub_end b - ub_start b) / of_Z Hour))%f64 /\
       in01 (ub_coverage b)) /\
    (forall s t k rise, billed statID period (w_db w) s t k ->
       sql_sum (map snd (charged s t deltas)) = Some rise -> pg_le rise f0 = false ->
       exists b, b ∈ ue_buckets e /\ ub_start b = s /\ ub_end b = t).
Proof.
  intros Hs Hev He Hspan. destruct (evidence_aligned _ _ _ _ _ _ _ Hs Hev He) as (ix & Hix & ->).
  set (bill := bill_rows statID period (w_db w)). set (deltas := span_deltas _ _ _ _ _). split.
  - unfold align_bill. eapply strongly_sorted_omap; [|by apply strongly_sorted_with_next, bill_rows_sorted].
    intros [[t [u|]] k] [[t' [u'|]] k'] a b HR Ha Hb; try done.
    destruct (sql_sum _) as [s1|]; [|done]. destruct (pg_le s1 f0); [done|]. injection Ha as <-.
    destruct (sql_sum _) as [s2|]; [|done]. destruct (pg_le s2 f0); [done|]. injection Hb as <-.
    cbn in *. by apply HR.
  - exists ix. split; [done|]. cbv zeta. split.
    + intros b (Hin%billed_with_next & Hsum & Hp & Hc)%align_bill_elem. specialize (Hspan _ _ _ Hin) as Hle.
      pose proof (proj1 Hin). assert (0 < ub_end b - ub_start b <= int64_max) as Hlen by lia.
      split_and!; [done..| |by rewrite Hc; apply coverage_bounds; [lia|]].
      rewrite Hc. unfold coverage_of. by rewrite bucket_hours_pos.
    + intros s t k rise Hb%billed_with_next Hsum Hp.
      exists (mkUtilBucket s t k rise
                (coverage_of (of_Z (Z.of_nat (length (charged s t deltas)))) (bucket_hours s t))).
      split; [|done]. by apply align_bill_elem.
Qed.

Definition bill_reading (h k : Z) : Reading * string :=
  (mkReading (h * Hour + 60) "SCM" 42 (Some 7) (Some (of_Z k)) "rx", "").
Definition bill_DB : DB :=
  set_meter_index {[42 := mkIndex "SCM" (Some 7) 0 0 4 None None None 0]}
    (set_readings [bill_reading 0 100; bill_reading 1 105; bill_reading 2 112; bill_reading 3 120]
       (set_utility_energy {[("s", "hour", 0) := of_Z 5; ("s", "hour", 2 * Hour) := of_Z 8;
          ("s", "hour", 4 * Hour) := of_Z 9]} empty_DB)).

Lemma evidence_buckets_sound_witness :
  exists e : utilEvidence, length (ue_buckets e) = 2%nat /\
    StronglySorted (fun a b => ub_end a <= ub_start b) (ue_buckets e) /\
    forall b, b ∈ ue_buckets e -> billed "s" "hour" bill_DB (ub_start b) (ub_end b) (ub_utilityKwh b) /\ in01 (ub_coverage b).
Proof.
  set (m := utilityMeterEvidence floor_bucket "s" "hour" (mkWorld bill_DB 0 [])).
  assert (exists ev e, m.1 = Ok ev /\ ev !! 42 = Some e /\ length (ue_buckets e) = 2%nat) as (ev & e & E & He & Hl).
  { assert (match m.1 with Ok ev => match ev !! 42 with Some e => length (ue_buckets e) | None => 0%nat end
            | Err _ => 0%nat end = 2%nat) as H by (unfold m; vm_compute; reflexivity).
    clearbody m. destruct m.1 as [ev|]; [|discriminate H]. destruct (ev !! 42) as [e|] eqn:He; [|discriminate H].
    exists ev, e. split_and!; [reflexivity|exact He|exact H]. }
  exists e. split; [exact Hl|].
  destruct (evidence_buckets_sound floor_bucket "s" "hour" (mkWorld bill_DB 0 []) ev 42 e) as [H1 (ix & _ & H2 & _)].
  - discriminate.
  - exact E.
  - exact He.
  - intros s t k (_ & Hs & [k' Ht] & _). cbn [w_db] in Hs, Ht.
    assert (forall t k, utility_energy bill_DB !! ("s", "hour", t) = Some k -> 0 <= t <= 4 * Hour) as Hb.
    { intros u x Hu%bill_rows_elem.
      assert (forallb (fun z => (0 <=? z.1) && (z.1 <=? 4 * Hour)) (bill_rows "s" "hour" bill_DB) = true) as HF
        by (vm_compute; reflexivity).
      rewrite forallb_forall in HF. apply list_elem_of_In, HF in Hu. apply andb_true_iff in Hu as [Hu1 Hu2].
      split; by apply Z.leb_le. }
    specialize (Hb _ _ Hs) as Hs'. specialize (Hb _ _ Ht). unfold Hour, Minute, Second, int64_max in *. lia.
  - split; [exact H1|]. intros b Hb. destruct (H2 b Hb) as (Hbill & _ & _ & _ & Hc). split; [exact Hbill|exact Hc].
Defined.
