(* ===== verification/Daily.v ===== *)
(** * The daily physics screen ([internal/db/daily.go])

    Every electric meter's energy per local day against the monitored reference
    and the bill's band: the days that count, the verdict on each meter and the
    memo that [DailyReconciliation] keeps.  [math.Log] and the [%g] text of a
    number in the memo's key are parameters; the time-zone database is as in
    [Utility].  Go visits a map in any order; here the meters come by
    identifier. *)

From Stdlib Require Import SpecFloat.
From S2P Require Import Prelude Float64 Rounding Model Calendar Store Ert Config Database Deltas Samples Confidence Correlate Utility.

(** ** Data *)

Record DailyDay := mkDailyDay { dd_Day : string; dd_Kwh : option float64; dd_Resid : option float64 }.

Record DailyMeterRow := mkDailyRow {
  dm_EndpointID : Z; dm_MsgType : string; dm_EndpointType : option Z; dm_Label : option string;
  dm_Unit : option float64; dm_KwhPerDay : option float64;
  dm_ResidMean : option float64; dm_ResidSD : option float64;
  dm_Pass : bool; dm_Score : float64; dm_Reason : string; dm_Days : list DailyDay;
  dm_Packets : Z; dm_Sources : Z }.

Record DailyScreen := mkScreen {
  sc_Days : list string; sc_MonitoredKwh : list float64; sc_MonitoredAvg : float64;
  sc_BillLo : option float64; sc_BillHi : option float64;
  sc_BandLo : float64; sc_BandHi : float64;
  sc_MinDays : Z; sc_Survivors : Z; sc_ExcludedDays : Z; sc_CoverageMin : float64;
  sc_Rows : list DailyMeterRow; sc_verdicts : option (gmap Z PhysicsSignal) }.

Definition PhysicsMap (s : option DailyScreen) : option (gmap Z PhysicsSignal) := s ≫= sc_verdicts.

(** [AuxFromScreen] (correlate.go). *)
Definition AuxFromScreen (s : option DailyScreen) : option IdentifyAux :=
  option_map (fun x => mkAux (PhysicsMap s) (sc_Survivors x)) s.

Definition dailyMinDays : Z := 3.
Definition dailyMaxDays : Z := 60.
Definition dailyCoverageMin : float64 := lit 90 100.

Record screenMeta := mkMeta {
  sm_msgType : string; sm_endpointType : option Z; sm_packets : Z; sm_sources : Z; sm_ignored : bool;
  sm_label : option string }.
(** The zero value of an unknown meter. *)
Definition no_meta : screenMeta := mkMeta "" None 0 0 false None.

(** [%.1f]: the exact value rounded half to even. *)
Definition half_even (n d : Z) : Z :=
  let q := n / d in let r := n mod d in
  if (2 * r <? d) || ((2 * r =? d) && Z.even q) then q else q + 1.
Definition tenths (m : positive) (e : Z) : Z :=
  if 0 <=? e then Z.pos m * 2 ^ e * 10 else half_even (Z.pos m * 10) (2 ^ (- e)).
Definition fixed1 (x : float64) : string :=
  match x with
  | S754_nan => "NaN"
  | S754_infinity s => if s then "-Inf" else "+Inf"
  | S754_zero s => if s then "-0.0" else "0.0"
  | S754_finite s m e =>
      let t := tenths m e in
      (if s then "-" else "") ++ FormatInt (t / 10) ++ "." ++ FormatInt (t mod 10)
  end%string.

(** ** One meter *)

Section Screen.
Context (Log : float64 -> float64).

Definition unit_choices : list float64 := [f1; lit 1 10; lit 1 100].

(** The multiplier that lands the mean in the band, closest to 1.25 times the
    monitored mean. *)
Definition unit_dist (meanUnits monAvg mult : float64) : float64 :=
  fabs (Log (meanUnits * mult / (lit 125 100 * monAvg))%f64).
Definition in_band (bandLo bandHi k : float64) : bool := negb ((k <? bandLo)%f64 || (bandHi <? k)%f64).
Definition infer_unit (meanUnits monAvg bandLo bandHi : float64) : option float64 :=
  (fold_left (fun acc mult =>
     if in_band bandLo bandHi (meanUnits * mult)%f64
     then let dist := unit_dist meanUnits monAvg mult in
          if (dist <? acc.1)%f64 then (dist, Some mult) else acc
     else acc) unit_choices (fInf, None)).2.

(** The units of every day, or the first day without any. *)
Fixpoint day_units (byDay : gmap string float64) (days : list string) : list float64 + string :=
  match days with
  | [] => inl []
  | day :: days' =>
      match byDay !! day with
      | None => inr day
      | Some u => match day_units byDay days' with inl us => inl (u :: us) | inr d => inr d end
      end
  end.

Definition day_resid (monitored : gmap string float64) (unit : float64) (x : string * float64) : float64 :=
  (x.2 * unit - from_opt f0 (monitored !! x.1))%f64.
Definition day_tol (monitored : gmap string float64) (day : string) : float64 :=
  fmax (lit 15 10) (lit 5 100 * from_opt f0 (monitored !! day))%f64.
(** The meter reads below the monitored subset on that day. *)
Definition below (monitored : gmap string float64) (unit : float64) (x : string * float64) : bool :=
  (day_resid monitored unit x <? fopp (day_tol monitored x.1))%f64.

Definition daily_score (rm rs monAvg : float64) : float64 :=
  let stability := clamp01 (f1 - rs / (lit 15 100 * monAvg + of_Z 2))%f64 in
  let smallness := clamp01 (f1 - rm / fmax monAvg f1)%f64 in
  round (clamp01 (lit 3 10 + lit 4 10 * stability + lit 3 10 * smallness)%f64) 3.

Definition evalDailyRow (id : Z) (m : screenMeta) (byDay : gmap string float64) (days : list string)
    (monitored : gmap string float64) (monAvg bandLo bandHi : float64) : DailyMeterRow :=
  let row unit kpd rmean rsd pass score reason days :=
    mkDailyRow id (sm_msgType m) (sm_endpointType m) (sm_label m) unit kpd rmean rsd pass score reason days
      (sm_packets m) (sm_sources m) in
  match day_units byDay days with
  | inr day => row None None None None false f0 ("no readings on " ++ day)%string []
  | inl units =>
      let meanUnits := mean units in
      let xs := zip days units in
      match infer_unit meanUnits monAvg bandLo bandHi with
      | None =>
          row None None None None false f0
            ("magnitude: " ++ fixed1 meanUnits ++ " counts/day fits no unit in " ++ fixed1 bandLo ++ "–"
             ++ fixed1 bandHi ++ " kWh/day")%string
            (map (fun x => mkDailyDay x.1 (Some (round x.2 3)) None) xs)
      | Some unit =>
          let resids := map (day_resid monitored unit) xs in
          let out := map (fun x => mkDailyDay x.1 (Some (round (x.2 * unit)%f64 3))
                             (Some (round (day_resid monitored unit x) 3))) xs in
          let rm := mean resids in
          let rs := stddev resids in
          let kpd := Some (round (meanUnits * unit)%f64 2) in
          match List.find (below monitored unit) xs with
          | Some worst =>
              row (Some unit) kpd (Some (round rm 2)) (Some (round rs 2)) false f0
                ("reads below the monitored subset on " ++ worst.1
                 ++ " — physically impossible for your meter")%string out
          | None =>
              row (Some unit) kpd (Some (round rm 2)) (Some (round rs 2)) true (daily_score rm rs monAvg) "" out
          end
      end
  end.

(** ** Queries *)

Context (time_bucket : duration -> time -> time) (grid : time -> time -> list time)
        (local_day : string -> time -> Z) (valid_zone : string -> bool)
        (getenv : string -> string) (ParseFloat : string -> float64 * bool) (fmt_g : float64 -> string).

(** [meterDailyUnits]: the sum of a meter's clean deltas per local day. *)
Definition units_by_day (tz : string) (rows : list HourRow) : gmap string float64 :=
  list_to_map (map (fun day =>
    (date_of day, deref (sql_sum (map hr_delta (List.filter (fun r => local_day tz (hr_hb r) =? day) rows)))))
    (sorted_Z (map (fun r => local_day tz (hr_hb r)) rows))).
Definition meterDailyUnits (lo hi : time) (tz : string) : M (gmap Z (gmap string float64)) :=
  query (fun d _ =>
    omap (fun rows => match rows with [] => None | _ => Some (units_by_day tz rows) end)
      (map_imap (fun id _ => Some (hourly_deltas time_bucket (fun b => (lo <=? b) && (b <=? hi)) id d))
         (meter_index d))).

Definition meterScreenMeta : M (gmap Z screenMeta) :=
  query (fun d _ =>
    map_imap (fun id ix =>
      Some (mkMeta (ix_msg_type ix) (ix_endpoint_type ix) (ix_packets ix)
              (Z.of_nat (size (filter (fun kv : Z * string * SourceRow => kv.1.1 = id) (meter_source d))))
              (from_opt false (meters d !! id ≫= mr_ignored)) (meters d !! id ≫= mr_label)))
      (meter_index d)).

(** The minutes of a local day with a sample at most the carry limit old, of
    1440. *)
Definition covered_minutes (lo hi : time) (ts : list time) : list (time * bool) :=
  map (fun x => (x.1, match x.2 with Some src => x.1 <=? src + refCarryLimit | None => false end))
    (locf (fun mt => max_time (List.filter (fun t => time_bucket Minute t =? mt) ts)) None (grid lo hi)).
Definition day_coverage (tz : string) (ms : list (time * bool)) : gmap string float64 :=
  list_to_map (map (fun day =>
    (date_of day,
     (of_Z (Z.of_nat (length (List.filter (fun x : time * bool => x.2 && (local_day tz x.1 =? day)%Z) ms)))
        / of_Z 1440)%f64))
    (sorted_Z (map (fun x => local_day tz x.1) ms))).
Definition referenceCoverage (entities : list string) (tz : string) (lo hi : time) : M (gmap string float64) :=
  match entities with
  | [] => mret ∅
  | _ =>
      r ← try (query (fun d _ =>
            day_coverage tz (covered_minutes lo hi
              (List.filter (fun t => (lo <=? t) && (t <=? hi)) (ref_times entities d)))));
      mret (match r with Ok m => m | Err _ => ∅ end)
  end.

(** ** The screen *)

(** A day strictly inside the span, and whether the feed covered it. *)
Definition inside (firstDay lastDay day : string) : bool :=
  negb (String.leb day firstDay || String.leb lastDay day).
Definition covered (coverage : gmap string float64) (day : string) : bool :=
  negb (from_opt f0 (coverage !! day) <? dailyCoverageMin)%f64.
Definition full_days (firstDay lastDay : string) (monitored coverage : gmap string float64) : list string :=
  sort_by String.leb
    (map fst (List.filter (fun kv => inside firstDay lastDay kv.1 && covered coverage kv.1 && (f0 <? kv.2)%f64)
                (map_to_list monitored))).
Definition excluded_days (firstDay lastDay : string) (monitored coverage : gmap string float64) : Z :=
  Z.of_nat (length (List.filter (fun kv => inside firstDay lastDay kv.1 && negb (covered coverage kv.1))
                      (map_to_list monitored))).

(** The magnitude band, tightened by the bill's when they overlap. *)
Definition final_band (monAvg : float64) (bill : option (float64 * float64)) : float64 * float64 :=
  let bandLo := (lit 9 10 * monAvg)%f64 in
  let bandHi := (of_Z 3 * monAvg)%f64 in
  match bill with
  | Some (blo, bhi) =>
      let l := fmax bandLo (lit 6 10 * blo)%f64 in
      let h := fmin bandHi (lit 14 10 * bhi)%f64 in
      if (l <? h)%f64 then (l, h) else (bandLo, bandHi)
  | None => (bandLo, bandHi)
  end.

(** A meter the screen looks at: known, and asked for or an electric one not
    ignored. *)
Definition screened (requested : bool) (m : screenMeta) : bool :=
  requested || negb (sm_ignored m || negb (Commodity (sm_endpointType m) =? "electric")%string).

Section Rows.
Context (days : list string) (monitored : gmap string float64) (monAvg bandLo bandHi : float64)
        (perDay : gmap Z (gmap string float64)) (meta : gmap Z screenMeta) (extraIDs : list Z).

Definition screen_row (id : Z) : option DailyMeterRow :=
  match perDay !! id, meta !! id with
  | Some byDay, Some m =>
      if screened (bool_decide (id ∈ extraIDs)) m
      then Some (evalDailyRow id m byDay days monitored monAvg bandLo bandHi) else None
  | _, _ => None
  end.
Definition row_ids : list Z := sorted_Z (map fst (map_to_list perDay)).
Definition screen_verdicts : gmap Z PhysicsSignal :=
  list_to_map (omap (fun id =>
    match screen_row id with
    | Some r => if Nat.eqb (length (dm_Days r)) (length days)
                then Some (id, mkPhysics (dm_Score r) (dm_Pass r)) else None
    | None => None
    end) row_ids).
Definition missing_row (id : Z) : option DailyMeterRow :=
  match perDay !! id with
  | Some _ => None
  | None =>
      let m := from_opt no_meta (meta !! id) in
      Some (mkDailyRow id (sm_msgType m) (sm_endpointType m) (sm_label m) None None None None false f0
              "no readings in the analysis window" [] (sm_packets m) (sm_sources m))
  end.
Definition row_less (a b : DailyMeterRow) : bool :=
  if negb (Bool.eqb (dm_Pass a) (dm_Pass b)) then dm_Pass a else (dm_Score b <? dm_Score a)%f64.
Definition screen_rows : list DailyMeterRow :=
  sort_by (le_of row_less)
    (omap (fun id => match screen_row id with
                     | Some r => if dm_Pass r || bool_decide (id ∈ extraIDs) then Some r else None
                     | None => None
                     end) row_ids
     ++ omap missing_row extraIDs).
End Rows.

Definition empty_screen : DailyScreen :=
  mkScreen [] [] f0 None None f0 f0 dailyMinDays 0 0 f0 [] None.

Definition dailyReconciliation (entities : list string) (tz : string) (extraIDs : list Z) : M DailyScreen :=
  let tz := zone_of valid_zone tz in
  sp ← dataSpan;
  match sp with
  | None => mret empty_screen
  | Some (lo, hi) =>
      let lo := if dailyMaxDays * 24 * Hour <? Sub hi lo then Add hi (- dailyMaxDays * 24 * Hour) else lo in
      monitored ← monitoredDailyKwh time_bucket grid local_day entities tz lo hi;
      coverage ← referenceCoverage entities tz lo hi;
      let firstDay := date_of (local_day tz lo) in
      let lastDay := date_of (local_day tz hi) in
      let days := full_days firstDay lastDay monitored coverage in
      let excluded := excluded_days firstDay lastDay monitored coverage in
      let mon := map (fun day => from_opt f0 (monitored !! day)) days in
      let mk := map (fun v => round v 3) mon in
      if Z.of_nat (length days) <? dailyMinDays
      then mret (mkScreen days mk f0 None None f0 f0 dailyMinDays 0 excluded dailyCoverageMin [] None)
      else
        let monAvg := (fsum mon / of_Z (Z.of_nat (length days)))%f64 in
        bill ← billDailyBand local_day valid_zone getenv ParseFloat (substring 5 2 (from_opt "" (last days)));
        let '(bandLo, bandHi) := final_band monAvg bill in
        perDay ← meterDailyUnits lo hi tz;
        meta ← meterScreenMeta;
        let rows := screen_rows days monitored monAvg bandLo bandHi perDay meta extraIDs in
        mret (mkScreen days mk (round monAvg 3) (option_map fst bill) (option_map snd bill)
                (round bandLo 3) (round bandHi 3) dailyMinDays
                (Z.of_nat (length (List.filter dm_Pass rows))) excluded dailyCoverageMin rows
                (Some (screen_verdicts days monitored monAvg bandLo bandHi perDay meta extraIDs)))
  end.

(** ** The memo *)

Record dailyMemo := mkMemo { dmk_key : string; dmk_at : time; dmk_screen : DailyScreen }.
Definition memoTTL : duration := 5 * Minute.

Definition memo_key (entities : list string) (tz : string) (cfg : result Config) : string :=
  (tz ++ "|" ++ str_join "," entities ++
   match cfg with
   | Ok c => "|" ++ HVACEntityID c ++ "|" ++ fmt_g (HVACHeatingKW c) ++ "|" ++ fmt_g (HVACCoolingKW c)
   | Err _ => ""
   end)%string.

(** A memo of the same key, younger than the limit. *)
Definition memo_hit (key : string) (nw : time) (memo : option dailyMemo) : option DailyScreen :=
  match memo with
  | Some m => if (dmk_key m =? key)%string && (Sub nw (dmk_at m) <? memoTTL) then Some (dmk_screen m) else None
  | None => None
  end.

(** The screen or the error, and the memo afterwards. *)
Definition DailyReconciliation (entities : list string) (tz : string) (extraIDs : list Z) (memo : option dailyMemo)
  : M (result DailyScreen * option dailyMemo) :=
  match extraIDs with
  | _ :: _ => r ← try (dailyReconciliation entities tz extraIDs); mret (r, memo)
  | [] =>
      c ← try (LoadConfig getenv ParseFloat);
      let key := memo_key entities tz c in
      nw ← now;
      match memo_hit key nw memo with
      | Some s => mret (Ok s, memo)
      | None =>
          r ← try (dailyReconciliation entities tz []);
          match r with
          | Ok s => nw ← now; mret (Ok s, Some (mkMemo key nw s))
          | Err e => mret (Err e, memo)
          end
      end
  end.
End Screen.

(** ** Lemmas *)

(** The score of a passing meter is a number of [[0, 1]]. *)
Lemma daily_score_range rm rs monAvg :
  number rm = true -> number rs = true -> between f0 (of_Z (2 ^ 60)) monAvg ->
  fle f0 (daily_score rm rs monAvg) /\ fle (daily_score rm rs monAvg) f1.
Proof.
  intros Hm Hs Ha. unfold daily_score. cbv zeta. apply round3_in01, clamp01_in01.
  assert (forall x y b, number x = true -> between f1 b y -> in01 (clamp01 (f1 - x / y)%f64)) as Hq.
  { intros x y b Hx (V & F & S & _). apply clamp01_in01, input_rsub; [|fcomp].
    apply input_div; [done|by apply number_spec|]. assert (0 < sv f1) by fcomp. lia. }
  assert (between f1 (of_Z (2 ^ 61)) (lit 15 100 * monAvg + of_Z 2)%f64) as Hd.
  { eapply (between_add f0 (of_Z (2 ^ 60)) (of_Z 2) (of_Z 2)); [|fcomp..].
    eapply (between_mul (lit 15 100) (lit 15 100) f0 (of_Z (2 ^ 60))); fcomp. }
  assert (between f1 (of_Z (2 ^ 60)) (fmax monAvg f1)) as Hx.
  { assert (between f0 (of_Z (2 ^ 60)) f1) as B1 by (apply (between_weaken f1 f1); fcomp).
    assert (number monAvg = true) as Nm by (apply number_spec; by destruct Ha as (? & ? & _)).
    destruct (between_fmax f0 (of_Z (2 ^ 60)) _ monAvg f1 Nm Ha B1 eq_refl eq_refl eq_refl) as [(V & F & S0 & S1) Hl].
    split_and!; [done|done| |done]. by apply (sv_le f1). }
  eapply between_input, (between_add f0 (of_Z 2) f0 f1 f0 (of_Z 3)); [|by apply (between_weaken f0 (lit 3 10)); [fcomp|fcomp|apply part_mul; [fcomp|fcomp|eapply Hq]]|fcomp..].
  eapply (between_add (lit 3 10) (lit 3 10) f0 f1); [fcomp| |fcomp..].
  apply (between_weaken f0 (lit 4 10)); [fcomp|fcomp|apply part_mul; [fcomp|fcomp|by eapply Hq]].
Qed.

(** The band never leaves the monitored one, whatever the bill says. *)
Lemma final_band_spec monAvg bill :
  number monAvg = true -> flt (lit 9 10 * monAvg)%f64 (of_Z 3 * monAvg)%f64 ->
  flt (final_band monAvg bill).1 (final_band monAvg bill).2 /\
  fle (lit 9 10 * monAvg)%f64 (final_band monAvg bill).1 /\
  fle (final_band monAvg bill).2 (of_Z 3 * monAvg)%f64.
Proof.
  intros Hm Hlt. apply flt_le in Hlt as Hle. apply fle_not_nan in Hle as [N1 N2].
  unfold final_band. destruct bill as [[blo bhi]|]; [|cbn; split_and!; [done|by apply fle_refl..]].
  destruct (fltb (fmax _ _) _) eqn:E; cbn [fst snd]; [|split_and!; [done|by apply fle_refl..]].
  assert (flt (fmax (lit 9 10 * monAvg) (lit 6 10 * blo))%f64 (fmin (of_Z 3 * monAvg) (lit 14 10 * bhi))%f64) as E' by done.
  split; [done|]. apply flt_le, fle_not_nan in E' as [M1 M2]. split.
  - destruct (is_nan (lit 6 10 * blo)%f64) eqn:N; [|by apply fmax_spec].
    destruct (lit 6 10 * blo)%f64; try discriminate N.
    destruct (lit 9 10 * monAvg)%f64 as [[]|[]| |]; try discriminate M1; try discriminate N1. done.
  - destruct (is_nan (lit 14 10 * bhi)%f64) eqn:N; [|by apply fmin_spec].
    destruct (lit 14 10 * bhi)%f64; try discriminate N.
    destruct (of_Z 3 * monAvg)%f64 as [[]|[]| |]; try discriminate M2; try discriminate N2. done.
Qed.

Lemma day_units_spec byDay days us :
  day_units byDay days = inl us <-> Forall2 (fun d u => byDay !! d = Some u) days us.
Proof.
  revert us. induction days as [|d days IH]; intros us; cbn [day_units].
  - split; [intros [= <-]; constructor|by inversion 1].
  - destruct (byDay !! d) as [u|] eqn:E.
    + destruct (day_units byDay days) as [us'|e] eqn:E'.
      * split; [intros [= <-]; constructor; [done|by apply IH]|].
        inversion 1 as [|? u2 ? us2 H1 H2]; subst. apply IH in H2 as [= ->]. by rewrite E in H1; injection H1 as ->.
      * split; [done|]. inversion 1 as [|? u2 ? us2 H1 H2]; subst. by apply IH in H2.
    + split; [done|]. inversion 1; congruence.
Qed.

Lemma day_units_fail byDay days d : day_units byDay days = inr d -> d ∈ days /\ byDay !! d = None.
Proof.
  induction days as [|d' days IH]; cbn [day_units]; [done|].
  destruct (byDay !! d') as [u|] eqn:E; [|intros [= <-]; split; [by left|done]].
  destruct (day_units byDay days); [done|]. intros [= ->]. destruct IH; [done|]. split; [by right|done].
Qed.

(** *** The unit *)

(** A unit that puts the mean in the band, at a distance from 1.25 times the
    monitored mean that is a number below infinity. *)
Definition fits (Log : float64 -> float64) (mean monAvg lo hi u : float64) : Prop :=
  fltb (mean * u)%f64 lo = false /\ fltb hi (mean * u)%f64 = false /\
  fltb (fabs (Log (mean * u / (lit 125 100 * monAvg))%f64)) fInf = true.
(** The closest of the units that fit, and the first of these. *)
Definition best_unit (Log : float64 -> float64) (mean monAvg lo hi u : float64) : Prop :=
  let dist v := fabs (Log (mean * v / (lit 125 100 * monAvg))%f64) in
  exists before after, [f1; lit 1 10; lit 1 100] = (before ++ u :: after)%list /\ fits Log mean monAvg lo hi u /\
    (forall v, v ∈ before -> fits Log mean monAvg lo hi v -> fltb (dist u) (dist v) = true) /\
    (forall v, v ∈ after -> fits Log mean monAvg lo hi v -> fltb (dist v) (dist u) = false).

Lemma flt_trans x y z : flt x y -> flt y z -> flt x z.
Proof. intros Hxy Hyz. eapply flt_trans_le; [exact Hxy|by apply flt_le]. Qed.
Lemma flt_beats x y z : fltb x y = true -> fltb z y = false -> is_nan z = false -> fltb x z = true.
Proof.
  intros Hxy Hzy Hz. apply (flt_trans_le x y z Hxy). apply fltb_false; [done| |done].
  apply flt_le, fle_not_nan in Hxy. tauto.
Qed.
Lemma flt_number x y : fltb x y = true -> is_nan x = false.
Proof. intros H%flt_le%fle_not_nan. tauto. Qed.

Section Unit.
Context (Log : float64 -> float64) (mean monAvg lo hi : float64).
Notation dist := (unit_dist Log mean monAvg).
Notation ok := (fits Log mean monAvg lo hi).
Notation band v := (in_band lo hi (mean * v)%f64).

Lemma fits_spec u : ok u <-> band u = true /\ fltb (dist u) fInf = true.
Proof.
  unfold fits, in_band, unit_dist. destruct (fltb (mean * u)%f64 lo), (fltb hi (mean * u)%f64); cbn; naive_solver.
Qed.

Definition chosen (seen : list float64) (acc : float64 * option float64) : Prop :=
  match acc.2 with
  | None => acc.1 = fInf /\ forall v, v ∈ seen -> ~ ok v
  | Some u => acc.1 = dist u /\ ok u /\ exists before after, seen = (before ++ u :: after)%list /\
      (forall v, v ∈ before -> ok v -> fltb (dist u) (dist v) = true) /\
      (forall v, v ∈ after -> ok v -> fltb (dist v) (dist u) = false)
  end.

Lemma chosen_step seen acc x :
  chosen seen acc ->
  chosen (seen ++ [x])
    (if band x then let d := dist x in if (d <? acc.1)%f64 then (d, Some x) else acc else acc).
Proof.
  destruct acc as [d [u|]]; unfold chosen; cbn [fst snd]; cbv zeta.
  - intros (-> & Hu & before & after & -> & Hb & Ha).
    destruct (band x) eqn:Ex; [destruct (fltb (dist x) (dist u)) eqn:Ed|]; cbn [fst snd].
    + apply fits_spec in Hu as [Bu Fu]. assert (fltb (dist x) fInf = true) as Fx by (by eapply flt_trans).
      split; [done|]. split; [by apply fits_spec|]. exists (before ++ u :: after)%list, []. split; [done|].
      split; [|by intros v ?%elem_of_nil].
      intros v [Hv|[->|Hv]%elem_of_cons]%elem_of_app Hok.
      * eapply flt_trans; [exact Ed|]. by apply Hb.
      * done.
      * eapply flt_beats; [exact Ed|by apply Ha|]. apply fits_spec in Hok as [_ ?]. by eapply flt_number.
    + split; [done|]. split; [done|]. exists before, (after ++ [x])%list. split; [by rewrite <- app_assoc|].
      split; [done|]. intros v [Hv| ->%list_elem_of_singleton]%elem_of_app Hok; [by apply Ha|done].
    + split; [done|]. split; [done|]. exists before, (after ++ [x])%list. split; [by rewrite <- app_assoc|].
      split; [done|]. intros v [Hv| ->%list_elem_of_singleton]%elem_of_app Hok; [by apply Ha|].
      apply fits_spec in Hok as [? _]. congruence.
  - intros [-> Hno]. destruct (band x) eqn:Ex; [destruct (fltb (dist x) fInf) eqn:Ed|]; cbn [fst snd].
    + split; [done|]. split; [by apply fits_spec|]. exists seen, []. split; [done|].
      split; [|by intros v ?%elem_of_nil]. intros v Hv Hok. by destruct (Hno v Hv).
    + split; [done|]. intros v [Hv| ->%list_elem_of_singleton]%elem_of_app; [by apply Hno|].
      intros [_ ?]%fits_spec. congruence.
    + split; [done|]. intros v [Hv| ->%list_elem_of_singleton]%elem_of_app; [by apply Hno|].
      intros [? _]%fits_spec. congruence.
Qed.

Lemma infer_unit_chosen :
  match infer_unit Log mean monAvg lo hi with
  | Some u => best_unit Log mean monAvg lo hi u
  | None => forall v, v ∈ [f1; lit 1 10; lit 1 100] -> ~ ok v
  end.
Proof.
  assert (forall l seen acc, chosen seen acc ->
    chosen (seen ++ l) (fold_left (fun acc mult =>
      if band mult then let d := dist mult in if (d <? acc.1)%f64 then (d, Some mult) else acc else acc) l acc)) as H.
  { induction l as [|x l IH]; intros seen acc Hc; cbn [fold_left]; [by rewrite app_nil_r|].
    rewrite cons_middle, app_assoc. by apply IH, chosen_step. }
  unfold infer_unit.
  pose proof (H unit_choices [] (fInf, None) ltac:(split; [done|by intros v ?%elem_of_nil])) as Hr.
  unfold chosen in Hr. destruct (fold_left _ _ _).2 as [u|].
  - destruct Hr as (_ & Hu & before & after & Es & Hb & Ha). by exists before, after.
  - by destruct Hr.
Qed.

Lemma best_unit_unique u v : best_unit Log mean monAvg lo hi u -> best_unit Log mean monAvg lo hi v -> u = v.
Proof.
  intros (b & a & E & Hu & Hb & Ha) (b' & a' & E' & Hv & Hb' & Ha'). rewrite E in E'. fold (dist u) (dist v) in *.
  apply app_eq_inv in E' as [(l & Eb & El)|(l & Eb & El)]; (destruct l as [|x l]; cbn in El; injection El as Ex Ea; [done|]); subst x.
  - assert (fltb (dist u) (dist v) = true) as H1 by (apply Hb; [rewrite Eb; set_solver|done]).
    assert (fltb (dist u) (dist v) = false) as H2 by (apply Ha'; [rewrite Ea; set_solver|done]).
    congruence.
  - assert (fltb (dist v) (dist u) = true) as H1 by (apply Hb'; [rewrite Eb; set_solver|done]).
    assert (fltb (dist v) (dist u) = false) as H2 by (apply Ha; [rewrite Ea; set_solver|done]).
    congruence.
Qed.

Lemma infer_unit_spec u : infer_unit Log mean monAvg lo hi = Some u <-> best_unit Log mean monAvg lo hi u.
Proof.
  pose proof infer_unit_chosen as H. destruct (infer_unit Log mean monAvg lo hi) as [w|].
  - split; [by intros [= <-]|]. intros Hu. f_equal. by apply best_unit_unique.
  - split; [done|]. intros (b & a & E & Hu & _). destruct (H u); [rewrite E; set_solver|done].
Qed.

(** A unit is chosen as soon as one fits. *)
Lemma some_best_unit u : u ∈ [f1; lit 1 10; lit 1 100] -> ok u -> exists v, best_unit Log mean monAvg lo hi v.
Proof.
  intros Hin Hok. pose proof infer_unit_chosen as H.
  destruct (infer_unit Log mean monAvg lo hi) as [w|]; [by exists w|by destruct (H u Hin)].
Qed.
End Unit.

Lemma find_none {A} (f : A -> bool) l : List.find f l = None <-> forall x, x ∈ l -> f x = false.
Proof.
  split.
  - intros H x Hx. apply (find_none _ _ H). by apply list_elem_of_In.
  - intros H. destruct (List.find f l) as [x|] eqn:E; [|done]. apply find_some in E as [Hin Hx].
    apply list_elem_of_In in Hin. rewrite H in Hx by done. done.
Qed.

(** The rows of the screen by identifier. *)
Lemma screen_verdicts_spec Log days monitored monAvg lo hi perDay meta extra id v :
  screen_verdicts Log days monitored monAvg lo hi perDay meta extra !! id = Some v ->
  exists byDay m, perDay !! id = Some byDay /\ meta !! id = Some m /\
    screened (bool_decide (id ∈ extra)) m = true /\
    let r := evalDailyRow Log id m byDay days monitored monAvg lo hi in
    length (dm_Days r) = length days /\ v = mkPhysics (dm_Score r) (dm_Pass r).
Proof.
  unfold screen_verdicts. intros H. apply elem_of_list_to_map_2 in H.
  apply list_elem_of_omap in H as (id' & _ & H).
  destruct (screen_row Log days monitored monAvg lo hi perDay meta extra id') as [r|] eqn:Er; [|done].
  destruct (Nat.eqb_spec (length (dm_Days r)) (length days)) as [El|]; [|done]. injection H as -> <-.
  unfold screen_row in Er. destruct (perDay !! id) as [byDay|]; [|done]. destruct (meta !! id) as [m|]; [|done].
  destruct (screened _ m) eqn:Es; [|done]. injection Er as <-. by exists byDay, m.
Qed.

(** ** Properties *)

(** C26: A verdict of the physics screen rests on a meter that counted on every
    day of the screen.  It is a pass exactly when, at the best of the units 1, 0.1
    and 0.01 kWh, no day reads below the monitored energy by more than the
    tolerance (1.5 kWh or 5% of it, whichever is more); otherwise it is a violation
    with score 0.  A unit fits when it puts the meter's mean in the band, at a
    logarithmic distance from 1.25 times the monitored mean that is finite; the
    best one is the closest that fits (the first of equals), and there is one
    whenever one fits.  A meter that misses a day gets no verdict at all. *)
Theorem verdict_sound (Log : float64 -> float64) (days : list string) (monitored : gmap string float64)
    (monAvg lo hi : float64) (perDay : gmap Z (gmap string float64)) (meta : gmap Z screenMeta) (extra : list Z)
    (id : Z) (v : PhysicsSignal) :
  days <> [] ->
  screen_verdicts Log days monitored monAvg lo hi perDay meta extra !! id = Some v ->
  exists byDay units, perDay !! id = Some byDay /\ Forall2 (fun d u => byDay !! d = Some u) days units /\
    (ps_Pass v = true <->
       exists u, best_unit Log (mean units) monAvg lo hi u /\
         forall d k, (d, k) ∈ zip days units ->
           let kwh := from_opt f0 (monitored !! d) in
           fltb (k * u - kwh)%f64 (fopp (fmax (lit 15 10) (lit 5 100 * kwh)%f64)) = false) /\
    (ps_Pass v = false -> ps_Score v = f0) /\
    (forall u, u ∈ [f1; lit 1 10; lit 1 100] -> fits Log (mean units) monAvg lo hi u ->
       exists u', best_unit Log (mean units) monAvg lo hi u').
Proof.
  intros Hne (byDay & m & Hb & _ & _ & Hl & ->)%screen_verdicts_spec. unfold evalDailyRow in *.
  destruct (day_units byDay days) as [units|d] eqn:Eu; cbn [dm_Days] in Hl; [|by destruct days].
  exists byDay, units. split_and!; [done|by apply day_units_spec| | |].
  - cbn [ps_Pass]. setoid_rewrite <- infer_unit_spec.
    destruct (infer_unit _ _ _ _ _) as [u|]; cbn [dm_Pass]; [|split; [done|by intros (? & ? & _)]].
    destruct (List.find _ _) as [w|] eqn:Ef; cbn [dm_Pass].
    + split; [done|]. intros (u' & [= <-] & Hall). apply find_some in Ef as [Hin Hw].
      apply list_elem_of_In in Hin. destruct w as [d k]. specialize (Hall d k Hin).
      unfold below, day_resid, day_tol in Hw. cbn in *. congruence.
    + split; [|done]. intros _. exists u. split; [done|]. intros d k Hin. rewrite find_none in Ef. exact (Ef _ Hin).
  - cbn [ps_Pass ps_Score]. destruct (infer_unit _ _ _ _ _) as [u|]; [|done]. destruct (List.find _ _); done.
  - intros u Hin Hu. by eapply some_best_unit.
Qed.

Definition two_days : gmap string float64 := {["2026-01-02" := of_Z 20; "2026-01-03" := of_Z 22]}.
Definition screened_units : gmap Z (gmap string float64) :=
  {[42 := {["2026-01-02" := of_Z 250; "2026-01-03" := of_Z 260]}]}.
Definition electric_meta : gmap Z screenMeta := {[42 := mkMeta "SCM" (Some 7) 900 1 false None]}.

Lemma verdict_sound_witness :
  exists v, screen_verdicts fabs ["2026-01-02"; "2026-01-03"] two_days (of_Z 21) (of_Z 19) (of_Z 63)
      screened_units electric_meta [] !! 42 = Some v /\ ps_Pass v = true /\
    exists units : list float64, length units = 2%nat.
Proof.
  set (vs := screen_verdicts fabs ["2026-01-02"; "2026-01-03"] two_days (of_Z 21) (of_Z 19) (of_Z 63)
      screened_units electric_meta []).
  assert (option_map ps_Pass (vs !! 42) = Some true) as E by (unfold vs; vm_compute; reflexivity).
  destruct (vs !! 42) as [v|] eqn:Ev; [|discriminate E]. exists v. split; [reflexivity|].
  injection E as E. split; [exact E|]. unfold vs in Ev.
  destruct (verdict_sound fabs ["2026-01-02"; "2026-01-03"] two_days (of_Z 21) (of_Z 19) (of_Z 63)
      screened_units electric_meta [] 42 v) as (byDay & units & _ & HF & _); [discriminate|exact Ev|].
  exists units. symmetry. exact (Forall2_length _ _ _ HF).
Defined.

(** ** The screen as a whole *)

Lemma full_days_sorted firstDay lastDay monitored coverage :
  Sorted (fun a b => String.leb a b = true) (full_days firstDay lastDay monitored coverage) /\
  NoDup (full_days firstDay lastDay monitored coverage).
Proof.
  split; [apply sort_by_sorted, String.leb_total|]. unfold full_days. rewrite sort_by_perm.
  eapply sublist_NoDup; [apply (NoDup_fst_map_to_list monitored)|].
  apply fmap_sublist. generalize (map_to_list monitored). intros l.
  induction l as [|x l IH]; cbn; [constructor|]. case_match; by constructor.
Qed.

(** The days that count. *)
Lemma full_days_spec firstDay lastDay monitored coverage day :
  day ∈ full_days firstDay lastDay monitored coverage <->
  String.leb day firstDay = false /\ String.leb lastDay day = false /\
  fltb (from_opt f0 (coverage !! day)) (lit 90 100) = false /\
  exists kwh, monitored !! day = Some kwh /\ flt f0 kwh.
Proof.
  unfold full_days. rewrite sort_by_perm.
  assert (day ∈ map fst (List.filter (fun kv => inside firstDay lastDay kv.1 && covered coverage kv.1 && (f0 <? kv.2)%f64)
            (map_to_list monitored)) <->
          exists kwh, monitored !! day = Some kwh /\ inside firstDay lastDay day && covered coverage day && (f0 <? kwh)%f64 = true) as ->.
  { split.
    - intros ([d kwh] & -> & Hin)%list_elem_of_fmap. apply list_elem_of_In, filter_In in Hin as [Hin Hb].
      apply list_elem_of_In, elem_of_map_to_list in Hin. by exists kwh.
    - intros (kwh & Hin & Hb). apply list_elem_of_fmap. exists (day, kwh). split; [done|].
      apply list_elem_of_In, filter_In. split; [|done]. by apply list_elem_of_In, elem_of_map_to_list. }
  unfold inside, covered, dailyCoverageMin, flt. split.
  - intros (kwh & Hm & Hb). rewrite !andb_true_iff, !negb_true_iff, orb_false_iff in Hb. naive_solver.
  - intros (H1 & H2 & H3 & kwh & Hm & Hk). exists kwh. split; [done|]. by rewrite H1, H2, H3, Hk.
Qed.

(** At most the last sixty days. *)
Lemma clip_span lo hi :
  let lo' := if dailyMaxDays * 24 * Hour <? Sub hi lo then Add hi (- dailyMaxDays * 24 * Hour) else lo in
  lo' = (if 60 * 24 * Hour <? Sub hi lo then hi - 60 * 24 * Hour else lo) /\ hi - lo' <= 60 * 24 * Hour.
Proof.
  cbv zeta. change (dailyMaxDays * 24 * Hour) with (60 * 24 * Hour).
  destruct (Z.ltb_spec (60 * 24 * Hour) (Sub hi lo)) as [|Hs]; unfold Add;
    unfold Sub, int64_max, int64_min, dailyMaxDays, Hour, Minute, Second in *; lia.
Qed.

(** C25: Every screen returned, whatever fails on the way.  Its days are in order
    and distinct, and are exactly those that lie strictly between the first and the
    last day of the data (of at most its last 60 days), that the feed covers for at
    least 90% and that have positive monitored energy; the monitored energy and
    the coverage are those computed for that span, and the energies shown are the
    monitored ones of the days, rounded.  There are verdicts exactly with three
    days or more, rows only then, and the survivors are the rows that pass. *)
Theorem screen_sound (Log : float64 -> float64) (time_bucket : duration -> time -> time)
    (grid : time -> time -> list time) (local_day : string -> time -> Z) (valid_zone : string -> bool)
    (getenv : string -> string) (ParseFloat : string -> float64 * bool)
    (entities : list string) (tz : string) (extra : list Z) (w w' : World) (s : DailyScreen) :
  dailyReconciliation Log time_bucket grid local_day valid_zone getenv ParseFloat entities tz extra w = (Ok s, w') ->
  Sorted (fun a b => String.leb a b = true) (sc_Days s) /\ NoDup (sc_Days s) /\
  sc_Survivors s = Z.of_nat (length (List.filter dm_Pass (sc_Rows s))) /\
  (is_Some (sc_verdicts s) <-> (3 <= length (sc_Days s))%nat) /\
  (sc_Rows s <> [] -> (3 <= length (sc_Days s))%nat) /\
  exists span w1, dataSpan w = (Ok span, w1) /\
    match span with
    | None => sc_Days s = [] /\ sc_MonitoredKwh s = []
    | Some (lo0, hi) =>
        exists lo monitored coverage w2 w3,
          lo = (if 60 * 24 * Hour <? Sub hi lo0 then hi - 60 * 24 * Hour else lo0) /\ hi - lo <= 60 * 24 * Hour /\
          monitoredDailyKwh time_bucket grid local_day entities (zone_of valid_zone tz) lo hi w1 = (Ok monitored, w2) /\
          referenceCoverage time_bucket grid local_day entities (zone_of valid_zone tz) lo hi w2 = (Ok coverage, w3) /\
          sc_MonitoredKwh s = map (fun day => round (from_opt f0 (monitored !! day)) 3) (sc_Days s) /\
          forall day, day ∈ sc_Days s <->
            String.leb day (date_of (local_day (zone_of valid_zone tz) lo)) = false /\
            String.leb (date_of (local_day (zone_of valid_zone tz) hi)) day = false /\
            fltb (from_opt f0 (coverage !! day)) (lit 90 100) = false /\
            exists kwh, monitored !! day = Some kwh /\ flt f0 kwh
    end.
Proof.
  intros H. unfold dailyReconciliation in H. cbv zeta in H.
  apply bind_Ok in H as ([[lo hi]|] & w1 & Hspan & H).
  2: { injection H as <- _. cbn. split_and!; try done; [constructor|split; [by intros [? ?]|lia]|].
    by exists None, w1. }
  apply bind_Ok in H as (monitored & w2 & Hmon & H). apply bind_Ok in H as (coverage & w3 & Hcov & H).
  set (lo' := if dailyMaxDays * 24 * Hour <? Sub hi lo then _ else lo) in *.
  set (days := full_days _ _ monitored coverage) in *.
  pose proof (full_days_sorted (date_of (local_day (zone_of valid_zone tz) lo'))
    (date_of (local_day (zone_of valid_zone tz) hi)) monitored coverage) as [Hsort Hnd]. fold days in Hsort, Hnd.
  pose proof (full_days_spec (date_of (local_day (zone_of valid_zone tz) lo'))
    (date_of (local_day (zone_of valid_zone tz) hi)) monitored coverage) as Hday. fold days in Hday.
  destruct (clip_span lo hi) as [Hlo Hmax]. fold lo' in Hlo, Hmax.
  destruct (Z.ltb_spec (Z.of_nat (length days)) dailyMinDays) as [Hl|Hl]; unfold dailyMinDays in Hl.
  - injection H as <- _. cbn [sc_Days sc_MonitoredKwh sc_Survivors sc_Rows sc_verdicts].
    split_and!; try done; [split; [by intros [? ?]|lia]|].
    exists (Some (lo, hi)), w1. split; [done|]. exists lo', monitored, coverage, w2, w3. by rewrite map_map.
  - apply bind_Ok in H as (bill & w4 & _ & H). destruct (final_band _ bill) as [bl bh].
    apply bind_Ok in H as (perDay & w5 & _ & H). apply bind_Ok in H as (meta & w6 & _ & H).
    injection H as <- _. cbn [sc_Days sc_MonitoredKwh sc_Survivors sc_Rows sc_verdicts].
    split_and!; try done; [split; [lia|by eexists]|lia|].
    exists (Some (lo, hi)), w1. split; [done|]. exists lo', monitored, coverage, w2, w3. by rewrite map_map.
Qed.

(** Five days of one sensor on an hourly grid: the inner days are not covered. *)
Definition hour_grid (lo hi : time) : list time :=
  map (fun k => lo + Z.of_nat k * Hour) (seq 0 (S (Z.to_nat ((hi - lo) / Hour)))).
Definition utc_day (tz : string) (t : time) : Z := t / Day.
Definition sparse_DB : DB :=
  set_meter_index {[42 := mkIndex "SCM" (Some 7) 0 (4 * Day) 2 None None None (4 * Day)]}
    (set_reference_samples [mkRefSample 0 "p" (of_Z 500) ""; mkRefSample (4 * Day) "p" (of_Z 700) ""] empty_DB).

Lemma screen_sound_witness :
  exists s w', dailyReconciliation fabs floor_bucket hour_grid utc_day (fun _ => true) (fun _ => "") (fun _ => (f0, false))
      ["p"] "UTC" [] (mkWorld sparse_DB (5 * Day) []) = (Ok s, w') /\
    sc_ExcludedDays s = 3 /\ Sorted (fun a b => String.leb a b = true) (sc_Days s).
Proof.
  set (m := dailyReconciliation fabs floor_bucket hour_grid utc_day (fun _ => true) (fun _ => "") (fun _ => (f0, false))
      ["p"] "UTC" [] (mkWorld sparse_DB (5 * Day) [])).
  assert (match m.1 with Ok s => sc_ExcludedDays s | Err _ => 0 end = 3) as E by (unfold m; vm_compute; reflexivity).
  destruct m as [[s|] w'] eqn:Em; cbn [fst] in E; [|discriminate E].
  exists s, w'. split; [reflexivity|]. split; [exact E|].
  by apply (screen_sound fabs floor_bucket hour_grid utc_day (fun _ => true) (fun _ => "") (fun _ => (f0, false))
      ["p"] "UTC" [] (mkWorld sparse_DB (5 * Day) []) w' s).
Defined.

(** ** The memo *)

Section Memo.
Context (Log : float64 -> float64) (time_bucket : duration -> time -> time) (grid : time -> time -> list time)
        (local_day : string -> time -> Z) (valid_zone : string -> bool)
        (getenv : string -> string) (ParseFloat : string -> float64 * bool) (fmt_g : float64 -> string).

Notation screen_run := (dailyReconciliation Log time_bucket grid local_day valid_zone getenv ParseFloat).
Notation serve := (DailyReconciliation Log time_bucket grid local_day valid_zone getenv ParseFloat fmt_g).
Notation key_of := (memo_key fmt_g).

(** The memo holds the screen of some run, under the key of its inputs and the
    time at which it ended. *)
Definition memo_ok (memo : option dailyMemo) : Prop :=
  forall m, memo = Some m -> exists entities tz c w w',
    screen_run entities tz [] w = (Ok (dmk_screen m), w') /\
    dmk_at m = w_now w' /\ dmk_key m = key_of entities tz c.

(** Whatever sequence of calls built the memo, a screen that is returned was
    computed by a run of the screen that ended less than five minutes earlier
    with the same extra identifiers and, without any, under an equal key of zone,
    sensors and air-conditioning estimate; the memo stays sound. *)
Theorem served_screen_recent (entities : list string) (tz : string) (extra : list Z) (memo memo' : option dailyMemo)
    (w w' : World) (s : DailyScreen) :
  memo_ok memo -> serve entities tz extra memo w = (Ok (Ok s, memo'), w') ->
  memo_ok memo' /\
  exists entities' tz' w0 w0', screen_run entities' tz' extra w0 = (Ok s, w0') /\
    w_now w' - w_now w0' < memoTTL /\
    (extra <> [] -> w0 = w /\ memo' = memo) /\
    (extra = [] -> exists c c', key_of entities tz c = key_of entities' tz' c').
Proof.
  intros Hm H. unfold DailyReconciliation in H. destruct extra as [|x extra].
  - apply bind_Ok in H as (c & w1 & _ & H). cbv zeta in H.
    apply bind_Ok in H as (nw & w2 & [= <- <-] & H).
    destruct (memo_hit (key_of entities tz c) (w_now w1) memo) as [s0|] eqn:Eh.
    + injection H as -> <- <-. split; [exact Hm|]. unfold memo_hit in Eh. destruct memo as [m|]; [|done].
      destruct (((dmk_key m =? _)%string) && _) eqn:Eb; [|done]. injection Eh as <-.
      apply andb_true_iff in Eb as [Ek Et]. apply String.eqb_eq in Ek. apply Z.ltb_lt in Et.
      destruct (Hm m eq_refl) as (e' & tz' & c' & w0 & w0' & Hr & Ha & Hk).
      exists e', tz', w0, w0'. split_and!; [exact Hr| |done|].
      * rewrite Ha in Et. unfold Sub, int64_max, int64_min, memoTTL, Minute, Second in *. lia.
      * intros _. exists c, c'. congruence.
    + apply bind_Ok in H as (r & w3 & Hr & H). unfold try in Hr.
      destruct (screen_run entities tz [] w1) as [r' w3'] eqn:Er. injection Hr as -> ->.
      destruct r as [s1|e]; [|discriminate H].
      apply bind_Ok in H as (nw & w4 & [= <- <-] & H). injection H as -> <- <-. split.
      * intros m [= <-]. by exists entities, tz, c, w1, w3.
      * exists entities, tz, w1, w3. split_and!; [exact Er|unfold memoTTL, Minute, Second; lia|done|by exists c, c].
  - apply bind_Ok in H as (r & w3 & Hr & H). unfold try in Hr.
    destruct (screen_run entities tz (x :: extra) w) as [r' w3'] eqn:Er. injection Hr as -> ->.
    injection H as -> <- <-. split; [exact Hm|].
    exists entities, tz, w, w3. split_and!; [exact Er|unfold memoTTL, Minute, Second; lia|done|done].
Qed.
End Memo.

Lemma served_screen_recent_witness :
  let serve := DailyReconciliation fabs floor_bucket hour_grid utc_day (fun _ => true) (fun _ => "")
                 (fun _ => (f0, false)) (fun _ => "0") in
  exists s memo w', serve ["p"] "UTC" [] None (mkWorld sparse_DB (5 * Day) []) = (Ok (Ok s, memo), w') /\
    memo_ok fabs floor_bucket hour_grid utc_day (fun _ => true) (fun _ => "") (fun _ => (f0, false)) (fun _ => "0") memo.
Proof.
  cbv zeta.
  set (m := DailyReconciliation fabs floor_bucket hour_grid utc_day (fun _ => true) (fun _ => "")
              (fun _ => (f0, false)) (fun _ => "0") ["p"] "UTC" [] None (mkWorld sparse_DB (5 * Day) [])).
  assert (match m.1 with Ok (Ok _, Some x) => dmk_at x | _ => 0 end = 5 * Day) as E by (unfold m; vm_compute; reflexivity).
  destruct m as [[[[s|] memo]|] w'] eqn:Em; cbn [fst] in E; try discriminate E.
  exists s, memo, w'. split; [reflexivity|].
  by apply (served_screen_recent fabs floor_bucket hour_grid utc_day (fun _ => true) (fun _ => "")
    (fun _ => (f0, false)) (fun _ => "0") ["p"] "UTC" [] None memo (mkWorld sparse_DB (5 * Day) []) w' s).
Defined.

(** The magnitude band is never empty and never leaves 0.9 to 3 times the
    monitored mean, whatever the bill's band is (NaN and infinities included);
    the score of a passing meter is a number between 0 and 1. *)
Theorem screen_bounds (monAvg rm rs : float64) (bill : option (float64 * float64)) :
  between f0 (of_Z (2 ^ 60)) monAvg -> flt (lit 9 10 * monAvg)%f64 (of_Z 3 * monAvg)%f64 ->
  number rm = true -> number rs = true ->
  (flt (final_band monAvg bill).1 (final_band monAvg bill).2 /\
   fle (lit 9 10 * monAvg)%f64 (final_band monAvg bill).1 /\
   fle (final_band monAvg bill).2 (of_Z 3 * monAvg)%f64) /\
  fle f0 (daily_score rm rs monAvg) /\ fle (daily_score rm rs monAvg) f1.
Proof.
  intros Ha Hlt Hm Hs. split; [|by apply daily_score_range].
  apply final_band_spec; [|done]. apply number_spec. by destruct Ha as (? & ? & _).
Qed.

Lemma screen_bounds_witness :
  fle (final_band (of_Z 21) (Some (of_Z 25, fNaN))).2 (of_Z 63) /\ fle (daily_score (of_Z 5) f1 (of_Z 21)) f1.
Proof.
  destruct (screen_bounds (of_Z 21) (of_Z 5) f1 (Some (of_Z 25, fNaN))) as ((_ & _ & H) & _ & H').
  - apply (between_weaken (of_Z 21) (of_Z 21)); fcomp.
  - vm_compute. reflexivity.
  - vm_compute. reflexivity.
  - vm_compute. reflexivity.
  - split; [exact H|exact H'].
Defined.
