(* ===== verification/Combined.v ===== *)
(** * Ranking across test windows ([internal/db/correlate.go])

    [CombinedRanking] and [IdentifyAuto]: every closed window is ranked, a
    meter's standings are aggregated, the bill's evidence is folded in and the
    meters are ordered.  Go visits its maps in any order; here meters come by
    identifier.  The comparison of the final sort is not transitive
    ([ranking_less_cycles]); the sort is an insertion sort on it. *)

From S2P Require Import Prelude Float64 Rounding Model Calendar Store Ert Config Database Deltas Confidence Windows Samples Correlate Utility Daily.

(** A meter's standing across windows. *)
Record AggRow := mkAggRow {
  ar_EndpointID : Z; ar_Commodity : string; ar_AvgScore : float64; ar_MinScore : float64; ar_AvgR : option float64;
  ar_Wins : Z; ar_TestsPresent : Z; ar_TestsTotal : Z;
  ar_Confidence : option float64; ar_AvgConfidence : option float64; ar_MultiplierCoV : option float64;
  ar_AnchorMultiplier : option float64; ar_SuggestedMult : option float64;
  ar_UtilityMultiplier : option float64; ar_UtilityR : option float64; ar_UtilityBuckets : Z }.

(** ** Confidence across windows *)

Definition utility_raw (e : utilEvidence) : float64 :=
  let stab := match ue_cov e with Some c => clamp01 (f1 - c)%f64 | None => lit 5 10 end in
  let cover := clamp01 (of_Z (ue_bucketsCovered e) / of_Z 3)%f64 in
  let conf := (stab * (lit 5 10 + lit 5 10 * cover))%f64 in
  match ue_r e with
  | Some r => (lit 5 10 * conf + lit 5 10 * clamp01 r)%f64
  | None => conf
  end.
Definition utilityOnlyConfidence (e : option utilEvidence) : option float64 :=
  match e with
  | None => None
  | Some e => if ue_bucketsCovered e =? 0 then None
              else Some (round (clamp01 (utility_raw e) * lit 7 10)%f64 3)
  end.

(** Appearing and winning in several windows. *)
Definition agreement (wins present total : Z) : float64 :=
  if 1 <? total
  then (lit 6 10 + lit 25 100 * (of_Z present / of_Z total) + lit 15 100 * (of_Z wins / of_Z total))%f64
  else f1.
(** The coefficient of variation of the windows' multipliers. *)
Definition mult_cov (mults : list float64) : option float64 :=
  match mults with
  | _ :: _ :: _ => let m := mean mults in if (f0 <? m)%f64 then Some (stddev mults / m)%f64 else None
  | _ => None
  end.
(** The cut for two multipliers that differ: [top - 0.3 (ratio - 1)]. *)
Definition ratio_factor (top a b : float64) : float64 :=
  let ratio := (a / b)%f64 in
  let ratio := if (ratio <? f1)%f64 then (f1 / ratio)%f64 else ratio in
  clamp01 (top - lit 3 10 * (ratio - f1))%f64.

(** The factors of the confidence, in the order they are applied. *)
Definition agg_factors (wins present total : Z) (mults anchors : list float64) (util : option utilEvidence)
  : list float64 :=
  let sm := match mults with [] => None | _ => Some (round (mean mults) 8) end in
  let am := match anchors with [] => None | _ => Some (round (mean anchors) 8) end in
  (if 1 <? total then [agreement wins present total] else [])
  ++ match mult_cov mults with Some cov => [clamp01 (lit 11 10 - cov)%f64] | None => [] end
  ++ match am, sm with
     | Some a, Some s => if (f0 <? s)%f64 && (f0 <? a)%f64 then [ratio_factor (lit 12 10) a s] else []
     | _, _ => []
     end
  ++ match util ≫= ue_multiplier, coalesce sm am with
     | Some u, Some ref => if (f0 <? u)%f64 && (f0 <? ref)%f64 then [ratio_factor (lit 115 100) u ref] else []
     | _, _ => []
     end.
Definition agg_product (c : float64) (factors : list float64) : float64 := fold_left fmul factors c.

(** [aggregateConfidence] on a fresh row. *)
Definition aggregateConfidence (row : AggRow) (confs mults anchors : list float64) (util : option utilEvidence)
  : AggRow :=
  let um := util ≫= ue_multiplier in
  let ur := util ≫= ue_r in
  let ub := match util with Some e => ue_bucketsCovered e | None => ar_UtilityBuckets row end in
  let set conf avg cov anchor sugg :=
    mkAggRow (ar_EndpointID row) (ar_Commodity row) (ar_AvgScore row) (ar_MinScore row) (ar_AvgR row)
      (ar_Wins row) (ar_TestsPresent row) (ar_TestsTotal row) conf avg cov anchor sugg um ur ub in
  match confs with
  | [] => set (utilityOnlyConfidence util) None None None None
  | _ =>
      let conf := agg_product (mean confs)
                    (agg_factors (ar_Wins row) (ar_TestsPresent row) (ar_TestsTotal row) mults anchors util) in
      set (Some (round (clamp01 conf) 3)) (Some (round (mean confs) 3))
        (option_map (fun c => round c 3) (mult_cov mults))
        (match anchors with [] => None | _ => Some (round (mean anchors) 8) end)
        (match mults with [] => None | _ => Some (round (mean mults) 8) end)
  end.

(** ** The windows *)

(** What the windows say of one meter. *)
Record agg := mkAggr {
  ag_commodity : string; ag_scores : list float64; ag_rs : list float64; ag_confs : list float64;
  ag_mults : list float64; ag_anchors : list float64; ag_wins : Z; ag_present : Z }.

Definition opt_list {A} (o : option A) : list A := match o with Some x => [x] | None => [] end.

Definition add_standing (expectedKwh : float64) (rank : nat) (r : CorrRow) (per : gmap Z agg) : gmap Z agg :=
  let a := from_opt (mkAggr (c_Commodity r) [] [] [] [] [] 0 0) (per !! c_EndpointID r) in
  <[c_EndpointID r := mkAggr (ag_commodity a)
      (ag_scores a ++ [c_Score r]) (ag_rs a ++ opt_list (c_R r)) (ag_confs a ++ opt_list (c_Confidence r))
      (ag_mults a ++ opt_list (c_SuggestedMultiplier r))
      (ag_anchors a ++ if (f0 <? expectedKwh)%f64 && (f0 <? c_WindowDelta r)%f64
                       then [(expectedKwh / c_WindowDelta r)%f64] else [])
      (ag_wins a + if Nat.eqb rank 0 then 1 else 0) (ag_present a + 1)]> per.
Fixpoint add_standings (expectedKwh : float64) (rank : nat) (rows : list CorrRow) (per : gmap Z agg) : gmap Z agg :=
  match rows with
  | [] => per
  | r :: rows' => add_standings expectedKwh (S rank) rows' (add_standing expectedKwh rank r per)
  end.

(** [used]: identifier and label of a window that ranked something. *)
Definition acc : Type := gmap Z agg * list (Z * string).

Section Windows.
Context (Log : float64 -> float64) (time_bucket : duration -> time -> time) (grid : time -> time -> list time)
        (local_day : string -> time -> Z) (valid_zone : string -> bool)
        (getenv : string -> string) (ParseFloat : string -> float64 * bool) (fmt_g : float64 -> string)
        (stddev_samp : list float64 -> option float64) (Erfinv : float64 -> float64)
        (regr : list (float64 * float64) -> pgRegr).

(** The aux of a window: the snoop pool frozen at its close wins. *)
Definition window_aux (aux : option IdentifyAux) (w : windowRow) : option IdentifyAux :=
  match wr_snoopK w with
  | Some k => if 0 <? k then Some (mkAux (aux ≫= ia_Physics) k) else aux
  | None => aux
  end.

Definition window_minutes (w : windowRow) : Z := ftrunc (Minutes (Sub (wr_end w) (wr_start w))).

(** The rows of one window ([Err] skips it); [None] is a panic. *)
Definition rank_window (useRef : bool) (entities : list string) (aux : option IdentifyAux) (w : windowRow)
  : M (option (result (list CorrRow))) :=
  if useRef then
    r ← try (CorrelationVsReferenceAux time_bucket grid stddev_samp Erfinv regr entities (wr_start w) (wr_end w)
               (PickBucketMin (window_minutes w)) true (window_aux aux w));
    mret (match r with
          | Ok (Some (rows, _)) => Some (Ok rows)
          | Ok None => None
          | Err e => Some (Err e)
          end)
  else r ← try (Correlation time_bucket (wr_start w) (wr_end w)); mret (Some r).

Definition expected_kwh (w : windowRow) : M float64 :=
  match wr_knownLoadW w with
  | Some load => mret (load * Hours (Sub (wr_end w) (wr_start w)) / of_Z 1000)%f64
  | None => match wr_knownEntity w with
            | Some e => EntityEnergy time_bucket grid e (wr_start w) (wr_end w)
            | None => mret f0
            end
  end.

Fixpoint window_loop (useRef : bool) (entities : list string) (aux : option IdentifyAux) (wins : list windowRow)
    (s : acc) : M (option acc) :=
  match wins with
  | [] => mret (Some s)
  | w :: wins' =>
      o ← rank_window useRef entities aux w;
      match o with
      | None => mret None
      | Some (Err _) | Some (Ok []) => window_loop useRef entities aux wins' s
      | Some (Ok rows) =>
          kwh ← expected_kwh w;
          window_loop useRef entities aux wins'
            (add_standings kwh 0 rows s.1, (s.2 ++ [(wr_id w, wr_label w)])%list)
      end
  end.

Definition maxWindows : nat := 20.
Definition recent (wins : list windowRow) : list windowRow := drop (length wins - maxWindows) wins.

(** [meterCommodities]. *)
Definition meterCommodities (ids : list Z) : M (gmap Z string) :=
  match ids with
  | [] => mret ∅
  | _ => query (fun d _ =>
           map_imap (fun id ix => if bool_decide (id ∈ ids) then Some (Commodity (ix_endpoint_type ix)) else None)
             (meter_index d))
  end.

(** The row of a meter seen in a window, and of one the bill alone speaks of. *)
Definition window_row (useRef : bool) (total : Z) (util : gmap Z utilEvidence) (id : Z) (a : agg) : AggRow :=
  let row := mkAggRow id (ag_commodity a) (round (mean (ag_scores a)) 3) (round (minOf (ag_scores a)) 3)
               (match ag_rs a with [] => None | l => Some (round (mean l) 3) end)
               (ag_wins a) (ag_present a) total None None None None None None None 0 in
  if useRef then aggregateConfidence row (ag_confs a) (ag_mults a) (ag_anchors a) (util !! id)
  else match util !! id with
       | Some e => aggregateConfidence row [] [] [] (Some e)
       | None => row
       end.
Definition bill_row (total : Z) (id : Z) (e : utilEvidence) : AggRow :=
  aggregateConfidence (mkAggRow id "electric" f0 f0 None 0 0 total None None None None None None None 0)
    [] [] [] (Some e).

Definition ranking_less (useRef : bool) (a b : AggRow) : bool :=
  let rest :=
    match ar_AvgR a, ar_AvgR b with
    | Some ra, Some rb =>
        if useRef && negb (ra =? rb)%f64 then Some (rb <? ra)%f64 else None
    | _, _ => None
    end in
  let rest := match rest with
              | Some x => x
              | None => if negb (ar_Wins a =? ar_Wins b) then ar_Wins b <? ar_Wins a
                        else (ar_AvgScore b <? ar_AvgScore a)%f64
              end in
  match ar_Confidence a, ar_Confidence b with
  | Some ca, Some cb => if negb (ca =? cb)%f64 then (cb <? ca)%f64 else rest
  | Some _, None => true
  | None, Some _ => false
  | None, None => rest
  end.

(** The rows before sorting: windows first, then the bill's electric meters. *)
Definition ranking_rows (useRef : bool) (s : acc) (util : gmap Z utilEvidence) (commod : gmap Z string)
  : list AggRow :=
  let total := Z.of_nat (length s.2) in
  (map (fun kv => window_row useRef total util kv.1 kv.2) (map_to_list s.1)
   ++ map (fun kv => bill_row total kv.1 kv.2)
        (List.filter (fun kv => is_nil (s.1 !! kv.1) && bool_decide (commod !! kv.1 = Some "electric"))
           (map_to_list util)))%list.

(** The bill's evidence and the commodities of the meters it alone names. *)
Definition bill_evidence (per : gmap Z agg) : M (gmap Z utilEvidence * gmap Z string) :=
  c ← try (LoadConfig getenv ParseFloat);
  match c with
  | Ok cfg =>
      if UtilityConfigured cfg then
        period ← resolvedPeriod (UtilityStatisticID cfg);
        u ← try (utilityMeterEvidence time_bucket (UtilityStatisticID cfg) period);
        let util := match u with Ok m => m | Err _ => ∅ end in
        let missing := List.filter (fun id => is_nil (per !! id)) (map fst (map_to_list util)) in
        m ← try (meterCommodities missing);
        mret (util, match m with Ok m => m | Err _ => ∅ end)
      else mret (∅, ∅)
  | Err _ => mret (∅, ∅)
  end.

(** The screen's aux, best effort, and the memo. *)
Definition screen_aux (entities : list string) (memo : option dailyMemo)
  : M (option IdentifyAux * option dailyMemo) :=
  c ← try (LoadConfig getenv ParseFloat);
  match c with
  | Ok cfg =>
      '(r, memo) ← DailyReconciliation Log time_bucket grid local_day valid_zone getenv ParseFloat fmt_g
                     entities (HATimeZone cfg) [] memo;
      mret (match r with Ok s => AuxFromScreen (Some s) | Err _ => None end, memo)
  | Err _ => mret (None, memo)
  end.

(** Tests and ranking ([None]: the panic of a window's lag stage), and the memo. *)
Definition aggregateWindows (useRef : bool) (src : string) (entities : list string) (memo : option dailyMemo)
  : M (option (list (Z * string) * list AggRow) * option dailyMemo) :=
  wins ← closedWindows src;
  '(aux, memo) ← (if useRef then screen_aux entities memo else mret (None, memo));
  o ← window_loop useRef entities aux (recent wins) (∅, []);
  match o with
  | None => mret (None, memo)
  | Some s =>
      '(util, commod) ← bill_evidence s.1;
      mret (Some (s.2, sort_by (le_of (ranking_less useRef)) (ranking_rows useRef s util commod)), memo)
  end.

Definition CombinedRanking (entities : list string) :=
  aggregateWindows (negb (bool_decide (entities = []))) "" entities.
Definition IdentifyAuto (entities : list string) := aggregateWindows true "auto" entities.
End Windows.

(** ** Confidence: lemmas *)

(** A factor of [[0, 1]] never raises a value. *)
Lemma between_cut c x y :
  number c = true -> between f0 c x -> in01 y -> between f0 c (fmul x y).
Proof.
  intros Nc Hx Hy. pose proof Hx as (_ & _ & S0 & S1).
  assert (sv f0 = 0) as E0 by (vm_compute; reflexivity). assert (sv f1 = unit_sv) as E1 by (vm_compute; reflexivity).
  apply (between_mul f0 c f0 f1); [done|done|fcomp|fcomp|fcomp|done|rewrite E0; lia|rewrite E1; lia].
Qed.

Lemma agg_product_cut c l x :
  number c = true -> between f0 c x -> Forall in01 l -> between f0 c (agg_product x l).
Proof.
  intros Nc. revert x. unfold agg_product. induction l as [|y l IH]; intros x Hx Hl; cbn [fold_left]; [done|].
  apply Forall_cons in Hl as [Hy Hl]. apply IH; [|done]. by apply between_cut.
Qed.

Lemma share_in01 k n : 0 <= k <= n -> 0 < n < 2 ^ 53 -> in01 (of_Z k / of_Z n)%f64.
Proof.
  intros Hk Hn. destruct (of_Z_exact k) as [Nk Ek]; [lia|]. destruct (of_Z_exact n) as [Nn En]; [lia|].
  assert (0 < unit_sv) by fcomp. assert (sv f0 = 0) as E0 by (vm_compute; reflexivity). assert (sv f1 = unit_sv) as E1 by (vm_compute; reflexivity).
  apply (between_div (of_Z k) (of_Z k) (of_Z n) (of_Z n));
    [by apply between_const|by apply between_const|rewrite Ek; nia|rewrite En; nia|fcomp|fcomp|fcomp| |].
  - rewrite E0, Ek. nia.
  - rewrite E1, Ek, En. nia.
Qed.

Lemma agreement_in01 wins present total :
  0 <= wins <= present -> present <= total < 2 ^ 53 -> in01 (agreement wins present total).
Proof.
  intros Hw Hp. unfold agreement. destruct (Z.ltb_spec 1 total) as [Ht|]; [|apply in01_f1].
  eapply (between_add (lit 6 10) (lit 85 100) f0 (lit 15 100)); [| |fcomp..].
  - eapply (between_add (lit 6 10) (lit 6 10) f0 (lit 25 100)); [fcomp| |fcomp..].
    apply part_mul; [fcomp|fcomp|apply share_in01; lia].
  - apply part_mul; [fcomp|fcomp|apply share_in01; lia].
Qed.

Lemma number_pos x : number x = true -> fltb f0 x = true -> 0 < sv x.
Proof. intros [V F]%number_spec H. by apply flt_sv. Qed.

Lemma ratio_factor_in01 top a b :
  number top = true -> number a = true -> number b = true -> fltb f0 a = true -> fltb f0 b = true ->
  in01 (ratio_factor top a b).
Proof.
  intros Nt Na Nb Pa Pb. apply number_pos in Pa as Sa; [|done]. apply number_pos in Pb as Sb; [|done].
  unfold ratio_factor. cbv zeta. apply clamp01_in01, input_rsub; [|done]. apply input_mul; [|fcomp..].
  apply input_sub; [|fcomp]. pose proof (input_div a b Na Nb Sb) as Hi.
  destruct (fltb (a / b)%f64 f1) eqn:E; [|done].
  assert (nonneg (a / b)%f64) as Hn.
  { eapply nonneg_div; [|by apply between_const|done].
    apply (nonneg_of_between a a); [by apply between_const|lia]. }
  destruct (nonneg_cases _ Hn) as [Ei|(V & F & S0)]; [rewrite Ei in E; by vm_compute in E|].
  destruct (Z.eq_dec (sv (a / b)%f64) 0) as [Ez|Hz].
  - destruct (a / b)%f64 as [s|s| |s m e] eqn:Eq; try discriminate F.
    + destruct s; split; vm_compute; reflexivity.
    + exfalso. apply valid_exp in V. destruct s.
      * change (SpecFloat.S754_finite true m e) with (fopp (SpecFloat.S754_finite false m e)) in Ez. rewrite sv_opp in Ez.
        pose proof (sv_pos m e). lia.
      * pose proof (sv_pos m e). lia.
  - apply input_div; [fcomp|by apply number_spec|lia].
Qed.

(** Statistics that did not overflow. *)
Record finite_stats (mults anchors : list float64) (util : option utilEvidence) : Prop := {
  fs_mean : number (mean mults) = true;
  fs_stddev : number (stddev mults) = true;
  fs_mult : number (round (mean mults) 8) = true;
  fs_anchor : number (round (mean anchors) 8) = true;
  fs_util : forall u, util ≫= ue_multiplier = Some u -> number u = true }.

Lemma agg_factors_in01 wins present total mults anchors util :
  finite_stats mults anchors util -> 0 <= wins <= present -> present <= total < 2 ^ 53 ->
  Forall in01 (agg_factors wins present total mults anchors util).
Proof.
  intros G Hw Hp. unfold agg_factors. rewrite !Forall_app. split_and!.
  - destruct (1 <? total); constructor; [by apply agreement_in01|constructor].
  - unfold mult_cov. destruct mults as [|m1 [|m2 l]]; try constructor.
    destruct (fltb f0 (mean (m1 :: m2 :: l))) eqn:E; constructor; [|constructor].
    apply clamp01_in01, input_rsub; [|fcomp].
    apply input_div; [apply G|apply G|]. apply number_pos; [apply G|exact E].
  - destruct anchors as [|a la]; [constructor|]. destruct mults as [|m lm]; [constructor|].
    destruct (fltb f0 (round (mean (m :: lm)) 8) && fltb f0 (round (mean (a :: la)) 8)) eqn:E; constructor; [|constructor].
    apply andb_true_iff in E as [E1 E2]. apply ratio_factor_in01; [fcomp|apply G|apply G|done|done].
  - destruct (util ≫= ue_multiplier) as [u|] eqn:Eu; [|constructor].
    destruct (coalesce _ _) as [ref|] eqn:Er; [|constructor].
    destruct (fltb f0 u && fltb f0 ref) eqn:E; constructor; [|constructor].
    apply andb_true_iff in E as [E1 E2]. apply ratio_factor_in01; [fcomp|by apply G| |done|done].
    destruct mults as [|m lm]; cbn in Er; [|injection Er as <-; apply G].
    destruct anchors as [|a la]; [done|]. injection Er as <-. apply G.
Qed.

Lemma utility_raw_in01 e :
  (forall v, ue_cov e = Some v -> input v) -> (forall v, ue_r e = Some v -> input v) ->
  0 <= ue_bucketsCovered e <= int64_max -> in01 (utility_raw e).
Proof.
  intros Hc Hr Hb. unfold utility_raw. cbv zeta.
  assert (in01 (match ue_cov e with Some c => clamp01 (f1 - c)%f64 | None => lit 5 10 end)) as Hs.
  { destruct (ue_cov e) as [v|]; [|apply in01_const; fcomp]. apply clamp01_in01, input_rsub; [by apply Hc|fcomp]. }
  assert (in01 (clamp01 (of_Z (ue_bucketsCovered e) / of_Z 3)%f64)) as Hcov.
  { apply clamp01_in01, nonneg_input, nonneg_count; [done|fcomp|fcomp]. }
  assert (in01 (lit 5 10 + lit 5 10 * clamp01 (of_Z (ue_bucketsCovered e) / of_Z 3))%f64) as Hsum.
  { apply (between_add (lit 5 10) (lit 5 10) f0 (lit 5 10)); [fcomp| |fcomp..]. by apply part_mul; [fcomp|fcomp|]. }
  pose proof (in01_mul _ _ Hs Hsum) as Hm. destruct (ue_r e) as [r|]; [|exact Hm].
  apply blend_in01; [fcomp|fcomp|fcomp|fcomp|fcomp|exact Hm|by apply clamp01_in01, Hr].
Qed.

Lemma utility_only_bounds e c :
  (forall v, ue_cov e = Some v -> input v) -> (forall v, ue_r e = Some v -> input v) ->
  0 <= ue_bucketsCovered e <= int64_max ->
  utilityOnlyConfidence (Some e) = Some c -> fle f0 c /\ fle c (lit 7 10).
Proof.
  intros Hc Hr Hb. unfold utilityOnlyConfidence. destruct (_ =? 0); [done|]. intros E. apply (inj Some) in E as <-.
  pose proof (clamp01_in01 _ (between_input _ _ _ (utility_raw_in01 e Hc Hr Hb))) as Hx.
  assert (between f0 (lit 7 10) (clamp01 (utility_raw e) * lit 7 10)%f64) as Hy.
  { apply (between_mul f0 f1 (lit 7 10) (lit 7 10)); fcomp. }
  apply (round3_le 700 (lit 7 10)); [lia|done|fcomp|vm_compute; reflexivity|fcomp|vm_compute; reflexivity].
Qed.

(** ** Properties *)

(** The confidence across windows only cuts: the product of the mean of the
    windows' confidences with the agreement, stability, anchor and bill factors
    never exceeds that mean (no factor boosts it), and what is shown lies in
    [[0, 1]].  On the bill alone it is at most 0.7, and without any evidence there
    is none. *)
Theorem aggregateConfidence_cuts (row : AggRow) (confs mults anchors : list float64) (util : option utilEvidence) :
  finite_stats mults anchors util -> in01 (mean confs) ->
  0 <= ar_Wins row <= ar_TestsPresent row -> ar_TestsPresent row <= ar_TestsTotal row < 2 ^ 53 ->
  (forall e v, util = Some e -> ue_cov e = Some v -> input v) -> (forall e v, util = Some e -> ue_r e = Some v -> input v) ->
  (forall e, util = Some e -> 0 <= ue_bucketsCovered e <= int64_max) ->
  let row' := aggregateConfidence row confs mults anchors util in
  let raw := agg_product (mean confs)
    (agg_factors (ar_Wins row) (ar_TestsPresent row) (ar_TestsTotal row) mults anchors util) in
  (confs <> [] -> ar_Confidence row' = Some (round (clamp01 raw) 3) /\
     ar_AvgConfidence row' = Some (round (mean confs) 3) /\ fle f0 raw /\ fle raw (mean confs) /\
     fle f0 (round (clamp01 raw) 3) /\ fle (round (clamp01 raw) 3) f1) /\
  (confs = [] -> forall c, ar_Confidence row' = Some c ->
     (exists e, util = Some e /\ ue_bucketsCovered e <> 0) /\ fle f0 c /\ fle c (lit 7 10)).
Proof.
  intros G Hm Hw Hp Hc Hr Hb row' raw.
  assert (between f0 (mean confs) raw) as Hraw.
  { destruct Hm as (V & F & S0 & S1). apply agg_product_cut; [by apply number_spec| |by apply agg_factors_in01].
    split_and!; [done|done|done|lia]. }
  assert (number (mean confs) = true) as Nm by (apply number_spec; by destruct Hm as (? & ? & _)).
  split.
  - intros Hne. unfold row', aggregateConfidence. destruct confs as [|c0 l]; [done|]. cbn [ar_Confidence ar_AvgConfidence].
    pose proof (between_fle f0 (mean (c0 :: l)) raw eq_refl Nm) as [Hb1 _]. destruct (Hb1 Hraw) as (_ & H0 & H1).
    split_and!; [done|done|done|done| |]; apply round3_in01, clamp01_in01, (between_input _ _ _ Hraw).
  - intros -> c Hcf. unfold row', aggregateConfidence in Hcf. cbn [ar_Confidence] in Hcf.
    destruct util as [e|]; [|done]. split.
    + exists e. split; [done|]. unfold utilityOnlyConfidence in Hcf. by destruct (Z.eqb_spec (ue_bucketsCovered e) 0).
    + apply (utility_only_bounds e c); [intros v; by apply Hc|intros v; by apply Hr|by apply Hb|done].
Qed.

Definition winning_row : AggRow :=
  mkAggRow 42 "electric" f0 f0 None 2 3 4 None None None None None None None 0.
Definition bill_agrees : option utilEvidence := Some (mkEvidence (Some (lit 1 100)) (Some (lit 1 10)) None 3 []).

Lemma aggregateConfidence_cuts_witness :
  let row := aggregateConfidence winning_row [lit 8 10; lit 9 10] [lit 1 100; lit 1 100] [lit 1 100] bill_agrees in
  ar_Confidence row = Some (round (clamp01 (agg_product (mean [lit 8 10; lit 9 10])
     (agg_factors 2 3 4 [lit 1 100; lit 1 100] [lit 1 100] bill_agrees))) 3).
Proof.
  apply (aggregateConfidence_cuts winning_row [lit 8 10; lit 9 10] [lit 1 100; lit 1 100] [lit 1 100] bill_agrees).
  - constructor; [vm_compute; reflexivity..|]. intros u E. injection E as <-. vm_compute. reflexivity.
  - apply (between_weaken (mean [lit 8 10; lit 9 10]) (mean [lit 8 10; lit 9 10])); fcomp.
  - cbn. lia.
  - cbn. lia.
  - intros e v [= <-] [= <-]. split; vm_compute; reflexivity.
  - intros e v [= <-] [=].
  - intros e [= <-]. cbn. unfold int64_max. lia.
  - discriminate.
Defined.

(** The order of the combined ranking is not an order: of three meters with
    the same confidence, of which one was never regressed, each ranks above the
    next around a cycle. *)
Theorem ranking_less_cycles :
  exists a b c, ranking_less true a b = true /\ ranking_less true b c = true /\ ranking_less true c a = true.
Proof.
  set (row r wins := mkAggRow 1 "electric" f0 f0 r wins 3 3 (Some (lit 1 2)) None None None None None None 0).
  exists (row (Some (lit 9 10)) 0), (row (Some (lit 5 10)) 2), (row None 1).
  vm_compute. auto.
Qed.

(** ** Counting: lemmas *)

Definition ids_of (rows : list CorrRow) : list Z := map c_EndpointID rows.

Lemma filter_ids_NoDup {A} (g : A -> Z) (p : A -> bool) l :
  NoDup (map g l) -> NoDup (map g (List.filter p l)).
Proof.
  intros H. eapply sublist_NoDup; [exact H|]. apply fmap_sublist.
  clear. induction l as [|x l IH]; cbn; [constructor|]. case_match; by constructor.
Qed.

Lemma Correlation_ids time_bucket start fin w rows w' :
  Correlation time_bucket start fin w = (Ok rows, w') -> NoDup (ids_of rows).
Proof.
  intros H. unfold Correlation in H. apply bind_Ok in H as ([[lo hi]|] & w1 & _ & H);
    [|injection H as <- _; by apply NoDup_nil].
  apply query_Ok in H as ->. unfold ids_of. set (mk := fun kv : Z * IndexRow => corr_row _ _ _ _ _ _ _ _).
  assert (forall kv, c_EndpointID (mk kv) = kv.1) as Hid.
  { intros [id ix]. unfold mk, corr_row. by destruct (window_movement _ _ _ _ _). }
  rewrite sort_by_perm, map_map, (map_ext _ fst) by done. apply NoDup_fst_map_to_list.
Qed.

Lemma fit_row_id fl bh rr x : c_EndpointID (fit_row fl bh rr x) = c_EndpointID x.
Proof. unfold fit_row. cbv zeta. by destruct (fltb f0 (slope_of rr)). Qed.

Lemma score_row_id Erfinv aux mk nc cv rr x : c_EndpointID (score_row Erfinv aux mk nc cv rr x) = c_EndpointID x.
Proof.
  unfold score_row. destruct rr as [rr|]; [destruct (c_R x); [by destruct (combineConfidence _ _)|]|];
    destruct (applyPhysics aux (c_EndpointID x)) as [[?|] ?]; done.
Qed.

Lemma Reference_ids time_bucket grid sd Erfinv regr entities start fin bm eo aux w rows f w' :
  CorrelationVsReferenceAux time_bucket grid sd Erfinv regr entities start fin bm eo aux w = (Ok (Some (rows, f)), w') ->
  NoDup (ids_of rows).
Proof.
  intros H. unfold CorrelationVsReferenceAux in H. apply bind_Ok in H as (base & w1 & Hb & H).
  apply Correlation_ids in Hb.
  set (base1 := if eo then _ else base) in *.
  assert (NoDup (ids_of base1)) as Hb1 by (unfold base1; destruct eo; [by apply filter_ids_NoDup|done]).
  apply bind_Ok in H as (fl & w2 & _ & H). destruct entities as [|e es]; [by injection H as <- _ _|].
  cbv zeta in H. apply bind_Ok in H as (mk & w3 & _ & H). apply bind_Ok in H as (r & w4 & _ & H).
  set (reg := match r with Ok m => m | Err _ => ∅ end) in *.
  set (base2 := map _ base1) in H.
  assert (ids_of base2 = ids_of base1) as E2.
  { unfold ids_of, base2. rewrite map_map. apply map_ext. intros x. destruct (reg !! _); [apply fit_row_id|done]. }
  apply bind_Ok in H as (cv & w5 & _ & H). set (base3 := map _ base2) in H.
  assert (ids_of base3 = ids_of base1) as E3.
  { rewrite <- E2. unfold ids_of, base3. rewrite map_map. apply map_ext. intros x. apply score_row_id. }
  apply bind_Ok in H as ([base4|] & w6 & He & H); [|discriminate H]. injection H as <- _ _.
  assert (ids_of base4 = ids_of base3) as E4.
  { unfold enrichLag in He. cbv zeta in He. destruct (top_rows base3) as [|i idx] eqn:Et; [by injection He as <- _|].
    rewrite <- Et in He. generalize dependent (top_rows base3). intros idx' _ He.
    apply bind_Ok in He as (rs & w7 & _ & He). injection He as He _. destruct rs as [series|]; [|by injection He as <-].
    by apply enrich_loop_keeps in He as [? _]. }
  unfold ids_of. rewrite sort_by_perm. fold (ids_of base4). by rewrite E4, E3.
Qed.

Lemma rank_window_ids tb grid sd regr Erfinv useRef entities aux win w rows w' :
  rank_window tb grid sd Erfinv regr useRef entities aux win w = (Ok (Some (Ok rows)), w') -> NoDup (ids_of rows).
Proof.
  unfold rank_window. destruct useRef; intros H; apply bind_Ok in H as (r & w1 & Hr & H); unfold try in Hr.
  - destruct (CorrelationVsReferenceAux _ _ _ _ _ _ _ _ _ _ _ w) as [r0 w2] eqn:E. injection Hr as -> ->.
    destruct r as [[[rows' f]|]|]; try discriminate H. injection H as -> _. by apply Reference_ids in E.
  - destruct (Correlation _ _ _ w) as [r0 w2] eqn:E. injection Hr as -> ->. injection H as -> _.
    by apply Correlation_ids in E.
Qed.

(** Sums over the meters. *)
Definition zsum (l : list Z) : Z := foldr Z.add 0 l.
Definition wins_of (per : gmap Z agg) : Z := zsum (map (fun kv => ag_wins kv.2) (map_to_list per)).

#[export] Instance zsum_proper : Proper (Permutation ==> eq) zsum.
Proof. intros l l' H. induction H; unfold zsum in *; cbn [foldr] in *; lia. Qed.

Lemma wins_of_insert per id a :
  wins_of (<[id := a]> per) = wins_of per + ag_wins a - match per !! id with Some b => ag_wins b | None => 0 end.
Proof.
  unfold wins_of. destruct (per !! id) as [b|] eqn:E.
  - assert (zsum (map (fun kv => ag_wins kv.2) (map_to_list per)) =
      zsum (map (fun kv => ag_wins kv.2) ((id, b) :: map_to_list (delete id per)))) as ->
      by (rewrite <- map_to_list_insert by apply lookup_delete_eq; by rewrite insert_delete_id).
    rewrite <- insert_delete_eq, map_to_list_insert by apply lookup_delete_eq.
    unfold zsum. cbn [map foldr snd]. lia.
  - rewrite map_to_list_insert by done. unfold zsum. cbn [map foldr snd]. lia.
Qed.

(** Each meter wins at most as often as it appears, and appears at most [n] times. *)
Definition standing_ok (n : Z) (a : agg) : Prop := 0 <= ag_wins a <= ag_present a /\ ag_present a <= n.

Lemma add_standings_ok kwh rank rows per n :
  0 <= n -> NoDup (ids_of rows) ->
  (forall id a, per !! id = Some a -> standing_ok (n + 1) a /\ (id ∈ ids_of rows -> standing_ok n a)) ->
  let per' := add_standings kwh rank rows per in
  (forall id a, per' !! id = Some a -> standing_ok (n + 1) a) /\
  wins_of per' = wins_of per + if (Nat.eqb rank 0) && negb (Nat.eqb (length rows) 0) then 1 else 0.
Proof.
  intros Hn. revert rank per. induction rows as [|r rows IH]; intros rank per Hd Hper; cbn [add_standings].
  - cbn. rewrite andb_false_r. split; [by intros id a ?; apply (Hper id a)|lia].
  - apply NoDup_cons in Hd as [Hnin Hd]. unfold ids_of in *. fold (ids_of rows) in *. cbn [map] in Hper.
    destruct (IH (S rank) (add_standing kwh rank r per) Hd) as [H1 H2].
    + intros id a Ha. unfold add_standing in Ha. destruct (decide (id = c_EndpointID r)) as [->|Hne].
      * rewrite lookup_insert_eq in Ha. injection Ha as <-. split; [|done].
        destruct (per !! c_EndpointID r) as [b|] eqn:Eb; cbn [from_opt].
        -- destruct (Hper _ _ Eb) as [_ Hb]. specialize (Hb ltac:(by left)). unfold standing_ok in *. cbn.
           destruct (Nat.eqb rank 0); lia.
        -- unfold standing_ok. cbn. destruct (Nat.eqb rank 0); lia.
      * rewrite lookup_insert_ne in Ha by done. destruct (Hper _ _ Ha) as [? Hb]. split; [done|].
        intros Hin. apply Hb. by right.
    + split; [done|]. rewrite H2. cbn [Nat.eqb andb length negb]. unfold add_standing. rewrite wins_of_insert.
      destruct (per !! c_EndpointID r) as [b|]; cbn; destruct (Nat.eqb rank 0); cbn; lia.
Qed.

Definition acc_ok (s : acc) : Prop :=
  (forall id a, s.1 !! id = Some a -> standing_ok (Z.of_nat (length s.2)) a) /\
  wins_of s.1 = Z.of_nat (length s.2).

Lemma window_loop_ok tb grid sd Erfinv regr useRef entities aux wins s w s' w' :
  acc_ok s -> window_loop tb grid sd Erfinv regr useRef entities aux wins s w = (Ok (Some s'), w') ->
  acc_ok s' /\ (length s'.2 <= length s.2 + length wins)%nat.
Proof.
  revert s w. induction wins as [|win wins IH]; intros s w Hs H; cbn [window_loop] in H.
  - injection H as <- _. split; [done|cbn; lia].
  - apply bind_Ok in H as ([[[|r rows]|e]|] & w1 & Hr & H); [| | |discriminate H].
    + apply IH in H as [? ?]; [|done]. split; [done|cbn; lia].
    + apply bind_Ok in H as (kwh & w2 & _ & H). apply rank_window_ids in Hr.
      destruct Hs as [Hs1 Hs2].
      destruct (add_standings_ok kwh 0 (r :: rows) s.1 (Z.of_nat (length s.2)) ltac:(lia) Hr) as [H1 H2].
      { intros id a Ha. specialize (Hs1 id a Ha). split; [|done]. unfold standing_ok in *. lia. }
      apply IH in H as [? Hl]; [split; [done|]; cbn [snd length] in *; rewrite length_app in Hl; cbn [length] in Hl; lia|].
      split; cbn [fst snd]; rewrite length_app; cbn [length]; [|rewrite H2; cbn; lia].
      intros id a Ha. replace (Z.of_nat (length s.2 + 1)) with (Z.of_nat (length s.2) + 1) by lia. by apply H1 in Ha.
    + apply IH in H as [? ?]; [|done]. split; [done|cbn; lia].
Qed.

Lemma aggregateConfidence_keeps row confs mults anchors util :
  let row' := aggregateConfidence row confs mults anchors util in
  ar_EndpointID row' = ar_EndpointID row /\ ar_Wins row' = ar_Wins row /\
  ar_TestsPresent row' = ar_TestsPresent row /\ ar_TestsTotal row' = ar_TestsTotal row.
Proof. unfold aggregateConfidence. by destruct confs. Qed.

Lemma window_row_keeps useRef total util id a :
  let row := window_row useRef total util id a in
  ar_EndpointID row = id /\ ar_Wins row = ag_wins a /\ ar_TestsPresent row = ag_present a /\ ar_TestsTotal row = total.
Proof.
  unfold window_row. cbv zeta. destruct useRef; [|destruct (util !! id) as [e|]; [|done]];
    match goal with |- context [aggregateConfidence ?r ?c ?m ?n ?u] => apply (aggregateConfidence_keeps r c m n u) end.
Qed.

Lemma zsum_zero {A} (f : A -> Z) l : (forall x, x ∈ l -> f x = 0) -> zsum (map f l) = 0.
Proof.
  induction l as [|x l IH]; intros H; [done|]. unfold zsum in *. cbn [map foldr].
  rewrite IH by (intros y Hy; apply H; by right). rewrite (H x) by left. done.
Qed.

(** The rows before sorting, given sound counts. *)
Lemma ranking_rows_ok useRef s util commod :
  acc_ok s ->
  let rows := ranking_rows useRef s util commod in
  NoDup (map ar_EndpointID rows) /\ zsum (map ar_Wins rows) = Z.of_nat (length s.2) /\
  forall r, r ∈ rows -> ar_TestsTotal r = Z.of_nat (length s.2) /\
    0 <= ar_Wins r <= ar_TestsPresent r /\ ar_TestsPresent r <= ar_TestsTotal r.
Proof.
  intros [Hs1 Hs2]. unfold ranking_rows. cbv zeta. set (total := Z.of_nat (length s.2)) in *.
  set (wr := fun kv : Z * agg => window_row useRef total util kv.1 kv.2).
  set (br := fun kv : Z * utilEvidence => bill_row total kv.1 kv.2).
  set (keep := fun kv : Z * utilEvidence => _ && _).
  assert (forall kv, ar_EndpointID (br kv) = kv.1 /\ ar_Wins (br kv) = 0 /\ ar_TestsPresent (br kv) = 0 /\
    ar_TestsTotal (br kv) = total) as Hbr by (intros kv; unfold br, bill_row; apply aggregateConfidence_keeps).
  assert (forall kv, ar_EndpointID (wr kv) = kv.1 /\ ar_Wins (wr kv) = ag_wins kv.2 /\
    ar_TestsPresent (wr kv) = ag_present kv.2 /\ ar_TestsTotal (wr kv) = total) as Hwr
    by (intros kv; apply window_row_keeps).
  rewrite !map_app, !map_map.
  rewrite (map_ext (fun x => ar_EndpointID (wr x)) fst), (map_ext (fun x => ar_EndpointID (br x)) fst),
    (map_ext (fun x => ar_Wins (wr x)) (fun kv => ag_wins kv.2)) by (intros kv; apply Hwr || apply Hbr).
  split_and!.
  - apply NoDup_app. split_and!; [apply NoDup_fst_map_to_list| |by apply filter_ids_NoDup, NoDup_fst_map_to_list].
    intros id ([id' a] & -> & Ha)%list_elem_of_fmap Hin. apply elem_of_map_to_list in Ha. cbn [fst] in *.
    apply list_elem_of_fmap in Hin as ([id2 e] & E & Hin). cbn [fst] in E. subst id2.
    apply list_elem_of_In, filter_In in Hin as [_ Hk]. unfold keep in Hk. cbn [fst] in Hk. rewrite Ha in Hk. done.
  - transitivity (wins_of s.1); [|exact Hs2]. unfold wins_of.
    assert (forall l l', zsum (l ++ l') = zsum l + zsum l') as Happ.
    { unfold zsum. induction l as [|x l IH]; intros l'; cbn [app foldr]; [lia|]. rewrite IH. lia. }
    rewrite Happ, (zsum_zero (fun x => ar_Wins (br x))); [lia|]. intros kv _. apply Hbr.
  - intros r [Hin|Hin]%elem_of_app; apply list_elem_of_fmap in Hin as ([id x] & -> & Hin).
    + apply elem_of_map_to_list in Hin. specialize (Hs1 _ _ Hin). destruct (Hwr (id, x)) as (_ & -> & -> & ->).
      cbn [snd]. unfold standing_ok in Hs1. fold total in Hs1. lia.
    + destruct (Hbr (id, x)) as (_ & -> & -> & ->). lia.
Qed.

(** ** The tally of the windows *)

Lemma closedWindows_sorted src w wins w' : closedWindows src w = (Ok wins, w') -> Sorted (fun a b => (wr_start a <=? wr_start b) = true) wins.
Proof.
  unfold closedWindows, query, statement. destruct (w_faults w) as [|[] fs]; intros H; try discriminate H; injection H as <- _;
    (apply sort_by_sorted; intros a b; lia).
Qed.

(** In how many ranked windows a meter comes first, and in how many it appears. *)
Definition won (id : Z) (ranked : list (windowRow * list CorrRow)) : Z :=
  Z.of_nat (length (List.filter (fun x => match x.2 with r :: _ => c_EndpointID r =? id | [] => false end) ranked)).
Definition seen (id : Z) (ranked : list (windowRow * list CorrRow)) : Z :=
  Z.of_nat (length (List.filter (fun x => existsb (fun r => c_EndpointID r =? id) x.2) ranked)).
Definition tally (per : gmap Z agg) (ranked : list (windowRow * list CorrRow)) : Prop :=
  forall id, match per !! id with
             | Some a => ag_wins a = won id ranked /\ ag_present a = seen id ranked
             | None => seen id ranked = 0
             end.

Lemma won_seen id ranked : won id ranked <= seen id ranked.
Proof.
  unfold won, seen. induction ranked as [|[w [|r rows]] ranked IH]; cbn [List.filter existsb snd]; [lia|lia|].
  destruct (c_EndpointID r =? id); cbn [orb length]; [lia|]. destruct (existsb _ rows); cbn [length]; lia.
Qed.
Lemma won_app id a b : won id (a ++ b) = won id a + won id b.
Proof. unfold won. rewrite List.filter_app, length_app. lia. Qed.
Lemma seen_app id a b : seen id (a ++ b) = seen id a + seen id b.
Proof. unfold seen. rewrite List.filter_app, length_app. lia. Qed.
Lemma existsb_ids id rows : existsb (fun r => c_EndpointID r =? id) rows = true <-> id ∈ ids_of rows.
Proof.
  rewrite existsb_exists. unfold ids_of. rewrite list_elem_of_fmap. split.
  - intros (r & Hr & <-%Z.eqb_eq). exists r. split; [done|by apply list_elem_of_In].
  - intros (r & -> & Hr). exists r. split; [by apply list_elem_of_In|apply Z.eqb_refl].
Qed.

Definition old_agg (per : gmap Z agg) (id : Z) : Z * Z :=
  match per !! id with Some a => (ag_wins a, ag_present a) | None => (0, 0) end.
Lemma add_standings_at kwh rank rows per id : NoDup (ids_of rows) ->
  (id ∉ ids_of rows -> add_standings kwh rank rows per !! id = per !! id) /\
  (id ∈ ids_of rows -> exists a, add_standings kwh rank rows per !! id = Some a /\
     ag_wins a = (old_agg per id).1 + (if Nat.eqb rank 0 && match rows with r :: _ => c_EndpointID r =? id | [] => false end then 1 else 0) /\
     ag_present a = (old_agg per id).2 + 1).
Proof.
  revert rank per. induction rows as [|r rows IH]; intros rank per Hd; cbn [add_standings].
  { split; [done|]. by intros ?%elem_of_nil. }
  apply NoDup_cons in Hd as [Hnin Hd]. change (map c_EndpointID rows) with (ids_of rows) in *.
  destruct (IH (S rank) (add_standing kwh rank r per) Hd) as [H1 H2]. split.
  - intros [Hne Hn]%not_elem_of_cons. rewrite H1 by done. unfold add_standing. by rewrite lookup_insert_ne.
  - intros [->|Hin]%elem_of_cons.
    + rewrite H1 by done. unfold add_standing, old_agg. rewrite lookup_insert_eq. eexists. split; [reflexivity|].
      cbn [ag_wins ag_present]. rewrite Z.eqb_refl, andb_true_r. by destruct (per !! c_EndpointID r).
    + destruct (H2 Hin) as (a & Ha & Hw & Hp). exists a. split; [done|].
      assert (id <> c_EndpointID r) as Hne by congruence.
      assert (old_agg (add_standing kwh rank r per) id = old_agg per id) as Eo
        by (unfold old_agg, add_standing; by rewrite lookup_insert_ne).
      rewrite Eo in Hw, Hp. split; [|done]. rewrite Hw. cbn [Nat.eqb andb].
      replace (c_EndpointID r =? id) with false by lia. by rewrite andb_false_r.
Qed.

Lemma tally_add kwh rows per ranked win : NoDup (ids_of rows) -> tally per ranked ->
  tally (add_standings kwh 0 rows per) (ranked ++ [(win, rows)]).
Proof.
  intros Hd Ht id. specialize (Ht id). destruct (add_standings_at kwh 0 rows per id Hd) as [H1 H2].
  rewrite won_app, seen_app. unfold won at 2, seen at 2, seen at 3. cbn [List.filter snd].
  destruct (existsb _ rows) eqn:Ee.
  - apply existsb_ids in Ee as Hin. destruct (H2 Hin) as (a & -> & -> & ->). cbn [Nat.eqb andb length].
    unfold old_agg. pose proof (won_seen id ranked). unfold won, seen in *.
    destruct (per !! id) as [b|]; [destruct Ht as [-> ->]|]; cbn [fst snd];
      destruct rows as [|r rows]; try (by apply elem_of_nil in Hin); destruct (c_EndpointID r =? id); cbn [length]; lia.
  - rewrite H1 by (rewrite <- existsb_ids, Ee; done). cbn [length].
    assert (match rows with r :: _ => c_EndpointID r =? id | [] => false end = false) as ->
      by (destruct rows; [done|]; cbn in Ee; by apply orb_false_iff in Ee as [? _]).
    cbn [length]. destruct (per !! id); lia.
Qed.

(** A window that ranked something: its rows, each meter once. *)
Definition ranked_ok tb grid sd Erfinv regr useRef entities aux (x : windowRow * list CorrRow) : Prop :=
  x.2 <> [] /\ NoDup (ids_of x.2) /\
  exists w1 w2, rank_window tb grid sd Erfinv regr useRef entities aux x.1 w1 = (Ok (Some (Ok x.2)), w2).
Definition test_of (x : windowRow * list CorrRow) : Z * string := (wr_id x.1, wr_label x.1).

Lemma window_loop_tally tb grid sd Erfinv regr useRef entities aux wins s w s' w' ranked :
  tally s.1 ranked -> s.2 = map test_of ranked ->
  window_loop tb grid sd Erfinv regr useRef entities aux wins s w = (Ok (Some s'), w') ->
  exists more, map fst more `sublist_of` wins /\
    Forall (ranked_ok tb grid sd Erfinv regr useRef entities aux) more /\
    tally s'.1 (ranked ++ more) /\ s'.2 = map test_of (ranked ++ more).
Proof.
  revert s w ranked. induction wins as [|win wins IH]; intros s w ranked Ht Es H; cbn [window_loop] in H.
  { injection H as <- _. exists []. rewrite app_nil_r. split; [constructor|]. by split; [constructor|]. }
  apply bind_Ok in H as ([[[|r rows]|e]|] & w1 & Hr & H); [| | |discriminate H].
  - destruct (IH _ _ ranked Ht Es H) as (more & Hs & ?). exists more. split; [by constructor|done].
  - apply bind_Ok in H as (kwh & w2 & _ & H). apply rank_window_ids in Hr as Hd.
    destruct (IH (add_standings kwh 0 (r :: rows) s.1, (s.2 ++ [(wr_id win, wr_label win)])%list) w2
      (ranked ++ [(win, r :: rows)])%list (tally_add kwh _ _ _ win Hd Ht)
      ltac:(cbn [snd]; by rewrite map_app, Es) H) as (more & Hs & Hf & Ht' & Es').
    exists ((win, r :: rows) :: more). rewrite <- app_assoc in Ht', Es'. split; [by constructor|].
    split; [|done]. constructor; [|done]. split; [done|]. split; [done|]. by exists w, w1.
  - destruct (IH _ _ ranked Ht Es H) as (more & Hs & ?). exists more. split; [by constructor|done].
Qed.

Lemma ranking_rows_tally useRef s util commod ranked : tally s.1 ranked ->
  (forall r, r ∈ ranking_rows useRef s util commod ->
     ar_Wins r = won (ar_EndpointID r) ranked /\ ar_TestsPresent r = seen (ar_EndpointID r) ranked) /\
  (forall id, 0 < seen id ranked -> id ∈ map ar_EndpointID (ranking_rows useRef s util commod)).
Proof.
  intros Ht. split.
  - unfold ranking_rows. intros r [Hin|Hin]%elem_of_app; apply list_elem_of_fmap in Hin as ([id x] & -> & Hin).
    + apply elem_of_map_to_list in Hin. specialize (Ht id). rewrite Hin in Ht. cbn [fst snd].
      destruct (window_row_keeps useRef (Z.of_nat (length s.2)) util id x) as (-> & -> & -> & _). done.
    + apply list_elem_of_In, filter_In in Hin as [_ Hk]. cbn [fst snd] in *. apply andb_true_iff in Hk as [Hk _].
      specialize (Ht id). destruct (s.1 !! id); [done|]. pose proof (won_seen id ranked).
      unfold bill_row. match goal with |- context [aggregateConfidence ?r ?c ?m ?n ?u] =>
        destruct (aggregateConfidence_keeps r c m n u) as (-> & -> & -> & _) end. cbn.
      assert (0 <= won id ranked) by (unfold won; lia). lia.
  - intros id Hs. specialize (Ht id). destruct (s.1 !! id) as [a|] eqn:E; [|lia].
    unfold ranking_rows. rewrite map_app, map_map. apply elem_of_app. left. apply list_elem_of_fmap.
    exists (id, a). split; [|by apply elem_of_map_to_list]. cbn [fst snd].
    by destruct (window_row_keeps useRef (Z.of_nat (length s.2)) util id a) as (-> & _).
Qed.


Definition tested_DB : DB :=
  set_test_windows {[1 := mkWindow "kettle" 0 (Some (2 * Hour)) "manual" (Some (of_Z 1500)) None None]} two_hours_DB.

