(* ===== verification/Ha.v ===== *)
(** * The Home Assistant client ([internal/ha])

    Decoding of the REST and WebSocket answers, entity classification, bucket
    deltas of billed energy, and the event filter of the live stream.  HTTP and
    the WebSocket transport are represented by the texts they deliver;
    [time.Parse] and the general [strconv.ParseFloat] are parameters. *)

From S2P Require Import Prelude Float64 Json.

(** ** Entities *)

Record Sample := mkSample { sa_TS : time; sa_Power : float64 }.
Record StateEvent := mkEvent { ev_TS : time; ev_State : string; ev_Attributes : gmap string json }.

Definition Attr (e : StateEvent) (name : string) : string :=
  match ev_Attributes e !! name with Some (JStr s) => s | _ => "" end.

Record haState := mkState {
  st_EntityID : string; st_State : string; st_LastUpdated : time; st_Attributes : json
}.
Definition state_names : list string := ["entity_id"; "state"; "last_updated"; "attributes"].

Record stateAttrs := mkAttrs { FriendlyName : string; DeviceClass : string; UnitMeasurement : string }.
Definition attr_names : list string := ["friendly_name"; "device_class"; "unit_of_measurement"].
Definition decode_attrs (j : json) : stateAttrs :=
  match j with
  | JObj ms => mkAttrs (get_str_lenient attr_names "friendly_name" ms)
                 (get_str_lenient attr_names "device_class" ms)
                 (get_str_lenient attr_names "unit_of_measurement" ms)
  | _ => mkAttrs "" "" ""
  end.

Definition classify (a : stateAttrs) : string :=
  let unit := ToUpper (UnitMeasurement a) in
  if (DeviceClass a =? "power")%string || (unit =? "W")%string || (unit =? "KW")%string then "power"
  else if (DeviceClass a =? "energy")%string || (unit =? "WH")%string || (unit =? "KWH")%string
          || (unit =? "MWH")%string then "energy"
  else "".

Record Entity := mkEntity {
  en_EntityID : string; en_Name : string; en_State : string; en_Unit : string; en_Kind : string
}.
Record ClimateEntity := mkClimate {
  ce_EntityID : string; ce_Name : string; ce_State : string; ce_HVACAction : string; ce_HasAction : bool
}.

Definition or_else (v def : string) : string := if is_empty v then def else v.

Definition monitorable (s : haState) : option Entity :=
  if negb (HasPrefix (st_EntityID s) "sensor.") then None
  else let a := decode_attrs (st_Attributes s) in
       let kind := classify a in
       if is_empty kind then None
       else Some (mkEntity (st_EntityID s) (or_else (FriendlyName a) (st_EntityID s)) (st_State s)
                    (UnitMeasurement a) kind).

Definition climate (s : haState) : option ClimateEntity :=
  if negb (HasPrefix (st_EntityID s) "climate.") then None
  else let a := to_map (st_Attributes s) in
       let str k := match a !! k with Some (JStr v) => v | _ => "" end in
       Some (mkClimate (st_EntityID s) (or_else (str "friendly_name") (st_EntityID s)) (st_State s)
               (str "hvac_action") (negb (is_nil (a !! "hvac_action")))).

Section Decode.
Context (ParseRFC3339 : string -> option time) (ParseFloat : string -> option float64).

Definition decode_state (j : json) : option haState :=
  match j with
  | JNull => Some (mkState "" "" zero_time JNull)
  | JObj ms =>
      match get_str state_names "entity_id" ms, get_str state_names "state" ms,
            get_str state_names "last_updated" ms with
      | Some e, Some s, Some t =>
          match get_raw state_names "last_updated" ms with
          | JNull => Some (mkState e s zero_time (get_raw state_names "attributes" ms))
          | _ => match ParseRFC3339 t with
                 | Some ts => Some (mkState e s ts (get_raw state_names "attributes" ms))
                 | None => None
                 end
          end
      | _, _, _ => None
      end
  | _ => None
  end.

Fixpoint decode_all {A} (f : json -> option A) (l : list json) : option (list A) :=
  match l with
  | [] => Some []
  | j :: l' => match f j, decode_all f l' with Some a, Some r => Some (a :: r) | _, _ => None end
  end.
Definition decode_array {A} (f : json -> option A) (j : json) : option (list A) :=
  match j with JArr l => decode_all f l | JNull => Some [] | _ => None end.

(** The states of an answer to [GET /api/states]. *)
Definition decode_states (body : string) : option (list haState) :=
  match parse body with Some j => decode_array decode_state j | None => None end.

Definition MonitorableSensors (body : string) : option (list Entity) :=
  option_map (omap monitorable) (decode_states body).
Definition ClimateEntities (body : string) : option (list ClimateEntity) :=
  option_map (omap climate) (decode_states body).
Definition EntityKinds (entities : list string) (body : string) : option (gmap string string) :=
  option_map (fun sts => fold_left (fun m s =>
      if bool_decide (st_EntityID s ∈ entities)
      then <[st_EntityID s := classify (decode_attrs (st_Attributes s))]> m else m) sts ∅)
    (decode_states body).

(** The first series of an answer to [GET /api/history/period]. *)
Definition decode_history (body : string) : option (list haState) :=
  match parse body with
  | Some j => option_map (fun o => from_opt [] (head o)) (decode_array (decode_array decode_state) j)
  | None => None
  end.
Definition History (body : string) : option (list Sample) :=
  option_map (omap (fun s => option_map (mkSample (st_LastUpdated s)) (ParseFloat (st_State s))))
    (decode_history body).
Definition AttrHistory (body : string) : option (list StateEvent) :=
  option_map (map (fun s => mkEvent (st_LastUpdated s) (st_State s) (to_map (st_Attributes s))))
    (decode_history body).

(** ** The live stream *)

(** [Event.Variables.Trigger.ToState] of a frame; nested structs decode member by
    member, and any type error drops the frame. *)
Definition sub (name : string) (j : json) : option json :=
  match j with
  | JObj ms => Some (get_raw [name] name ms)
  | JNull => Some JNull
  | _ => None
  end.
Record toState := mkTo { to_EntityID : string; to_State : string; to_LastUpdated : time;
                         to_Attributes : gmap string json }.
Definition decode_event (frame : string) : option toState :=
  match parse frame with
  | Some (JObj ms) =>
      match get_str ["type"; "event"] "type" ms,
            sub "variables" (get_raw ["type"; "event"] "event" ms) with
      | Some ty, Some vars =>
          match sub "trigger" vars with
          | Some tr =>
              match sub "to_state" tr with
              | Some to =>
                  match decode_state to with
                  | Some s =>
                      match st_Attributes s with
                      | JObj _ | JNull =>
                          if (ty =? "event")%string
                          then Some (mkTo (st_EntityID s) (st_State s) (st_LastUpdated s)
                                       (to_map (st_Attributes s)))
                          else None
                      | _ => None
                      end
                  | None => None
                  end
              | None => None
              end
          | None => None
          end
      | _, _ => None
      end
  | _ => None
  end.

(** What one frame calls: [onSample] for a numeric state, then [onState]. *)
Inductive callback := OnSample (entity : string) (s : Sample) | OnState (entity : string) (e : StateEvent).

Definition stream_frame (nw : time) (frame : string) : list callback :=
  match decode_event frame with
  | None => []
  | Some to =>
      let ts := if IsZero (to_LastUpdated to) then nw else to_LastUpdated to in
      (match ParseFloat (to_State to) with
       | Some v => [OnSample (to_EntityID to) (mkSample ts v)]
       | None => []
       end ++ [OnState (to_EntityID to) (mkEvent ts (to_State to) (to_Attributes to))])%list
  end.
End Decode.

(** [strings.Replace(u, old, new, 1)]. *)
Fixpoint replace_first (old new s : string) : string :=
  match strip_prefix old s with
  | Some r => (new ++ r)%string
  | None => match s with EmptyString => EmptyString | String c s' => String c (replace_first old new s') end
  end.
Definition wsURL (base : string) : string :=
  let u := TrimRightSlash base in
  let u := replace_first "https://" "wss://" u in
  let u := replace_first "http://" "ws://" u in
  (u ++ "/api/websocket")%string.

(** ** Statistics *)

Record StatPoint := mkStat { sp_Start : time; sp_Sum : option float64; sp_Change : option float64 }.
Record UtilitySample := mkUtility { us_TS : time; us_Kwh : float64 }.
Record MeanPoint := mkMean { mp_Start : time; mp_Mean : option float64; mp_Change : option float64 }.

Definition isEnergyUnit (u : string) : bool :=
  let u := ToUpper (TrimSpace u) in
  (u =? "WH")%string || (u =? "KWH")%string || (u =? "MWH")%string.

(** [ResolvePeriod] over the answers per period. *)
Section Resolve.
Context (fetch : string -> string + list StatPoint).

Fixpoint probe (ps : list string) (lastErr : option string) : option (string * list StatPoint) * option string :=
  match ps with
  | [] => (None, lastErr)
  | p :: ps' => match fetch p with
                | inl e => probe ps' (Some e)
                | inr pts => if (1 <? length pts)%nat then (Some (p, pts), lastErr) else probe ps' lastErr
                end
  end.
Definition ResolvePeriod : string + (string * list StatPoint) :=
  match probe ["hour"; "day"; "month"] None with
  | (Some r, _) => inr r
  | (None, lastErr) =>
      match fetch "month" with
      | inr pts => inr ("month", pts)
      | inl e => inl (from_opt e lastErr)
      end
  end.
End Resolve.

Definition clamp_neg (v : float64) : float64 := if (v <? f0)%f64 then f0 else v.

Fixpoint bucket_deltas (prevSum : option float64) (points : list StatPoint) : list UtilitySample :=
  match points with
  | [] => []
  | p :: ps =>
      match sp_Change p, sp_Sum p with
      | Some c, _ => mkUtility (sp_Start p) (clamp_neg c) :: bucket_deltas prevSum ps
      | None, Some s =>
          (match prevSum with
           | Some q => [mkUtility (sp_Start p) (clamp_neg (s - q)%f64)]
           | None => []
           end ++ bucket_deltas (Some s) ps)%list
      | None, None => bucket_deltas prevSum ps
      end
  end.
Definition BucketDeltas (points : list StatPoint) : list UtilitySample := bucket_deltas None points.

(** ** Helper entities *)

(** The two non-ASCII letters whose lower case is ASCII: the Kelvin sign and the
    dotted capital I. *)
Fixpoint lower_special (s : string) : string :=
  match s with
  | EmptyString => EmptyString
  | String a s1 =>
      match s1 with
      | String b s2 =>
          if (byte_of a =? 196) && (byte_of b =? 176) then String "i" (lower_special s2)
          else match s2 with
               | String c s3 =>
                   if (byte_of a =? 226) && (byte_of b =? 132) && (byte_of c =? 170)
                   then String "k" (lower_special s3) else String a (lower_special s1)
               | EmptyString => String a (lower_special s1)
               end
      | EmptyString => s
      end
  end.

Definition is_slug_char (c : ascii) : bool := is_lower c || is_digit c.
Fixpoint slug_loop (prevUnderscore : bool) (s : string) : string :=
  match s with
  | EmptyString => EmptyString
  | String c s' =>
      if is_slug_char c then String c (slug_loop false s')
      else if prevUnderscore then slug_loop true s'
      else String "_" (slug_loop true s')
  end.
(** [strings.Trim s "_"]. *)
Definition trim_underscores (s : string) : string := trim_right ["_"] (trim_left ["_"] s).
Definition slug (s : string) : string := trim_underscores (slug_loop false (ToLower (lower_special s))).

(** [findSensorByName] over the states its six tries decode to (none for a failed
    request). *)
Definition sensor_named (name : string) (states : list haState) : option string :=
  option_map st_EntityID
    (List.find (fun s => HasPrefix (st_EntityID s) "sensor."
                    && (FriendlyName (decode_attrs (st_Attributes s)) =? name)%string) states).
Fixpoint findSensorByName (tries : list (list haState)) (name : string) : string :=
  match tries with
  | [] => ("sensor." ++ slug name)%string
  | sts :: tries' => match sensor_named name sts with
                     | Some id => id
                     | None => findSensorByName tries' name
                     end
  end.

Definition truncate (s : string) (n : nat) : string :=
  if (n <? String.length s)%nat then String.substring 0 n s else s.

(** A step of HA's configuration flow; a text that does not decode leaves the
    zero value. *)
Record flowStep := mkStep { fs_FlowID : string; fs_Type : string; fs_StepID : string }.
Definition step_names : list string := ["flow_id"; "type"; "step_id"; "reason"].
Definition flow_step (body : string) : flowStep :=
  match parse body with
  | Some (JObj ms) => mkStep (get_str_lenient step_names "flow_id" ms) (get_str_lenient step_names "type" ms)
                        (get_str_lenient step_names "step_id" ms)
  | _ => mkStep "" "" ""
  end.

(** What the last post submits. *)
Definition group_input (name : string) (entities : list string) (deviceClass : string) : json :=
  JObj ([("name", JStr name); ("entities", JArr (map JStr entities)); ("type", JStr "sum");
         ("ignore_non_numeric", JBool true)]
        ++ (if is_empty deviceClass then [] else [("device_class", JStr deviceClass)]))%list.

(** [CreateGroupSum] over the answers to its three posts (an error or a body) and
    the states found afterwards; [fmt_q] is [%q]. *)
Definition CreateGroupSum (fmt_q : string -> string) (start menu submit : string + string)
    (tries : list (list haState)) (name : string) : string + string :=
  match start with
  | inl e => inl e
  | inr b =>
      if is_empty (fs_FlowID (flow_step b))
      then inl ("HA did not start a group flow: " ++ truncate b 200)%string
      else match menu with
           | inl e => inl e
           | inr _ =>
               match submit with
               | inl e => inl e
               | inr b =>
                   if (fs_Type (flow_step b) =? "create_entry")%string then inr (findSensorByName tries name)
                   else inl ("helper not created (HA returned step " ++ fmt_q (fs_StepID (flow_step b)) ++ "): "
                               ++ truncate b 200)%string
               end
           end
  end.

(** ** Properties *)

(** When every point of a statistic carries HA's [change], the samples are
    the changes with negative ones clamped to zero, one per point; when none
    does, they are the clamped differences of consecutive sums, the first point
    giving none.  No sample is negative. *)
Theorem BucketDeltas_pure (points : list StatPoint) :
  (Forall (fun p => is_Some (sp_Change p)) points ->
     BucketDeltas points =
       map (fun p => mkUtility (sp_Start p) (clamp_neg (from_opt f0 (sp_Change p)))) points) /\
  (forall p q rest, points = p :: q :: rest -> sp_Change p = None -> sp_Change q = None ->
     forall a b, sp_Sum p = Some a -> sp_Sum q = Some b ->
       head (BucketDeltas points) = Some (mkUtility (sp_Start q) (clamp_neg (b - a)%f64))) /\
  Forall (fun s => fltb (us_Kwh s) f0 = false) (BucketDeltas points).
Proof.
  split_and!.
  - unfold BucketDeltas. generalize (@None float64). induction points as [|p ps IH]; intros q H; [done|].
    apply Forall_cons in H as [[c Hc] H]. cbn. rewrite Hc. cbn. f_equal. by apply IH.
  - intros p q rest -> Hp Hq a b Ha Hb. unfold BucketDeltas. cbn. by rewrite Hp, Hq, Ha, Hb.
  - assert (forall v, fltb (clamp_neg v) f0 = false) as Hc
      by (intros v; unfold clamp_neg; destruct (v <? f0)%f64 eqn:E; [reflexivity|exact E]).
    unfold BucketDeltas. generalize (@None float64). induction points as [|p ps IH]; intros q; cbn; [done|].
    destruct (sp_Change p); [constructor; [apply Hc|apply IH]|].
    destruct (sp_Sum p); [|apply IH]. destruct q; cbn; [constructor; [apply Hc|]|]; apply IH.
Qed.

(** A series that mixes the two double-counts: after a point with [change],
    the next sum-only point is differenced against the last sum-only point, so
    the energy already counted by the change is counted again. *)
Theorem BucketDeltas_mixed_double_counts :
  let pts := [mkStat 0 (Some (of_Z 10)) None;
              mkStat Hour (Some (of_Z 15)) (Some (of_Z 5));
              mkStat (2 * Hour) (Some (of_Z 18)) None] in
  map us_Kwh (BucketDeltas pts) = [of_Z 5; of_Z 8] /\ (of_Z 18 - of_Z 10)%f64 = of_Z 8.
Proof. vm_compute. done. Qed.

(** The automatic period is the finest of hour, day and month that returns
    more than one bucket; without one it is the month answer, and the call fails
    only when that request fails. *)
Theorem ResolvePeriod_finest (fetch : string -> string + list StatPoint) :
  match ResolvePeriod fetch with
  | inr (p, pts) =>
      fetch p = inr pts /\
      (p = "hour" \/ p = "day" \/ p = "month") /\
      forall q, (q = "hour" /\ p <> "hour") \/ (q = "day" /\ p = "month") ->
        forall l, fetch q = inr l -> (length l <= 1)%nat
  | inl _ => exists e, fetch "month" = inl e
  end.
Proof.
  unfold ResolvePeriod, probe.
  destruct (fetch "hour") as [e1|l1] eqn:E1; [|destruct (Nat.ltb_spec 1 (length l1))];
    [|split_and!; [done|auto|intros q [[-> ?]|[-> ?]]; congruence]|];
    (destruct (fetch "day") as [e2|l2] eqn:E2; [|destruct (Nat.ltb_spec 1 (length l2))];
      [|split_and!; [done|auto|intros q [[-> ?]|[-> ?]] l; congruence]|];
      (destruct (fetch "month") as [e3|l3] eqn:E3; [|destruct (Nat.ltb_spec 1 (length l3))];
        [by eexists| |]; (split_and!; [done|auto|intros q [[-> ?]|[-> ?]] l; congruence]))).
Qed.
