(* ===== verification/Feed.v ===== *)
(** * The live feed of the worker ([cmd/worker/main.go], [hvac.go])

    Entity resolution, the normalisation of samples to watts, the keepalive, the
    HVAC estimate, and the planning and expansion of the backfills.  The
    callbacks of one subscription are functions on its state [feed]; the publisher
    of the aggregate ([NotifyReference] and [autoWindow]) is their last step. *)

From S2P Require Import Prelude Float64 Model Calendar Json Config Store Database Deltas.
From S2P Require Import Windows AutoWindow Publish Samples Ha.

(** ** The HVAC estimate *)

Record hvacKA := mkKA { ka_set : bool; ka_action : string; ka_ts : time }.
Definition zero_KA : hvacKA := mkKA false "" zero_time.

Definition hvacTransition (cur : hvacKA) (action : string) (ts : time) : hvacKA :=
  if is_empty action then zero_KA else mkKA true action ts.

Definition hvacWatts (action : string) (heatKW coolKW : float64) : float64 :=
  if (action =? "heating")%string then (heatKW * of_Z 1000)%f64
  else if (action =? "cooling")%string then (coolKW * of_Z 1000)%f64
  else f0.

Definition clamp_hi (capEnd : time) (g : time * time) : option (time * time) :=
  let hi := if After g.2 capEnd then capEnd else g.2 in
  if Before g.1 hi then Some (g.1, hi) else None.

Definition planHVACBackfill (first : option time) (gaps : list (time * time)) (nw : time)
    (lookback minGap : duration) (capEnd : time) : list (time * time) :=
  let lookStart := Add nw (- lookback) in
  match first with
  | None => [(lookStart, capEnd)]
  | Some f =>
      ((if After f (Add lookStart minGap) then [(lookStart, f)] else [])
         ++ omap (clamp_hi capEnd) gaps)%list
  end.

(** The instants [from], [from + step], ... before [fin] (up to [fin] itself when
    [inclusive]); the fuel bounds the steps of a positive [step]. *)
Fixpoint ticks (fuel : nat) (from fin : time) (inclusive : bool) (step : duration) : list time :=
  match fuel with
  | O => []
  | S n => if Before from fin || (inclusive && (from =? fin))
           then from :: ticks n (Add from step) fin inclusive step else []
  end.
Definition tick_fuel (from fin : time) (step : duration) : nat := Z.to_nat ((fin - from) / step + 2).

(** The rows of one event, whose segment ends at the next event or at [hi]. *)
Definition segment (e : StateEvent) (next : option StateEvent) (lo hi : time) (step : duration)
  : list (time * string) :=
  let action := Attr e "hvac_action" in
  if is_empty action then []
  else
    let '(segEnd, inclusive) :=
      match next with
      | Some n => if After (ev_TS n) hi then (hi, true) else (ev_TS n, false)
      | None => (hi, true)
      end in
    omap (fun t => if negb (Before t lo) && negb (After t hi) then Some (t, action) else None)
      (ticks (tick_fuel (ev_TS e) segEnd step) (ev_TS e) segEnd inclusive step).
Fixpoint expandHVACHistory (events : list StateEvent) (lo hi : time) (step : duration)
  : list (time * string) :=
  match events with
  | [] => []
  | e :: es => (segment e (head es) lo hi step ++ expandHVACHistory es lo hi step)%list
  end.

(** ** Entity resolution *)

Record einfo := mkInfo { kind : string; factor : float64 }.

Definition unitFactor (kind unit : string) : float64 :=
  let u := ToUpper unit in
  if (u =? "KW")%string then of_Z 1000
  else if (u =? "WH")%string then lit 1 1000
  else if (u =? "MWH")%string then of_Z 1000
  else of_Z 1.

Definition buildEntityInfo (sensors : option (list Entity)) (entities : list string)
  : gmap string einfo * bool :=
  match sensors with
  | None => (∅, false)
  | Some ss =>
      let byID : gmap string Entity := fold_left (fun m s => <[en_EntityID s := s]> m) ss ∅ in
      (fold_left (fun m e => match byID !! e with
                             | Some s => <[e := mkInfo (en_Kind s) (unitFactor (en_Kind s) (en_Unit s))]> m
                             | None => m
                             end) entities ∅, true)
  end.

(** Fresh wins, the cache fills misses. *)
Definition resolve_one (fresh cache m : gmap string einfo) (e : string) : gmap string einfo :=
  match fresh !! e with
  | Some i => <[e := i]> m
  | None => match cache !! e with Some i => <[e := i]> m | None => m end
  end.
Definition resolveEntityInfo (fresh cache : gmap string einfo) (entities : list string)
  : gmap string einfo * bool :=
  let out := fold_left (resolve_one fresh cache) entities ∅ in
  (out, negb (bool_decide (out = ∅))).

(** ** One subscription *)

Record estate := mkEstate { es_lastKwh : float64; es_lastTS : time }.
Record kaSample := mkKaSample { kas_ts : time; kas_w : float64 }.

(** The state of the subscription, with the worker it belongs to. *)
Record feed := mkFeed {
  fd_info : gmap string einfo;
  lastPower : gmap string float64;
  fd_es : gmap string estate;
  kaLast : gmap string kaSample;
  fd_hvac : hvacKA;
  fd_worker : worker;
  fd_auto : autoState
}.
Definition with_power e w (f : feed) : feed :=
  mkFeed (fd_info f) (<[e := w]> (lastPower f)) (fd_es f) (kaLast f) (fd_hvac f) (fd_worker f) (fd_auto f).
Definition with_es e x (f : feed) : feed :=
  mkFeed (fd_info f) (lastPower f) (<[e := x]> (fd_es f)) (kaLast f) (fd_hvac f) (fd_worker f) (fd_auto f).
Definition with_ka e x (f : feed) : feed :=
  mkFeed (fd_info f) (lastPower f) (fd_es f) (<[e := x]> (kaLast f)) (fd_hvac f) (fd_worker f) (fd_auto f).
Definition with_hvac x (f : feed) : feed :=
  mkFeed (fd_info f) (lastPower f) (fd_es f) (kaLast f) x (fd_worker f) (fd_auto f).
Definition with_worker x (f : feed) : feed :=
  mkFeed (fd_info f) (lastPower f) (fd_es f) (kaLast f) (fd_hvac f) x (fd_auto f).
Definition with_auto a (f : feed) : feed :=
  mkFeed (fd_info f) (lastPower f) (fd_es f) (kaLast f) (fd_hvac f) (fd_worker f) a.
Definition with_ref t (f : feed) : feed := with_worker (with_last t (fd_worker f)) f.

(** The energy counter of an entity: the state after a value, and the power the
    step gives, if it gives one. *)
Definition energy_step (st : option estate) (kwh : float64) (ts : time) : estate * option float64 :=
  match st with
  | None => (mkEstate kwh ts, None)
  | Some s =>
      let dt := Hours (Sub ts (es_lastTS s)) in
      (mkEstate kwh ts,
       if (dt <=? f0)%f64 then None
       else let p := ((kwh - es_lastKwh s) * of_Z 1000 / dt)%f64 in
            Some (if (p <? f0)%f64 then f0 else p))
  end.

Section Feed.
Context (Marshal : json -> string) (Parse : string -> option time)
        (survivors : list string -> string -> DB -> time -> option Z)
        (format_f2 : float64 -> string)
        (cfg : Config).

(** [NotifyReference]: the payload is the power with two decimals. *)
Definition NotifyReference (power : float64) : M unit :=
  ignore (pg_notify "winnow_ref" (format_f2 power)).

(** The live aggregate: the entities' last powers and the HVAC estimate.  The
    map is summed in key order. *)
Definition live_total (f : feed) : float64 :=
  let agg := fsum (map snd (map_to_list (lastPower f))) in
  if ka_set (fd_hvac f)
  then (agg + hvacWatts (ka_action (fd_hvac f)) (HVACHeatingKW cfg) (HVACCoolingKW cfg))%f64
  else agg.

Definition publish (f : feed) : M feed :=
  let agg := live_total f in
  NotifyReference agg ;;
  let cur := wk_cfg (fd_worker f) in
  aw ← autoWindow Parse survivors (MonitoredEntities cur) (HATimeZone cur) agg (ThresholdW cfg)
         (AutoWindow cfg) (fd_auto f);
  mret (with_auto aw f).

(** After a stored sample: the time of the insert, a nudge to the backfill after
    an outage of more than fifteen minutes, and the stream state. *)
Definition stored (nw : time) (f : feed) : M feed :=
  let t := Unix nw in
  let prev := lastRefInsert (fd_worker f) in
  let w := with_last t (fd_worker f) in
  let w := if (prev >? 0) && (15 * 60 <? t - prev) then nudge_util w else w in
  w ← setHAStream Marshal "ok" w;
  mret (with_worker w f).

(** The part of [onSample] after the power is known. *)
Definition sample_power (entity : string) (ts : time) (powerW : float64) (f : feed) : M feed :=
  nw ← now;
  r ← try (InsertReferenceSample entity ts powerW);
  f ← (if is_ok r then stored nw f else mret f);
  publish (with_power entity powerW (with_ka entity (mkKaSample ts powerW) f)).

Definition onSample (entity : string) (s : Sample) (f : feed) : M feed :=
  match fd_info f !! entity with
  | None => mret f
  | Some i =>
      if (kind i =? "power")%string then
        sample_power entity (sa_TS s) (sa_Power s * factor i)%f64 f
      else if (kind i =? "energy")%string then
        let '(st, p) := energy_step (fd_es f !! entity) (sa_Power s * factor i)%f64 (sa_TS s) in
        let f := with_es entity st f in
        match p with
        | None => mret f
        | Some powerW => sample_power entity (sa_TS s) powerW f
        end
      else mret f
  end.

Definition onState (entity : string) (e : StateEvent) (f : feed) : M feed :=
  if negb (HVACConfigured cfg) || negb (entity =? HVACEntityID cfg)%string then mret f
  else
    let action := Attr e "hvac_action" in
    if is_empty action then publish (with_hvac (hvacTransition (fd_hvac f) "" (ev_TS e)) f)
    else
      r ← try (InsertHVACSample entity (ev_TS e) action);
      let f := if is_ok r then with_hvac (hvacTransition (fd_hvac f) action (ev_TS e)) f else f in
      publish f.

(** One tick of the five-minute keepalive; the map in key order. *)
Definition keep_one (nw : time) (e : string) (s : kaSample) (f : feed) : M feed :=
  if 5 * Minute <=? Sub nw (kas_ts s) then
    r ← try (InsertReferenceSample e nw (kas_w s));
    mret (if is_ok r then with_ref (Unix nw) (with_ka e (mkKaSample nw (kas_w s)) f) else f)
  else mret f.
Fixpoint keep_all (nw : time) (l : list (string * kaSample)) (f : feed) : M feed :=
  match l with
  | [] => mret f
  | (e, s) :: l' => f ← keep_one nw e s f; keep_all nw l' f
  end.
Definition keepalive (f : feed) : M feed :=
  nw ← now;
  f ← keep_all nw (map_to_list (kaLast f)) f;
  if ka_set (fd_hvac f) && (5 * Minute <=? Sub nw (ka_ts (fd_hvac f))) then
    r ← try (InsertHVACSample (HVACEntityID cfg) nw (ka_action (fd_hvac f)));
    mret (if is_ok r then with_hvac (mkKA true (ka_action (fd_hvac f)) nw) f else f)
  else mret f.

(** The seed of the HVAC state on connect. *)
Definition seed_hvac (climates : list ClimateEntity) (f : feed) : M feed :=
  match List.find (fun c => (ce_EntityID c =? HVACEntityID cfg)%string) climates with
  | None => mret f
  | Some c =>
      if ce_HasAction c && negb (is_empty (ce_HVACAction c)) then
        nw ← now;
        r ← try (InsertHVACSample (HVACEntityID cfg) nw (ce_HVACAction c));
        mret (if is_ok r then with_hvac (mkKA true (ce_HVACAction c) nw) f else f)
      else mret f
  end.

(** ** Backfills *)

(** The samples of one entity's hourly statistics inside [lo, hi], every five
    minutes. *)
Definition point_power (i : einfo) (p : MeanPoint) : option float64 :=
  let v :=
    if (kind i =? "power")%string && negb (is_nil (mp_Mean p))
    then option_map (fun m => m * factor i)%f64 (mp_Mean p)
    else if (kind i =? "energy")%string && negb (is_nil (mp_Change p))
    then option_map (fun c => c * factor i * of_Z 1000)%f64 (mp_Change p)
    else None in
  option_map (fun w => if (w <? f0)%f64 then f0 else w) v.
Definition expand_points (i : einfo) (pts : list MeanPoint) (lo hi : time) : list (time * float64) :=
  concat (map (fun p =>
    match point_power i p with
    | None => []
    | Some w =>
        omap (fun k => let t := Add (mp_Start p) (5 * Z.of_nat k * Minute) in
                       if Before t lo || After t hi then None else Some (t, w)) (seq 0 12)
    end) pts).

(** One gap of [backfillReferenceGaps], given the statistics of its range. *)
Definition clamp_gap (capEnd : time) (g : time * time) : option (time * time) := clamp_hi capEnd g.
Definition fill_gap (info : gmap string einfo) (lo hi : time) (means : list (string * list MeanPoint))
  : M unit :=
  forM means (fun em =>
    match info !! em.1 with
    | None => mret tt
    | Some i => let rows := expand_points i em.2 lo hi in
                ignore (ReplaceBackfillSamples em.1 lo hi (map fst rows) (map snd rows))
    end).

(** [backfillReferenceGaps]: the answers of the statistics requests, by range
    ([None] is an error, which ends the backfill). *)
Context (time_bucket : duration -> time -> time).

Fixpoint fill_gaps (info : gmap string einfo)
    (fetch : time -> time -> option (list (string * list MeanPoint))) (capEnd : time)
    (gs : list (time * time)) : M unit :=
  match gs with
  | [] => mret tt
  | g :: gs' =>
      match clamp_gap capEnd g with
      | None => fill_gaps info fetch capEnd gs'
      | Some (lo, hi) =>
          match fetch (Add lo (- Hour)) hi with
          | None => mret tt
          | Some means => fill_gap info lo hi means ;; fill_gaps info fetch capEnd gs'
          end
      end
  end.
Definition backfillReferenceGaps (sensors : option (list Entity)) (cache : gmap string einfo)
    (fetch : time -> time -> option (list (string * list MeanPoint))) : M unit :=
  nw ← now;
  let capEnd := Add nw (- (2 * Hour)) in
  gs ← ReferenceGaps time_bucket (MonitoredEntities cfg) (60 * Day) (30 * Minute) capEnd;
  match gs with
  | [] => mret tt
  | _ =>
      let '(fresh, _) := buildEntityInfo sensors (MonitoredEntities cfg) in
      let '(info, ok) := resolveEntityInfo fresh cache (MonitoredEntities cfg) in
      if ok then fill_gaps info fetch capEnd gs else mret tt
  end.

Fixpoint fill_hvac (fetch : time -> time -> option (list StateEvent)) (rs : list (time * time)) : M unit :=
  match rs with
  | [] => mret tt
  | (lo, hi) :: rs' =>
      match fetch (Add lo (- Hour)) hi with
      | None => mret tt
      | Some events =>
          let rows := expandHVACHistory events lo hi (5 * Minute) in
          ignore (ReplaceHVACBackfill (HVACEntityID cfg) lo hi (map fst rows) (map snd rows)) ;;
          fill_hvac fetch rs'
      end
  end.
Definition backfillHVACHistory (fetch : time -> time -> option (list StateEvent)) : M unit :=
  nw ← now;
  let capEnd := Add nw (- (2 * Hour)) in
  let lookback := 10 * Day in
  sp ← HVACSpan (HVACEntityID cfg);
  gs ← (match sp.1 with
        | Some _ => HVACGaps time_bucket (HVACEntityID cfg) lookback (30 * Minute) capEnd
        | None => mret []
        end);
  fill_hvac fetch (planHVACBackfill sp.1 gs nw lookback (30 * Minute) capEnd).
End Feed.

(** ** Lemmas *)

Lemma ticks_range fuel from fin inc step t :
  0 < step -> t ∈ ticks fuel from fin inc step ->
  from <= t /\ (t < fin \/ (inc = true /\ t = fin)).
Proof.
  intros Hs. revert from. induction fuel as [|n IH]; intros from Ht; cbn in Ht; [by apply elem_of_nil in Ht|].
  unfold Before, Add in *.
  destruct (Z.ltb_spec from fin) as [Hlt|Hge]; [|destruct inc, (Z.eqb_spec from fin); cbn in Ht];
    try (by apply elem_of_nil in Ht);
    apply elem_of_cons in Ht as [->|Ht]; try (split; [lia|tauto]);
    apply IH in Ht; (split; [lia|tauto]).
Qed.

(** With the computed fuel every instant of the loop is produced. *)
Lemma ticks_all fuel from fin inc step (k : nat) :
  0 < step -> (k < fuel)%nat ->
  (from + Z.of_nat k * step < fin \/ (inc = true /\ from + Z.of_nat k * step = fin)) ->
  from + Z.of_nat k * step ∈ ticks fuel from fin inc step.
Proof.
  intros Hs. revert from k. induction fuel as [|n IH]; intros from k Hk Hc; [lia|]. cbn.
  unfold Before, Add in *.
  assert ((from <? fin) || (inc && (from =? fin)) = true) as ->.
  { destruct Hc as [Hc|[-> Hc]]; [apply orb_true_iff; left; nia|].
    destruct (Z.ltb_spec from fin); [done|]. cbn. apply Z.eqb_eq. nia. }
  destruct k as [|k]; [rewrite Z.mul_0_l, Z.add_0_r; left|]. right.
  replace (from + Z.of_nat (S k) * step) with ((from + step) + Z.of_nat k * step) by lia.
  apply IH; [lia|]. destruct Hc as [Hc|[Hi Hc]]; [left; lia|right; split; [done|lia]].
Qed.

Lemma tick_fuel_enough from fin step (k : nat) :
  0 < step -> from + Z.of_nat k * step <= fin -> (k < tick_fuel from fin step)%nat.
Proof.
  intros Hs Hk. unfold tick_fuel.
  assert (Z.of_nat k <= (fin - from) / step) by (apply Z.div_le_lower_bound; lia). lia.
Qed.

Lemma segment_elem e next lo hi step t a :
  0 < step -> (t, a) ∈ segment e next lo hi step ->
  lo <= t <= hi /\ ev_TS e <= t /\ a = Attr e "hvac_action" /\ a <> "" /\
  (forall n, next = Some n -> t < ev_TS n).
Proof.
  intros Hs. unfold segment, is_empty.
  destruct (String.eqb_spec (Attr e "hvac_action") "") as [|Hne]; [by intros H%elem_of_nil|].
  destruct (match next with Some n => _ | None => _ end) as [segEnd inc] eqn:E.
  intros (u & Hu & Hf)%list_elem_of_omap. unfold Before, After in *.
  destruct (Z.ltb_spec u lo); [done|]. destruct (Z.ltb_spec hi u); [done|].
  injection Hf as <- <-. apply ticks_range in Hu as [Hu1 Hu2]; [|done].
  split_and!; [lia|done|done|done|done|]. intros n ->.
  destruct (Z.ltb_spec hi (ev_TS n)); [lia|]. injection E as <- <-. destruct Hu2 as [|[? _]]; [lia|done].
Qed.

(** The last event at or before an instant. *)
Fixpoint in_force (events : list StateEvent) (t : time) : option StateEvent :=
  match events with
  | [] => None
  | e :: es => if ev_TS e <=? t
               then match in_force es t with Some x => Some x | None => Some e end
               else None
  end.

Lemma expand_elem events lo hi step t a :
  0 < step -> StronglySorted (fun x y => ev_TS x <= ev_TS y) events ->
  (t, a) ∈ expandHVACHistory events lo hi step ->
  lo <= t <= hi /\ a <> "" /\ exists e, in_force events t = Some e /\ a = Attr e "hvac_action".
Proof.
  intros Hs. induction events as [|e es IH]; intros Hsort Hin; cbn in Hin; [by apply elem_of_nil in Hin|].
  apply StronglySorted_inv in Hsort as [Hsort Hall]. apply elem_of_app in Hin as [Hin|Hin].
  - apply segment_elem in Hin as (H1 & H2 & -> & H4 & H5); [|done]. split_and!; [lia|lia|done|].
    exists e. split; [|done]. cbn. destruct (Z.leb_spec (ev_TS e) t); [|lia].
    destruct es as [|n es]; [done|]. specialize (H5 n eq_refl). cbn.
    destruct (Z.leb_spec (ev_TS n) t); [lia|done].
  - destruct (IH Hsort Hin) as (H1 & H2 & x & Hx & Ha). split_and!; [lia|lia|done|].
    exists x. split; [|done]. cbn. rewrite Hx.
    assert (ev_TS e <= t) as Hle; [|by destruct (Z.leb_spec (ev_TS e) t); [|lia]].
    destruct es as [|n es]; [done|]. cbn in Hx. destruct (Z.leb_spec (ev_TS n) t); [|done].
    apply Forall_cons in Hall as [? _]. lia.
Qed.

Lemma fold_resolve_lookup (fresh cache : gmap string einfo) entities m e :
  fold_left (resolve_one fresh cache) entities m !! e =
  (if decide (e ∈ entities) then
     match fresh !! e with Some i => Some i
     | None => match cache !! e with Some i => Some i | None => m !! e end end
   else m !! e).
Proof.
  revert m. induction entities as [|x l IH]; intros m; cbn; [done|]. rewrite IH. unfold resolve_one.
  destruct (decide (e = x)) as [->|Hne].
  - rewrite (decide_True (P := x ∈ x :: l)) by left.
    destruct (decide (x ∈ l)); destruct (fresh !! x), (cache !! x);
      rewrite ?lookup_insert_eq; done.
  - assert (forall i, <[x := i]> m !! e = m !! e) as Hi by (intros; by rewrite lookup_insert_ne).
    assert ((if decide (e ∈ x :: l) then true else false) = (if decide (e ∈ l) then true else false)) as Hd
      by (destruct (decide (e ∈ x :: l)) as [H|H], (decide (e ∈ l)); try done; set_solver).
    destruct (decide (e ∈ x :: l)), (decide (e ∈ l)); try done;
      destruct (fresh !! x), (cache !! x); rewrite ?Hi; done.
Qed.

Lemma InsertReferenceSample_ok e t v w :
  no_faults w ->
  InsertReferenceSample e t v w =
  (Ok tt, mkWorld (set_reference_samples (reference_samples (w_db w) ++ [mkRefSample t e v "live"])%list (w_db w))
            (w_now w) (tail (w_faults w))).
Proof. intros H. unfold InsertReferenceSample. by step_ok. Qed.

(** What a keepalive tick without faults leaves for the entities it visits. *)
Lemma keep_all_ok nw l f w :
  no_faults w -> NoDup (map fst l) -> (forall e s, (e, s) ∈ l -> kaLast f !! e = Some s) ->
  exists f' w', keep_all nw l f w = (Ok f', w') /\ no_faults w' /\
    (forall e, kaLast f' !! e =
       match kaLast f !! e with
       | Some s => if decide (e ∈ map fst l) then
                     if 5 * Minute <=? Sub nw (kas_ts s) then Some (mkKaSample nw (kas_w s)) else Some s
                   else Some s
       | None => None
       end) /\
    (forall r, r ∈ reference_samples (w_db w) -> r ∈ reference_samples (w_db w')) /\
    (forall e s, (e, s) ∈ l -> 5 * Minute <= Sub nw (kas_ts s) ->
       mkRefSample nw e (kas_w s) "live" ∈ reference_samples (w_db w')).
Proof.
  revert f w. induction l as [|[e s] l IH]; intros f w Hf Hnd Hl.
  { exists f, w. split; [done|]. split_and!; [done| |done|].
    - intros e. cbn. by destruct (kaLast f !! e).
    - intros e s H. by apply elem_of_nil in H. }
  cbn in Hnd. apply NoDup_cons in Hnd as [Hne Hnd]. cbn [keep_all].
  assert (kaLast f !! e = Some s) as Hes by (apply Hl; left).
  unfold keep_one. unfold mbind at 1, M_bind at 1.
  destruct (Z.leb_spec (5 * Minute) (Sub nw (kas_ts s))) as [Hd|Hd].
  - unfold mbind at 1, M_bind at 1, try. rewrite InsertReferenceSample_ok by done.
    cbn [is_ok]. unfold mret at 1, M_ret at 1.
    set (f1 := with_ref (Unix nw) (with_ka e (mkKaSample nw (kas_w s)) f)).
    set (w1 := mkWorld _ _ _).
    destruct (IH f1 w1) as (f' & w' & E & Hf' & Hk & Hmono & Hins).
    + nofault.
    + done.
    + intros e' s' H'. unfold f1. cbn. rewrite lookup_insert_ne; [apply Hl; by right|].
      intros ->. apply Hne, list_elem_of_fmap. by exists (e', s').
    + exists f', w'. split; [done|]. split_and!; [done| | |].
      * intros e'. rewrite Hk. unfold f1. cbn. destruct (decide (e = e')) as [<-|Hne'].
        -- rewrite lookup_insert_eq, Hes. rewrite (decide_False (P := e ∈ map fst l)) by done.
           rewrite (decide_True (P := e ∈ e :: map fst l)) by left.
           by destruct (Z.leb_spec (5 * Minute) (Sub nw (kas_ts s))); [|lia].
        -- rewrite lookup_insert_ne by done. destruct (kaLast f !! e'); [|done].
           destruct (decide (e' ∈ map fst l)) as [Hi|Hi].
           ++ by rewrite (decide_True (P := e' ∈ e :: map fst l)) by (by right).
           ++ rewrite (decide_False (P := e' ∈ e :: map fst l)); [done|].
              intros [->|?]%elem_of_cons; done.
      * intros r Hr. apply Hmono. unfold w1. cbn. set_solver.
      * intros e' s' [[= -> ->]|H']%elem_of_cons Hdue; [|by apply Hins].
        apply Hmono. unfold w1. cbn. set_solver.
  - unfold mret at 1, M_ret at 1.
    destruct (IH f w Hf Hnd) as (f' & w' & E & Hf' & Hk & Hmono & Hins).
    { intros e' s' H'. apply Hl. by right. }
    exists f', w'. split; [done|]. split_and!; [done| |done|].
    + intros e'. rewrite Hk. destruct (kaLast f !! e') as [s'|] eqn:E'; [|done].
      destruct (decide (e = e')) as [<-|Hne'].
      * rewrite (decide_False (P := e ∈ map fst l)) by done.
        rewrite (decide_True (P := e ∈ e :: map fst l)) by left.
        assert (s' = s) as -> by congruence.
        by destruct (Z.leb_spec (5 * Minute) (Sub nw (kas_ts s))); [lia|].
      * destruct (decide (e' ∈ map fst l)) as [Hi|Hi].
        -- by rewrite (decide_True (P := e' ∈ e :: map fst l)) by (by right).
        -- rewrite (decide_False (P := e' ∈ e :: map fst l)); [done|].
           intros [->|?]%elem_of_cons; done.
    + intros e' s' [[= -> ->]|H']%elem_of_cons Hdue; [lia|by apply Hins].
Qed.

(** ** Properties *)

(** Expanding the thermostat's history gives only rows inside the requested
    range, each under the action in force at its time (the last event at or
    before it, never an empty action), for any ascending list of events. *)
Theorem expandHVACHistory_in_force (events : list StateEvent) (lo hi : time) (step : duration)
    (t : time) (a : string) :
  0 < step -> StronglySorted (fun x y => ev_TS x <= ev_TS y) events ->
  (t, a) ∈ expandHVACHistory events lo hi step ->
  lo <= t <= hi /\ a <> "" /\ exists e, in_force events t = Some e /\ a = Attr e "hvac_action".
Proof. apply expand_elem. Qed.

Definition heating_at (t : time) : StateEvent := mkEvent t "heat" {["hvac_action" := JStr "heating"]}.
Definition idle_at (t : time) : StateEvent := mkEvent t "heat" {["hvac_action" := JStr "idle"]}.

Lemma expandHVACHistory_in_force_witness :
  0 <= 5 * Minute <= Hour /\ "heating" <> "" /\
  exists e, in_force [heating_at 0; idle_at (12 * Minute)] (5 * Minute) = Some e /\
    "heating" = Attr e "hvac_action".
Proof.
  apply (expandHVACHistory_in_force [heating_at 0; idle_at (12 * Minute)] 0 Hour (5 * Minute)).
  - reflexivity.
  - repeat constructor; discriminate.
  - vm_compute. apply list_elem_of_further, list_elem_of_here.
Defined.

(** C38: The expansion is complete: every instant of an event's segment at the
    cadence, inside the range, is emitted with the event's action; the loop's
    fuel never cuts a segment short. *)
Theorem segment_complete (e : StateEvent) (next : option StateEvent) (lo hi : time)
    (step : duration) (k : nat) :
  0 < step -> Attr e "hvac_action" <> "" ->
  let t := ev_TS e + Z.of_nat k * step in
  lo <= t <= hi -> (forall n, next = Some n -> t < ev_TS n) ->
  (t, Attr e "hvac_action") ∈ segment e next lo hi step.
Proof.
  intros Hs Ha t Ht Hn. unfold segment, is_empty.
  destruct (String.eqb_spec (Attr e "hvac_action") "") as [|_]; [done|].
  destruct (match next with Some n => _ | None => _ end) as [segEnd inc] eqn:E.
  assert (t <= segEnd /\ (t < segEnd \/ (inc = true /\ t = segEnd))) as [Hle Hc].
  { destruct next as [n|]; [specialize (Hn n eq_refl); unfold After in E;
      destruct (Z.ltb_spec hi (ev_TS n))|]; injection E as <- <-; lia. }
  apply list_elem_of_omap. exists t. split.
  - apply ticks_all; [done|by apply tick_fuel_enough|done].
  - unfold Before, After. destruct (Z.ltb_spec t lo); [lia|]. by destruct (Z.ltb_spec hi t); [lia|].
Qed.

Lemma segment_complete_witness :
  (0 + Z.of_nat 2 * (5 * Minute), Attr (heating_at 0) "hvac_action")
    ∈ segment (heating_at 0) (Some (idle_at (12 * Minute))) 0 Hour (5 * Minute).
Proof.
  apply (segment_complete (heating_at 0) (Some (idle_at (12 * Minute))) 0 Hour (5 * Minute) 2).
  - reflexivity.
  - discriminate.
  - split; discriminate.
  - intros n [= <-]. reflexivity.
Defined.

(** The planned history ranges: every range is non-empty, a range that heals
    a gap lies inside that gap and ends at the cap at the latest, and an entity
    without samples gets the whole look-back. *)
Theorem planHVACBackfill_ranges (first : option time) (gaps : list (time * time)) (nw : time)
    (lookback minGap : duration) (capEnd lo hi : time) :
  0 <= minGap -> nw - lookback < capEnd ->
  (lo, hi) ∈ planHVACBackfill first gaps nw lookback minGap capEnd ->
  lo < hi /\
  match first with
  | None => lo = nw - lookback /\ hi = capEnd
  | Some f => (lo = nw - lookback /\ hi = f /\ nw - lookback + minGap < f) \/
              (exists g, g ∈ gaps /\ lo = g.1 /\ hi = Z.min g.2 capEnd)
  end.
Proof.
  intros Hm Hc. unfold planHVACBackfill, Add, After. destruct first as [f|].
  - intros [Hin|Hin]%elem_of_app.
    + destruct (Z.ltb_spec (nw + - lookback + minGap) f); [|by apply elem_of_nil in Hin].
      apply list_elem_of_singleton in Hin as [= -> ->]. split; [lia|]. left. lia.
    + apply list_elem_of_omap in Hin as (g & Hg & E). unfold clamp_hi, After, Before in E.
      assert ((if capEnd <? g.2 then capEnd else g.2) = Z.min g.2 capEnd) as Eh
        by (destruct (Z.ltb_spec capEnd g.2); lia).
      cbv zeta in E. rewrite Eh in E. destruct (Z.ltb_spec g.1 (Z.min g.2 capEnd)); [|done].
      injection E as <- <-. split; [done|]. right. by exists g.
  - intros [= -> ->]%list_elem_of_singleton. split; [lia|]. lia.
Qed.

Lemma planHVACBackfill_ranges_witness :
  0 < Hour /\ ((0 = 10 * Day - 10 * Day /\ Hour = 2 * Hour /\ 10 * Day - 10 * Day + Minute < 2 * Hour) \/
               (exists g, g ∈ [(0, Hour)] /\ 0 = g.1 /\ Hour = Z.min g.2 (3 * Hour))).
Proof.
  apply (planHVACBackfill_ranges (Some (2 * Hour)) [(0, Hour)] (10 * Day) (10 * Day) Minute (3 * Hour) 0 Hour).
  - discriminate.
  - reflexivity.
  - vm_compute. apply list_elem_of_further, list_elem_of_here.
Defined.

(** Entity resolution: a requested entity gets its fresh metadata, else the
    cached one, and only requested entities appear; the caller is told to retry
    exactly when nothing resolved, so a subscription is never silently empty. *)
Theorem resolveEntityInfo_spec (fresh cache : gmap string einfo) (entities : list string) (e : string) :
  let '(out, ok) := resolveEntityInfo fresh cache entities in
  out !! e = (if decide (e ∈ entities)
              then match fresh !! e with Some i => Some i | None => cache !! e end else None) /\
  (ok = true <-> exists x, x ∈ entities /\ (is_Some (fresh !! x) \/ is_Some (cache !! x))).
Proof.
  unfold resolveEntityInfo. set (out := fold_left _ _ _).
  assert (forall x, out !! x = (if decide (x ∈ entities)
    then match fresh !! x with Some i => Some i | None => cache !! x end else None)) as Ho.
  { intros x. unfold out. rewrite fold_resolve_lookup, lookup_empty.
    destruct (decide (x ∈ entities)); [|done]. by destruct (fresh !! x), (cache !! x). }
  split; [apply Ho|]. rewrite negb_true_iff, bool_decide_eq_false. split.
  - intros Hne. apply map_choose in Hne as (x & i & Hx). exists x. rewrite Ho in Hx.
    destruct (decide (x ∈ entities)); [|done]. split; [done|].
    destruct (fresh !! x); [left|right]; by eexists.
  - intros (x & Hx & H) E. specialize (Ho x). rewrite E, lookup_empty, decide_True in Ho by done.
    destruct H as [[i Hi]|[i Hi]]; rewrite Hi in Ho; [done|]. by destruct (fresh !! x).
Qed.

(** The keepalive keeps its promise to the gap-fill: after a tick without
    faults no known entity's last sample is five minutes old, every entity that
    was due has a live sample of this instant with its last value, and no stored
    sample was removed. *)
Theorem keepalive_refreshes (cfg : Config) (f : feed) (w : World) :
  no_faults w -> ka_set (fd_hvac f) = false ->
  (forall e s, kaLast f !! e = Some s -> in_int64 (w_now w - kas_ts s)) ->
  exists f' w', keepalive cfg f w = (Ok f', w') /\
    (forall e s, kaLast f' !! e = Some s -> Sub (w_now w) (kas_ts s) < 5 * Minute) /\
    (forall e s, kaLast f !! e = Some s -> 5 * Minute <= Sub (w_now w) (kas_ts s) ->
       mkRefSample (w_now w) e (kas_w s) "live" ∈ reference_samples (w_db w')) /\
    (forall r, r ∈ reference_samples (w_db w) -> r ∈ reference_samples (w_db w')).
Proof.
  intros Hf Hh Hr. unfold keepalive, mbind, M_bind, now.
  destruct (keep_all_ok (w_now w) (map_to_list (kaLast f)) f w) as (f' & w' & E & _ & Hk & Hm & Hi).
  - done.
  - apply NoDup_fst_map_to_list.
  - intros e s H. by apply elem_of_map_to_list in H.
  - rewrite E.
    assert (fd_hvac f' = fd_hvac f) as Eh.
    { clear -E. generalize dependent (map_to_list (kaLast f)). intros l. generalize (w_now w). intros nw.
      revert f w. induction l as [|[e s] l IH]; intros f w E; cbn in E.
      - by injection E as -> _.
      - unfold mbind, M_bind, keep_one in E.
        destruct (5 * Minute <=? Sub nw (kas_ts s)); [|by apply IH in E].
        unfold mbind, M_bind, try in E.
        destruct (InsertReferenceSample e nw (kas_w s) w) as [[u|er] w2]; cbn in E; by apply IH in E. }
    rewrite Eh, Hh. cbn [andb]. exists f', w'. split; [done|]. split_and!; [| |done].
    + intros e s Hs. rewrite Hk in Hs. destruct (kaLast f !! e) as [s0|] eqn:E0; [|done].
      assert (e ∈ map fst (map_to_list (kaLast f))) as Hin.
      { apply list_elem_of_fmap. exists (e, s0). split; [done|]. by apply elem_of_map_to_list. }
      rewrite decide_True in Hs by done.
      destruct (Z.leb_spec (5 * Minute) (Sub (w_now w) (kas_ts s0))); injection Hs as <-; [|done].
      cbn. unfold Sub. rewrite Z.sub_diag. done.
    + intros e s Hs Hd. apply Hi; [by apply elem_of_map_to_list|done].
Qed.

Definition steady_feed : feed :=
  mkFeed ∅ ∅ ∅ {["sensor.a" := mkKaSample 0 (of_Z 500)]} zero_KA sample_worker0 new_auto.

Lemma steady_row e s : kaLast steady_feed !! e = Some s -> s = mkKaSample 0 (of_Z 500).
Proof. unfold steady_feed. cbn. by intros [_ <-]%lookup_singleton_Some. Qed.
Definition no_cfg : Config := FromMap (fun _ => "") (fun _ => (f0, true)) ∅.

Lemma keepalive_refreshes_witness :
  exists f' w', keepalive no_cfg steady_feed (mkWorld empty_DB (6 * Minute) []) = (Ok f', w').
Proof.
  destruct (keepalive_refreshes no_cfg steady_feed (mkWorld empty_DB (6 * Minute) []))
    as (f' & w' & E & _).
  - constructor.
  - reflexivity.
  - intros e s H. apply steady_row in H as ->. split; discriminate.
  - by exists f', w'.
Defined.

(** Energy sensors never give negative power: a step of the counter gives a
    power only when time advanced, and a falling counter (a utility-meter cycle
    reset) gives zero, while the counter state always moves to the new value. *)
Theorem energy_step_nonneg (st : option estate) (kwh : float64) (ts : time) :
  let '(st', p) := energy_step st kwh ts in
  st' = mkEstate kwh ts /\
  (st = None -> p = None) /\
  forall w s, p = Some w -> st = Some s ->
    (w <? f0)%f64 = false /\ (Hours (Sub ts (es_lastTS s)) <=? f0)%f64 = false.
Proof.
  unfold energy_step. destruct st as [s|]; [|by split_and!]. split; [done|]. split; [done|].
  intros w s' Hw [= <-]. destruct (Hours (Sub ts (es_lastTS s)) <=? f0)%f64 eqn:E; [done|].
  split; [|done]. apply (inj Some) in Hw as <-.
  match goal with |- ((if ?c then _ else _) <? f0)%f64 = false => destruct c eqn:En end;
    [reflexivity|exact En].
Qed.
