(* ===== verification/Broker.v ===== *)
(** * The event broker of the API ([cmd/api/broker.go])

    Notifications fan out to the connected browsers: each has a channel of
    capacity 16, and a message is dropped for a browser whose channel is full.
    Any sequence of connections, disconnections, publications and receptions is
    a list of [op]s. *)

From S2P Require Import Prelude Float64 Model Json Encoding Store Database.

Definition chan_capacity : nat := 16.

(** The open channels by identity, each with what it holds, oldest first. *)
Record broker := mkBroker { clients : gmap nat (list string); next_chan : nat }.
Definition newBroker : broker := mkBroker ∅ 0.

Definition add (b : broker) : nat * broker :=
  (next_chan b, mkBroker (<[next_chan b := []]> (clients b)) (S (next_chan b))).
Definition remove (ch : nat) (b : broker) : broker := mkBroker (delete ch (clients b)) (next_chan b).

(** The [select] with a default: a full channel drops the message. *)
Definition offer (msg : string) (q : list string) : list string :=
  if (length q <? chan_capacity)%nat then (q ++ [msg])%list else q.
Definition publish (msg : string) (b : broker) : broker :=
  mkBroker (offer msg <$> clients b) (next_chan b).

(** The text of the event of a notification; other channels give none. *)
Definition event_text (channel payload : string) : option string :=
  if (channel =? "winnow")%string then
    let '(id, src, _) := str_cut unit_sep payload in
    Some (dq "{'type':'reading','endpoint_id':" ++ id ++ dq ",'source':" ++ marshal_string src ++ "}")
  else if (channel =? "winnow_ref")%string then
    Some (dq "{'type':'reference','power':" ++ payload ++ "}")
  else if (channel =? "winnow_config")%string then Some (dq "{'type':'config'}")
  else if (channel =? "winnow_tests")%string then Some (dq "{'type':'tests'}")
  else None.

(** One notification received by [run]. *)
Definition on_notification (channel payload : string) (b : broker) : broker :=
  match event_text channel payload with Some ev => publish ev b | None => b end.

(** ** Histories *)

Inductive op := Add | Remove (ch : nat) | Publish (msg : string) | Receive (ch : nat).

(** A browser's view: what it has received, and what was published since it
    connected. *)
Record view := mkView { got : list string; sent : list string }.
Record state := mkState { st_broker : broker; st_views : gmap nat view }.
Definition init_state : state := mkState newBroker ∅.

Definition step (s : state) (o : op) : state :=
  match o with
  | Add => let '(ch, b) := add (st_broker s) in
           mkState b (<[ch := mkView [] []]> (st_views s))
  | Remove ch => mkState (remove ch (st_broker s)) (delete ch (st_views s))
  | Publish msg => mkState (publish msg (st_broker s))
                     ((fun v => mkView (got v) (sent v ++ [msg])) <$> st_views s)
  | Receive ch =>
      match clients (st_broker s) !! ch, st_views s !! ch with
      | Some (m :: q), Some v =>
          mkState (mkBroker (<[ch := q]> (clients (st_broker s))) (next_chan (st_broker s)))
            (<[ch := mkView (got v ++ [m]) (sent v)]> (st_views s))
      | _, _ => s
      end
  end.
Definition run_ops (ops : list op) : state := fold_left step ops init_state.

(** Every open channel has a view, within the capacity, in order. *)
Definition client_ok (q : list string) (v : view) : Prop :=
  (length q <= chan_capacity)%nat /\ (got v ++ q)%list `sublist_of` sent v.
Definition views_ok (s : state) : Prop :=
  forall ch, match clients (st_broker s) !! ch, st_views s !! ch with
             | Some q, Some v => client_ok q v
             | None, None => True
             | _, _ => False
             end.

Lemma offer_ok msg q v :
  client_ok q v -> client_ok (offer msg q) (mkView (got v) (sent v ++ [msg])).
Proof.
  intros [Hl Hs]. unfold client_ok, offer. cbn [got sent].
  destruct (Nat.ltb_spec (length q) chan_capacity).
  - rewrite length_app. cbn. split; [lia|]. rewrite app_assoc. by apply sublist_app.
  - split; [done|]. by apply sublist_inserts_r.
Qed.

Lemma step_views_ok s o : views_ok s -> views_ok (step s o).
Proof.
  intros H. destruct o as [|ch|msg|ch]; cbn [step].
  - intros c. cbn. destruct (decide (c = next_chan (st_broker s))) as [-> |Hne].
    + rewrite !lookup_insert_eq. split; cbn; [lia|done].
    + rewrite !lookup_insert_ne by done. apply H.
  - intros c. cbn. destruct (decide (c = ch)) as [-> |Hne].
    + by rewrite !lookup_delete_eq.
    + rewrite !lookup_delete_ne by done. apply H.
  - intros c. specialize (H c). cbn. rewrite !lookup_fmap.
    destruct (clients (st_broker s) !! c), (st_views s !! c); cbn; try done. by apply offer_ok.
  - pose proof (H ch) as Hc.
    destruct (clients (st_broker s) !! ch) as [[|m q]|] eqn:Eq; [done| |done].
    destruct (st_views s !! ch) as [v|] eqn:Ev; [|done].
    intros c. cbn. destruct (decide (c = ch)) as [-> |Hne].
    + rewrite !lookup_insert_eq. destruct Hc as [Hl Hs]. split; cbn in *; [lia|].
      by rewrite <- app_assoc.
    + rewrite !lookup_insert_ne by done. apply H.
Qed.

Lemma run_ops_ok ops : views_ok (run_ops ops).
Proof.
  unfold run_ops. assert (views_ok init_state) as H by (by intros ch).
  revert H. generalize init_state. induction ops as [|o ops IH]; intros s H; cbn; [done|].
  apply IH. by apply step_views_ok.
Qed.

(** ** Theorems *)

(** whatever the browsers do, no channel ever holds more than 16 messages,
    and what a browser has received followed by what waits for it are messages
    published since it connected, in the order of publication, none twice. *)
Theorem broker_delivers_in_order (ops : list op) (ch : nat) (q : list string) :
  clients (st_broker (run_ops ops)) !! ch = Some q ->
  exists v, st_views (run_ops ops) !! ch = Some v /\ (length q <= chan_capacity)%nat /\
    (got v ++ q)%list `sublist_of` sent v.
Proof.
  intros Hq. pose proof (run_ops_ok ops ch) as H. rewrite Hq in H.
  destruct (st_views (run_ops ops) !! ch) as [v|]; [|done]. exists v. by destruct H.
Qed.

Lemma broker_delivers_in_order_witness :
  clients (st_broker (run_ops [Add; Publish "a"; Publish "b"; Receive 0])) !! 0%nat = Some ["b"] /\
  exists v, st_views (run_ops [Add; Publish "a"; Publish "b"; Receive 0]) !! 0%nat = Some v /\
    (length ["b"] <= chan_capacity)%nat /\ (got v ++ ["b"])%list `sublist_of` sent v.
Proof.
  split; [reflexivity|].
  exact (broker_delivers_in_order [Add; Publish "a"; Publish "b"; Receive 0] 0 ["b"] eq_refl).
Defined.

(** a browser that is at most 16 behind loses nothing: a publication reaches
    every open channel with room, at its end, and changes no other. *)
Theorem publish_reaches (msg : string) (b : broker) (ch : nat) :
  clients (publish msg b) !! ch =
  match clients b !! ch with
  | Some q => Some (if (length q <? chan_capacity)%nat then (q ++ [msg])%list else q)
  | None => None
  end.
Proof. cbn. rewrite lookup_fmap. by destruct (clients b !! ch). Qed.

(** the event of an ingested reading is valid JSON that carries the reading's
    own endpoint id and source, whatever ASCII text the source is. *)
Theorem reading_event_roundtrip (r : Reading) :
  0 <= r_EndpointID r <= int64_max -> all_ascii (r_Source r) = true ->
  exists t, event_text "winnow" (notify_payload r) = Some t /\
    parse t = Some (JObj [("type", JStr "reading"); ("endpoint_id", JNum (FormatInt (r_EndpointID r)));
                          ("source", JStr (r_Source r))]).
Proof.
  intros Hid Hsrc.
  set (l := [("type", (marshal_string "reading", JStr "reading"));
             ("endpoint_id", (FormatInt (r_EndpointID r), JNum (FormatInt (r_EndpointID r))));
             ("source", (marshal_string (r_Source r), JStr (r_Source r)))]).
  exists (marshal_object (texts_of l)). split.
  - unfold event_text, notify_payload. cbn [String.eqb]. 
    rewrite str_cut_app.
    2: { apply FormatInt_no_char; [reflexivity|discriminate]. }
    cbv match. unfold marshal_object. cbn [texts_of map l fst snd str_join String.concat].
    unfold marshal_member. cbn [fst snd]. rewrite <- !str_app_assoc. reflexivity.
  - apply (parse_closed (S (length l + 1))).
    + apply closed_text_object; [done|].
      apply Forall_cons. split; [split; [reflexivity|by apply value_text_string]|].
      apply Forall_cons. split; [split; [reflexivity|by apply value_text_nat]|].
      apply Forall_cons. split; [split; [reflexivity|by apply value_text_string]|].
      by apply Forall_nil.
    + unfold marshal_object. rewrite !str_length_app.
      change (length l) with 3%nat. change (String.length "{") with 1%nat.
      change (String.length "}") with 1%nat. lia.
    + cbn. unfold maxNestingDepth. lia.
Qed.

Lemma reading_event_roundtrip_witness :
  exists t, event_text "winnow" (notify_payload sample_reading) = Some t /\
    parse t = Some (JObj [("type", JStr "reading"); ("endpoint_id", JNum "42"); ("source", JStr "dongle0")]).
Proof.
  exact (reading_event_roundtrip sample_reading ltac:(vm_compute; split; discriminate) eq_refl).
Defined.
