(* ===== verification/ApiAgent.v ===== *)
(** * The server end of the agent channel ([cmd/api/agent.go])

    The bounded list of agents waiting for approval, the server's identity, the
    allow-list handlers and the session with one agent.  A session runs the
    handshake of [AgentWire] against the database and the waiting list, then
    handles the decoded application messages one by one.  [Parse] is
    [time.Parse] with the RFC 3339 layout; TLS key pairs are a parameter. *)

From S2P Require Import Prelude Float64 Model Json Encoding Config Store Database AgentWire Broker.

(** ** Agents waiting for approval *)

Record pendingAgent := mkPending {
  pa_PubKey : string; pa_Fingerprint : string; pa_Name : string; pa_RemoteAddr : string;
  pa_FirstSeen : time; pa_LastSeen : time
}.
Notation pendingAgents := (gmap string pendingAgent).

Definition pendingTTL : duration := 10 * Minute.
Definition pendingMax : nat := 32.

Definition fresh_entry (nw : time) (kv : string * pendingAgent) : Prop :=
  Sub nw (pa_LastSeen kv.2) <= pendingTTL.
#[export] Instance fresh_entry_dec nw kv : Decision (fresh_entry nw kv).
Proof. unfold fresh_entry. apply _. Defined.
Definition gcLocked (nw : time) (p : pendingAgents) : pendingAgents := filter (fresh_entry nw) p.

(** The search for the least recently seen entry, over the entries in the order
    the map iteration gives them. *)
Definition oldest_step (nw : time) (acc : string * time) (kv : string * pendingAgent) : string * time :=
  if is_empty acc.1 || Before (pa_LastSeen kv.2) acc.2 then (kv.1, pa_LastSeen kv.2) else acc.
Definition oldest_key (nw : time) (entries : list (string * pendingAgent)) : string :=
  (fold_left (oldest_step nw) entries ("", nw)).1.

(** The garbage collection and the eviction; [order] is the iteration order of
    Go's map at this moment. *)
Definition make_room (order : pendingAgents -> list (string * pendingAgent)) (nw : time)
  (p : pendingAgents) : pendingAgents :=
  let p := gcLocked nw p in
  if (pendingMax <=? size p)%nat then delete (oldest_key nw (order p)) p else p.
Definition add_pending (order : pendingAgents -> list (string * pendingAgent)) (nw : time)
  (pub name addr : string) (p : pendingAgents) : bool * pendingAgents :=
  let key := EncodeKey pub in
  match p !! key with
  | Some e =>
      let nm := if is_empty name then pa_Name e else name in
      (false, <[key := mkPending (pa_PubKey e) (pa_Fingerprint e) nm addr (pa_FirstSeen e) nw]> p)
  | None => (true, <[key := mkPending key (Fingerprint pub) name addr nw nw]> (make_room order nw p))
  end.
Definition remove_pending (pubkey : string) (p : pendingAgents) : pendingAgents := delete pubkey p.
Definition list_pending (nw : time) (p : pendingAgents) : list pendingAgent * pendingAgents :=
  let p := gcLocked nw p in (map snd (map_to_list p), p).

(** ** The server's identity *)

Record agentCrypto := mkCrypto { ac_pub : string; ac_priv : string; ac_certs : list string; ac_tlsFP : string }.

Definition setting (m : gmap string string) (k : string) : string := from_opt "" (m !! k).

(** The error of a call lifted into the monad. *)
Definition lift {A} (e : string) (o : option A) : M A :=
  match o with Some a => mret a | None => fail e end.

Section Identity.
Context {C : Crypto}.

(** [gen] is the private key the random source gives, [cert] the PEM texts of a
    new self-signed certificate, [X509KeyPair] the DER chain of a pair. *)
Definition server_keys (gen : option string) (m : gmap string string) : M (string * string) :=
  if is_empty (setting m KeyAgentServerPub) || is_empty (setting m KeyAgentServerPriv) then
    priv ← lift "rand" gen;
    let pub := x25519_base priv in
    ignore (SetSetting KeyAgentServerPub (EncodeKey pub)) ;;
    ignore (SetSetting KeyAgentServerPriv (EncodeKey priv)) ;;
    mret (pub, priv)
  else
    pub ← lift "key" (DecodeKey (setting m KeyAgentServerPub));
    priv ← lift "key" (DecodeKey (setting m KeyAgentServerPriv));
    mret (pub, priv).

Definition server_cert (cert : option (string * string)) (m : gmap string string) : M (string * string) :=
  if is_empty (setting m KeyAgentTLSCert) || is_empty (setting m KeyAgentTLSKey) then
    '(certPEM, keyPEM) ← lift "cert" cert;
    ignore (SetSetting KeyAgentTLSCert certPEM) ;;
    ignore (SetSetting KeyAgentTLSKey keyPEM) ;;
    mret (certPEM, keyPEM)
  else mret (setting m KeyAgentTLSCert, setting m KeyAgentTLSKey).

Definition ensureAgentCrypto (gen : option string) (cert : option (string * string))
  (X509KeyPair : string -> string -> option (list string)) : M agentCrypto :=
  m ← GetSettings;
  '(pub, priv) ← server_keys gen m;
  '(certPEM, keyPEM) ← server_cert cert m;
  certs ← lift "tls" (X509KeyPair certPEM keyPEM);
  mret (mkCrypto pub priv certs (match certs with c :: _ => hexFP (Sum256 c) | [] => "" end)).
End Identity.

(** ** The allow-list *)

Definition allow_list (m : gmap string string) : list AuthorizedAgent :=
  ParseAuthorizedAgents (setting m KeyAgentAuthorized).

(** The first entry whose key decodes to [pub]. *)
Fixpoint label_of (l : list AuthorizedAgent) (pub : string) : option string :=
  match l with
  | [] => None
  | a :: l' => match DecodeKey (a_PubKey a) with
               | Some k => if (k =? pub)%string then Some (a_Label a) else label_of l' pub
               | None => label_of l' pub
               end
  end.

Definition marshal_agent (a : AuthorizedAgent) : string :=
  marshal_object [("label", marshal_string (a_Label a)); ("pubkey", marshal_string (a_PubKey a))].
Definition marshal_agents (l : list AuthorizedAgent) : string := marshal_array (map marshal_agent l).

(** What a handler answers. *)
Inductive response :=
  | OK | BadRequest (msg : string) | Unavailable | ServerError (msg : string)
  | Closed.  (* the socket is closed as unauthorized *)

(** The state of the server process besides the database. *)
Record server := mkServer { sv_pending : pendingAgents; sv_broker : broker }.
Definition with_pending (p : pendingAgents) (s : server) : server := mkServer p (sv_broker s).
Definition with_broker (b : broker) (s : server) : server := mkServer (sv_pending s) b.

(** [m, _ := GetSettings]: on an error the map is nil. *)
Definition settings_or_nil : M (gmap string string) :=
  r ← try GetSettings; mret (match r with Ok m => m | Err _ => ∅ end).

(** Relabel the entry of this key text, or append one. *)
Definition put_agent (label pubkey : string) (l : list AuthorizedAgent) : list AuthorizedAgent :=
  if existsb (fun a => (a_PubKey a =? pubkey)%string) l
  then map (fun a => if (a_PubKey a =? pubkey)%string then mkAgent label (a_PubKey a) else a) l
  else (l ++ [mkAgent label pubkey])%list.
Definition drop_agent (pubkey : string) (l : list AuthorizedAgent) : list AuthorizedAgent :=
  List.filter (fun a => negb (a_PubKey a =? pubkey)%string) l.

Definition body_names : list string := ["Label"; "PubKey"].
Definition body_field (f : string) (body : option json) : option string :=
  match body with
  | Some (JObj ms) => match get_str body_names "Label" ms, get_str body_names "PubKey" ms with
                      | Some l, Some p => Some (if (f =? "Label")%string then l else p)
                      | _, _ => None
                      end
  | Some JNull => Some ""
  | _ => None
  end.

(** [body] is the first JSON value of the request, if the decoder finds one. *)
Definition handleAuthorizeAgent (body : option json) (s : server) : M (response * server) :=
  match body_field "Label" body, body_field "PubKey" body with
  | Some label, Some pubkey =>
      match DecodeKey pubkey with
      | None => mret (BadRequest "invalid public key", s)
      | Some _ =>
          m ← settings_or_nil;
          r ← try (SetSetting KeyAgentAuthorized (marshal_agents (put_agent label pubkey (allow_list m))));
          match r with
          | Err e => mret (ServerError e, s)
          | Ok _ => mret (OK, with_pending (remove_pending pubkey (sv_pending s)) s)
          end
      end
  | _, _ => mret (BadRequest "bad json", s)
  end.

Definition revoke_names : list string := ["PubKey"].
Definition revoke_key (body : option json) : option string :=
  match body with
  | Some (JObj ms) => get_str revoke_names "PubKey" ms
  | Some JNull => Some ""
  | _ => None
  end.
Definition handleRevokeAgent (body : option json) (s : server) : M (response * server) :=
  match revoke_key body with
  | Some pubkey =>
      m ← settings_or_nil;
      r ← try (SetSetting KeyAgentAuthorized (marshal_agents (drop_agent pubkey (allow_list m))));
      match r with
      | Err e => mret (ServerError e, s)
      | Ok _ => mret (OK, s)
      end
  | None => mret (BadRequest "bad json", s)
  end.

(** ** The session with one agent *)

Definition agent_event : string := dq "{'type':'agent'}".
Definition publish_agent (s : server) : server := with_broker (publish agent_event (sv_broker s)) s.

Section Session.
Context {C : Crypto} (getenv : string -> string) (ParseFloat : string -> float64 * bool)
  (Parse : string -> option time) (order : pendingAgents -> list (string * pendingAgent))
  (addr : string).

(** The two callbacks of the handshake. *)
Definition authorized (pub : string) (s : server) : M (option string * server) :=
  m ← settings_or_nil;
  match label_of (allow_list m) pub with
  | Some l => mret (Some l, with_pending (remove_pending (EncodeKey pub) (sv_pending s)) s)
  | None => mret (None, s)
  end.
Definition onUnauthorized (pub name : string) (s : server) : M server :=
  nw ← now;
  let '(fresh, p) := add_pending order nw pub name addr (sv_pending s) in
  let s := with_pending p s in
  mret (if fresh then publish_agent s else s).

(** The handshake run by the server: the callbacks act on the database and the
    waiting list; a read that never comes is the idle timeout's error. *)
Fixpoint serve {A} (p : proto A) (e : env) (s : server) : M (result A * server) :=
  match p with
  | Return r => mret (r, s)
  | WriteMsg m k => serve (k (hd true (e_writes e)))
                      (mkEnv (e_in e) (e_keys e) (e_nonces e) (tail (e_writes e))) s
  | ReadMsg k => match e_in e with
                 | [] => serve (k None) e s
                 | o :: rest => serve (k o) (mkEnv rest (e_keys e) (e_nonces e) (e_writes e)) s
                 end
  | GenKey k => serve (k (hd None (e_keys e))) (mkEnv (e_in e) (tail (e_keys e)) (e_nonces e) (e_writes e)) s
  | RandNonce k => serve (k (hd None (e_nonces e)))
                     (mkEnv (e_in e) (e_keys e) (tail (e_nonces e)) (e_writes e)) s
  | Authorized pub k => '(o, s) ← authorized pub s; serve (k o) e s
  | OnUnauthorized pub name k => s ← onUnauthorized pub name s; serve k e s
  end.

Definition source_config (c : CaptureConfig) (src : string) : SourceConfig :=
  mkSourceConfig src (DeviceEnabled c src) (DeviceFreq c src) (DeviceGain c src) (DevicePPM c src)
    (DeviceMsgType c src) (DeviceFilterID c src).
Definition agentConfig (sources : list string) : M (list SourceConfig) :=
  r ← try (LoadConfig getenv ParseFloat);
  let c := match r with Ok cfg => Capture cfg | Err _ => zero_capture end in
  mret (map (source_config c) sources).
(** The push of [handleAgentWS] and of every notification in [pushConfigOnChange]. *)
Definition config_message (sources : list string) : M Message :=
  cfg ← agentConfig sources; mret (mkMessage "config" "" [] None None cfg).

Definition remote_name (label : string) (d : DeviceInfo) : string :=
  (label ++ " · " ++ (if is_empty (di_Name d) then "remote dongle" else di_Name d))%string.
Definition announce (label : string) (devs : list DeviceInfo) : M unit :=
  forM devs (fun d => ignore (UpsertDevice (di_Source d) 0 (remote_name label d) "remote")).

(** One application message; the errors of the store are discarded. *)
Definition handle_message (msg : Message) : M unit :=
  if (msg_Type msg =? "reading")%string then
    match msg_Reading msg with
    | Some r => ignore (InsertReading (rm_Reading r) (rm_Raw r))
    | None => mret tt
    end
  else if (msg_Type msg =? "heartbeat")%string then
    match msg_Heartbeat msg with
    | Some hb =>
        nw ← now;
        let ts := from_opt zero_time (Parse (hm_LastTS hb)) in
        ignore (UpdateHeartbeat (hm_Source hb) (if IsZero ts then nw else ts) (hm_Total hb))
    | None => mret tt
    end
  else mret tt.

(** The messages until the first that cannot be received. *)
Fixpoint message_loop (msgs : list (option Message)) : M unit :=
  match msgs with
  | Some m :: msgs' => handle_message m ;; message_loop msgs'
  | _ => mret tt
  end.

(** After the handshake: the hello, the first configuration (returned), the loop. *)
Definition agent_session (label : string) (msgs : list (option Message)) : M (list Message) :=
  match msgs with
  | Some hello :: msgs' =>
      if (msg_Type hello =? "hello")%string then
        announce label (msg_Devices hello) ;;
        cfg ← config_message (map di_Source (msg_Devices hello));
        message_loop msgs' ;;
        mret [cfg]
      else mret []
  | _ => mret []
  end.

(** [s.agent == nil] is the first argument; [e] is what the socket delivers during
    the handshake and [msgs] the messages decoded after it. *)
Definition handleAgentWS (agent : option agentCrypto) (e : env) (msgs : list (option Message)) (s : server)
  : M (response * list Message * server) :=
  match agent with
  | None => mret (Unavailable, [], s)
  | Some ac =>
      '(r, s) ← serve (ServerHandshake (ac_priv ac)) e s;
      match r with
      | Err _ => mret (Closed, [], s)
      | Ok (_, label) =>
          let s := publish_agent s in
          sent ← agent_session label msgs;
          mret (OK, sent, publish_agent s)
      end
  end.
End Session.

(** ** The dashboard's view *)

Record authView := mkAuthView { av_Label : string; av_PubKey : string; av_Fingerprint : string }.
Record remoteView := mkRemoteView {
  rv_Source : string; rv_Label : string; rv_Alive : bool; rv_LastSeen : option string
}.
Record agentsView := mkAgentsView {
  vw_ServerKey : string; vw_ServerFP : string; vw_TLSFP : string;
  vw_Authorized : list authView; vw_Remotes : list remoteView; vw_Pending : list pendingAgent
}.
Definition auth_view (a : AuthorizedAgent) : authView :=
  mkAuthView (a_Label a) (a_PubKey a)
    (match DecodeKey (a_PubKey a) with Some k => Fingerprint k | None => "" end).
Definition remote_view (d : Device) : option remoteView :=
  if (Tuner d =? "remote")%string
  then Some (mkRemoteView (Serial d) (Name d) (Alive d) (LastSeen d)) else None.

(** The times of the pending entries are rendered by the caller of [vw_Pending]. *)
Definition handleAgents (ac : agentCrypto) (s : server) : M (agentsView * server) :=
  m ← settings_or_nil;
  let auth := map auth_view (allow_list m) in
  devs ← try (ListDevices (90 * Second));
  let remotes := match devs with Ok l => omap remote_view l | Err _ => [] end in
  nw ← now;
  let '(waiting, p) := list_pending nw (sv_pending s) in
  let pending := List.filter (fun e => negb (existsb (fun a => (av_PubKey a =? pa_PubKey e)%string) auth)) waiting in
  mret (mkAgentsView (EncodeKey (ac_pub ac)) (Fingerprint (ac_pub ac)) (ac_tlsFP ac) auth remotes pending,
        with_pending p s).

(** ** Lemmas on the waiting list *)

Definition oldest_inv (nw : time) (l : list (string * pendingAgent)) (acc : string * time) : Prop :=
  (l = [] /\ acc = ("", nw)) \/
  (exists e, (acc.1, e) ∈ l /\ acc.2 = pa_LastSeen e /\
     forall k' e', (k', e') ∈ l -> pa_LastSeen e <= pa_LastSeen e').

Lemma oldest_step_inv nw l acc kv :
  kv.1 <> "" -> Forall (fun x => x.1 <> "") l ->
  oldest_inv nw l acc -> oldest_inv nw (l ++ [kv]) (oldest_step nw acc kv).
Proof.
  intros Hk Hl [[-> ->]|(e & Hin & Hts & Hmin)]; destruct kv as [k x]; cbn in Hk; right.
  - exists x. cbn. split; [set_solver|]. split; [done|].
    intros k' e' ?%list_elem_of_singleton. by simplify_eq.
  - unfold oldest_step. cbn [fst snd].
    assert (is_empty acc.1 = false) as ->.
    { apply String.eqb_neq. rewrite Forall_forall in Hl. by apply (Hl _ Hin). }
    unfold Before. cbn [orb]. destruct (Z.ltb_spec (pa_LastSeen x) acc.2).
    + exists x. cbn. split; [set_solver|]. split; [done|].
      intros k' e' [Hk'|?%list_elem_of_singleton]%elem_of_app; [|by simplify_eq].
      specialize (Hmin _ _ Hk'). lia.
    + exists e. split; [set_solver|]. split; [done|].
      intros k' e' [Hk'|?%list_elem_of_singleton]%elem_of_app; [by eapply Hmin|]. simplify_eq. lia.
Qed.

Lemma oldest_key_spec nw l :
  l <> [] -> Forall (fun x => x.1 <> "") l ->
  exists e, (oldest_key nw l, e) ∈ l /\ forall k' e', (k', e') ∈ l -> pa_LastSeen e <= pa_LastSeen e'.
Proof.
  intros Hne Hl.
  assert (oldest_inv nw l (fold_left (oldest_step nw) l ("", nw))) as [[? _]|(e & Hin & _ & Hmin)];
    [|done|by exists e].
  clear Hne. induction l as [|kv l IH] using rev_ind; [by left|].
  rewrite Forall_app, Forall_singleton in Hl. destruct Hl as [Hl Hkv]. rewrite fold_left_app. cbn.
  apply oldest_step_inv; auto.
Qed.

Definition keys_ok (p : pendingAgents) : Prop := p !! "" = None.

Lemma gcLocked_lookup nw p k e :
  gcLocked nw p !! k = Some e <-> p !! k = Some e /\ Sub nw (pa_LastSeen e) <= pendingTTL.
Proof. unfold gcLocked. by rewrite map_lookup_filter_Some. Qed.

Lemma EncodeKey_nonempty pub : String.length pub = 32%nat -> EncodeKey pub <> "".
Proof. destruct pub as [|a [|b [|c r]]]; try done. Qed.

(** The room made for a new entry: what is left was there, and what went had
    expired or was the least recently seen of a full list. *)
Lemma make_room_spec order nw p :
  (forall q, order q ≡ₚ map_to_list q) -> keys_ok p -> (size p <= pendingMax)%nat ->
  let r := make_room order nw p in
  (size r < pendingMax)%nat /\ (forall k e, r !! k = Some e -> p !! k = Some e) /\
  forall k e, p !! k = Some e -> r !! k = Some e \/
    (r !! k = None /\ (pendingTTL < Sub nw (pa_LastSeen e) \/
      (size (gcLocked nw p) = pendingMax /\
       forall k' e', r !! k' = Some e' -> pa_LastSeen e <= pa_LastSeen e'))).
Proof.
  intros Horder Hkeys Hsize. unfold make_room. cbv zeta. set (g := gcLocked nw p).
  assert (size g <= pendingMax)%nat as Hg.
  { etransitivity; [|exact Hsize]. apply map_subseteq_size, map_filter_subseteq. }
  assert (forall k e, g !! k = Some e -> p !! k = Some e) as Hsub by (by intros k e [? _]%gcLocked_lookup).
  assert (forall k e, p !! k = Some e ->
            g !! k = Some e \/ (g !! k = None /\ pendingTTL < Sub nw (pa_LastSeen e))) as Hgone.
  { intros k e He. destruct (g !! k) as [e'|] eqn:E; [left; by rewrite <- He, (Hsub _ _ E)|right].
    split; [done|]. destruct (decide (Sub nw (pa_LastSeen e) <= pendingTTL)); [|lia].
    assert (g !! k = Some e) by (by apply gcLocked_lookup). congruence. }
  destruct (Nat.leb_spec pendingMax (size g)) as [Hfull|Hroom].
  2: { split; [done|]. split; [done|]. intros k e He. destruct (Hgone k e He) as [?|[? ?]]; auto. }
  destruct (oldest_key_spec nw (order g)) as (e1 & Hin & Hmin).
  { intros E. pose proof (Permutation_length (Horder g)) as HL. rewrite E, length_map_to_list in HL.
    unfold pendingMax in *. cbn in HL. lia. }
  { rewrite Horder. apply Forall_forall. intros [k e] Hke%elem_of_map_to_list. cbn. intros ->.
    apply Hsub in Hke. unfold keys_ok in Hkeys. congruence. }
  set (old := oldest_key nw (order g)) in *.
  assert (g !! old = Some e1) as Hold by (apply elem_of_map_to_list; by rewrite <- Horder).
  split. { rewrite map_size_delete_Some by eauto. unfold pendingMax in *. lia. }
  split. { intros k e [_ ?]%lookup_delete_Some. auto. }
  intros k e He. destruct (Hgone k e He) as [Hge|[Hn Hexp]].
  - destruct (decide (k = old)) as [-> |Hko]; [right|left; by rewrite lookup_delete_ne].
    rewrite lookup_delete_eq. split; [done|]. right. split; [lia|].
    intros k' e' [_ He']%lookup_delete_Some. replace e with e1 by congruence.
    apply (Hmin k'). rewrite Horder. by apply elem_of_map_to_list.
  - right. split; [|by left]. apply lookup_delete_None. by right.
Qed.

(** ** Theorems *)

(** the waiting list stays within 32 entries whatever arrives, in any map
    order; a connection attempt is listed with this time and is new exactly when
    its key was not listed; another entry disappears only when it expired, or when
    the list was full of unexpired entries and none was seen less recently. *)
Theorem add_pending_bounded (order : pendingAgents -> list (string * pendingAgent)) (nw : time)
    (pub name addr : string) (p : pendingAgents) :
  (forall q, order q ≡ₚ map_to_list q) -> String.length pub = 32%nat ->
  (size p <= pendingMax)%nat -> keys_ok p ->
  let '(fresh, p') := add_pending order nw pub name addr p in
  (size p' <= pendingMax)%nat /\ keys_ok p' /\ fresh = is_nil (p !! EncodeKey pub) /\
  (exists e, p' !! EncodeKey pub = Some e /\ pa_LastSeen e = nw /\ pa_RemoteAddr e = addr) /\
  forall k e, k <> EncodeKey pub -> p !! k = Some e ->
    p' !! k = Some e \/
    (p' !! k = None /\
     (pendingTTL < Sub nw (pa_LastSeen e) \/
      (size (gcLocked nw p) = pendingMax /\
       forall k' e', k' <> EncodeKey pub -> p' !! k' = Some e' -> pa_LastSeen e <= pa_LastSeen e'))).
Proof.
  intros Horder Hlen Hsize Hkeys. unfold add_pending. pose proof (EncodeKey_nonempty pub Hlen) as Hne.
  set (key := EncodeKey pub) in *. unfold keys_ok in *.
  destruct (p !! key) as [e0|] eqn:Ekey.
  - split. { rewrite map_size_insert_Some by eauto. done. }
    split. { by rewrite lookup_insert_ne. }
    split; [done|]. split. { rewrite lookup_insert_eq. by eexists. }
    intros k e Hk He. left. by rewrite lookup_insert_ne.
  - destruct (make_room_spec order nw p Horder Hkeys Hsize) as (Hr & Hsub & Hgone).
    set (r := make_room order nw p) in *.
    assert (forall k, p !! k = None -> r !! k = None) as Hnone.
    { intros k Hk. destruct (r !! k) eqn:E; [|done]. apply Hsub in E. congruence. }
    split. { rewrite map_size_insert_None by auto. lia. }
    split. { rewrite lookup_insert_ne by done. auto. }
    split; [done|]. split. { rewrite lookup_insert_eq. by eexists. }
    intros k e Hk He. rewrite lookup_insert_ne by done.
    destruct (Hgone k e He) as [?|[? [?|[? Hmin]]]]; auto.
    right. split; [done|]. right. split; [done|]. intros k' e' Hk' He'.
    rewrite lookup_insert_ne in He' by done. eauto.
Qed.

Lemma add_pending_bounded_witness :
  let pub := "0123456789abcdef0123456789abcdef" in
  exists p', add_pending map_to_list 5 pub "attic" "10.0.0.7" ∅ = (true, p') /\
    (size p' <= pendingMax)%nat /\ exists e, p' !! EncodeKey pub = Some e /\ pa_LastSeen e = 5.
Proof.
  intros pub.
  pose proof (add_pending_bounded map_to_list 5 pub "attic" "10.0.0.7" ∅
                (fun q => reflexivity _) eq_refl (Nat.le_0_l _) eq_refl) as H.
  destruct (add_pending map_to_list 5 pub "attic" "10.0.0.7" ∅) as [fresh p'].
  destruct H as (Hs & _ & -> & (e & He & Ht & _) & _). exists p'. eauto 8.
Defined.

(** *** The stored allow-list reads back *)

Definition ascii_agent (a : AuthorizedAgent) : Prop :=
  all_ascii (a_Label a) = true /\ all_ascii (a_PubKey a) = true.
Definition agent_json (a : AuthorizedAgent) : json :=
  JObj [("label", JStr (a_Label a)); ("pubkey", JStr (a_PubKey a))].

Lemma agent_text a : ascii_agent a -> value_text 4 (marshal_agent a) (agent_json a).
Proof.
  intros [Hl Hk]. apply closed_value_text.
  apply (closed_text_object 1 [("label", (marshal_string (a_Label a), JStr (a_Label a)));
                               ("pubkey", (marshal_string (a_PubKey a), JStr (a_PubKey a)))]); [done|].
  repeat (apply Forall_cons; split; [split; [reflexivity|by apply value_text_string]|]). by apply Forall_nil.
Qed.

Lemma ParseAuthorizedAgents_marshal l :
  Forall ascii_agent l -> Z.of_nat (length l) < 9000 -> ParseAuthorizedAgents (marshal_agents l) = l.
Proof.
  intros Hl Hlen. unfold ParseAuthorizedAgents.
  set (ps := map (fun a => (marshal_agent a, agent_json a)) l).
  assert (marshal_agents l = marshal_array (map fst ps)) as E.
  { unfold marshal_agents, ps. by rewrite map_map. }
  assert (TrimSpace (marshal_agents l) = marshal_agents l) as -> by (apply TrimSpace_enclosed; by left).
  rewrite E. change (is_empty (marshal_array (map fst ps))) with false. cbv iota.
  assert (length ps = length l) as El by (unfold ps; apply length_map).
  rewrite (parse_closed (S (length ps + 4)) _ (JArr (map snd ps))).
  - unfold ps. rewrite !map_map. cbn [snd]. rewrite <- map_id. apply map_ext. by intros [lb k].
  - apply closed_text_array. unfold ps. apply Forall_map. eapply Forall_impl; [exact Hl|].
    intros a Ha. cbn [fst snd]. split; [by apply agent_text|]. by eexists _, _.
  - unfold marshal_array. rewrite !str_length_app.
    pose proof (length_join_ge 2 (map fst ps)) as HJ. rewrite length_map, El in HJ.
    change (String.length "[") with 1%nat. change (String.length "]") with 1%nat.
    assert (Forall (fun t => 2 <= String.length t)%nat (map fst ps)) as HF.
    { unfold ps. rewrite map_map. apply Forall_map, Forall_true. intros a. cbn [fst].
      unfold marshal_agent, marshal_object. rewrite !str_length_app.
      change (String.length "{") with 1%nat. change (String.length "}") with 1%nat. lia. }
    specialize (HJ HF). lia.
  - unfold maxNestingDepth. lia.
Qed.

Lemma allow_list_stored l m :
  Forall ascii_agent l -> Z.of_nat (length l) < 9000 ->
  allow_list (<[KeyAgentAuthorized := marshal_agents l]> m) = l.
Proof. intros Hl Hn. unfold allow_list, setting. rewrite lookup_insert_eq. by apply ParseAuthorizedAgents_marshal. Qed.

Lemma settings_or_nil_ok w : no_faults w ->
  settings_or_nil w = (Ok (settings (w_db w)), mkWorld (w_db w) (w_now w) (tail (w_faults w))).
Proof. intros H. unfold settings_or_nil, try, GetSettings, mbind, M_bind. by rewrite query_ok. Qed.

Definition authorize_body (label pubkey : string) : option json :=
  Some (JObj [("Label", JStr label); ("PubKey", JStr pubkey)]).
Definition revoke_body (pubkey : string) : option json := Some (JObj [("PubKey", JStr pubkey)]).

Lemma put_agent_ascii label pubkey l :
  all_ascii label = true -> all_ascii pubkey = true -> Forall ascii_agent l ->
  Forall ascii_agent (put_agent label pubkey l).
Proof.
  intros H1 H2 Hl. unfold put_agent. destruct (existsb _ _).
  - apply Forall_map. eapply Forall_impl; [exact Hl|]. intros a Ha. cbn. destruct (_ =? _)%string; [|done].
    split; [done|apply Ha].
  - apply Forall_app. split; [done|]. apply Forall_singleton. done.
Qed.

Lemma put_agent_length label pubkey l : (length (put_agent label pubkey l) <= S (length l))%nat.
Proof. unfold put_agent. destruct (existsb _ _); rewrite ?length_map, ?length_app; cbn; lia. Qed.

(** *** The two handlers *)

(** the allow-list handlers edit the stored list and nothing else: authorising
    relabels the entries with this key text or appends one, and takes the key off
    the waiting list; revoking removes exactly the entries with the text; the list
    read back by the next handshake is the edited one.  An invalid key is refused
    and changes nothing. *)
Theorem allow_list_handlers (label pubkey : string) (s : server) (w : World) :
  no_faults w -> all_ascii label = true -> all_ascii pubkey = true ->
  Forall ascii_agent (allow_list (settings (w_db w))) ->
  Z.of_nat (length (allow_list (settings (w_db w)))) < 8000 ->
  let old := allow_list (settings (w_db w)) in
  (DecodeKey pubkey = None ->
     handleAuthorizeAgent (authorize_body label pubkey) s w = (Ok (BadRequest "invalid public key", s), w)) /\
  (is_Some (DecodeKey pubkey) -> exists s' w',
     handleAuthorizeAgent (authorize_body label pubkey) s w = (Ok (OK, s'), w') /\
     allow_list (settings (w_db w')) = put_agent label pubkey old /\
     sv_pending s' !! pubkey = None /\ readings (w_db w') = readings (w_db w)) /\
  (exists w', handleRevokeAgent (revoke_body pubkey) s w = (Ok (OK, s), w') /\
     allow_list (settings (w_db w')) = drop_agent pubkey old).
Proof.
  intros Hw Hlabel Hkey Hascii Hlen old. split; [|split].
  - intros Hd. unfold handleAuthorizeAgent.
    change (body_field "Label" (authorize_body label pubkey)) with (Some label).
    change (body_field "PubKey" (authorize_body label pubkey)) with (Some pubkey). cbv beta iota. by rewrite Hd.
  - intros [k Hd]. unfold handleAuthorizeAgent.
    change (body_field "Label" (authorize_body label pubkey)) with (Some label).
    change (body_field "PubKey" (authorize_body label pubkey)) with (Some pubkey). cbv beta iota. rewrite Hd.
    unfold mbind at 1, M_bind at 1. rewrite settings_or_nil_ok by done. cbv beta iota.
    unfold mbind, M_bind, try. rewrite SetSetting_ok by (by apply no_faults_tail). cbn [w_db w_now].
    eexists _, _. split; [reflexivity|]. cbn [w_db settings set_settings readings sv_pending with_pending].
    rewrite allow_list_stored.
    + split; [done|]. split; [apply lookup_delete_eq|done].
    + by apply put_agent_ascii.
    + pose proof (put_agent_length label pubkey old). unfold old in *. lia.
  - unfold handleRevokeAgent. change (revoke_key (revoke_body pubkey)) with (Some pubkey). cbv beta iota.
    unfold mbind at 1, M_bind at 1. rewrite settings_or_nil_ok by done. cbv beta iota.
    unfold mbind, M_bind, try. rewrite SetSetting_ok by (by apply no_faults_tail). cbn [w_db w_now].
    eexists. split; [reflexivity|]. cbn [w_db settings set_settings]. rewrite allow_list_stored; [done| |].
    + apply Forall_forall. intros a Ha. rewrite Forall_forall in Hascii. apply Hascii.
      apply list_elem_of_In, filter_In in Ha as [? _]. by apply list_elem_of_In.
    + pose proof (filter_length_le (fun a => negb (a_PubKey a =? pubkey)%string)
        (allow_list (settings (w_db w)))). unfold drop_agent. lia.
Qed.

Definition sample_key : string := EncodeKey "0123456789abcdef0123456789abcdef".
Definition idle_server : server := mkServer ∅ newBroker.

Lemma allow_list_handlers_witness :
  let w := mkWorld empty_DB 0 [] in
  exists s' w',
    handleAuthorizeAgent (authorize_body "attic" sample_key) idle_server w = (Ok (OK, s'), w') /\
    allow_list (settings (w_db w')) = put_agent "attic" sample_key (allow_list (settings (w_db w))) /\
    sv_pending s' !! sample_key = None /\ readings (w_db w') = readings (w_db w).
Proof.
  intros w.
  apply (allow_list_handlers "attic" sample_key idle_server w);
    [apply Forall_nil; exact I|reflexivity|reflexivity|apply Forall_nil; exact I|reflexivity|].
  vm_compute. eexists. reflexivity.
Defined.

(** the error of reading the settings is discarded: when that read fails and
    the write succeeds, authorising one agent answers success and leaves it alone
    on the list, every other agent losing its access. *)
Theorem authorize_forgets_on_read_error (label pubkey : string) (s : server) (d : DB) (nw : time)
    (fs : list bool) :
  all_ascii label = true -> all_ascii pubkey = true -> is_Some (DecodeKey pubkey) ->
  exists s' w',
    handleAuthorizeAgent (authorize_body label pubkey) s (mkWorld d nw (true :: false :: fs)) =
    (Ok (OK, s'), w') /\
    allow_list (settings (w_db w')) = [mkAgent label pubkey].
Proof.
  intros Hl Hk [k Hd]. unfold handleAuthorizeAgent.
  change (body_field "Label" (authorize_body label pubkey)) with (Some label).
  change (body_field "PubKey" (authorize_body label pubkey)) with (Some pubkey). cbv beta iota. rewrite Hd.
  eexists _, _. split; [reflexivity|]. cbn [w_db set_settings settings].
  apply allow_list_stored; [|done]. apply Forall_singleton. done.
Qed.

Lemma authorize_forgets_on_read_error_witness :
  exists s' w',
    handleAuthorizeAgent (authorize_body "attic" sample_key) idle_server
      (mkWorld empty_DB 0 [true; false]) = (Ok (OK, s'), w') /\
    allow_list (settings (w_db w')) = [mkAgent "attic" sample_key].
Proof.
  apply (authorize_forgets_on_read_error "attic" sample_key idle_server empty_DB 0 []);
    [reflexivity|reflexivity|]. vm_compute. eexists. reflexivity.
Defined.

#[local] Arguments decode_init : simpl never.
#[local] Arguments DecodeKey : simpl never.
#[local] Arguments EncodeKey : simpl never.
#[local] Arguments String.append : simpl never.
#[local] Arguments label_of : simpl never.
#[local] Arguments add_pending : simpl never.

Section SessionTheorems.
Context {C : Crypto} (getenv : string -> string) (ParseFloat : string -> float64 * bool)
  (Parse : string -> option time) (order : pendingAgents -> list (string * pendingAgent)) (addr : string).

(** A failed read of the settings lists nobody. *)
Lemma authorized_unlisted pub s w :
  label_of (allow_list (settings (w_db w))) pub = None ->
  exists w', authorized pub s w = (Ok (None, s), w') /\ w_db w' = w_db w /\ w_now w' = w_now w.
Proof.
  intros Hl. unfold authorized, settings_or_nil, try, GetSettings, mbind, M_bind, query, statement.
  destruct (w_faults w) as [|[] fs]; cbn; rewrite ?Hl; by eexists.
Qed.

(** The server's state after an attempt of an unlisted key. *)
Definition unlisted (nw : time) (cpub name : string) (s : server) : server :=
  let '(fresh, p) := add_pending order nw cpub name addr (sv_pending s) in
  let s := with_pending p s in if fresh then publish_agent s else s.

Lemma serve_unlisted spriv e raw rest init cpub s w :
  e_in e = Some raw :: rest -> decode_init raw = Some init ->
  DecodeKey (ClientStaticPub init) = Some cpub ->
  label_of (allow_list (settings (w_db w))) cpub = None ->
  exists w', serve order addr (ServerHandshake spriv) e s w =
    (Ok (Err "agent key not authorized", unlisted (w_now w) cpub (hi_Label init) s), w') /\
    w_db w' = w_db w.
Proof.
  intros Hin Hi Hk Hl. unfold_run. cbn. rewrite Hin. cbn. rewrite Hi. cbn. rewrite Hk. cbn.
  destruct (authorized_unlisted cpub s w Hl) as (w' & Ha & Hd & Hn).
  unfold mbind, M_bind. rewrite Ha. cbv beta iota. cbn.
  unfold onUnauthorized, unlisted, mbind, M_bind, now. cbn. exists w'. rewrite Hn.
  by destruct (add_pending order (w_now w) cpub (hi_Label init) addr (sv_pending s)) as [[] p].
Qed.

Lemma unlisted_pending nw cpub name s :
  sv_pending (unlisted nw cpub name s) = (add_pending order nw cpub name addr (sv_pending s)).2.
Proof. unfold unlisted. by destruct (add_pending order nw cpub name addr (sv_pending s)) as [[] p]. Qed.
End SessionTheorems.

(** Making room only removes entries. *)
Lemma make_room_sub order nw p k e : make_room order nw p !! k = Some e -> p !! k = Some e.
Proof.
  unfold make_room. case_match_goal; [intros [_ H]%lookup_delete_Some; revert H|];
    intros [? _]%gcLocked_lookup; done.
Qed.

(** C8: an agent whose key is not on the allow-list reaches nothing: whatever it
    sends later and whether or not the settings can be read, the connection is
    closed, no message is sent and the database is unchanged.  Its key waits for
    approval under its text, with the name it gave (an attempt without a name
    keeps the one already listed), its address, the time of this attempt and of
    the first; no other entry appears or changes. *)
Theorem unlisted_agent_reaches_nothing {C : Crypto} (getenv : string -> string)
    (ParseFloat : string -> float64 * bool) (Parse : string -> option time)
    (order : pendingAgents -> list (string * pendingAgent)) (addr : string)
    (ac : agentCrypto) (e : env) (raw : string) (rest : list (option string)) (init : hsInit) (cpub : string)
    (msgs : list (option Message)) (s : server) (w : World) :
  e_in e = Some raw :: rest -> decode_init raw = Some init ->
  DecodeKey (ClientStaticPub init) = Some cpub ->
  label_of (allow_list (settings (w_db w))) cpub = None ->
  exists s' w' entry,
    handleAgentWS getenv ParseFloat Parse order addr (Some ac) e msgs s w = (Ok (Closed, [], s'), w') /\
    w_db w' = w_db w /\
    sv_pending s' !! EncodeKey cpub = Some entry /\
    entry = (match sv_pending s !! EncodeKey cpub with
             | None => mkPending (EncodeKey cpub) (Fingerprint cpub) (hi_Label init) addr (w_now w) (w_now w)
             | Some old =>
                 mkPending (pa_PubKey old) (pa_Fingerprint old)
                   (if (hi_Label init =? "")%string then pa_Name old else hi_Label init)
                   addr (pa_FirstSeen old) (w_now w)
             end) /\
    forall k x, k <> EncodeKey cpub -> sv_pending s' !! k = Some x -> sv_pending s !! k = Some x.
Proof.
  intros Hin Hi Hk Hl. unfold handleAgentWS, mbind, M_bind.
  destruct (serve_unlisted order addr (ac_priv ac) e raw rest init cpub s w) as (w' & Hs & Hd); [done..|].
  rewrite Hs. eexists _, _, _. split; [reflexivity|]. split; [done|].
  rewrite unlisted_pending. split; [|split; [reflexivity|]]; unfold add_pending;
    destruct (sv_pending s !! EncodeKey cpub) as [old|] eqn:E; cbn [snd]; rewrite ?lookup_insert_eq; try done.
  all: intros k x Hne; rewrite lookup_insert_ne by done; first [done | apply make_room_sub].
Qed.

Lemma unlisted_agent_reaches_nothing_witness :
  exists s' w' entry,
    handleAgentWS (C := toy_Crypto) (fun _ => "") (fun _ => (f0, true)) (fun _ => None) map_to_list "10.0.0.7"
      (Some (mkCrypto "" "server" [] "")) toy_env [] idle_server (mkWorld empty_DB 7 [true]) =
      (Ok (Closed, [], s'), w') /\ w_db w' = empty_DB /\
    sv_pending s' !! EncodeKey (toy_base "client") = Some entry /\
    entry = mkPending (EncodeKey (toy_base "client")) (Fingerprint (toy_base "client")) "agent" "10.0.0.7" 7 7 /\
    forall k x, k <> EncodeKey (toy_base "client") -> sv_pending s' !! k = Some x -> (∅ : pendingAgents) !! k = Some x.
Proof.
  set (init := mkInit (EncodeKey (toy_base "client")) (EncodeKey (toy_base "e1")) (EncodeToString nonce24)
    (EncodeToString (@box_seal toy_Crypto (toy_base "e1" ++ ctxTag) nonce24 (toy_base "server") "client")) "agent").
  apply (unlisted_agent_reaches_nothing (C := toy_Crypto) (fun _ => "") (fun _ => (f0, true)) (fun _ => None)
           map_to_list "10.0.0.7" (mkCrypto "" "server" [] "") toy_env (hd "" toy_frames) [] init
           (toy_base "client") [] idle_server (mkWorld empty_DB 7 [true]));
    [vm_compute; reflexivity|vm_compute; reflexivity|vm_compute; reflexivity|reflexivity].
Defined.

(** ** The identity survives restarts *)

Section IdentityLemmas.
Context {C : Crypto} {L : CryptoLaws C}.

Definition put_setting (k v : string) (d : DB) : DB := set_settings (<[k := v]> (settings d)) d.

Lemma setting_put k k' v d :
  setting (settings (put_setting k v d)) k' = (if decide (k = k') then v else setting (settings d) k').
Proof.
  unfold setting, put_setting. cbn. destruct (decide (k = k')) as [-> |Hne].
  - by rewrite lookup_insert_eq.
  - by rewrite lookup_insert_ne.
Qed.

Lemma ignore_SetSetting k v w : no_faults w ->
  ignore (SetSetting k v) w = (Ok tt, mkWorld (put_setting k v (w_db w)) (w_now w) (tail (w_faults w))).
Proof. intros H. unfold ignore. by rewrite SetSetting_ok. Qed.

(** A state from which [ensureAgentCrypto] only reads: its keys and certificate
    are stored and decode to these. *)
Definition has_identity (pub priv certPEM keyPEM : string) (d : DB) : Prop :=
  let m := settings d in
  setting m KeyAgentServerPub <> "" /\ setting m KeyAgentServerPriv <> "" /\
  DecodeKey (setting m KeyAgentServerPub) = Some pub /\
  DecodeKey (setting m KeyAgentServerPriv) = Some priv /\
  certPEM <> "" /\ keyPEM <> "" /\
  setting m KeyAgentTLSCert = certPEM /\ setting m KeyAgentTLSKey = keyPEM.

Lemma is_empty_false s : s <> "" -> is_empty s = false.
Proof. intros H. by apply String.eqb_neq. Qed.

Lemma server_keys_stored gen w :
  no_faults w -> (forall p, gen = Some p -> String.length p = 32%nat) ->
  forall pub priv w', server_keys gen (settings (w_db w)) w = (Ok (pub, priv), w') ->
  no_faults w' /\ w_now w' = w_now w /\
  setting (settings (w_db w')) KeyAgentServerPub <> "" /\
  setting (settings (w_db w')) KeyAgentServerPriv <> "" /\
  DecodeKey (setting (settings (w_db w')) KeyAgentServerPub) = Some pub /\
  DecodeKey (setting (settings (w_db w')) KeyAgentServerPriv) = Some priv /\
  (forall k, k <> KeyAgentServerPub -> k <> KeyAgentServerPriv ->
     setting (settings (w_db w')) k = setting (settings (w_db w)) k).
Proof.
  intros Hw Hgen pub priv w'. unfold server_keys. destruct (_ || _) eqn:E.
  - destruct gen as [p|]; [|done]. specialize (Hgen p eq_refl).
    unfold lift, mbind, M_bind, mret, M_ret. rewrite ignore_SetSetting by done.
    rewrite ignore_SetSetting by (by apply no_faults_tail). cbn [w_db w_now w_faults].
    intros [= <- <- <-]. cbn [w_db w_now w_faults]. split; [by apply (no_faults_tail _ _ (mkWorld (w_db w) (w_now w) (tail (w_faults w)))), no_faults_tail|].
    split; [done|]. rewrite !setting_put. vm_compute (decide (KeyAgentServerPriv = KeyAgentServerPub)).
    vm_compute (decide (KeyAgentServerPub = KeyAgentServerPub)).
    vm_compute (decide (KeyAgentServerPriv = KeyAgentServerPriv)). cbv iota.
    rewrite !DecodeKey_EncodeKey by (done || apply x25519_length).
    split; [by apply EncodeKey_nonempty, x25519_length|]. split; [by apply EncodeKey_nonempty|].
    split; [done|]. split; [done|]. intros k H1 H2. rewrite !setting_put.
    by rewrite !decide_False by congruence.
  - apply orb_false_iff in E as [E1%String.eqb_neq E2%String.eqb_neq].
    destruct (DecodeKey (setting (settings (w_db w)) KeyAgentServerPub)) as [a|] eqn:Ea; [|done].
    destruct (DecodeKey (setting (settings (w_db w)) KeyAgentServerPriv)) as [b|] eqn:Eb; [|done].
    intros [= <- <- <-]. done.
Qed.

Lemma server_cert_stored cert m w :
  no_faults w -> (forall c k, cert = Some (c, k) -> c <> "" /\ k <> "") ->
  setting (settings (w_db w)) KeyAgentTLSCert = setting m KeyAgentTLSCert ->
  setting (settings (w_db w)) KeyAgentTLSKey = setting m KeyAgentTLSKey ->
  forall c k w', server_cert cert m w = (Ok (c, k), w') ->
  no_faults w' /\ c <> "" /\ k <> "" /\
  setting (settings (w_db w')) KeyAgentTLSCert = c /\ setting (settings (w_db w')) KeyAgentTLSKey = k /\
  (forall x, x <> KeyAgentTLSCert -> x <> KeyAgentTLSKey ->
     setting (settings (w_db w')) x = setting (settings (w_db w)) x).
Proof.
  intros Hw Hcert Hc Hk c k w'. unfold server_cert. destruct (_ || _) eqn:E.
  - destruct cert as [[c0 k0]|]; [|done]. destruct (Hcert c0 k0 eq_refl) as [Hc0 Hk0].
    unfold lift, mbind, M_bind, mret, M_ret. rewrite ignore_SetSetting by done.
    rewrite ignore_SetSetting by (by apply no_faults_tail). cbn [w_db w_now w_faults].
    intros [= <- <- <-]. cbn [w_db w_now w_faults].
    split; [by apply (no_faults_tail _ _ (mkWorld (w_db w) (w_now w) (tail (w_faults w)))), no_faults_tail|].
    split; [done|]. split; [done|]. rewrite !setting_put.
    vm_compute (decide (KeyAgentTLSKey = KeyAgentTLSCert)).
    vm_compute (decide (KeyAgentTLSCert = KeyAgentTLSCert)).
    vm_compute (decide (KeyAgentTLSKey = KeyAgentTLSKey)). cbv iota.
    split; [done|]. split; [done|]. intros x H1 H2. rewrite !setting_put.
    by rewrite !decide_False by congruence.
  - apply orb_false_iff in E as [E1%String.eqb_neq E2%String.eqb_neq].
    intros [= <- <- <-]. by rewrite Hc, Hk.
Qed.

(** With a stored identity nothing is generated and nothing is written. *)
Lemma ensureAgentCrypto_reads gen cert X509KeyPair pub priv c k w :
  no_faults w -> has_identity pub priv c k (w_db w) ->
  ensureAgentCrypto gen cert X509KeyPair w =
  (match X509KeyPair c k with
   | Some certs => Ok (mkCrypto pub priv certs (match certs with x :: _ => hexFP (Sum256 x) | [] => "" end))
   | None => Err "tls"
   end, mkWorld (w_db w) (w_now w) (tail (w_faults w))).
Proof.
  intros Hw (H1 & H2 & H3 & H4 & H5 & H6 & H7 & H8). unfold ensureAgentCrypto, GetSettings, mbind, M_bind.
  rewrite query_ok by done. unfold server_keys, server_cert.
  rewrite (is_empty_false _ H1), (is_empty_false _ H2), H7, H8, (is_empty_false _ H5), (is_empty_false _ H6).
  cbn [orb]. rewrite H3, H4. cbn. unfold lift. by destruct (X509KeyPair c k).
Qed.
End IdentityLemmas.

Definition toy_private : string := "0123456789ABCDEF0123456789ABCDEF".

(** the server's identity survives restarts: once a start has succeeded, every
    later start, whatever randomness or certificate it could generate, returns the
    same keys and certificate and writes nothing, so the key agents have pinned
    stays valid. *)
Theorem ensureAgentCrypto_stable {C : Crypto} {L : CryptoLaws C}
    (gen gen' : option string) (cert cert' : option (string * string))
    (X509KeyPair : string -> string -> option (list string)) (ac : agentCrypto) (w w1 w2 : World) :
  no_faults w -> (forall p, gen = Some p -> String.length p = 32%nat) ->
  (forall c k, cert = Some (c, k) -> c <> "" /\ k <> "") ->
  ensureAgentCrypto gen cert X509KeyPair w = (Ok ac, w1) ->
  no_faults w2 -> w_db w2 = w_db w1 ->
  exists w3, ensureAgentCrypto gen' cert' X509KeyPair w2 = (Ok ac, w3) /\ w_db w3 = w_db w1.
Proof.
  intros Hw Hgen Hcert E Hw2 Hdb. unfold ensureAgentCrypto in E. unfold GetSettings, mbind, M_bind in E.
  rewrite query_ok in E by done.
  destruct (server_keys gen (settings (w_db w)) _) as [[[pub priv]|] wk] eqn:Ek; [|done].
  pose proof (server_keys_stored gen _ (no_faults_tail (w_db w) (w_now w) w Hw) Hgen _ _ _ Ek)
    as (Hk & _ & P1 & P2 & P3 & P4 & Pother). cbn [w_db] in Pother.
  destruct (server_cert cert (settings (w_db w)) wk) as [[[c k]|] wc] eqn:Ec; [|done].
  pose proof (server_cert_stored cert _ wk Hk Hcert (Pother KeyAgentTLSCert ltac:(done) ltac:(done))
                (Pother KeyAgentTLSKey ltac:(done) ltac:(done)) _ _ _ Ec) as (Hc & C1 & C2 & C3 & C4 & Cother).
  destruct (X509KeyPair c k) as [certs|] eqn:Ex; cbn in E; [|done]. injection E as <- <-.
  assert (has_identity pub priv c k (w_db w2)) as Hid.
  { rewrite Hdb. unfold has_identity. cbv zeta.
    rewrite (Cother KeyAgentServerPub), (Cother KeyAgentServerPriv) by done. done. }
  rewrite (ensureAgentCrypto_reads gen' cert' X509KeyPair pub priv c k w2 Hw2 Hid), Ex.
  eexists. split; [reflexivity|]. by rewrite <- Hdb.
Qed.

Lemma ensureAgentCrypto_stable_witness :
  let w := mkWorld empty_DB 0 [] in
  let first := ensureAgentCrypto (C := toy_Crypto) (Some toy_private) (Some ("cert", "key"))
                 (fun c k => Some [c]) w in
  exists ac, first.1 = Ok ac /\
    exists w3, ensureAgentCrypto (C := toy_Crypto) None None (fun c k => Some [c])
                 (mkWorld (w_db first.2) 5 []) = (Ok ac, w3) /\ w_db w3 = w_db first.2.
Proof.
  intros w first.
  exists (mkCrypto (toy_base toy_private) toy_private ["cert"] (hexFP (Sum256 "cert"))).
  assert (first = (Ok (mkCrypto (toy_base toy_private) toy_private ["cert"] (hexFP (Sum256 "cert"))), first.2))
    as E by reflexivity.
  split; [by rewrite E|].
  eapply (ensureAgentCrypto_stable (C := toy_Crypto) (L := toy_CryptoLaws) (Some toy_private) None
            (Some ("cert", "key")) None (fun c k => Some [c]) _ w first.2);
    [apply Forall_nil; exact I|intros p [= <-]; reflexivity|intros c k [= <- <-]; split; discriminate
    |exact E|apply Forall_nil; exact I|reflexivity].
Defined.
