(* ===== verification/Agent.v ===== *)
(** * The remote capture agent ([cmd/capture/agent.go])

    Key resolution with trust on first use, the inventory announced to the
    server, the reconcile loop driven by pushed configuration, and the sink that
    sends readings over the session instead of storing them.  The file system is
    a map of texts; the HTTP request for the server's key is a parameter. *)

From S2P Require Import Prelude Float64 Model Calendar Json Encoding Ert Config Store Database Gate.
From S2P Require Import Capture AgentWire Broker ApiAgent.

(** ** Keys *)

(** Files by path; a write that fails leaves the map as it was. *)
Record host := mkHost { h_files : gmap string string; h_writable : bool }.
Definition write_file (path text : string) (h : host) : host :=
  if h_writable h then mkHost (<[path := text]> (h_files h)) (h_writable h) else h.
Definition env_or (getenv : string -> string) (k def : string) : string :=
  if is_empty (getenv k) then def else getenv k.
Definition newline : string := String (chr 10) EmptyString.

(** The address of the server's key on the server of the socket, and the key in
    the answer: a status and a body that decodes or not. *)
Record url := mkUrl { u_scheme : string; u_host : string; u_path : string; u_query : string }.
Definition serverkey_url (u : url) : url :=
  mkUrl (if (u_scheme u =? "wss")%string then "https" else if (u_scheme u =? "ws")%string then "http" else u_scheme u)
    (u_host u) "/api/agent/serverkey" "".
Definition served_key (body : json) : option string :=
  match body with
  | JObj ms => k ← get_str ["server_key"] "server_key" ms; DecodeKey k
  | JNull => DecodeKey ""
  | _ => None
  end.
Definition fetchServerKey (wsURL : option url) (get : url -> option (Z * option json)) : option string :=
  u ← wsURL;
  '(status, body) ← get (serverkey_url u);
  if status =? 200 then body ≫= served_key else None.

Section Keys.
Context {C : Crypto} (getenv : string -> string).

(** [AGENT_SERVER_KEY], then the pinned file, then [fetch] (which is pinned). *)
Definition resolveServerKey (fetch : option string) (h : host) : option string * host :=
  if negb (is_empty (getenv "AGENT_SERVER_KEY")) then (DecodeKey (getenv "AGENT_SERVER_KEY"), h)
  else
    let path := env_or getenv "AGENT_SERVER_KEY_FILE" "/data/server.key" in
    match (b ← h_files h !! path; DecodeKey (TrimSpace b)) with
    | Some k => (Some k, h)
    | None => match fetch with
              | None => (None, h)
              | Some k => (Some k, write_file path (EncodeKey k ++ newline) h)
              end
    end.

(** [AGENT_PRIVATE_KEY] (an invalid one is fatal: [None]), then the key file, then
    a new key [gen], which is persisted. *)
Definition loadAgentKey (gen : option string) (h : host) : option (string * string) * host :=
  if negb (is_empty (getenv "AGENT_PRIVATE_KEY")) then
    (p ← DecodeKey (getenv "AGENT_PRIVATE_KEY"); Some (PublicFromPrivate p, p), h)
  else
    let path := env_or getenv "AGENT_KEY_FILE" "/data/agent.key" in
    match (b ← h_files h !! path; DecodeKey (TrimSpace b)) with
    | Some p => (Some (PublicFromPrivate p, p), h)
    | None => match gen with
              | None => (None, h)
              | Some p => (Some (x25519_base p, p), write_file path (EncodeKey p ++ newline) h)
              end
    end.

(** The certificate check of [agentHTTPClient] when a fingerprint is pinned. *)
Definition pin_matches (pin der : string) : bool :=
  EqualFold (str_take 16 (RawEncodeToString (Sum256 der))) pin || EqualFold (hexFP (Sum256 der)) pin.
Definition verify_peer (rawCerts : list string) : bool :=
  let pin := getenv "AGENT_SERVER_FINGERPRINT" in
  is_empty pin || existsb (pin_matches pin) rawCerts.
End Keys.

(** ** The sink over the session *)

(** What was sent, and whether the next writes succeed. *)
Record wsSink := mkWsSink { ws_sent : list Message; ws_writes : list bool }.
Definition send (m : Message) (s : wsSink) : bool * wsSink :=
  let ok := hd true (ws_writes s) in
  (ok, mkWsSink (if ok then ws_sent s ++ [m] else ws_sent s) (tail (ws_writes s)))%list.
Definition reading_message (r : Reading) (raw : string) : Message :=
  mkMessage "reading" "" [] (Some (mkReadingMsg r raw)) None [].
Definition heartbeat_message (source : string) (lastTS : time) (total : Z) : Message :=
  mkMessage "heartbeat" "" [] None (Some (mkHeartbeatMsg source (RFC3339Nano lastTS) total)) [].

Definition sent_readings (l : list Message) : list (Reading * string) :=
  omap (fun m => option_map (fun r => (rm_Reading r, rm_Raw r)) (msg_Reading m)) l.

#[export] Instance ws_Sink : Sink wsSink := {
  sink_insert r raw s := send (reading_message r raw) s;
  sink_heartbeat src ts n s := snd (send (heartbeat_message src ts n) s);
  sink_accepted s := sent_readings (ws_sent s)
}.

#[export] Instance ws_SinkSpec : SinkSpec wsSink.
Proof.
  split.
  - intros r raw s. cbn. unfold send. destruct (hd true (ws_writes s)); cbn; [|by rewrite app_nil_r].
    unfold sent_readings. by rewrite omap_app.
  - intros src ts n s. cbn. unfold send. destruct (hd true (ws_writes s)); cbn; [|done].
    unfold sent_readings. rewrite omap_app. cbn. by rewrite app_nil_r.
Qed.

(** ** The inventory and the reconcile loop *)

Definition namespaced (name : string) (d : sdrDevice) : string := (name ++ "/" ++ source d)%string.
Definition agentInventory (agent : string) (devs : list sdrDevice)
  : gmap string sdrDevice * list DeviceInfo :=
  (fold_left (fun m d => <[namespaced agent d := d]> m) devs ∅,
   map (fun d => mkDeviceInfo (namespaced agent d) (name d) (tuner d)) devs).

Definition sameSources (a b : gmap string sdrDevice) : bool :=
  (size a =? size b)%nat && bool_decide (map_Forall (fun src _ => is_Some (b !! src)) a).

Definition agent_params (dev : sdrDevice) (sc : SourceConfig) : scanParams :=
  mkScanParams (index dev) (sc_Freq sc) (sc_Gain sc) (sc_PPM sc) (AgentWire.sc_MsgType sc) (sc_FilterID sc).
Definition agent_desired (byIndex : gmap string sdrDevice) (cfg : list SourceConfig) : gmap string scanParams :=
  fold_left (fun m sc =>
    match byIndex !! sc_Source sc with
    | Some dev => if sc_Enabled sc then <[sc_Source sc := agent_params dev sc]> m else m
    | None => m
    end) cfg ∅.
Definition reconcileAgent (byIndex : gmap string sdrDevice) (cfg : list SourceConfig)
  (run : gmap string runningDev) : gmap string runningDev :=
  let want := agent_desired byIndex cfg in start_missing want (stop_unwanted want run).

(** ** The session loop *)

(** What the select of [agentSession] receives. *)
Inductive session_event :=
  | Msg (m : Message)
  | RecvErr
  | Ping
  | Pipe (src : string) (b : bool)              (* a dongle's pipeline came up or went down *)
  | Tick (nw : time) (probe : list sdrDevice)   (* the dongles an enumeration would find *)
  | Done.
Inductive session_end := Lost | KeepaliveFailed | DongleSetChanged | Stopped.

Record session := mkAgentSession {
  se_running : gmap string runningDev; se_byIndex : gmap string sdrDevice;
  se_cfg : list SourceConfig; se_lastRescan : time; se_sink : wsSink
}.

Definition on_event (agent : string) (ev : session_event) (s : session) : session_end + session :=
  match ev with
  | Done => inl Stopped
  | RecvErr => inl Lost
  | Msg m =>
      if (msg_Type m =? "config")%string then
        inr (mkAgentSession (reconcileAgent (se_byIndex s) (msg_Config m) (se_running s)) (se_byIndex s)
               (msg_Config m) (se_lastRescan s) (se_sink s))
      else inr s
  | Ping =>
      let '(ok, sink) := send (plain_message "ping") (se_sink s) in
      if ok then inr (mkAgentSession (se_running s) (se_byIndex s) (se_cfg s) (se_lastRescan s) sink)
      else inl KeepaliveFailed
  | Pipe src b =>
      inr (mkAgentSession (alter (fun rd => mkRunning (params rd) b (downStreak rd)) src (se_running s))
             (se_byIndex s) (se_cfg s) (se_lastRescan s) (se_sink s))
  | Tick nw probe =>
      let '(bad, run) := dongleRescanNeeded (se_running s) in
      if negb bad || (Sub nw (se_lastRescan s) <=? 5 * Minute)
      then inr (mkAgentSession run (se_byIndex s) (se_cfg s) (se_lastRescan s) (se_sink s))
      else
        let new := (agentInventory agent probe).1 in
        if sameSources new (se_byIndex s)
        then inr (mkAgentSession (reconcileAgent new (se_cfg s) ∅) new (se_cfg s) nw (se_sink s))
        else inl DongleSetChanged
  end.

Fixpoint session_loop (agent : string) (evs : list session_event) (s : session)
  : option session_end * session :=
  match evs with
  | [] => (None, s)
  | ev :: evs' => match on_event agent ev s with
                  | inl e => (Some e, s)
                  | inr s' => session_loop agent evs' s'
                  end
  end.

(** The start of a session: the hello, then the loop with nothing running. *)
Definition agentSession (agent : string) (probe : list sdrDevice) (evs : list session_event) (sink : wsSink)
  : option session_end * session :=
  let '(byIndex, infos) := agentInventory agent probe in
  let '(ok, sink) := send (mkMessage "hello" agent infos None None []) sink in
  let s := mkAgentSession ∅ byIndex [] zero_time sink in
  if ok then session_loop agent evs s else (Some Lost, s).

(** ** Two sinks in step *)

Section Simulation.
Context {S1 S2 : Type} `{Sink S1} `{Sink S2} (Parse : string -> string -> option time) (nw : time)
  (src : string) (R : S1 -> S2 -> Prop) (good : time -> Prop).

(** The relation is kept by every call whose heartbeat time is good. *)
Record sinks_related : Prop := {
  rel_insert r raw s1 s2 : R s1 s2 ->
    fst (sink_insert r raw s1) = fst (sink_insert r raw s2) /\
    R (snd (sink_insert r raw s1)) (snd (sink_insert r raw s2));
  rel_heartbeat ts n s1 s2 : good ts -> R s1 s2 ->
    R (sink_heartbeat src ts n s1) (sink_heartbeat src ts n s2)
}.

Definition ends_related (x : ingest_end * Z * S1) (y : ingest_end * Z * S2) : Prop :=
  x.1 = y.1 /\ R x.2 y.2.

Lemma ingest_loop_related evs lastTS pkts s1 s2 :
  sinks_related -> good lastTS ->
  (forall r raw, (r, raw) ∈ decoded Parse nw src evs -> good (r_TS r)) ->
  R s1 s2 ->
  ends_related (ingest_loop Parse nw src evs lastTS pkts s1) (ingest_loop Parse nw src evs lastTS pkts s2).
Proof.
  intros [Hins Hhb]. revert lastTS pkts s1 s2.
  induction evs as [|ev evs IH]; intros lastTS pkts s1 s2 Hlast Hgood HR; cbn [ingest_loop]; [done|].
  destruct ev as [text| | |]; cbn [decoded] in Hgood; [|by split; [|apply Hhb]|done|done].
  destruct (is_empty (TrimSpace text)); [by apply IH|].
  destruct (ExtractReading Parse nw (TrimSpace text) src) as [r|]; [|by apply IH].
  destruct (Hins r (TrimSpace text) s1 s2 HR) as [E HR'].
  destruct (sink_insert r (TrimSpace text) s1) as [ok1 s1'], (sink_insert r (TrimSpace text) s2) as [ok2 s2'].
  cbn in E, HR'. subst ok2. destruct ok1; [|done].
  assert (good (r_TS r)) as Hr by (eapply Hgood; left).
  apply IH; [done| |].
  - intros r' raw' Hin. eapply Hgood. by right.
  - destruct (go_rem (pkts + 1) 25 =? 0); [by apply Hhb|done].
Qed.
End Simulation.

(** ** The remote sink and the local database *)

Section Remote.
Context (Parse : string -> option time) (w0 : World).

(** Every write succeeded so far, and the server has reached [w] by handling
    what was sent. *)
Definition in_step (s : wsSink) (w : World) : Prop :=
  Forall (fun b => b = true) (ws_writes s) /\ no_faults w /\ w_now w = w_now w0 /\
  message_loop Parse (map Some (ws_sent s)) w0 = (Ok tt, w).

Lemma message_loop_app l m w w' :
  message_loop Parse (map Some l) w = (Ok tt, w') ->
  message_loop Parse (map Some (l ++ [m])) w = (handle_message Parse m ;; mret tt) w'.
Proof.
  revert w. induction l as [|x l IH]; intros w E; cbn [map message_loop app] in *.
  - injection E as <-. reflexivity.
  - unfold mbind, M_bind in E |- *. destruct (handle_message Parse x w) as [[[]|] w1]; [|done]. by apply IH.
Qed.

Lemma send_in_step m s w w' :
  in_step s w -> handle_message Parse m w = (Ok tt, w') -> no_faults w' -> w_now w' = w_now w ->
  fst (send m s) = true /\ in_step (snd (send m s)) w'.
Proof.
  intros (Hwr & Hf & Hn & Hl) Hm Hf' Hn'. unfold send.
  assert (hd true (ws_writes s) = true) as -> by (by destruct Hwr). split; [done|].
  split; [cbn; by destruct Hwr|]. split; [done|]. split; [congruence|]. cbn [ws_sent snd].
  rewrite (message_loop_app _ _ _ _ Hl). unfold mbind, M_bind. by rewrite Hm.
Qed.

Lemma ignore_any A (m : M A) w : ignore m w = (Ok tt, snd (m w)).
Proof. unfold ignore. by destruct (m w). Qed.

Lemma InsertReading_faultless r raw : faultless (InsertReading r raw).
Proof.
  unfold InsertReading, exec, pg_notify. repeat (apply faultless_bind; [|intros []]); eauto with winnow.
  destruct (negb _); eauto with winnow.
Qed.

Lemma sinks_in_step src :
  sinks_related src in_step (fun t => Parse (RFC3339Nano t) = Some t /\ IsZero t = false).
Proof.
  split.
  - intros r raw s w HR. cbn [sink_insert ws_Sink db_Sink].
    destruct (InsertReading_faultless r raw w ltac:(apply HR)) as [Hf Hn].
    assert (is_ok (fst (InsertReading r raw w)) = true) as Hok.
    { destruct HR as (_ & Hw & _). unfold InsertReading, mbind, M_bind.
      rewrite exec_ok by done. cbv beta iota. rewrite !ignore_any.
      destruct (negb _); unfold mret, M_ret; rewrite ?ignore_any; reflexivity. }
    destruct (send_in_step (reading_message r raw) s w (snd (InsertReading r raw w)) HR) as [E1 E2];
      [apply ignore_any|done|done|].
    destruct (InsertReading r raw w) as [res w']. cbn [fst snd] in *. split; [by rewrite Hok|done].
  - intros ts n s w [Hp Hz] HR. cbn [sink_heartbeat ws_Sink db_Sink].
    destruct (faultless_statement unit
      (fun d t => Ok (tt, set_capture_heartbeat (<[src := mkHeartbeat ts n t]> (capture_heartbeat d)) d)) w
      ltac:(apply HR)) as [Hf Hn].
    rewrite ignore_any. cbn [snd]. eapply send_in_step; [done| |done|done].
    unfold handle_message, heartbeat_message. cbn [msg_Type msg_Heartbeat hm_LastTS hm_Source hm_Total].
    change (("heartbeat" =? "reading")%string) with false. change (("heartbeat" =? "heartbeat")%string) with true.
    cbv iota. unfold mbind, M_bind, now. rewrite Hp. cbn [from_opt]. rewrite Hz. apply ignore_any.
Qed.
End Remote.

(** ** Theorems *)

(** The frames in which messages leave the agent, a nonce each, and what
    [RecvMsg] makes of frames on the server. *)
Definition no_auth : string -> option string := fun _ => None.
Definition sent_as {C : Crypto} (Marshal : Message -> string) (a : Session) (m : Message) (n : string)
  : list string :=
  sent_frames (advance no_auth (SendMsg Marshal a m) (mkEnv [] [] [Some n] [])).2.
Definition sealed {C : Crypto} (Marshal : Message -> string) (a : Session) (l : list (Message * string))
  : list string := flat_map (fun mn => sent_as Marshal a mn.1 mn.2) l.
Definition received {C : Crypto} (Unmarshal : string -> option Message) (b : Session) (frames : list string)
  : list (option Message) :=
  map (fun f => match outcome (advance no_auth (RecvMsg Unmarshal b) (mkEnv [Some f] [] [] [])) with
                | Some (Ok m) => Some m
                | _ => None
                end) frames.

Lemma received_sealed {C : Crypto} {L : CryptoLaws C} Marshal Unmarshal (a b : Session) msgs nonces :
  key a = key b -> length nonces = length msgs -> Forall (fun n => String.length n = 24%nat) nonces ->
  Forall (fun m => Unmarshal (Marshal m) = Some m) msgs ->
  received Unmarshal b (sealed Marshal a (zip msgs nonces)) = map Some msgs.
Proof.
  intros Hkey Hlen Hn. revert nonces Hlen Hn.
  induction msgs as [|m msgs IH]; intros [|n nonces] Hlen Hn Hm; try done.
  apply Forall_cons in Hn as [Hn Hns]. apply Forall_cons in Hm as [Hm Hms].
  destruct (frame_crosses no_auth Marshal Unmarshal a b m n (mkEnv [] [] [Some n] []) [] Hkey Hn Hm)
    as (frame & Hs & Hr); [done..|].
  cbn [zip zip_with sealed flat_map map fst snd].
  unfold sent_as. rewrite Hs. cbn [snd sent_frames omap list_omap app]. unfold received. cbn [map].
  rewrite Hr by done. cbn [outcome fst]. f_equal. apply IH; [|done..]. cbn in Hlen. lia.
Qed.

(** C13: capturing on a remote host stores what capturing locally would.  The
    messages the agent's ingest sends, over a connection that stays up, leave it
    as sealed frames, are opened by the server under the session key both ends
    hold, and handled in order; that leaves the server's database exactly as the
    same ingest run against it directly would, rows, registries, notifications and
    heartbeats included, and both runs end the same way.  No statement of the
    server's database fails (the server drops a reading it cannot store and goes
    on, where a local ingest stops), the times are not zero and survive their text
    form, and the messages survive their JSON. *)
Theorem remote_ingest_equals_local {C : Crypto} {L : CryptoLaws C}
    (Marshal : Message -> string) (Unmarshal : string -> option Message) (agent server : Session)
    (nonces : list string) (ParseTS : string -> string -> option time) (Parse : string -> option time)
    (nw : time) (src : string) (evs : list Capture.event) (w0 : World) :
  no_faults w0 -> key agent = key server ->
  (Parse (RFC3339Nano nw) = Some nw /\ IsZero nw = false) ->
  (forall r raw, (r, raw) ∈ decoded ParseTS nw src evs ->
     Parse (RFC3339Nano (r_TS r)) = Some (r_TS r) /\ IsZero (r_TS r) = false) ->
  let '(e1, n1, sink) := ingest ParseTS nw src evs (mkWsSink [] []) in
  let '(e2, n2, w) := ingest ParseTS nw src evs w0 in
  Forall (fun m => Unmarshal (Marshal m) = Some m) (ws_sent sink) ->
  length nonces = length (ws_sent sink) -> Forall (fun n => String.length n = 24%nat) nonces ->
  e1 = e2 /\ n1 = n2 /\
  message_loop Parse (received Unmarshal server (sealed Marshal agent (zip (ws_sent sink) nonces))) w0 =
  (Ok tt, w).
Proof.
  intros Hw Hkey Hnw Hdec. unfold ingest.
  pose proof (sinks_in_step Parse w0 src) as Hrel.
  assert (in_step Parse w0 (mkWsSink [] []) w0) as H0 by (by repeat split).
  pose proof (rel_heartbeat _ _ _ Hrel nw 0 _ _ Hnw H0) as H1.
  pose proof (ingest_loop_related ParseTS nw src _ _ evs nw 0 _ _ Hrel Hnw Hdec H1) as [E HR].
  destruct (ingest_loop ParseTS nw src evs nw 0 (sink_heartbeat src nw 0 (mkWsSink [] []))) as [[e1 n1] sink].
  destruct (ingest_loop ParseTS nw src evs nw 0 (sink_heartbeat src nw 0 w0)) as [[e2 n2] w].
  cbn in E, HR. injection E as -> ->. destruct HR as (_ & _ & _ & HR).
  intros Hjson Hlen Hn. by rewrite received_sealed.
Qed.

(** A run of three messages: their texts are "h0", "r" and "h1". *)
Definition run_evs : list Capture.event := [Line scm_line; Capture.Closed].
Definition run_sent : list Message :=
  ws_sent (ingest (S := wsSink) no_layout 5 "d0" run_evs (mkWsSink [] [])).2.
Definition run_Marshal (m : Message) : string :=
  match msg_Heartbeat m with Some h => ("h" ++ FormatInt (hm_Total h))%string | None => "r" end.
Definition run_Unmarshal (s : string) : option Message :=
  find (fun m => (run_Marshal m =? s)%string) run_sent.

Lemma remote_ingest_equals_local_witness :
  let w0 := mkWorld empty_DB 9 [] in
  let '(e1, n1, sink) := ingest no_layout 5 "d0" run_evs (mkWsSink [] []) in
  let '(e2, n2, w) := ingest no_layout 5 "d0" run_evs w0 in
  e1 = e2 /\ n1 = n2 /\
  message_loop (fun _ => Some 5)
    (received (C := toy_Crypto) run_Unmarshal toy_session
       (sealed (C := toy_Crypto) run_Marshal toy_session (zip (ws_sent sink) [nonce24; nonce24; nonce24])))
    w0 = (Ok tt, w).
Proof.
  cbv zeta.
  pose proof (@remote_ingest_equals_local toy_Crypto toy_CryptoLaws run_Marshal run_Unmarshal toy_session
                toy_session [nonce24; nonce24; nonce24] no_layout (fun _ => Some 5) 5 "d0" run_evs
                (mkWorld empty_DB 9 []) ltac:(apply Forall_nil; exact I) eq_refl
                (conj eq_refl eq_refl)) as H.
  assert (run_sent = (ingest (S := wsSink) no_layout 5 "d0" run_evs (mkWsSink [] [])).2.(ws_sent)) as Es
    by reflexivity.
  assert (length run_sent = 3%nat) as El by (vm_compute; reflexivity).
  assert (Forall (fun m => run_Unmarshal (run_Marshal m) = Some m) run_sent) as Hj
    by (repeat constructor; vm_compute; reflexivity).
  destruct (ingest no_layout 5 "d0" run_evs (mkWsSink [] [])) as [[e1 n1] sink].
  destruct (ingest no_layout 5 "d0" run_evs (mkWorld empty_DB 9 [])) as [[e2 n2] w].
  cbn [snd] in Es. rewrite Es in El, Hj. apply H.
  - intros r raw Hin.
    assert (map (fun x => r_TS x.1) (decoded no_layout 5 "d0" run_evs) = [5]) as E by (vm_compute; reflexivity).
    assert (r_TS r ∈ map (fun x => r_TS x.1) (decoded no_layout 5 "d0" run_evs)) as Ht
      by (apply list_elem_of_fmap; by exists (r, raw)).
    rewrite E in Ht. apply list_elem_of_singleton in Ht. rewrite Ht. split; reflexivity.
  - exact Hj.
  - symmetry. exact El.
  - repeat constructor.
Defined.

(** ** The session runs exactly what the server configured *)

Definition session_ok (s : session) : Prop :=
  params <$> se_running s = agent_desired (se_byIndex s) (se_cfg s).

Lemma health_tick_params run : params <$> (health_tick <$> run) = (params <$> run : gmap string scanParams).
Proof.
  rewrite <- map_fmap_compose. apply map_fmap_ext. intros s rd _. unfold compose, health_tick. by destruct (up rd).
Qed.

Lemma alter_params (g : runningDev -> runningDev) src run :
  (forall rd, params (g rd) = params rd) ->
  params <$> (alter g src run) = (params <$> run : gmap string scanParams).
Proof.
  intros Hg. apply map_eq. intros s. rewrite !lookup_fmap.
  destruct (decide (s = src)) as [-> |Hne]; [rewrite lookup_alter_eq|by rewrite lookup_alter_ne].
  destruct (run !! src); cbn; by rewrite ?Hg.
Qed.

Lemma reconcileAgent_params byIndex cfg run :
  params <$> reconcileAgent byIndex cfg run = agent_desired byIndex cfg.
Proof. apply start_missing_params. Qed.

Lemma on_event_ok agent ev s s' : session_ok s -> on_event agent ev s = inr s' -> session_ok s'.
Proof.
  unfold session_ok. intros Hs. destruct ev as [m| | |src b|nw probe|]; cbn [on_event]; try done.
  - destruct (_ =? _)%string; intros [= <-]; [apply reconcileAgent_params|done].
  - destruct (send _ _) as [[] sink]; intros [= <-]; done.
  - intros [= <-]. cbn. by rewrite alter_params.
  - unfold dongleRescanNeeded. destruct (_ || _); [intros [= <-]; cbn; by rewrite health_tick_params|].
    destruct (sameSources _ _); intros [= <-]. apply reconcileAgent_params.
Qed.

(** The dongles of a session have the announced names. *)
Lemma sameSources_dom a b : sameSources a b = true -> dom a = dom b.
Proof.
  unfold sameSources. intros [Hs Hf]%andb_true_iff. apply Nat.eqb_eq in Hs. apply bool_decide_eq_true in Hf.
  assert (dom a ⊆ dom b) as Hsub.
  { intros k [x Hx]%elem_of_dom. apply elem_of_dom. by eapply Hf. }
  apply leibniz_equiv, set_subseteq_size_equiv; [done|]. rewrite !size_dom. lia.
Qed.

Lemma on_event_dom agent ev s s' :
  on_event agent ev s = inr s' -> dom (se_byIndex s') = dom (se_byIndex s).
Proof.
  destruct ev as [m| | |src b|nw probe|]; cbn [on_event]; try done.
  - destruct (_ =? _)%string; intros [= <-]; done.
  - destruct (send _ _) as [[] sink]; intros [= <-]; done.
  - intros [= <-]; done.
  - destruct (dongleRescanNeeded _) as [bad run]. destruct (_ || _); [intros [= <-]; done|].
    destruct (sameSources _ _) eqn:Es; intros [= <-]. cbn [se_byIndex]. by apply sameSources_dom.
Qed.

Lemma session_loop_dom agent evs s : dom (se_byIndex (session_loop agent evs s).2) = dom (se_byIndex s).
Proof.
  revert s. induction evs as [|ev evs IH]; intros s; cbn [session_loop]; [done|].
  destruct (on_event agent ev s) as [e|s'] eqn:E; [done|]. rewrite IH. by eapply on_event_dom.
Qed.

Lemma agent_desired_elem byIndex cfg src p :
  agent_desired byIndex cfg !! src = Some p ->
  exists dev sc, byIndex !! src = Some dev /\ sc ∈ cfg /\ sc_Source sc = src /\
    sc_Enabled sc = true /\ p = agent_params dev sc.
Proof.
  unfold agent_desired. induction cfg as [|sc cfg IH] using rev_ind; [done|].
  rewrite fold_left_app. cbn. set (m := fold_left _ cfg ∅) in *.
  assert (m !! src = Some p -> exists dev sc', byIndex !! src = Some dev /\ sc' ∈ (cfg ++ [sc])%list /\
            sc_Source sc' = src /\ sc_Enabled sc' = true /\ p = agent_params dev sc') as Hold.
  { intros (dev & sc' & ? & ? & ?)%IH. exists dev, sc'. set_solver. }
  destruct (byIndex !! sc_Source sc) as [dev|] eqn:Ed; [|done].
  destruct (sc_Enabled sc) eqn:Een; [|done].
  intros [[<- <-]|[_ ?]]%lookup_insert_Some; [|auto]. exists dev, sc. set_solver.
Qed.

(** An enabled entry of an announced dongle is wanted. *)
Lemma agent_desired_wants byIndex cfg sc :
  sc ∈ cfg -> sc_Enabled sc = true -> is_Some (byIndex !! sc_Source sc) ->
  is_Some (agent_desired byIndex cfg !! sc_Source sc).
Proof.
  unfold agent_desired. intros Hin Hen Hdev. revert Hin.
  induction cfg as [|x cfg IH] using rev_ind; [by intros ?%elem_of_nil|].
  rewrite fold_left_app. cbn. set (m := fold_left _ cfg ∅) in *.
  intros [Hin|Hin%list_elem_of_singleton]%elem_of_app.
  - specialize (IH Hin). destruct (byIndex !! sc_Source x); [|done]. destruct (sc_Enabled x); [|done].
    destruct (decide (sc_Source x = sc_Source sc)) as [-> |]; [by rewrite lookup_insert_eq|by rewrite lookup_insert_ne].
  - subst x. destruct Hdev as [dev ->]. rewrite Hen, lookup_insert_eq. by eexists.
Qed.

(** The configuration in force after the events: that of the last config message. *)
Definition next_config (cfg : list SourceConfig) (ev : session_event) : list SourceConfig :=
  match ev with
  | Msg m => if (msg_Type m =? "config")%string then msg_Config m else cfg
  | _ => cfg
  end.
Definition last_config (evs : list session_event) : list SourceConfig := fold_left next_config evs [].

Lemma on_event_cfg agent ev s s' : on_event agent ev s = inr s' -> se_cfg s' = next_config (se_cfg s) ev.
Proof.
  destruct ev as [m| | |src b|nw probe|]; cbn [on_event next_config]; try done.
  - destruct (_ =? _)%string; intros [= <-]; done.
  - destruct (send _ _) as [[] sink]; intros [= <-]; done.
  - intros [= <-]; done.
  - destruct (dongleRescanNeeded _) as [bad run]. destruct (_ || _); [intros [= <-]; done|].
    destruct (sameSources _ _); intros [= <-]; done.
Qed.

(** The dongles of a session are those of its hello or of a later enumeration. *)
Definition enumerated (agent : string) (probe : list sdrDevice) (evs : list session_event)
  (byIndex : gmap string sdrDevice) : Prop :=
  exists p, (p = probe \/ exists nw, Tick nw p ∈ evs) /\ byIndex = (agentInventory agent p).1.

Lemma on_event_byIndex agent ev s s' :
  on_event agent ev s = inr s' ->
  se_byIndex s' = se_byIndex s \/ exists nw p, ev = Tick nw p /\ se_byIndex s' = (agentInventory agent p).1.
Proof.
  destruct ev as [m| | |src b|nw probe|]; cbn [on_event]; try done.
  - destruct (_ =? _)%string; intros [= <-]; by left.
  - destruct (send _ _) as [[] sink]; intros [= <-]; by left.
  - intros [= <-]; by left.
  - destruct (dongleRescanNeeded _) as [bad run]. destruct (_ || _); [intros [= <-]; by left|].
    destruct (sameSources _ _); intros [= <-]. right. by exists nw, probe.
Qed.

(** A session loop that has not ended, as an invariant of its events. *)
Lemma session_loop_inv agent probe done_evs evs s s' :
  session_ok s -> se_cfg s = last_config done_evs -> enumerated agent probe done_evs (se_byIndex s) ->
  session_loop agent evs s = (None, s') ->
  session_ok s' /\ se_cfg s' = last_config (done_evs ++ evs) /\
  enumerated agent probe (done_evs ++ evs) (se_byIndex s').
Proof.
  revert done_evs s. induction evs as [|ev evs IH]; intros done_evs s Hs Hc He; cbn [session_loop].
  { intros [= <-]. by rewrite app_nil_r. }
  destruct (on_event agent ev s) as [e|s1] eqn:E; [done|].
  rewrite cons_middle, app_assoc. apply IH; [by eapply on_event_ok| |].
  - unfold last_config in *. rewrite fold_left_app, <- Hc. by eapply on_event_cfg.
  - destruct (on_event_byIndex _ _ _ _ E) as [-> |(nw & p & -> & ->)].
    + destruct He as (p & Hp & ->). exists p. split; [|done]. destruct Hp as [|[nw Hp]]; [by left|].
      right. exists nw. set_solver.
    + exists p. split; [right; exists nw; set_solver|done].
Qed.

(** C35: a remote agent runs exactly what the server configured.  At every point
    of a session that has not ended, whatever the server pushes, however pipelines
    fail and whatever a rescan finds, the running dongles with their parameters
    are those the last pushed configuration (none before the first) enables among
    the session's dongles: each running dongle has an enabled entry there and
    runs with its parameters, and every dongle with an enabled entry runs.  The
    dongles are those of the hello or of a later enumeration, and always the very
    sources that the hello announced: another set ends the session. *)
Theorem session_runs_configured (agent : string) (probe : list sdrDevice) (evs : list session_event)
    (sink : wsSink) (s : session) :
  agentSession agent probe evs sink = (None, s) ->
  let byIndex := se_byIndex s in
  params <$> se_running s = agent_desired byIndex (last_config evs) /\
  (forall src rd, se_running s !! src = Some rd ->
     exists dev sc, byIndex !! src = Some dev /\ sc ∈ last_config evs /\ sc_Source sc = src /\
       sc_Enabled sc = true /\
       params rd = mkScanParams (index dev) (sc_Freq sc) (sc_Gain sc) (sc_PPM sc)
                     (AgentWire.sc_MsgType sc) (sc_FilterID sc)) /\
  (forall sc, sc ∈ last_config evs -> sc_Enabled sc = true -> is_Some (byIndex !! sc_Source sc) ->
     is_Some (se_running s !! sc_Source sc)) /\
  (exists p, (p = probe \/ exists nw, Tick nw p ∈ evs) /\ byIndex = (agentInventory agent p).1) /\
  dom byIndex = dom (agentInventory agent probe).1.
Proof.
  intros E byIndex.
  assert (session_ok s /\ se_cfg s = last_config evs /\ enumerated agent probe evs byIndex) as (Hok & Hcfg & He).
  { unfold agentSession in E. destruct (agentInventory agent probe) as [idx infos] eqn:Ei.
    destruct (send _ sink) as [[] sink']; [|done].
    by apply (session_loop_inv agent probe [] _ _ _) in E; [|done|done|exists probe; rewrite Ei; auto]. }
  assert (dom byIndex = dom (agentInventory agent probe).1) as Hdom.
  { unfold agentSession in E. destruct (agentInventory agent probe) as [idx infos].
    destruct (send _ sink) as [[] sink']; [|done].
    pose proof (session_loop_dom agent evs (mkAgentSession ∅ idx [] zero_time sink')) as Hd.
    unfold byIndex. by rewrite E in Hd. }
  unfold session_ok in Hok. rewrite Hcfg in Hok. fold byIndex in Hok.
  split; [done|]. split; [|split; [|by split]].
  - intros src rd Hrd. apply agent_desired_elem. by rewrite <- Hok, lookup_fmap, Hrd.
  - intros sc Hin Hen Hdev. pose proof (agent_desired_wants _ _ _ Hin Hen Hdev) as Hw.
    by rewrite <- Hok, lookup_fmap, fmap_is_Some in Hw.
Qed.

(** A dongle configured, dropped by a rescan that finds it again, and pinged. *)
Definition attic_dongle : sdrDevice := mkSdr 0 "00000001" "RTL2838" "R820T" "s1".
Definition attic_config : SourceConfig := mkSourceConfig "attic/s1" true "912600155" "0" "0" "scm" "".
Definition attic_evs : list session_event :=
  [Msg (mkMessage "config" "" [] None None [attic_config]); Pipe "attic/s1" false; Ping;
   Tick 600000000000 [attic_dongle]; Tick 1200000000000 [attic_dongle]].

Lemma session_runs_configured_witness :
  exists s, agentSession "attic" [attic_dongle] attic_evs (mkWsSink [] []) = (None, s) /\
    is_Some (se_running s !! "attic/s1") /\
    params <$> se_running s = agent_desired (se_byIndex s) [attic_config].
Proof.
  set (s := (agentSession "attic" [attic_dongle] attic_evs (mkWsSink [] [])).2).
  assert (agentSession "attic" [attic_dongle] attic_evs (mkWsSink [] []) = (None, s)) as E
    by (vm_compute; reflexivity).
  exists s. split; [exact E|].
  destruct (session_runs_configured "attic" [attic_dongle] attic_evs (mkWsSink [] []) s E)
    as (Hp & _ & Hall & _).
  split; [|exact Hp]. apply (Hall attic_config); [left|reflexivity|].
  exists attic_dongle. vm_compute. reflexivity.
Defined.

(** ** Trust on first use *)

Definition b64_text_char (c : ascii) : bool :=
  match b64_val c with Some _ => true | None => Ascii.eqb c "=" end.

Lemma all_chars_rev f s : all_chars f (str_rev s) = all_chars f s.
Proof.
  unfold str_rev. assert (forall acc, all_chars f (str_rev_app s acc) = all_chars f s && all_chars f acc) as H.
  { induction s as [|c s IH]; intros acc; cbn; [done|]. rewrite IH. cbn.
    by destruct (f c), (all_chars f s). }
  rewrite H. apply andb_true_r.
Qed.

Lemma base64_chars s : all_chars b64_text_char (EncodeToString s) = true.
Proof.
  unfold EncodeToString.
  assert (forall v, 0 <= v < 64 -> b64_text_char (b64_char v) = true) as Hc.
  { intros v Hv. unfold b64_text_char. by rewrite (proj1 (b64_val_char v Hv)). }
  assert (forall n s, (String.length s < n)%nat -> all_chars b64_text_char (b64_encode "=" s) = true) as H;
    [|by apply (H (S (String.length s))); lia].
  clear s. induction n as [|n IH]; [lia|]. intros s Hs.
  destruct s as [|a [|b [|c r]]]; cbn [b64_encode all_chars String.append]; [done|..];
    pose proof (byte_range a); try pose proof (byte_range b); try pose proof (byte_range c);
    rewrite ?Hc by euclid; [done|done|].
  cbn [andb]. apply IH. cbn in Hs. lia.
Qed.

Lemma b64_not_space c r :
  b64_text_char c = true ->
  strip_any utf8_spaces (String c r) = None /\ strip_any (map str_rev utf8_spaces) (String c r) = None.
Proof. intros Hc. destruct c as [[] [] [] [] [] [] [] []]; try discriminate Hc; split; reflexivity. Qed.

Lemma trim_left_text ps c r : strip_any ps (String c r) = None -> trim_left ps (String c r) = String c r.
Proof. intros H. unfold trim_left. cbn [String.length trim_left_fuel]. by rewrite H. Qed.

Lemma str_rev_involutive s : str_rev (str_rev s) = s.
Proof.
  unfold str_rev. assert (forall a acc, str_rev_app (str_rev_app a acc) EmptyString = str_rev_app acc a) as H.
  { induction a as [|c a IH]; intros acc; cbn; [done|]. by rewrite IH. }
  by rewrite H.
Qed.

Lemma str_rev_snoc s c : str_rev (s ++ String c EmptyString) = String c (str_rev s).
Proof.
  unfold str_rev. assert (forall a b acc, str_rev_app (a ++ b) acc = str_rev_app b (str_rev_app a acc)) as Happ.
  { induction a as [|d a IH]; intros b acc; cbn; auto. }
  by rewrite Happ.
Qed.

(** A base64 text followed by a line break trims to itself. *)
Lemma TrimSpace_base64 s :
  TrimSpace (EncodeToString s ++ newline) = EncodeToString s.
Proof.
  pose proof (base64_chars s) as Hall. set (t := EncodeToString s) in *.
  destruct t as [|c r] eqn:Et; [reflexivity|]. unfold TrimSpace.
  assert (b64_text_char c = true) as Hc by (cbn [all_chars] in Hall; by apply andb_true_iff in Hall as [? _]).
  change (String c r ++ newline)%string with (String c (r ++ newline)).
  rewrite (trim_left_text utf8_spaces c (r ++ newline) (proj1 (b64_not_space c _ Hc))).
  change (String c (r ++ newline)) with (String c r ++ newline)%string.
  unfold trim_right, newline. rewrite str_rev_snoc.
  pose proof (all_chars_rev b64_text_char (String c r)) as Hrev. rewrite Hall in Hrev.
  destruct (str_rev (String c r)) as [|d q] eqn:Er.
  { pose proof (str_rev_involutive (String c r)) as E. by rewrite Er in E. }
  assert (trim_left (map str_rev utf8_spaces) (String (chr 10) (String d q)) = String d q) as ->.
  { unfold trim_left. cbn [String.length trim_left_fuel].
    change (strip_any (map str_rev utf8_spaces) (String (chr 10) (String d q))) with (Some (String d q)).
    cbv iota. cbn in Hrev. apply andb_true_iff in Hrev as [Hd _].
    by rewrite (proj2 (b64_not_space d q Hd)). }
  rewrite <- Er. apply str_rev_involutive.
Qed.

(** the server key is pinned on first use: with no key in the environment and
    none pinned, the fetched key is used and, when the file can be written, every
    later start resolves to that key without fetching, whatever a later fetch
    would answer. *)
Theorem resolveServerKey_pins (getenv : string -> string) (k : string) (fetch' : option string) (h : host) :
  String.length k = 32%nat -> h_writable h = true ->
  is_empty (getenv "AGENT_SERVER_KEY") = true ->
  h_files h !! env_or getenv "AGENT_SERVER_KEY_FILE" "/data/server.key" = None ->
  exists h', resolveServerKey getenv (Some k) h = (Some k, h') /\
    resolveServerKey getenv fetch' h' = (Some k, h').
Proof.
  intros Hk Hw He Hf. unfold resolveServerKey. rewrite He. cbn [negb]. rewrite Hf. cbn [mbind option_bind].
  eexists. split; [reflexivity|]. unfold write_file. rewrite Hw. cbn [h_files].
  rewrite lookup_insert_eq. cbn [mbind option_bind]. unfold EncodeKey. rewrite TrimSpace_base64.
  fold (EncodeKey k). by rewrite DecodeKey_EncodeKey.
Qed.

Lemma resolveServerKey_pins_witness :
  exists h', resolveServerKey (fun _ => "") (Some toy_private) (mkHost ∅ true) = (Some toy_private, h') /\
    resolveServerKey (fun _ => "") None h' = (Some toy_private, h').
Proof.
  exact (resolveServerKey_pins (fun _ => "") toy_private None (mkHost ∅ true) eq_refl eq_refl eq_refl eq_refl).
Defined.
