(* ===== verification/Listen.v ===== *)
(** * Listening for notifications

    Four loops of the program hold a connection on which they [LISTEN]:
    [broker.run] ([cmd/api/broker.go]), [pushConfigOnChange] ([cmd/api/agent.go]),
    [listenLoop] ([cmd/worker/main.go]) and [listenConfig] ([cmd/capture/main.go]).
    They are one loop with different channels and handlers; two of them start again
    when a [LISTEN] fails ([strict]), the others go on.  A session of the server
    queues the notifications committed on the channels it listens to, in order, and
    dies with its connection; a connection that was given back alive may be handed
    out again, still listening and with what it has queued.  The manager of the capture process is then run
    against the database together with its listener. *)

From S2P Require Import Prelude Float64 Model Json Config Store Effects Database AgentWire Gate Regex Capture Manager Publish Broker ApiAgent Agent.

Definition notification : Type := string * string.
Record session := mkSession { se_listens : list string; se_queue : list notification }.
(** Before a connection; in the statements that [LISTEN]; in the wait; returned. *)
Inductive listener := Idle | Executing (s : session) (rest : list string) | Waiting (s : session) | Stopped.

Definition enqueue (ns : list notification) (s : session) : session :=
  mkSession (se_listens s) (se_queue s ++ List.filter (fun n => bool_decide (n.1 ∈ se_listens s)) ns).
(** Notifications are committed, by anybody. *)
Definition commit (ns : list notification) (l : listener) : listener :=
  match l with
  | Executing s rest => Executing (enqueue ns s) rest
  | Waiting s => Waiting (enqueue ns s)
  | Idle | Stopped => l
  end.

(** The pool hands out a connection or an error, a [LISTEN] succeeds or not, the
    wait returns the next notification, the connection breaks.  The connection may
    be a new one ([fresh]) or one released earlier, which still listens to what its
    last owner asked for and keeps what was queued. *)
Inductive net_event := Acquired (conn : option session) | Executed (ok : bool) | Delivered | Broken.
Definition fresh : session := mkSession [] [].

Section Loop.
Context (channels : list string) (strict : bool) {S : Type} (handle : notification -> S -> S * bool).

Definition ready (s : session) (rest : list string) : listener :=
  match rest with [] => Waiting s | _ => Executing s rest end.
(** The handler also says whether the loop goes on. *)
Definition listen_step (e : net_event) (l : listener) (st : S) : listener * S :=
  match l, e with
  | Idle, Acquired (Some s) => (ready s channels, st)
  | Executing s (c :: rest), Executed ok =>
      if ok then (ready (mkSession (c :: se_listens s) (se_queue s)) rest, st)
      else if strict then (Idle, st) else (ready s rest, st)
  | Waiting s, Delivered =>
      match se_queue s with
      | [] => (l, st)
      | n :: q => let '(st', go) := handle n st in
                  (if (go : bool) then Waiting (mkSession (se_listens s) q) else Stopped, st')
      end
  | Executing _ _, Broken | Waiting _, Broken => (Idle, st)
  | _, _ => (l, st)
  end.

Inductive input := Commit (ns : list notification) | Net (e : net_event).
Definition listen_input (x : listener * S) (i : input) : listener * S :=
  match i with
  | Commit ns => (commit ns x.1, x.2)
  | Net e => listen_step e x.1 x.2
  end.
Definition listen (l : list input) (x : listener * S) : listener * S := fold_left listen_input l x.
End Loop.

(** ** The four loops *)

(** [listenConfig]: a wake-up in a channel of capacity one, dropped when it is full. *)
Definition wake (n : notification) (slot : bool) : bool * bool := (true, true).
Definition listenConfig : net_event -> listener -> bool -> listener * bool := listen_step ["winnow_config"] true wake.

(** [broker.run]. *)
Definition broker_handle (n : notification) (b : broker) : broker * bool := (on_notification n.1 n.2 b, true).
Definition broker_run : net_event -> listener -> broker -> listener * broker :=
  listen_step ["winnow"; "winnow_ref"; "winnow_config"; "winnow_tests"] false broker_handle.

Section Worker.
Context {C : Crypto} (format_g : float64 -> string) (Marshal : json -> string)
        (getenv : string -> string) (ParseFloat : string -> float64 * bool).

(** [listenLoop]; [accepted] is whether the MQTT broker takes the session. *)
Definition worker_handle (accepted : bool) (n : notification) (x : worker * World) : (worker * World) * bool :=
  match dispatch format_g Marshal getenv ParseFloat accepted n.1 n.2 x.1 x.2 with
  | (Ok wk, w) => ((wk, w), true)
  | (Err _, w) => ((x.1, w), true)
  end.
Definition listenLoop (accepted : bool) : net_event -> listener -> worker * World -> listener * (worker * World) :=
  listen_step ["winnow"; "winnow_config"] false (worker_handle accepted).

(** [pushConfigOnChange]: what was sent, and whether the next sends succeed. *)
Record pushes := mkPushes { pu_world : World; pu_sent : list Message; pu_sends : list bool }.
Definition push_handle (sources : list string) (n : notification) (p : pushes) : pushes * bool :=
  match config_message getenv ParseFloat sources (pu_world p) with
  | (Ok msg, w) => if hd true (pu_sends p)
                   then (mkPushes w (pu_sent p ++ [msg]) (tail (pu_sends p)), true)
                   else (mkPushes w (pu_sent p) (tail (pu_sends p)), false)
  | (Err _, w) => (mkPushes w (pu_sent p) (pu_sends p), true)
  end.
Definition pushConfigOnChange (sources : list string) : net_event -> listener -> pushes -> listener * pushes :=
  listen_step ["winnow_config"] true (push_handle sources).
End Worker.

(** ** The capture process and its listener *)

#[export] Instance CaptureConfig_eq_dec : EqDecision CaptureConfig.
Proof. assert (EqDecision DeviceConfig) by solve_decision. solve_decision. Defined.

Section CaptureRun.
Context (getenv : string -> string) (ParseFloat : string -> float64 * bool).

Record capture_process := mkProcess { cp_listener : listener; cp_wake : bool; cp_manager : manager; cp_db : DB }.
Definition new_notes (d d' : DB) : list notification := drop (length (notifications d)) (notifications d').

(** A statement of another process; the listener; the two cases of [run]'s select
    with the clock, the faults and what the bus shows; a pipeline's report. *)
Inductive capture_op :=
  | Elsewhere (f : DB -> DB)
  | Listener (e : net_event)
  | OnNotify (nw : time) (faults : list bool) (probes : list (list sdrDevice))
  | OnTick (nw : time) (faults : list bool) (probes : list (list sdrDevice))
  | Report (src : string) (b : bool).

Definition reconciled (mayRescan : bool) (nw : time) (faults : list bool) (probes : list (list sdrDevice)) (c : capture_process) : capture_process :=
  let '(r, w) := reconcile getenv ParseFloat mayRescan probes (cp_manager c) (mkWorld (cp_db c) nw faults) in
  mkProcess (commit (new_notes (cp_db c) (w_db w)) (cp_listener c)) (cp_wake c)
    (match r with Ok m => m | Err _ => cp_manager c end) (w_db w).
Definition capture_step (c : capture_process) (o : capture_op) : capture_process :=
  match o with
  | Elsewhere f => let d := f (cp_db c) in mkProcess (commit (new_notes (cp_db c) d) (cp_listener c)) (cp_wake c) (cp_manager c) d
  | Listener e => let '(l, slot) := listenConfig e (cp_listener c) (cp_wake c) in mkProcess l slot (cp_manager c) (cp_db c)
  | OnNotify nw fs probes =>
      if cp_wake c then reconciled false nw fs probes (mkProcess (cp_listener c) false (cp_manager c) (cp_db c)) else c
  | OnTick nw fs probes => reconciled true nw fs probes c
  | Report src b => mkProcess (cp_listener c) (cp_wake c) (report_up src b (cp_manager c)) (cp_db c)
  end.
(** [run] up to its loop. *)
Definition capture_start (nw : time) (fs : list bool) (probes : list (list sdrDevice)) (d : DB) : capture_process :=
  reconciled false nw fs probes (mkProcess Idle false new_manager d).
Definition capture_run (ops : list capture_op) (c : capture_process) : capture_process := fold_left capture_step ops c.
End CaptureRun.

(** ** What a listener hears *)

Section LoopFacts.
Context (channels : list string) (strict : bool) {S : Type} (handle : notification -> S -> S * bool).
Notation listenS := (listen channels strict handle).

Definition queued (l : listener) : list notification :=
  match l with Executing s _ | Waiting s => se_queue s | _ => [] end.
Definition heard_all (ns : list notification) (st : S) : S := fold_left (fun st n => (handle n st).1) ns st.
Definition committed (l : list input) : list notification :=
  flat_map (fun i => match i with Commit ns => ns | Net _ => [] end) l.
(** What could be heard: the commits, and what an acquired connection has queued. *)
Definition offered (l : list input) : list notification :=
  flat_map (fun i => match i with
                     | Commit ns => ns
                     | Net (Acquired (Some s)) => se_queue s
                     | Net _ => []
                     end) l.
Definition all_fresh (l : list input) : Prop := Forall (fun i => forall s, i = Net (Acquired (Some s)) -> s = fresh) l.
Definition unbroken (l : list input) : Prop := Forall (fun i => i <> Net Broken) l.

Lemma listen_snoc l i x : listenS (l ++ [i]) x = listen_input channels strict handle (listenS l x) i.
Proof. unfold listen. by rewrite fold_left_app. Qed.
Lemma committed_snoc l i : committed (l ++ [i]) = (committed l ++ match i with Commit ns => ns | Net _ => [] end)%list.
Proof. unfold committed. rewrite flat_map_app. cbn. by rewrite app_nil_r. Qed.
Lemma offered_snoc l i :
  offered (l ++ [i]) =
  (offered l ++ match i with Commit ns => ns | Net (Acquired (Some s)) => se_queue s | Net _ => [] end)%list.
Proof. unfold offered. rewrite flat_map_app. cbn. by rewrite app_nil_r. Qed.
Lemma offered_fresh l : all_fresh l -> offered l = committed l.
Proof.
  induction 1 as [|i l Hi _ IH]; [done|]. unfold offered, committed in *. cbn [flat_map]. rewrite IH.
  destruct i as [ns|[[s|]|ok| |]]; try done. by rewrite (Hi s eq_refl).
Qed.
Lemma queued_ready s rest : queued (ready s rest) = se_queue s.
Proof. by destruct rest. Qed.
Lemma queued_commit ns l : exists new, queued (commit ns l) = (queued l ++ new)%list /\ new `sublist_of` ns.
Proof.
  destruct l as [|s r|s|]; cbn; [by exists []; split; [|apply sublist_nil_l]| | |by exists []; split; [|apply sublist_nil_l]];
    (eexists; split; [reflexivity|]); induction ns as [|n ns IH]; cbn; try case_bool_decide; by constructor.
Qed.
(** A step keeps the queue, forgets it, takes over that of a connection, or gives its
    head to the handler. *)
Lemma listen_step_queue e l st :
  let '(l', st') := listen_step channels strict handle e l st in
  (st' = st /\ (queued l' = queued l \/ queued l' = [])) \/
  (st' = st /\ exists s, e = Acquired (Some s) /\ queued l = [] /\ queued l' = se_queue s) \/
  (exists n, st' = (handle n st).1 /\ (queued l = n :: queued l' \/ (queued l' = [] /\ exists q, queued l = n :: q))).
Proof.
  destruct l as [|s [|c rest]|s|], e as [[s'|]|[]| |]; cbn [listen_step]; try (left; by auto);
    try (right; left; split; [done|]; exists s'; by rewrite queued_ready);
    try (left; split; [done|]; cbn [queued]; rewrite ?queued_ready; cbn [se_queue]; by auto).
  - destruct strict; left; (split; [done|]); cbn [queued]; rewrite ?queued_ready; by auto.
  - destruct (se_queue s) as [|n q] eqn:Eq; [left; by auto|].
    destruct (handle n st) as [st' []] eqn:Eh; right; right; exists n;
      cbn [queued se_queue]; rewrite Eq, Eh; (split; [done|]); [by left|right; split; [done|by exists q]].
Qed.

Lemma listens_to_offered (inputs : list input) (st : S) :
  let '(l, st') := listenS inputs (Idle, st) in
  exists heard, st' = heard_all heard st /\ (heard ++ queued l)%list `sublist_of` offered inputs.
Proof.
  induction inputs as [|i inputs IH] using rev_ind; [by exists []|]. rewrite listen_snoc, offered_snoc.
  destruct (listenS inputs (Idle, st)) as [l x]. destruct IH as (heard & -> & Hs). destruct i as [ns|e]; cbn [listen_input fst snd].
  - exists heard. split; [done|]. destruct (queued_commit ns l) as (new & -> & Hn). rewrite app_assoc. by apply sublist_app.
  - pose proof (listen_step_queue e l (heard_all heard st)) as H. destruct (listen_step _ _ _ _ _ _) as [l' x'].
    set (extra := match e with Acquired (Some s) => se_queue s | _ => [] end).
    change (exists h, x' = heard_all h st /\ (h ++ queued l')%list `sublist_of` (offered inputs ++ extra)%list).
    assert (offered inputs `sublist_of` (offered inputs ++ extra)%list) as Hext by apply sublist_inserts_r, reflexivity.
    destruct H as [[-> [->| ->]]|[[-> (s & -> & Eq & ->)]|(n & -> & H)]].
    + exists heard. split; [done|]. by etrans.
    + exists heard. split; [done|]. etrans; [|exact Hext]. etrans; [|exact Hs]. apply sublist_app; [done|apply sublist_nil_l].
    + exists heard. split; [done|]. apply sublist_app; [|done]. by rewrite Eq, app_nil_r in Hs.
    + exists (heard ++ [n])%list. split; [unfold heard_all; by rewrite fold_left_app|]. rewrite <- app_assoc.
      etrans; [|exact Hext]. etrans; [|exact Hs].
      apply sublist_app; [done|]. destruct H as [->|[-> [q ->]]]; [done|]. cbn. constructor. apply sublist_nil_l.
Qed.

(** C36: A listener hands over what it was sent, in order and none twice: whatever
    fails on its connections, the state of its owner is that of handling some
    notifications one after the other, and these, followed by those that wait, are
    among the committed ones (and, when the pool hands out a connection that was
    released alive, those it still holds) in the order of the commits.  While a
    connection that waits holds and the handler goes on, they are all those on the
    channels it listens to. *)
Theorem listener_hears (inputs : list input) (st : S) :
  (let '(l, st') := listenS inputs (Idle, st) in
   exists heard, st' = heard_all heard st /\ (heard ++ queued l)%list `sublist_of` offered inputs /\
     (all_fresh inputs -> (heard ++ queued l)%list `sublist_of` committed inputs)) /\
  (forall s, unbroken inputs -> (forall n x, (handle n x).2 = true) ->
   let '(l, st') := listenS inputs (Waiting s, st) in
   exists heard, st' = heard_all heard st /\
     (heard ++ queued l)%list = (se_queue s ++ List.filter (fun n => bool_decide (n.1 ∈ se_listens s)) (committed inputs))%list /\
     exists q, l = Waiting (mkSession (se_listens s) q)).
Proof.
  split.
  - pose proof (listens_to_offered inputs st) as H. destruct (listenS inputs (Idle, st)) as [l st'].
    destruct H as (heard & E & H). exists heard. split; [done|]. split; [done|]. intros Hf. by rewrite <- offered_fresh.
  - intros s Hu Hgo. induction inputs as [|i inputs IH] using rev_ind.
    { exists []. split; [done|]. cbn. rewrite app_nil_r. split; [done|]. exists (se_queue s). by destruct s. }
    apply Forall_app in Hu as [Hu Hi]. rewrite Forall_singleton in Hi. rewrite listen_snoc, committed_snoc. specialize (IH Hu).
    destruct (listenS inputs (Waiting s, st)) as [l x]. destruct IH as (heard & -> & Hq & q & ->).
    cbn [queued se_queue] in Hq. rewrite List.filter_app. destruct i as [ns|e]; cbn [listen_input fst snd commit].
    + exists heard. split; [done|]. cbn [queued enqueue se_queue se_listens]. split; [by rewrite app_assoc, Hq, <- app_assoc|by eexists].
    + cbn [List.filter]. rewrite app_nil_r. destruct e as [ok|ok| |]; cbn [listen_step]; [by exists heard; eauto|by exists heard; eauto| |by destruct (Hi eq_refl)].
      cbn [se_queue se_listens]. destruct q as [|n q]; [by exists heard; eauto|].
      pose proof (Hgo n (heard_all heard st)) as Hg. destruct (handle n (heard_all heard st)) as [x' go] eqn:Eh. cbn [snd] in Hg. subst go.
      exists (heard ++ [n])%list. split; [unfold heard_all in *; rewrite fold_left_app; cbn; by rewrite Eh|]. cbn [queued se_queue].
      split; [by rewrite <- app_assoc|by eexists].
Qed.

(** A lenient listener whose [LISTEN]s all fail on a new connection hears nothing for
    the life of that connection. *)
Lemma lenient_listener_deaf (l : list input) (st : S) :
  strict = false -> unbroken l -> channels <> [] ->
  listenS ([Net (Acquired (Some fresh))] ++ repeat (Net (Executed false)) (length channels) ++ l) (Idle, st) = (Waiting fresh, st).
Proof.
  unfold fresh. intros Hs Hu Hc. unfold listen. rewrite fold_left_app, fold_left_app. cbn [fold_left listen_input fst snd listen_step].
  assert (fold_left (listen_input channels strict handle) (repeat (Net (Executed false)) (length channels))
            (ready (mkSession [] []) channels, st) = (Waiting (mkSession [] []), st)) as ->.
  { clear Hc. generalize channels at 2 3. intros cs. induction cs as [|c cs IH]; [done|].
    cbn [length repeat fold_left listen_input fst snd ready listen_step]. rewrite Hs in *. exact IH. }
  induction Hu as [|i l Hi _ IH]; [done|]. cbn [fold_left]. destruct i as [ns|e]; cbn [listen_input fst snd commit enqueue se_listens se_queue].
  - assert (forall ns : list notification, List.filter (fun n => bool_decide (n.1 ∈ [])) ns = []) as E; [|unfold enqueue; cbn [se_listens se_queue app]; rewrite E; exact IH].
    clear. intros ns. by induction ns.
  - destruct e as [ok|ok| |]; cbn [listen_step se_queue]; try exact IH. by destruct (Hi eq_refl).
Qed.
End LoopFacts.

Lemma listener_hears_witness :
  let inputs := [Commit [("winnow_config", ""); ("winnow", "7"); ("winnow_config", "")]; Net Delivered] in
  let '(l, slot) := listen ["winnow_config"] true wake inputs (Waiting (mkSession ["winnow_config"] []), false) in
  l = Waiting (mkSession ["winnow_config"] [("winnow_config", "")]) /\
  exists heard, slot = heard_all wake heard false /\ (heard ++ queued l)%list = [("winnow_config", ""); ("winnow_config", "")].
Proof.
  intros inputs. destruct (listener_hears ["winnow_config"] true wake inputs false) as [_ H].
  specialize (H (mkSession ["winnow_config"] [])). destruct (listen _ _ _ _ (Waiting _, _)) as [l slot] eqn:E.
  vm_compute in E. injection E as <- <-. split; [reflexivity|].
  destruct H as (heard & Hh & Hq & _); [repeat constructor; discriminate|done|]. exists heard. by split.
Defined.

(** ** Changes of the configuration reach the pipelines *)

Section CaptureFacts.
Context (getenv : string -> string) (ParseFloat : string -> float64 * bool).
Notation stepC := (capture_step getenv ParseFloat).
Notation runC := (capture_run getenv ParseFloat).

Definition config_of (d : DB) : CaptureConfig := Config.Capture (FromMap getenv ParseFloat (settings d)).
(** The pipelines are those the stored settings ask for, with their parameters. *)
Definition in_sync (c : capture_process) : Prop :=
  params <$> running (cp_manager c) = desired (config_of (cp_db c)) (inventory (cp_manager c)).
(** A wake-up is on its way. *)
Definition woken (c : capture_process) : bool := cp_wake c || match queued (cp_listener c) with [] => false | _ => true end.
Definition listening (l : listener) : Prop := exists s, l = Waiting s /\ "winnow_config" ∈ se_listens s.
(** The connection holds, no statement of the manager fails, and others only add
    notifications. *)
Definition steady (o : capture_op) : Prop :=
  match o with
  | Elsewhere f => forall d, notifications d `prefix_of` notifications (f d)
  | Listener e => e <> Broken
  | OnNotify _ fs _ | OnTick _ fs _ => Forall (fun b => b = false) fs
  | Report _ _ => True
  end.
(** Whether a change of the scan settings still has to be notified. *)
Definition told (d d' : DB) (untold : bool) : bool :=
  if bool_decide (config_of d = config_of d')
  then untold && negb (existsb (fun n => (n.1 =? "winnow_config")%string) (new_notes d d')) else true.
Fixpoint untold (ops : list capture_op) (c : capture_process) (b : bool) : bool :=
  match ops with
  | [] => b
  | o :: ops' => let c' := stepC c o in untold ops' c' (told (cp_db c) (cp_db c') b)
  end.

Lemma report_up_params src b m : params <$> running (report_up src b m) = params <$> running m.
Proof. unfold report_up. cbn [running]. by apply alter_params. Qed.

(** Enumerating touches neither the settings nor the notifications. *)
Definition untouched (d0 d : DB) : Prop := settings d = settings d0 /\ notifications d = notifications d0.
Lemma reconcile_untouched d0 may probes m : keeps (untouched d0) (reconcile getenv ParseFloat may probes m).
Proof.
  assert (keeps (untouched d0) (enumerateOnce probes)) as He.
  { induction probes as [|[|dev devs] probes IH]; cbn [enumerateOnce]; [keep|done|].
    keep; apply keeps_exec; by intros d t [H1 H2]. }
  unfold reconcile. cbv zeta. keep; by apply He.
Qed.
Lemma reconcile_sync may probes m w :
  no_faults w -> exists m' w', reconcile getenv ParseFloat may probes m w = (Ok m', w') /\ params <$> running m' = desired (config_of (w_db w')) (inventory m').
Proof.
  intros Hw. unfold reconcile, mbind, M_bind, now.
  destruct (if may then dongleRescanNeeded (running m) else (false, running m)) as [bad run]. cbv zeta.
  match goal with |- context [inventory (if ?b then ?x else ?y)] => set (m1 := if b then x else y) end.
  assert (exists inv w1, (match inventory m1 with [] => enumerateOnce probes | l => mret l end : M _) w = (Ok inv, w1) /\ no_faults w1)
    as (inv & w1 & E & Hw1).
  { destruct (inventory m1) as [|d ds]; [|by exists (d :: ds), w].
    destruct (enumerateOnce_spec probes w) as (w1 & ? & _ & ?). eexists _, w1. eauto. }
  rewrite E. unfold try. rewrite LoadConfig_ok by done. eexists _, _. split; [reflexivity|]. cbn [running inventory w_db].
  apply start_missing_params.
Qed.

Lemma commit_nil l : commit [] l = l.
Proof. destruct l as [|[ls q] r|[ls q]|]; cbn; unfold enqueue; cbn; by rewrite ?app_nil_r. Qed.
Lemma reconciled_ok may nw fs probes c :
  Forall (fun b => b = false) fs ->
  let c' := reconciled getenv ParseFloat may nw fs probes c in
  in_sync c' /\ cp_listener c' = cp_listener c /\ cp_wake c' = cp_wake c /\
  config_of (cp_db c') = config_of (cp_db c) /\ new_notes (cp_db c) (cp_db c') = [].
Proof.
  intros Hf. cbv zeta. unfold reconciled.
  pose proof (reconcile_untouched (cp_db c) may probes (cp_manager c) (mkWorld (cp_db c) nw fs) (conj eq_refl eq_refl)) as [Hs Hn].
  destruct (reconcile_sync may probes (cp_manager c) (mkWorld (cp_db c) nw fs) Hf) as (m & w & E & Hsync).
  rewrite E in *. cbn [snd w_db] in Hs, Hn.
  assert (new_notes (cp_db c) (w_db w) = []) as Hnil by (unfold new_notes; rewrite Hn; apply drop_all).
  cbn [cp_listener cp_wake cp_db]. rewrite Hnil, commit_nil. split_and!; try done. unfold config_of. by rewrite Hs.
Qed.

(** What holds while the connection does. *)
Definition on_its_way (c : capture_process) (b : bool) : Prop :=
  listening (cp_listener c) /\ (b = false -> woken c = true \/ in_sync c).

Lemma commit_listening ns l :
  listening l -> exists s, commit ns l = Waiting s /\ "winnow_config" ∈ se_listens s /\
    queued (commit ns l) = (queued l ++ List.filter (fun n => bool_decide (n.1 ∈ se_listens s)) ns)%list.
Proof. intros (s & -> & Hs). eexists. split; [reflexivity|]. by cbn. Qed.
Lemma hears_config (chans : list string) ns :
  "winnow_config" ∈ chans ->
  existsb (fun n : notification => (n.1 =? "winnow_config")%string) ns = true ->
  List.filter (fun n => bool_decide (n.1 ∈ chans)) ns <> [].
Proof.
  intros Hc (n & Hin & Hn)%existsb_exists. intros E.
  assert (In n (List.filter (fun n => bool_decide (n.1 ∈ chans)) ns)) as H; [|by rewrite E in H].
  apply List.filter_In. split; [done|]. apply bool_decide_eq_true_2. apply String.eqb_eq in Hn. by rewrite Hn.
Qed.

Lemma elsewhere_ok f c b :
  on_its_way c b -> on_its_way (stepC c (Elsewhere f)) (told (cp_db c) (f (cp_db c)) b).
Proof.
  intros [Hl Hw]. cbn [capture_step]. destruct (commit_listening (new_notes (cp_db c) (f (cp_db c))) _ Hl) as (s & Es & Hs & Hq).
  split; [exists s; by split|]. unfold told. case_bool_decide as Hc; [|done]. intros Hb.
  unfold woken, in_sync. cbn [cp_listener cp_wake cp_manager cp_db]. rewrite Hq, <- Hc.
  destruct (queued (cp_listener c)) as [|n q] eqn:Eq; [|left; by rewrite orb_true_r].
  destruct (List.filter _ _) as [|n q] eqn:En; [|left; by rewrite orb_true_r]. cbn [app].
  destruct b; cbn [andb] in Hb.
  - apply negb_false_iff, (hears_config _ _ Hs) in Hb. by rewrite En in Hb.
  - destruct (Hw eq_refl) as [H|H]; [left|by right]. unfold woken in H. by rewrite Eq in H.
Qed.

Lemma told_same d d' b : config_of d = config_of d' -> new_notes d d' = [] -> told d d' b = b.
Proof. intros Hc Hn. unfold told. rewrite bool_decide_eq_true_2, Hn by done. by rewrite andb_true_r. Qed.
Lemma new_notes_same d : new_notes d d = [].
Proof. apply drop_all. Qed.
(** A step of the process itself that ends in sync, or leaves things as they are. *)
Lemma own_step c c' b :
  on_its_way c b -> listening (cp_listener c') -> config_of (cp_db c) = config_of (cp_db c') -> new_notes (cp_db c) (cp_db c') = [] ->
  (woken c = true \/ in_sync c -> woken c' = true \/ in_sync c') -> on_its_way c' (told (cp_db c) (cp_db c') b).
Proof. intros [_ Hw] Hl Hc Hn H. rewrite told_same by done. split; [done|auto]. Qed.

Lemma step_on_its_way o c b :
  steady o -> on_its_way c b -> on_its_way (stepC c o) (told (cp_db c) (cp_db (stepC c o)) b).
Proof.
  intros Ho Hc. pose proof Hc as [Hl _]. destruct o as [f|e|nw fs probes|nw fs probes|src v]; [by apply elsewhere_ok|..]; cbn [steady] in Ho.
  - assert (cp_db (stepC c (Listener e)) = cp_db c /\ cp_manager (stepC c (Listener e)) = cp_manager c /\
            listening (cp_listener (stepC c (Listener e))) /\ (woken c = true -> woken (stepC c (Listener e)) = true)) as (Ed & Em & Hl' & Hk).
    { cbn [capture_step]. unfold woken. destruct Hl as (s & -> & Hs). destruct e as [ok|ok| |]; cbn;
        [split_and!; [done|done|by exists s|done]|split_and!; [done|done|by exists s|done]| |by destruct (Ho eq_refl)].
      destruct (se_queue s) as [|n q] eqn:Eq; cbn; [|split_and!; [done|done|by eexists|done]].
      split_and!; [done|done|by exists s|]. by rewrite Eq. }
    apply (own_step c); [done|done|by rewrite Ed|rewrite Ed; apply new_notes_same|].
    intros [H|H]; [left; auto|right]. unfold in_sync. by rewrite Ed, Em.
  - cbn [capture_step]. destruct (cp_wake c) eqn:Ew; [|apply (own_step c); [done|done|done|apply new_notes_same|done]].
    destruct (reconciled_ok false nw fs probes (mkProcess (cp_listener c) false (cp_manager c) (cp_db c)) Ho) as (H1 & H2 & _ & H4 & H5).
    apply (own_step c); [done|by rewrite H2|by rewrite H4|exact H5|]. by right.
  - cbn [capture_step]. destruct (reconciled_ok true nw fs probes c Ho) as (H1 & H2 & _ & H4 & H5).
    apply (own_step c); [done|by rewrite H2|by rewrite H4|exact H5|]. by right.
  - apply (own_step c); [done..|apply new_notes_same|]. intros [H|H]; [by left|right]. unfold in_sync in *. cbn [capture_step cp_manager cp_db].
    rewrite report_up_params. exact H.
Qed.
Lemma capture_run_snoc ops o c : runC (ops ++ [o]) c = stepC (runC ops c) o.
Proof. unfold capture_run. by rewrite fold_left_app. Qed.
Lemma run_on_its_way ops c b : Forall steady ops -> on_its_way c b -> on_its_way (runC ops c) (untold ops c b).
Proof.
  intros Ho. revert c b. induction Ho as [|o ops Hs _ IH]; intros c b Hc; cbn; [done|]. apply IH. by apply step_on_its_way.
Qed.

(** Delivering what waits, then taking the wake-up, puts the pipelines in sync. *)
Lemma deliver_all c :
  listening (cp_listener c) ->
  let c' := runC (repeat (Listener Delivered) (length (queued (cp_listener c)))) c in
  queued (cp_listener c') = [] /\ cp_manager c' = cp_manager c /\ cp_db c' = cp_db c /\
  cp_wake c' = woken c.
Proof.
  intros (s & Es & _). remember (se_queue s) as q eqn:Eq. revert c s Es Eq.
  induction q as [|n q IH]; intros c s Es Eq; unfold woken; rewrite Es; cbn [queued]; rewrite <- Eq; cbn [length repeat].
  - cbn. rewrite Es. cbn. rewrite <- Eq. split_and!; try done. by rewrite orb_false_r.
  - assert (stepC c (Listener Delivered) = mkProcess (Waiting (mkSession (se_listens s) q)) true (cp_manager c) (cp_db c)) as E.
    { cbn [capture_step]. unfold listenConfig. rewrite Es. cbn [listen_step]. rewrite <- Eq. reflexivity. }
    unfold capture_run. cbn [fold_left]. rewrite E. rewrite orb_true_r.
    destruct (IH (mkProcess (Waiting (mkSession (se_listens s) q)) true (cp_manager c) (cp_db c)) _ eq_refl eq_refl) as (H1 & H2 & H3 & H4).
    cbn [queued cp_listener se_queue] in *. split_and!; [exact H1|exact H2|exact H3|exact H4].
Qed.

(** C15: A change of the scan settings reaches the radios, while the connection of
    the listener holds and no statement of the manager fails: from a moment when
    the listener waits and the pipelines are those the settings ask for, whatever
    other processes write (they only append notifications), in whatever order
    notifications are delivered, wake-ups merged and taken, ticks and rescans
    happen and pipelines come and go, if every change of the scan configuration has
    been followed by a notification and no wake-up is left, the running pipelines
    and their parameters are exactly those that the stored settings now ask for on
    the known dongles; if one is left, delivering what waits and taking one wake-up
    whose statements succeed gets there.  Whatever was missed before, on a broken
    connection for one, a tick whose statements succeed gets there at once. *)
Theorem capture_applies_settings (ops : list capture_op) (c0 : capture_process) :
  listening (cp_listener c0) -> in_sync c0 -> Forall steady ops -> untold ops c0 false = false ->
  let c := runC ops c0 in
  (woken c = false -> in_sync c) /\
  (forall nw probes, let c' := runC (repeat (Listener Delivered) (length (queued (cp_listener c))) ++ [OnNotify nw [] probes]) c in
     woken c' = false /\ in_sync c') /\
  (forall nw probes c1, in_sync (stepC c1 (OnTick nw [] probes))).
Proof.
  intros Hl Hsync Hst Hu. cbv zeta.
  assert (on_its_way (runC ops c0) (untold ops c0 false)) as [Hl' Hw] by (apply run_on_its_way; [done|by split; [|right]]). rewrite Hu in Hw.
  split_and!.
  - intros Hk. destruct (Hw eq_refl) as [H|H]; [congruence|done].
  - intros nw probes. destruct (deliver_all _ Hl') as (H1 & H2 & H3 & H4). rewrite capture_run_snoc.
    set (c' := runC (repeat _ _) _) in *. cbn [capture_step]. rewrite H4. destruct (woken (runC ops c0)) eqn:Ek.
    + destruct (reconciled_ok false nw [] probes (mkProcess (cp_listener c') false (cp_manager c') (cp_db c')) (List.Forall_nil _)) as (G1 & G2 & G3 & _).
      split; [|exact G1]. unfold woken. rewrite G2, G3. cbn [cp_listener cp_wake]. by rewrite H1.
    + split; [unfold woken; by rewrite H4, H1|]. unfold in_sync. rewrite H2, H3. destruct (Hw eq_refl) as [H|H]; [congruence|done].
  - intros nw probes c1. by apply reconciled_ok.
Qed.
End CaptureFacts.

(** A gain is set and notified while the two dongles run. *)
Definition no_env (k : string) : string := "".
Definition no_float (s : string) : float64 * bool := (f0, true).
Definition put_setting (k v : string) (d : DB) : DB := set_settings (<[k := v]> (settings d)) d.
Definition notify_config (d : DB) : DB := set_notifications (notifications d ++ [("winnow_config", "")]) d.
Definition connected : capture_process :=
  capture_run no_env no_float [Listener (Acquired (Some fresh)); Listener (Executed true)] (capture_start no_env no_float 0 [] [two_found] empty_DB).
Definition gain_change : list capture_op := [Elsewhere (put_setting "scan_gain" "20"); Report "A" true; Elsewhere notify_config].

Lemma capture_applies_settings_witness :
  let c := capture_run no_env no_float gain_change connected in
  woken c = true /\
  let c' := capture_run no_env no_float [Listener Delivered; OnNotify 0 [] []] c in
  in_sync no_env no_float c' /\ (gain ∘ params) <$> running (cp_manager c') = {["A" := "20"; "B" := "20"]}.
Proof.
  destruct (capture_applies_settings no_env no_float gain_change connected) as (_ & H & _).
  - exists (mkSession ["winnow_config"] []). split; [by vm_compute|left].
  - unfold in_sync. vm_compute. reflexivity.
  - repeat constructor; cbn; [done|intros d; by eexists].
  - vm_compute. reflexivity.
  - cbv zeta in *. split; [vm_compute; reflexivity|]. split; [exact (proj2 (H 0 []))|]. vm_compute. reflexivity.
Defined.
