(* ===== verification/Backfill.v ===== *)
(** * The worker's scheduled backfills ([cmd/worker/main.go])

    [caggBackfillLoop], which materialises the hourly aggregate over stored
    history from a watermark in the settings, [backfillUtility], which stores the
    bill, and a round of [utilityLoop].  The aggregates of [DB] are functions of
    the readings, as a real-time aggregate answers, so a refresh changes no table:
    the loop's trace says what was refreshed.  The answers of Home Assistant are
    arguments.  [time.Parse] of an RFC 3339 text is a parameter. *)

From S2P Require Import Prelude Float64 Model Calendar Config Store Database Deltas Windows AutoWindow Samples Ha Feed Rounding Confidence Correlate Utility.

(** ** consumption.go *)

Definition RefreshReadings1h (from to : time) : M unit := exec (fun d _ => d).
Definition OldestReadingTS : M (option time) :=
  r ← try (query (fun d _ => min_time (map (fun rr => r_TS rr.1) (readings d))));
  mret (match r with Ok v => v | Err _ => None end).

(** ** [caggBackfillLoop] *)

Definition cagg_key : string := "readings_1h_refreshed_to".
Definition cagg_step : duration := 7 * 24 * Hour.

(** How an iteration ends: the loop returns, sleeps 30 s and retries, or has
    refreshed a range and sleeps 2 s. *)
Inductive cagg_out := Stop | Retry | Refreshed (from to : time).

Definition target_of (nw : time) : time := Truncate (Add nw (- (48 * Hour))) Hour.

Section Cagg.
Context (Parse : string -> option time).

(** The watermark; the zero time when it is missing or unreadable. *)
Definition watermark (settings : gmap string string) : time :=
  match settings !! cagg_key with
  | Some v => if is_empty v then zero_time else from_opt zero_time (Parse v)
  | None => zero_time
  end.

Definition cagg_refresh (from : time) : M cagg_out :=
  nw ← now;
  let target := target_of nw in
  if negb (Before from target) then mret Stop
  else
    let to := Add from cagg_step in
    let to := if After to target then target else to in
    r ← try (RefreshReadings1h from to);
    match r with
    | Err _ => mret Retry
    | Ok _ => ignore (SetSetting cagg_key (RFC3339 to)) ;; mret (Refreshed from to)
    end.

Definition cagg_iter : M cagg_out :=
  r ← try GetSettings;
  match r with
  | Err _ => mret Retry
  | Ok st =>
      let from := watermark st in
      if IsZero from then
        o ← OldestReadingTS;
        match o with
        | None => nw ← now; ignore (SetSetting cagg_key (RFC3339 nw)) ;; mret Stop
        | Some oldest => cagg_refresh (Truncate oldest Hour)
        end
      else cagg_refresh from
  end.

(** [n] iterations at most; [env] is what the rest of the world does while the
    loop sleeps.  The ranges refreshed, whether the loop returned, and the
    world. *)
Context (env : nat -> World -> World).
Fixpoint caggBackfillLoop (n : nat) (k : nat) (w : World) : list (time * time) * bool * World :=
  match n with
  | O => ([], false, w)
  | S n' =>
      match cagg_iter w with
      | (Ok Stop, w') => ([], true, w')
      | (Ok Retry, w') | (Err _, w') => caggBackfillLoop n' (S k) (env k w')
      | (Ok (Refreshed a b), w') =>
          let '(l, fin, w2) := caggBackfillLoop n' (S k) (env k w') in ((a, b) :: l, fin, w2)
      end
  end.
End Cagg.

(** ** [backfillUtility] *)

Section Utility.
Context (tz : option string) (fetch : string -> string + list StatPoint).

(** The period and its points: probed, or the configured one. *)
Definition fetch_bill (cfg : Config) : string + (string * list StatPoint) :=
  if (UtilityPeriod cfg =? "auto")%string || is_empty (UtilityPeriod cfg) then ResolvePeriod fetch
  else match fetch (UtilityPeriod cfg) with
       | inl e => inl e
       | inr pts => inr (UtilityPeriod cfg, pts)
       end.

Definition cache_zone : M unit :=
  match tz with
  | Some z => if is_empty z then mret tt else ignore (SetSetting KeyHATimeZone z)
  | None => mret tt
  end.

Definition backfillUtility (cfg : Config) : M unit :=
  cache_zone ;;
  match fetch_bill cfg with
  | inl e => fail e
  | inr (period, pts) =>
      match BucketDeltas pts with
      | [] => mret tt
      | samples =>
          UpsertUtilityEnergy (UtilityStatisticID cfg) period (map us_TS samples) (map us_Kwh samples) ;;
          ignore (KeepOnlyUtility (UtilityStatisticID cfg) period)
      end
  end.
End Utility.

(** One round of [utilityLoop], before it waits for 12 hours or a nudge; errors
    are logged. *)
Section Round.
Context (time_bucket : duration -> time -> time) (sensors : option (list Entity)) (cache : gmap string einfo)
        (means : time -> time -> option (list (string * list MeanPoint)))
        (events : time -> time -> option (list StateEvent))
        (tz : option string) (fetch : string -> string + list StatPoint).
Definition utility_round (cfg : Config) : M unit :=
  (if HAConfigured cfg && ReferenceConfigured cfg
   then ignore (backfillReferenceGaps cfg time_bucket sensors cache means) else mret tt) ;;
  (if HAConfigured cfg && HVACConfigured cfg
   then ignore (backfillHVACHistory cfg time_bucket events) else mret tt) ;;
  (if HAConfigured cfg && UtilityConfigured cfg then ignore (backfillUtility tz fetch cfg) else mret tt).
End Round.

(** ** Lemmas *)

Lemma RFC3339_nonempty t : is_empty (RFC3339 t) = false.
Proof.
  unfold RFC3339, date_text. destruct (civil_from_days (t / Day)) as [[y m] d]. unfold pad4, pad2. reflexivity.
Qed.

Lemma Truncate_bounds t : Truncate t Hour <= t < Truncate t Hour + Hour /\ Truncate t Hour mod Hour = 0.
Proof.
  rewrite Truncate_Hour. assert (0 < Hour) as HH by (unfold Hour, Minute, Second; lia).
  pose proof (Z.mod_pos_bound t Hour HH). split; [lia|].
  rewrite Zminus_mod, Z.mod_mod, Z.sub_diag by lia. apply Z.mod_0_l. lia.
Qed.

Lemma statement_next A (f : DB -> time -> result (A * DB)) w a d' :
  no_faults w -> f (w_db w) (w_now w) = Ok (a, d') ->
  statement f w = (Ok a, mkWorld d' (w_now w) (tail (w_faults w))).
Proof. intros Hf E. by rewrite statement_ok, E by done. Qed.

Section CaggLemmas.
Context (Parse : string -> option time) (lo hi : time).
Hypothesis (Hlo : 0 <= lo).
(** The clock stays within [hi], so watermarks are hours of [[lo, hi]]. *)
Hypothesis (HParse : forall t, lo <= t <= hi -> t mod Hour = 0 -> Parse (RFC3339 t) = Some t).

(** The loop continues from the hour [from]. *)
Definition resumes (w : World) (from : time) : Prop :=
  no_faults w /\ lo <= from <= hi /\ from mod Hour = 0 /\ w_now w <= hi /\
  (settings (w_db w) !! cagg_key = Some (RFC3339 from) \/
   (watermark Parse (settings (w_db w)) = zero_time /\
    exists oldest, min_time (map (fun rr => r_TS rr.1) (readings (w_db w))) = Some oldest /\ from = Truncate oldest Hour)).

Lemma cagg_refresh_step w from :
  no_faults w ->
  let target := target_of (w_now w) in
  (target <= from -> exists w', cagg_refresh from w = (Ok Stop, w') /\ no_faults w' /\ w_now w' = w_now w) /\
  (from < target -> exists w', cagg_refresh from w = (Ok (Refreshed from (Z.min target (from + cagg_step))), w') /\
     no_faults w' /\ w_now w' = w_now w /\
     settings (w_db w') !! cagg_key = Some (RFC3339 (Z.min target (from + cagg_step)))).
Proof.
  intros Hf target. unfold cagg_refresh. unfold mbind, M_bind, now. fold target. unfold Before, After, Add.
  split; intros Ht.
  - destruct (Z.ltb_spec from target); [lia|]. cbn. eexists. by split_and!.
  - destruct (Z.ltb_spec from target); [|lia]. cbn [negb].
    replace (if target <? from + cagg_step then target else from + cagg_step) with (Z.min target (from + cagg_step))
      by (destruct (Z.ltb_spec target (from + cagg_step)); lia).
    unfold try, RefreshReadings1h. rewrite exec_ok by done. unfold ignore, SetSetting.
    rewrite exec_ok by (by apply no_faults_tail). cbn [fst snd w_db w_now w_faults]. eexists. split; [reflexivity|].
    cbn [w_db w_now w_faults set_settings settings].
    split_and!; [|done|by rewrite lookup_insert_eq].
    by apply (no_faults_tail _ _ (mkWorld (w_db w) (w_now w) (tail (w_faults w)))), no_faults_tail.
Qed.

Lemma cagg_iter_step w from :
  resumes w from ->
  let target := target_of (w_now w) in
  (target <= from -> exists w', cagg_iter Parse w = (Ok Stop, w') /\ no_faults w' /\ w_now w' = w_now w) /\
  (from < target -> exists w', cagg_iter Parse w = (Ok (Refreshed from (Z.min target (from + cagg_step))), w') /\
     no_faults w' /\ w_now w' = w_now w /\
     settings (w_db w') !! cagg_key = Some (RFC3339 (Z.min target (from + cagg_step)))).
Proof.
  intros (Hf & Hr & Hh & Hn & Hc).
  assert (exists w2, no_faults w2 /\ w_now w2 = w_now w /\ cagg_iter Parse w = cagg_refresh from w2) as (w2 & Hf2 & Hn2 & ->).
  { unfold cagg_iter. unfold mbind, M_bind, try, GetSettings. rewrite query_ok by done.
    set (w1 := mkWorld (w_db w) (w_now w) (tail (w_faults w))).
    assert (no_faults w1) as Hf1 by (by apply no_faults_tail).
    destruct Hc as [Hc|(Hc & oldest & Ho & ->)].
    - assert (watermark Parse (settings (w_db w)) = from) as ->.
      { unfold watermark. rewrite Hc, RFC3339_nonempty, HParse by done. done. }
      assert (IsZero from = false) as -> by (unfold IsZero, zero_time, Second in *; lia).
      exists w1. by split_and!.
    - rewrite Hc. replace (IsZero zero_time) with true by reflexivity.
      unfold OldestReadingTS, mbind, M_bind, try. rewrite query_ok by done.
      change (w_db w1) with (w_db w). rewrite Ho. cbn [fst snd w_db w_now].
      exists (mkWorld (w_db w1) (w_now w1) (tail (w_faults w1))). split_and!; [by apply (no_faults_tail _ _ w1)|done|done]. }
  rewrite <- Hn2. exact (cagg_refresh_step w2 from Hf2).
Qed.

(** While the loop sleeps and refreshes, at most ten minutes pass, no statement
    fails and nobody else writes the watermark. *)
Definition env_ok (env : nat -> World -> World) : Prop :=
  forall k w, no_faults w -> w_now w <= hi ->
    no_faults (env k w) /\ settings (w_db (env k w)) !! cagg_key = settings (w_db w) !! cagg_key /\
    w_now w <= w_now (env k w) <= w_now w + 10 * Minute /\ w_now (env k w) <= hi.

(** Ranges of at most a week that follow each other from [a] to [b]. *)
Fixpoint chained (a : time) (l : list (time * time)) (b : time) : Prop :=
  match l with
  | [] => a = b
  | (x, y) :: l' => x = a /\ x < y <= x + cagg_step /\ chained y l' b
  end.

(** Iterations that are enough. *)
Definition enough (n : nat) (w : World) (from : time) : Prop :=
  let target := target_of (w_now w) in
  (target <= from /\ (1 <= n)%nat) \/
  (from < target <= from + cagg_step /\ w_now w - 48 * Hour - target <= 20 * Minute /\ (2 <= n)%nat) \/
  (from < target /\ exists j : nat, target - from <= cagg_step + Z.of_nat j * (cagg_step - Hour) /\ (3 + j <= n)%nat).

Lemma target_spec nw :
  target_of nw <= nw - 48 * Hour < target_of nw + Hour /\ exists q, target_of nw = Hour * q.
Proof.
  unfold target_of, Add. destruct (Truncate_bounds (nw + - (48 * Hour))) as [H1 H2]. split; [lia|].
  apply Z.mod_divide in H2 as [q Hq]; [|unfold Hour, Minute, Second; lia]. exists q. lia.
Qed.

Lemma caggBackfill_run env n k w from :
  env_ok env -> resumes w from -> enough n w from ->
  exists l w' b, caggBackfillLoop Parse env n k w = (l, true, w') /\ chained from l b /\ target_of (w_now w') <= b.
Proof.
  intros He. revert k w from. induction n as [|n IH]; intros k w from Hr Hn.
  { exfalso. unfold enough in Hn. destruct Hn as [[_ ?]|[(_ & _ & ?)|(_ & j & _ & ?)]]; lia. }
  destruct (cagg_iter_step w from Hr) as [H1 H2]. cbn [caggBackfillLoop].
  destruct (Z.le_gt_cases (target_of (w_now w)) from) as [Hle|Hgt].
  - destruct (H1 Hle) as (w' & -> & _ & Hw). exists [], w', from. rewrite Hw. by split_and!.
  - destruct (H2 ltac:(lia)) as (w' & -> & Hf' & Hnow & Hset). clear H1 H2.
    set (b := Z.min (target_of (w_now w)) (from + cagg_step)) in *.
    destruct Hr as (Hf & Hr & Hh & Hhi & _).
    destruct (He k w' Hf') as (Hf2 & Hs2 & Hn2 & Hhi2); [lia|]. set (w2 := env k w') in *.
    destruct (target_spec (w_now w)) as [Ht [q Hq]]. destruct (target_spec (w_now w2)) as [Ht2 [q2 Hq2]].
    apply Z.mod_divide in Hh as [p Hp]; [|unfold Hour, Minute, Second; lia].
    destruct (IH (S k) w2 b) as (l & w3 & c & -> & Hc & Hend).
    + split_and!; [done| | | |lia|left; by rewrite Hs2].
      * unfold b, cagg_step, Hour, Minute, Second in *; lia.
      * unfold b, cagg_step, Hour, Minute, Second in *; lia.
      * apply Z.mod_divide; [unfold Hour, Minute, Second; lia|].
        unfold b. destruct (Z.min_spec (target_of (w_now w)) (from + cagg_step)) as [[_ ->]|[_ ->]].
        -- exists q. lia.
        -- exists (p + 7 * 24). unfold cagg_step. lia.
    + unfold enough in *. rewrite Hnow in Hn2.
      destruct Hn as [[? _]|[(Hc1 & Hc2 & Hc3)|(_ & j & Hj & Hc)]]; [lia| |].
      * left. unfold b, cagg_step, Hour, Minute, Second in *. lia.
      * destruct (Z.le_gt_cases (target_of (w_now w2)) b) as [|Hb]; [left; split; [done|lia]|right].
        destruct j as [|j].
        -- left. unfold b, cagg_step, Hour, Minute, Second in *. lia.
        -- destruct (Z.le_gt_cases (target_of (w_now w)) (from + cagg_step)) as [Hs|Hs].
           ++ left. unfold b, cagg_step, Hour, Minute, Second in *. lia.
           ++ right. split; [done|]. exists j. unfold b, cagg_step, Hour, Minute, Second in *. lia.
    + exists ((from, b) :: l), w3, c. split_and!; [done| |done]. cbn [chained]. split_and!; [done| | |done].
      * unfold b, cagg_step, Hour, Minute, Second in *. lia.
      * unfold b. lia.
Qed.
End CaggLemmas.

(** ** Properties *)

(** C31: From any point of history the backfill of the hourly aggregate finishes:
    when statements succeed, at most ten minutes pass per range and nobody else
    writes the watermark (an hour, or none yet), within
    [4 + gap / (7 days - 1 hour)] iterations the loop returns, and what it
    refreshed is a chain of ranges of at most a week without a hole, from the hour
    of the oldest reading (or the watermark) up to 48 hours before the present. *)
Theorem caggBackfill_completes (Parse : string -> option time) (lo hi : time) (env : nat -> World -> World)
    (w : World) (from : time) :
  0 <= lo -> (forall t, lo <= t <= hi -> t mod Hour = 0 -> Parse (RFC3339 t) = Some t) ->
  env_ok hi env -> resumes Parse lo hi w from ->
  let n := (4 + Z.to_nat ((target_of (w_now w) - from) / (cagg_step - Hour)))%nat in
  exists l w' b, caggBackfillLoop Parse env n 0 w = (l, true, w') /\ chained from l b /\ target_of (w_now w') <= b.
Proof.
  intros Hlo HP He Hr n. apply (caggBackfill_run Parse lo hi Hlo HP env n 0 w from He Hr).
  unfold enough. destruct (Z.le_gt_cases (target_of (w_now w)) from) as [Hle|Hgt]; [left; split; [done|unfold n; lia]|].
  right. right. split; [lia|]. exists (Z.to_nat ((target_of (w_now w) - from) / (cagg_step - Hour))).
  assert (0 < cagg_step - Hour) as Hs by (unfold cagg_step, Hour, Minute, Second; lia).
  pose proof (Z.div_pos (target_of (w_now w) - from) (cagg_step - Hour) ltac:(lia) Hs).
  pose proof (Z.mul_succ_div_gt (target_of (w_now w) - from) (cagg_step - Hour) Hs).
  split; [|unfold n; lia]. rewrite Z2Nat.id by done.
  assert (0 < Hour) by (unfold Hour, Minute, Second; lia). lia.
Qed.

(** Whole hours of a UTC text. *)
Definition parse_hour (s : string) : option time :=
  match parse_date (substring 0 10 s), ParseInt (substring 11 2 s) with
  | Some d, (h, true) => Some (Day * d + Hour * h)
  | _, _ => None
  end.
Definition two_seconds (hi : time) (k : nat) (w : World) : World :=
  mkWorld (w_db w) (Z.max (w_now w) (Z.min (w_now w + 2 * Second) hi)) (w_faults w).

Lemma caggBackfill_completes_witness :
  exists l w' b, caggBackfillLoop parse_hour (two_seconds (12 * Day)) 5 0 (mkWorld two_hours_DB (11 * Day) []) = (l, true, w') /\
    chained 0 l b /\ 9 * Day <= b.
Proof.
  destruct (caggBackfill_completes parse_hour 0 (12 * Day) (two_seconds (12 * Day)) (mkWorld two_hours_DB (11 * Day) []) 0)
    as (l & w' & b & E & Hc & Hb).
  - lia.
  - intros t Ht Hm.
    assert (forallb (fun q => match parse_hour (RFC3339 (Hour * Z.of_nat q)) with
                              | Some t => t =? Hour * Z.of_nat q | None => false end) (seq 0 289) = true) as Hall
      by (vm_compute; reflexivity).
    apply Z.mod_divide in Hm as [q Hq]; [|discriminate]. rewrite forallb_forall in Hall.
    specialize (Hall (Z.to_nat q)). rewrite Z2Nat.id in Hall by (unfold Day, Hour, Minute, Second in *; lia).
    rewrite Z.mul_comm in Hq. rewrite <- Hq in Hall. destruct (parse_hour (RFC3339 t)) as [t'|].
    + f_equal. apply Z.eqb_eq, Hall, in_seq. unfold Day, Hour, Minute, Second in *. lia.
    + discriminate Hall. apply in_seq. unfold Day, Hour, Minute, Second in *. lia.
  - intros k w Hf Hn. unfold two_seconds. cbn [w_db w_now w_faults].
    split_and!; [exact Hf|reflexivity|lia|unfold Minute, Second; lia|lia].
  - split_and!; [constructor|lia|unfold Day, Hour, Minute, Second; lia|reflexivity|cbn; unfold Day, Hour, Minute, Second; lia|].
    right. split; [reflexivity|]. eexists. split; [vm_compute; reflexivity|reflexivity].
  - exists l, w', b. split; [exact E|]. split; [exact Hc|].
    assert (w_now w' >= 11 * Day) as Hw.
    { assert (w_now (caggBackfillLoop parse_hour (two_seconds (12 * Day)) 5 0 (mkWorld two_hours_DB (11 * Day) [])).2
        =? 11 * Day + 4 * Second = true) as E' by (vm_compute; reflexivity).
      apply Z.eqb_eq in E'. change (4 + Z.to_nat _)%nat with 5%nat in E. rewrite E in E'. cbn [snd] in E'.
      unfold Second in E'. lia. }
    destruct (target_spec (w_now w')) as [Ht [q Hq]]. unfold Day, Hour, Minute, Second in *. lia.
Defined.

(** ** The bill *)

(** The statements before the upsert: the time zone is cached when there is one. *)
Definition zone_statements (tz : option string) : nat :=
  match tz with Some z => if is_empty z then 0 else 1 | None => 0 end.

(** A failed write of the zone is ignored. *)
Lemma cache_zone_keeps tz w :
  exists w', cache_zone tz w = (Ok tt, w') /\ utility_energy (w_db w') = utility_energy (w_db w) /\
    forall n, fails n w' = fails (zone_statements tz + n) w.
Proof.
  unfold cache_zone, zone_statements. destruct tz as [z|]; [|by exists w]. destruct (is_empty z); [by exists w|].
  unfold ignore, SetSetting. rewrite exec_oracle. eexists. split; [reflexivity|]. split.
  - cbn. by destruct (fails 0 w).
  - intros n. by rewrite fails_tail.
Qed.

Lemma upsert_cases statID period ts kwh w :
  ts <> [] ->
  if negb (fails 0 w) && (Nat.eqb (length ts) (length kwh) && bool_decide (NoDup ts))
  then exists w', UpsertUtilityEnergy statID period ts kwh w = (Ok tt, w') /\ fails 0 w' = fails 1 w /\
         utility_energy (w_db w') =
           list_to_map (zip (map (fun t => (statID, period, t)) ts) kwh) ∪ utility_energy (w_db w)
  else exists e w', UpsertUtilityEnergy statID period ts kwh w = (Err e, w') /\ w_db w' = w_db w.
Proof.
  intros Hne. unfold UpsertUtilityEnergy. destruct ts as [|t ts]; [done|]. rewrite statement_oracle.
  destruct (fails 0 w); [eexists; eexists; by split|].
  cbn [negb andb]. destruct (Nat.eqb _ _ && _); eexists; [|eexists; by split].
  split; [reflexivity|]. by rewrite fails_tail.
Qed.

(** The upserted map: the samples over what was there. *)
Lemma upserted_sample (statID period : string) (samples : list UtilitySample) (m : gmap (string * string * Z) float64) (s : UtilitySample) :
  NoDup (map us_TS samples) -> s ∈ samples ->
  (list_to_map (zip (map (fun t => (statID, period, t)) (map us_TS samples)) (map us_Kwh samples)) ∪ m)
    !! (statID, period, us_TS s) = Some (us_Kwh s).
Proof.
  intros Hn Hs. apply lookup_union_Some_l, elem_of_list_to_map_1.
  - rewrite fst_zip by (rewrite !length_map; lia). apply NoDup_fmap; [intros a b [=]; done|done].
  - apply list_elem_of_lookup in Hs as [i Hi]. apply list_elem_of_lookup. exists i.
    apply lookup_zip_Some. change (@map) with (@fmap list _) in *. split; rewrite !list_lookup_fmap, Hi; done.
Qed.

Lemma upserted_other (statID period : string) (samples : list UtilitySample) (m : gmap (string * string * Z) float64) sid p t :
  ~ (sid = statID /\ p = period /\ t ∈ map us_TS samples) ->
  (list_to_map (zip (map (fun t => (statID, period, t)) (map us_TS samples)) (map us_Kwh samples)) ∪ m) !! (sid, p, t)
  = m !! (sid, p, t).
Proof.
  intros H. apply lookup_union_r, not_elem_of_list_to_map_1. rewrite fst_zip by (rewrite !length_map; lia).
  intros (t' & [= -> -> ->] & Ht)%list_elem_of_fmap. by apply H.
Qed.

(** C32: A backfill of the bill stores all the samples of Home Assistant's answer
    or changes nothing, whatever statements fail.  It stores them when the answer
    has samples of distinct times and the upsert does not fail; it then reports
    success, the other times of the same statistic and period stay, and the rows of
    every other statistic or period are gone, unless the statement that drops them
    fails: its error is discarded and they stay beside the new ones.  On an error of
    the fetch, an empty answer, a repeated time or a failed upsert the stored bill
    is as before, and only the empty answer counts as success. *)
Theorem backfillUtility_replaces (tz : option string) (fetch : string -> string + list StatPoint) (cfg : Config) (w : World) :
  let r := backfillUtility tz fetch cfg w in
  let statID := UtilityStatisticID cfg in
  let upsert := zone_statements tz in
  let bill sid p t (w : World) := utility_energy (w_db w) !! (sid, p, t) in
  match fetch_bill fetch cfg with
  | inl e => r.1 = Err e /\ utility_energy (w_db r.2) = utility_energy (w_db w)
  | inr (period, pts) =>
      let samples := BucketDeltas pts in
      if bool_decide (samples = []) then r.1 = Ok tt /\ utility_energy (w_db r.2) = utility_energy (w_db w)
      else if bool_decide (NoDup (map us_TS samples)) && negb (fails upsert w)
      then r.1 = Ok tt /\
           (forall s, s ∈ samples -> bill statID period (us_TS s) r.2 = Some (us_Kwh s)) /\
           (forall t, t ∉ map us_TS samples -> bill statID period t r.2 = bill statID period t w) /\
           (forall sid p t, (sid, p) <> (statID, period) ->
              bill sid p t r.2 = if fails (S upsert) w then bill sid p t w else None)
      else (exists e, r.1 = Err e) /\ utility_energy (w_db r.2) = utility_energy (w_db w)
  end.
Proof.
  cbv zeta. destruct (cache_zone_keeps tz w) as (w1 & Hz & Hu1 & Hf1).
  unfold backfillUtility, mbind, M_bind. rewrite Hz. rewrite <- !Hu1.
  destruct (fetch_bill fetch cfg) as [e|[period pts]]; [done|].
  destruct (BucketDeltas pts) as [|s0 ss] eqn:Es; [done|]. cbn [bool_decide].
  set (samples := s0 :: ss) in *. rewrite bool_decide_false by done.
  assert (map us_TS samples <> []) as Hne by done.
  pose proof (upsert_cases (UtilityStatisticID cfg) period (map us_TS samples) (map us_Kwh samples) w1 Hne) as HU.
  rewrite !length_map, Nat.eqb_refl in HU. cbn [andb] in HU. rewrite andb_comm in HU.
  rewrite (Hf1 0%nat), Nat.add_0_r in HU.
  destruct (bool_decide (NoDup (map us_TS samples)) && negb (fails (zone_statements tz) w)) eqn:En.
  - apply andb_true_iff in En as [En%bool_decide_eq_true _]. destruct HU as (w2 & -> & Hf2 & Hu2).
    unfold ignore, KeepOnlyUtility. rewrite exec_oracle, Hf2, (Hf1 1%nat), Nat.add_1_r. cbn [fst snd w_db].
    destruct (fails (S (zone_statements tz)) w); cbn [set_utility_energy utility_energy]; rewrite Hu2;
      (split; [done|]); (split_and!; [intros s Hs|intros t Ht|intros sid p t Hd]).
    + by apply upserted_sample.
    + apply upserted_other. by intros (_ & _ & H).
    + apply upserted_other. intros (-> & -> & _). done.
    + apply map_lookup_filter_Some_2; [by apply upserted_sample|done].
    + rewrite <- (upserted_other (UtilityStatisticID cfg) period samples (utility_energy (w_db w1)) _ _ t) by (by intros (_ & _ & H)).
      apply option_eq. intros x. rewrite map_lookup_filter_Some. cbn. by intuition.
    + apply map_lookup_filter_None_2. right. intros k _ [H1 H2]. cbn in H1, H2. by subst.
  - destruct HU as (e & w2 & -> & Hd). cbn [fst snd]. rewrite Hd. split; [by exists e|done].
Qed.

Definition bill_config : Config := FromMap (fun _ => "") (fun _ => (f0, false)) {["utility_statistic_id" := "opower:kwh"]}.
Definition two_buckets (period : string) : string + list StatPoint :=
  inr [mkStat 0 None (Some (of_Z 5)); mkStat Hour None (Some (of_Z 8))].

Lemma backfillUtility_replaces_witness :
  utility_energy (w_db (backfillUtility (Some "Europe/Paris") two_buckets bill_config (mkWorld bill_DB 0 [])).2)
    !! ("opower:kwh", "hour", Hour) = Some (of_Z 8).
Proof.
  pose proof (backfillUtility_replaces (Some "Europe/Paris") two_buckets bill_config (mkWorld bill_DB 0 [])) as H.
  cbv zeta in H.
  replace (fetch_bill two_buckets bill_config) with
    (inr ("hour", [mkStat 0 None (Some (of_Z 5)); mkStat Hour None (Some (of_Z 8))]) : string + (string * list StatPoint))
    in H by (vm_compute; reflexivity).
  match type of H with if bool_decide ?P then _ else if bool_decide ?Q && _ then _ else _ =>
    assert (bool_decide P = false) as E1 by (vm_compute; reflexivity);
    assert (bool_decide Q = true) as E2 by (vm_compute; reflexivity) end.
  rewrite E1, E2 in H. destruct H as (_ & H & _). exact (H (mkUtility Hour (of_Z 8)) ltac:(right; left)).
Defined.
