(* ===== verification/Worker.v ===== *)
(** * The worker process ([cmd/worker/main.go])

    The four loops of the worker as one state and one step per thing that can
    happen to it: a notification of the database, an iteration of [haLoop] that
    finds itself without a subscription, a frame, a keepalive tick or the end of
    the subscription, and a round of the backfills.  The loops run concurrently;
    a run is any sequence of steps.  What Home Assistant answers is part of the
    step: [woken] that a pending restart ended the wait before an iteration,
    [restarted] that it ended the subscription. *)

From S2P Require Import Prelude Float64 Model Calendar Json Config Store Effects Database Deltas Windows AutoWindow Publish Samples Ha Feed Backfill.

(** A subscription keeps the configuration it was opened with. *)
Record subscription := mkSub { sub_cfg : Config; sub_feed : feed }.
Record proc := mkProc {
  pr_worker : worker; pr_cache : gmap string einfo; pr_auto : autoState; pr_sub : option subscription
}.
Definition with_pr_worker (w : worker) (p : proc) : proc := mkProc w (pr_cache p) (pr_auto p) (pr_sub p).
(** [waitOrRestart] and the watcher of a subscription take the pending signal. *)
Definition take_restart (w : worker) : worker :=
  mkWorker (wk_pub w) (wk_cfg w) (publishSet w) (pubNoted w) (mqttDetail w) (haStreamState w)
    (lastRefInsert w) false (utilRestart w).
Definition take_util (w : worker) : worker :=
  mkWorker (wk_pub w) (wk_cfg w) (publishSet w) (pubNoted w) (mqttDetail w) (haStreamState w)
    (lastRefInsert w) (haRestart w) false.

(** [trim]: at most [n] bytes, then an ellipsis. *)
Definition trim (s : string) (n : nat) : string :=
  if (String.length s <=? n)%nat then s else (String.substring 0 n s ++ "…")%string.

Definition subEntities (cfg : Config) : list string :=
  if HVACConfigured cfg then (MonitoredEntities cfg ++ [HVACEntityID cfg])%list else MonitoredEntities cfg.
Definition no_entities (cfg : Config) : string :=
  ("0 of " ++ FormatInt (Z.of_nat (length (MonitoredEntities cfg))) ++ " monitored entities found in HA states")%string.

Inductive event :=
  | Notified (accepted : bool) (channel payload : string)
  | Iterate (woken : bool) (sensors : string + list Entity) (climates : option (list ClimateEntity))
  | Frame (text : string)
  | Tick
  | Ended (err : string) (restarted : bool)
  | Round (sensors : option (list Entity)) (means : time -> time -> option (list (string * list MeanPoint)))
      (events : time -> time -> option (list StateEvent)) (tz : option string) (fetch : string -> string + list StatPoint).

Section Worker.
Context (Marshal : json -> string) (getenv : string -> string) (ParseFloat : string -> float64 * bool)
        (ParseNumber : string -> option float64) (ParseRFC3339 Parse : string -> option time)
        (survivors : list string -> string -> DB -> time -> option Z) (format_g format_f2 : float64 -> string)
        (time_bucket : duration -> time -> time).

Definition set_stream (state : string) (p : proc) : M proc :=
  w ← setHAStream Marshal state (pr_worker p); mret (with_pr_worker w p).

(** A callback of the subscription: it sees and changes the worker and the
    detector of the process. *)
Definition on_feed (act : Config -> feed -> M feed) (p : proc) : M proc :=
  match pr_sub p with
  | None => mret p
  | Some s =>
      let f := with_auto (pr_auto p) (with_worker (pr_worker p) (sub_feed s)) in
      f ← act (sub_cfg s) f;
      mret (mkProc (fd_worker f) (pr_cache p) (fd_auto f) (Some (mkSub (sub_cfg s) f)))
  end.

Definition callback_step (cfg : Config) (c : callback) (f : feed) : M feed :=
  match c with
  | OnSample e s => onSample Marshal Parse survivors format_f2 cfg e s f
  | OnState e ev => onState Parse survivors format_f2 cfg e ev f
  end.
Fixpoint callbacks (cfg : Config) (l : list callback) (f : feed) : M feed :=
  match l with [] => mret f | c :: l' => f ← callback_step cfg c f; callbacks cfg l' f end.
Definition frame_step (text : string) (cfg : Config) (f : feed) : M feed :=
  nw ← now; callbacks cfg (stream_frame ParseRFC3339 ParseNumber nw text) f.

(** One iteration of [haLoop] up to the subscription: what the states answer is
    resolved against the cache, and nothing is subscribed when nothing resolves. *)
Definition ha_iteration (sensors : string + list Entity) (climates : option (list ClimateEntity)) (p : proc) : M proc :=
  let cfg := wk_cfg (pr_worker p) in
  if negb (HAConfigured cfg) || negb (ReferenceConfigured cfg) then set_stream "not configured" p
  else
    let '(fresh, _) := buildEntityInfo (match sensors with inr l => Some l | inl _ => None end) (MonitoredEntities cfg) in
    let '(info, ok) := resolveEntityInfo fresh (pr_cache p) (MonitoredEntities cfg) in
    if negb ok then
      let reason := match sensors with inl e => TrimSpace e | inr _ => no_entities cfg end in
      set_stream ("entity resolution failed: " ++ reason)%string p
    else
      let f := mkFeed info ∅ ∅ ∅ zero_KA (pr_worker p) (pr_auto p) in
      f ← (if HVACConfigured cfg then seed_hvac cfg (from_opt [] climates) f else mret f);
      mret (mkProc (fd_worker f) info (fd_auto f) (Some (mkSub cfg f))).

Definition step (e : event) (p : proc) : M proc :=
  match e with
  | Notified accepted channel payload =>
      w ← dispatch format_g Marshal getenv ParseFloat accepted channel payload (pr_worker p); mret (with_pr_worker w p)
  | Iterate woken sensors climates =>
      match pr_sub p with
      | Some _ => mret p
      | None => ha_iteration sensors climates (if woken then with_pr_worker (take_restart (pr_worker p)) p else p)
      end
  | Frame text => on_feed (frame_step text) p
  | Tick => on_feed keepalive p
  | Ended err restarted =>
      match pr_sub p with
      | None => mret p
      | Some _ =>
          let w := if restarted then take_restart (pr_worker p) else pr_worker p in
          set_stream ("reconnecting: " ++ trim (TrimSpace err) 120)%string (mkProc w (pr_cache p) (pr_auto p) None)
      end
  | Round sensors means events tz fetch =>
      let p := with_pr_worker (take_util (pr_worker p)) p in
      utility_round time_bucket sensors (pr_cache p) means events tz fetch (wk_cfg (pr_worker p)) ;;
      mret p
  end.

(** A run, with the states it goes through, the first one included.  An operation
    of the worker never fails as a whole: the code logs and goes on. *)
Fixpoint run (evs : list event) (p : proc) (w : World) : list proc * proc * World :=
  match evs with
  | [] => ([p], p, w)
  | e :: evs' =>
      match step e p w with
      | (Ok p', w') => let '(l, q, w2) := run evs' p' w' in (p :: l, q, w2)
      | (Err _, w') => let '(l, q, w2) := run evs' p w' in (p :: l, q, w2)
      end
  end.
Definition start_proc (w : worker) : proc := mkProc w ∅ new_auto None.
End Worker.

(** ** The samples of a run *)

(** [d'] has every live sample of [d], and its other live samples are of entities
    in [S]. *)
Definition grows (S : string -> Prop) (d d' : DB) : Prop :=
  (forall r, rs_src r = "live" -> r ∈ reference_samples d -> r ∈ reference_samples d') /\
  (forall r, rs_src r = "live" -> r ∈ reference_samples d' -> r ∈ reference_samples d \/ S (rs_entity_id r)).
Lemma grows_refl S d : grows S d d.
Proof. split; auto. Qed.
Lemma grows_same S d d1 d2 : reference_samples d2 = reference_samples d1 -> grows S d d1 -> grows S d d2.
Proof. unfold grows. by intros ->. Qed.
Lemma grows_mono (S T : string -> Prop) d d' : (forall e, S e -> T e) -> grows S d d' -> grows T d d'.
Proof. intros H [H1 H2]. split; [done|]. intros r Hr Hin. destruct (H2 r Hr Hin); auto. Qed.
Lemma grows_trans S d d1 d2 : grows S d d1 -> grows S d1 d2 -> grows S d d2.
Proof.
  intros [A1 A2] [B1 B2]. split; [auto|]. intros r Hr Hin. destruct (B2 r Hr Hin) as [H|H]; [by apply A2|by right].
Qed.

(** A write to another table. *)
Ltac other_write :=
  apply keeps_exec; intros ? ? Hg; eapply grows_same; [|exact Hg];
  first [reflexivity | repeat match goal with |- context [match ?x with _ => _ end] => destruct x end; reflexivity].
Ltac other_statement :=
  apply keeps_statement; intros ? ? ? ? Hg Hst; revert Hst;
  repeat match goal with |- context [match ?x with _ => _ end] => destruct x end;
  first [discriminate | intros Hst; apply ok_db in Hst; subst; eapply grows_same; [|exact Hg]; reflexivity].
#[local] Hint Extern 1 (keeps (grows _ _) (exec _)) => other_write : keeps.
#[local] Hint Extern 2 (keeps (grows _ _) (statement _)) => other_statement : keeps.

Lemma keeps_insert S d e ts v : S e -> keeps (grows S d) (InsertReferenceSample e ts v).
Proof.
  intros He. apply keeps_exec. intros d1 _ [H1 H2]. split; cbn [reference_samples set_reference_samples].
  - intros r Hr Hin. apply elem_of_app. left. auto.
  - intros r Hr [Hin|Hin]%elem_of_app; [auto|]. apply list_elem_of_singleton in Hin as ->. by right.
Qed.
Lemma keeps_replace S d e from to ts pw : keeps (grows S d) (ReplaceBackfillSamples e from to ts pw).
Proof.
  unfold ReplaceBackfillSamples. apply keeps_bind.
  - apply keeps_exec. intros d1 _ [H1 H2]. split; cbn [reference_samples set_reference_samples]; unfold drop_ref.
    + intros r Hr Hin. apply list_elem_of_In, filter_In. split; [apply list_elem_of_In; auto|].
      unfold replaced. by rewrite Hr, andb_false_r.
    + intros r Hr [Hin _]%list_elem_of_In%filter_In. apply H2; [done|by apply list_elem_of_In].
  - intros _. destruct ts as [|t ts]; [apply keeps_ret|]. apply keeps_exec. intros d1 _ [H1 H2].
    split; cbn [reference_samples set_reference_samples].
    + intros r Hr Hin. apply elem_of_app. left. auto.
    + intros r Hr [Hin|Hin]%elem_of_app; [auto|]. apply list_elem_of_fmap in Hin as ([] & -> & _). discriminate Hr.
Qed.
#[local] Hint Resolve keeps_replace : keeps.

Lemma keeps_fill_gaps S d info fetch capEnd gs : keeps (grows S d) (fill_gaps info fetch capEnd gs).
Proof.
  induction gs as [|[lo hi] gs IH]; cbn [fill_gaps]; [apply keeps_ret|].
  destruct (clamp_gap capEnd (lo, hi)) as [[]|]; keep.
Qed.
#[local] Hint Resolve keeps_fill_gaps : keeps.
Lemma keeps_fill_hvac S d cfg fetch rs : keeps (grows S d) (fill_hvac cfg fetch rs).
Proof. induction rs as [|[lo hi] rs IH]; cbn [fill_hvac]; [apply keeps_ret|]. keep. Qed.
#[local] Hint Resolve keeps_fill_hvac : keeps.
Lemma keeps_round S d time_bucket sensors cache means events tz fetch cfg :
  keeps (grows S d) (utility_round time_bucket sensors cache means events tz fetch cfg).
Proof. keep. Qed.
Lemma keeps_stream S d Marshal state w : keeps (grows S d) (setHAStream Marshal state w).
Proof. keep. Qed.
Lemma keeps_dispatch S d format_g Marshal getenv ParseFloat accepted channel payload w :
  keeps (grows S d) (dispatch format_g Marshal getenv ParseFloat accepted channel payload w).
Proof. keep. Qed.
Lemma keeps_publish S d Parse survivors format_f2 cfg f :
  keeps (grows S d) (Feed.publish Parse survivors format_f2 cfg f).
Proof. keep. Qed.
#[local] Hint Resolve keeps_stream keeps_dispatch keeps_publish keeps_round : keeps.

(** What a subscription normalises: something, and only what it monitors; only
    that is kept alive. *)
Record feed_ok (cfg : Config) (f : feed) : Prop := {
  fo_some : fd_info f <> ∅;
  fo_monitored : forall e, is_Some (fd_info f !! e) -> e ∈ MonitoredEntities cfg;
  fo_alive : forall e, is_Some (kaLast f !! e) -> is_Some (fd_info f !! e)
}.
Definition proc_ok (p : proc) : Prop := forall s, pr_sub p = Some s -> feed_ok (sub_cfg s) (sub_feed s).
Definition monitored (p : proc) (e : string) : Prop := exists s, pr_sub p = Some s /\ e ∈ MonitoredEntities (sub_cfg s).

(** A callback keeps the feed well formed and stores samples of its entities only. *)
Definition good (d : DB) (cfg : Config) (m : feed -> M feed) : Prop :=
  forall f, feed_ok cfg f -> ensures (grows (fun e => e ∈ MonitoredEntities cfg) d) (m f) (feed_ok cfg).

Lemma feed_ok_same cfg f f' : fd_info f' = fd_info f -> kaLast f' = kaLast f -> feed_ok cfg f -> feed_ok cfg f'.
Proof. intros Ei Ek [H1 H2 H3]. constructor; by rewrite ?Ei, ?Ek. Qed.
Lemma feed_ok_ka cfg f e x : is_Some (fd_info f !! e) -> feed_ok cfg f -> feed_ok cfg (with_ka e x f).
Proof.
  intros He [H1 H2 H3]. constructor; [done..|]. intros e'. cbn [kaLast with_ka fd_info].
  destruct (decide (e = e')) as [->|Hne]; [done|]. rewrite lookup_insert_ne by done. auto.
Qed.

Section Good.
Context (Marshal : json -> string) (Parse : string -> option time)
        (survivors : list string -> string -> DB -> time -> option Z) (format_f2 : float64 -> string) (d : DB).

Lemma good_publish cfg : good d cfg (Feed.publish Parse survivors format_f2 cfg).
Proof.
  intros f Hf. unfold Feed.publish. cbv zeta. apply ensures_then; [keep|]. intros _.
  apply ensures_then; [keep|]. intros aw. apply ensures_ret. by eapply feed_ok_same; [| |exact Hf].
Qed.
Lemma good_sample cfg e ts v f :
  feed_ok cfg f -> is_Some (fd_info f !! e) ->
  ensures (grows (fun e => e ∈ MonitoredEntities cfg) d) (sample_power Marshal Parse survivors format_f2 cfg e ts v f) (feed_ok cfg).
Proof.
  intros Hf He. unfold sample_power. apply ensures_then; [apply keeps_now|]. intros nw.
  apply ensures_then; [apply keeps_try, keeps_insert, (fo_monitored _ _ Hf), He|]. intros r.
  apply (ensures_bind _ _ _ _ _ (fun f' => fd_info f' = fd_info f /\ kaLast f' = kaLast f)).
  - destruct (is_ok r); [|by apply ensures_ret]. unfold stored. apply ensures_then; [keep|]. intros w. by apply ensures_ret.
  - intros f' [Ei Ek]. apply good_publish. eapply (feed_ok_same cfg (with_ka e (mkKaSample ts v) f')); [done..|].
    apply feed_ok_ka; [by rewrite Ei|]. by eapply feed_ok_same; [..|exact Hf].
Qed.
Lemma good_onSample cfg e s : good d cfg (onSample Marshal Parse survivors format_f2 cfg e s).
Proof.
  intros f Hf. unfold onSample. destruct (fd_info f !! e) as [i|] eqn:Ei; [|by apply ensures_ret].
  assert (is_Some (fd_info f !! e)) as He by (by exists i).
  destruct (kind i =? "power")%string; [by apply good_sample|]. destruct (kind i =? "energy")%string; [|by apply ensures_ret].
  destruct (energy_step _ _ _) as [st p]. assert (feed_ok cfg (with_es e st f)) as Hf' by (by eapply feed_ok_same; [..|exact Hf]).
  destruct p; [|by apply ensures_ret]. by apply good_sample.
Qed.
Lemma good_onState cfg e ev : good d cfg (onState Parse survivors format_f2 cfg e ev).
Proof.
  intros f Hf. unfold onState. destruct (_ || _); [by apply ensures_ret|]. destruct (is_empty _).
  - apply good_publish. by eapply feed_ok_same; [..|exact Hf].
  - apply ensures_then; [keep|]. intros r. apply good_publish. destruct (is_ok r); [|done]. by eapply feed_ok_same; [..|exact Hf].
Qed.
Lemma good_callbacks cfg l : good d cfg (callbacks Marshal Parse survivors format_f2 cfg l).
Proof.
  induction l as [|c l IH]; intros f Hf; cbn [callbacks]; [by apply ensures_ret|].
  apply (ensures_bind _ _ _ _ _ (feed_ok cfg)); [|exact IH].
  destruct c; [by apply good_onSample|by apply good_onState].
Qed.
Lemma good_frame ParseNumber ParseRFC3339 cfg text : good d cfg (frame_step Marshal ParseNumber ParseRFC3339 Parse survivors format_f2 text cfg).
Proof. intros f Hf. unfold frame_step. apply ensures_then; [apply keeps_now|]. intros nw. by apply good_callbacks. Qed.
Lemma good_keep_all cfg nw l f :
  feed_ok cfg f -> Forall (fun es => is_Some (fd_info f !! es.1)) l ->
  ensures (grows (fun e => e ∈ MonitoredEntities cfg) d) (keep_all nw l f) (feed_ok cfg).
Proof.
  revert f. induction l as [|[e s] l IH]; intros f Hf Hl; cbn [keep_all]; [by apply ensures_ret|].
  apply Forall_cons in Hl as [He Hl]. cbn [fst] in He.
  apply (ensures_bind _ _ _ _ _ (fun f' => feed_ok cfg f' /\ fd_info f' = fd_info f)).
  - unfold keep_one. destruct (_ <=? _); [|by apply ensures_ret]. apply ensures_then; [apply keeps_try, keeps_insert, (fo_monitored _ _ Hf), He|].
    intros r. apply ensures_ret. destruct (is_ok r); [|done]. split; [|done].
    eapply (feed_ok_same cfg (with_ka e (mkKaSample nw (kas_w s)) f)); [done..|]. by apply feed_ok_ka.
  - intros f' [Hf' Ei]. apply IH; [done|]. by rewrite Ei.
Qed.
Lemma good_keepalive cfg : good d cfg (keepalive cfg).
Proof.
  intros f Hf. unfold keepalive. apply ensures_then; [apply keeps_now|]. intros nw.
  apply (ensures_bind _ _ _ _ _ (feed_ok cfg)).
  - apply good_keep_all; [done|]. apply Forall_forall. intros [e s] Hin%elem_of_map_to_list. apply (fo_alive _ _ Hf). by exists s.
  - intros f' Hf'. destruct (_ && _); [|by apply ensures_ret]. apply ensures_then; [keep|]. intros r. apply ensures_ret.
    destruct (is_ok r); [|done]. by eapply feed_ok_same; [..|exact Hf'].
Qed.
Lemma good_seed cfg climates : good d cfg (seed_hvac cfg climates).
Proof.
  intros f Hf. unfold seed_hvac. destruct (List.find _ _) as [c|]; [|by apply ensures_ret].
  destruct (_ && _); [|by apply ensures_ret]. apply ensures_then; [apply keeps_now|]. intros nw.
  apply ensures_then; [keep|]. intros r. apply ensures_ret. destruct (is_ok r); [|done]. by eapply feed_ok_same; [..|exact Hf].
Qed.
End Good.

Section Run.
Context (Marshal : json -> string) (getenv : string -> string) (ParseFloat : string -> float64 * bool)
        (ParseNumber : string -> option float64) (ParseRFC3339 Parse : string -> option time)
        (survivors : list string -> string -> DB -> time -> option Z) (format_g format_f2 : float64 -> string)
        (time_bucket : duration -> time -> time).
Notation wstep := (step Marshal getenv ParseFloat ParseNumber ParseRFC3339 Parse survivors format_g format_f2 time_bucket).
Notation wrun := (run Marshal getenv ParseFloat ParseNumber ParseRFC3339 Parse survivors format_g format_f2 time_bucket).

Lemma step_feed d p act :
  proc_ok p -> (forall cfg, good d cfg (act cfg)) -> ensures (grows (monitored p) d) (on_feed act p) proc_ok.
Proof.
  intros Hp Ha. unfold on_feed. destruct (pr_sub p) as [s|] eqn:Es; [|by apply ensures_ret].
  specialize (Hp s Es). set (f := with_auto _ _). assert (feed_ok (sub_cfg s) f) as Hf by (by eapply feed_ok_same; [..|exact Hp]).
  apply (ensures_bind _ _ _ _ _ (feed_ok (sub_cfg s))).
  - intros w [W1 W2]. pose proof (Ha (sub_cfg s) f Hf) as H.
    assert (forall d0, grows (fun e => e ∈ MonitoredEntities (sub_cfg s)) d d0 -> grows (monitored p) d d0) as Hm.
    { intros d0. apply grows_mono. intros e He. by exists s. }
    assert (forall e, monitored p e -> e ∈ MonitoredEntities (sub_cfg s)) as Hr.
    { intros e (s' & E' & He). rewrite E' in Es. by injection Es as ->. }
    destruct (H w) as [H1 H2]; [by apply (grows_mono (monitored p)); [exact Hr|split]|]. split; [by apply Hm|exact H2].
  - intros f' Hf'. apply ensures_ret. intros s' [= <-]. exact Hf'.
Qed.

Lemma resolved_monitored fresh cache ents info :
  resolveEntityInfo fresh cache ents = (info, true) -> info <> ∅ /\ forall e, is_Some (info !! e) -> e ∈ ents.
Proof.
  unfold resolveEntityInfo. intros [= <- Hok]. apply negb_true_iff, bool_decide_eq_false in Hok. split; [done|].
  intros e [i Hi]. rewrite fold_resolve_lookup, lookup_empty in Hi. by destruct (decide (e ∈ ents)).
Qed.

Lemma step_good d e p : proc_ok p -> ensures (grows (monitored p) d) (wstep e p) proc_ok.
Proof.
  intros Hp. destruct e as [accepted channel payload|woken sensors climates|text| |err restarted|sensors means events tz fetch]; cbn [step].
  - apply ensures_then; [keep|]. intros w. by apply ensures_ret.
  - destruct (pr_sub p) eqn:Es; [by apply ensures_ret|].
    set (p1 := if woken then _ else p). assert (pr_sub p1 = None) as E1 by (unfold p1; by destruct woken).
    assert (forall w, proc_ok (with_pr_worker w p1)) as Hw by (intros w s; cbn; by rewrite E1).
    unfold ha_iteration. cbv zeta. destruct (_ || _); [apply ensures_then; [keep|]; intros w; by apply ensures_ret|].
    destruct (buildEntityInfo _ _) as [fresh u]. destruct (resolveEntityInfo _ _ _) as [info ok] eqn:Er.
    destruct ok; cbn [negb]; [|apply ensures_then; [keep|]; intros w; by apply ensures_ret].
    apply resolved_monitored in Er as [Hne Hm]. set (f := mkFeed _ _ _ _ _ _ _).
    assert (feed_ok (wk_cfg (pr_worker p1)) f) as Hf.
    { constructor; [done..|]. intros e [x Hx]. discriminate Hx. }
    apply (ensures_bind _ _ _ _ _ (feed_ok (wk_cfg (pr_worker p1)))).
    + destruct (HVACConfigured _); [|by apply ensures_ret].
      intros w W. unfold seed_hvac. destruct (List.find _ _) as [c|]; [|by split; [|intros f' [= <-]]].
      destruct (_ && _); [|by split; [|intros f' [= <-]]]. revert w W. apply ensures_then; [apply keeps_now|]. intros nw.
      apply ensures_then; [keep|]. intros r. apply ensures_ret. destruct (is_ok r); [|done]. by eapply feed_ok_same; [..|exact Hf].
    + intros f' Hf'. apply ensures_ret. intros s' [= <-]. exact Hf'.
  - apply step_feed; [done|]. intros cfg. apply good_frame.
  - apply step_feed; [done|]. intros cfg. apply good_keepalive.
  - destruct (pr_sub p) eqn:Es; [|by apply ensures_ret]. apply ensures_then; [keep|]. intros w. by apply ensures_ret.
  - apply ensures_then; [apply keeps_round|]. intros _. by apply ensures_ret.
Qed.

(** C10: The worker never subscribes blind, stores nothing it was not asked to
    monitor, and loses nothing: along any run, whatever Home Assistant and the
    database answer and whichever statement fails, every subscription has a
    resolved entity and normalises only entities of the configuration it was opened
    with; every live sample of the table is still there, and a new one is of an
    entity that some subscription of the run monitored. *)
Theorem worker_samples_are_monitored (evs : list event) (p : proc) (w : World) :
  proc_ok p ->
  let '(visited, q, w') := wrun evs p w in
  Forall proc_ok visited /\ proc_ok q /\
  (forall r, rs_src r = "live" -> r ∈ reference_samples (w_db w) -> r ∈ reference_samples (w_db w')) /\
  (forall r, rs_src r = "live" -> r ∈ reference_samples (w_db w') ->
     r ∈ reference_samples (w_db w) \/ exists p', p' ∈ visited /\ monitored p' (rs_entity_id r)).
Proof.
  revert p w. induction evs as [|e evs IH]; intros p w Hp; cbn [run].
  - split; [by constructor|]. split; [done|]. split; auto.
  - pose proof (step_good (w_db w) e p Hp w (grows_refl _ _)) as [Hg Hq].
    assert (exists p1 w1, proc_ok p1 /\ grows (monitored p) (w_db w) (w_db w1) /\
              match wstep e p w with
              | (Ok p', w') => let '(l, q, w2) := wrun evs p' w' in (p :: l, q, w2)
              | (Err _, w') => let '(l, q, w2) := wrun evs p w' in (p :: l, q, w2)
              end = let '(l, q, w2) := wrun evs p1 w1 in (p :: l, q, w2)) as (p1 & w1 & Hp1 & Hg1 & ->).
    { destruct (wstep e p w) as [[p'|er] w'] eqn:E; cbn [fst snd] in *; [exists p', w'|exists p, w']; auto. }
    specialize (IH p1 w1 Hp1). destruct (wrun evs p1 w1) as [[l q] w2]. destruct IH as (Hv & Hq' & H1 & H2).
    split; [by constructor|]. split; [done|]. destruct Hg1 as [G1 G2]. split; [auto|].
    intros r Hr Hin. destruct (H2 r Hr Hin) as [H|(p' & Hp' & Hm)].
    + destruct (G2 r Hr H) as [?|Hm]; [by left|]. right. exists p. split; [left|done].
    + right. exists p'. split; [by right|done].
Qed.
End Run.

(** A worker that monitors one sensor, a frame with its power, and the run. *)
Definition one_sensor : worker :=
  mkWorker NewPublisher (FromMap (fun _ => "") (fun _ => (f0, false))
    {["ha_url" := "http://ha"; "ha_token" := "t"; "monitored_entities" := dq "['sensor.main']"]}) ∅ ∅ "" "" 0 false false.
Definition power_frame : string :=
  dq "{'type':'event','event':{'variables':{'trigger':{'to_state':{'entity_id':'sensor.main','state':'5','last_updated':null,'attributes':{}}}}}}".
Definition connect_and_frame : list event :=
  [Iterate false (inr [mkEntity "sensor.main" "Main" "5" "W" "power"]) None; Frame power_frame].
Definition five_watts : string -> option float64 := fun s => if (s =? "5")%string then Some (of_Z 5) else None.

Lemma worker_samples_are_monitored_witness :
  let '(visited, q, w') := run (fun _ => "") (fun _ => "") (fun _ => (f0, false)) five_watts (fun _ => None) (fun _ => None)
      (fun _ _ _ _ => None) (fun _ => "") (fun _ => "") (fun _ t => t) connect_and_frame (start_proc one_sensor) (mkWorld empty_DB 7 []) in
  map (fun r => (rs_ts r, rs_entity_id r)) (reference_samples (w_db w')) = [(7, "sensor.main")] /\
  exists p', p' ∈ visited /\ monitored p' "sensor.main".
Proof.
  pose proof (worker_samples_are_monitored (fun _ => "") (fun _ => "") (fun _ => (f0, false)) five_watts (fun _ => None) (fun _ => None)
    (fun _ _ _ _ => None) (fun _ => "") (fun _ => "") (fun _ t => t) connect_and_frame (start_proc one_sensor) (mkWorld empty_DB 7 [])
    (fun s H => match H with eq_refl => I end)) as H.
  assert (map (fun r => (rs_ts r, rs_entity_id r, rs_src r)) (reference_samples (w_db (run (fun _ => "") (fun _ => "") (fun _ => (f0, false)) five_watts (fun _ => None) (fun _ => None)
      (fun _ _ _ _ => None) (fun _ => "") (fun _ => "") (fun _ t => t) connect_and_frame (start_proc one_sensor) (mkWorld empty_DB 7 [])).2)) =
      [(7, "sensor.main", "live")]) as E by (vm_compute; reflexivity).
  destruct (run _ _ _ _ _ _ _ _ _ _ _ _ _) as [[visited q] w']. cbn [snd] in E.
  destruct (reference_samples (w_db w')) as [|[t e v src] [|]] eqn:Er; try discriminate E. injection E as -> -> ->.
  split; [reflexivity|]. destruct H as (_ & _ & _ & H).
  destruct (H (mkRefSample 7 "sensor.main" v "live")) as [Hin|Hm]; [reflexivity|left|by apply elem_of_nil in Hin|exact Hm].
Defined.
