(* ===== verification/Analytics.v ===== *)
(** * Usage profiles, benchmark, coverage and anomalies ([internal/db/analytics.go])

    Everything reads the clean hourly deltas of [Deltas].  The calendar of a zone
    is a parameter: the local day of an instant, its hour and its day of the
    week. *)

From S2P Require Import Prelude Float64 Model Calendar Store Ert Database Deltas Samples Rounding Confidence Correlate.

Record ProfilePoint := mkProfile { pp_Key : Z; pp_Value : float64 }.
Record HeatCell := mkHeat { hc_Dow : Z; hc_Hour : Z; hc_Value : float64 }.
Record DailyPoint := mkDaily { dp_Day : string; dp_Value : float64 }.
Record Benchmark := mkBench {
  bm_EndpointID : Z; bm_Commodity : string; bm_Days : Z; bm_Yours : float64; bm_Median : float64;
  bm_Percentile : float64; bm_Peers : Z }.
Record CoverageCell := mkCell { cc_Source : string; cc_EndpointID : Z; cc_Packets : Z; cc_LastSeen : string }.
Record SourcePoint := mkSrcPoint { sp_Bucket : string; sp_Packets : Z }.
Record Anomaly := mkAnomaly { an_Kind : string; an_EndpointID : Z; an_Source : string; an_Detail : string }.

(** [days <= 0] and an empty zone take their defaults. *)
Definition days_or (dflt days : Z) : Z := if days <=? 0 then dflt else days.
Definition zone_or (tz : string) : string := if is_empty tz then "UTC" else tz.

(** [GROUP BY k]: the deltas of each key, by ascending key. *)
Definition group_deltas (key : time -> Z) (rows : list HourRow) : list (Z * list float64) :=
  map (fun k => (k, map hr_delta (List.filter (fun r => key (hr_hb r) =? k) rows)))
    (sorted_Z (map (fun r => key (hr_hb r)) rows)).

(** ** [medianOf]: insertion sort on a copy *)

(** [for j := i; j > 0 && cp[j-1] > cp[j]; j--]: swap down. *)
Fixpoint sift (cp : list float64) (j : nat) : list float64 :=
  match j with
  | O => cp
  | S j' =>
      match cp !! j', cp !! j with
      | Some a, Some b => if (b <? a)%f64 then sift (<[j' := b]> (<[j := a]> cp)) j' else cp
      | _, _ => cp
      end
  end.
Definition isort (xs : list float64) : list float64 := fold_left sift (seq 1 (length xs - 1)) xs.
Definition medianOf (xs : list float64) : float64 :=
  let n := length xs in
  match xs with
  | [] => f0
  | _ =>
      let cp := isort xs in
      if Nat.odd n then from_opt f0 (cp !! (n / 2)%nat)
      else ((from_opt f0 (cp !! (n / 2 - 1)%nat) + from_opt f0 (cp !! (n / 2)%nat)) / of_Z 2)%f64
  end.

Section Analytics.
Context (time_bucket : duration -> time -> time)
        (local_day : string -> time -> Z) (local_hour local_dow : string -> time -> Z).

(** The clean hours of a meter in the last [days] days. *)
Definition recent_hours (id days : Z) (d : DB) (nw : time) : list HourRow :=
  hourly_deltas time_bucket (fun b => nw - days * Day <=? b) id d.

Definition profile (key : string -> time -> Z) (id days : Z) (tz : string) : M (list ProfilePoint) :=
  query (fun d nw =>
    map (fun g => mkProfile g.1 (round (deref (avg g.2)) 3))
      (group_deltas (key (zone_or tz)) (recent_hours id (days_or 7 days) d nw))).
Definition HourlyProfile := profile local_hour.
Definition DowProfile := profile local_dow.

(** Cells by day and hour (the query gives no order). *)
Definition Heatmap (id days : Z) (tz : string) : M (list HeatCell) :=
  query (fun d nw =>
    let z := zone_or tz in
    let rows := recent_hours id (days_or 14 days) d nw in
    concat (map (fun g : Z * list HourRow =>
        map (fun h => mkHeat g.1 h.1 (round (deref (avg h.2)) 3)) (group_deltas (local_hour z) g.2))
      (map (fun k => (k, List.filter (fun r => local_dow z (hr_hb r) =? k) rows))
         (sorted_Z (map (fun r => local_dow z (hr_hb r)) rows))))).

Definition DailyRollup (id days : Z) (tz : string) : M (list DailyPoint) :=
  query (fun d nw =>
    map (fun g => mkDaily (date_text g.1) (round (deref (sql_sum g.2)) 2))
      (group_deltas (local_day (zone_or tz)) (recent_hours id (days_or 30 days) d nw))).

Definition MovementSince (id : Z) (since : time) : M float64 :=
  nw ← now; m ← MovementBetween time_bucket id since nw; mret (deref m).

(** ** [BenchmarkMeter] *)

(** Every meter with its movement over the window, and its type. *)
Definition movements (days : Z) (d : DB) (nw : time) : list (Z * option Z * float64) :=
  map (fun kv => (kv.1, ix_endpoint_type kv.2, deref (sql_sum (map hr_delta (recent_hours kv.1 days d nw)))))
    (map_to_list (meter_index d)).
Definition is_peer (commodity : string) (r : Z * option Z * float64) : bool :=
  (Commodity r.1.2 =? commodity)%string && negb (r.2 <=? f0)%f64.
Definition bench_of (id days : Z) (all : list (Z * option Z * float64)) : Benchmark :=
  match List.find (fun r => r.1.1 =? id) all with
  | None => mkBench id "" days f0 f0 f0 0
  | Some t =>
      let commodity := Commodity t.1.2 in
      let peers := map snd (List.filter (is_peer commodity) all) in
      let below := length (List.filter (fun m => (m <? t.2)%f64) peers) in
      mkBench id commodity days (round t.2 2)
        (match peers with [] => f0 | _ => round (medianOf peers) 2 end)
        (match peers with
         | [] => f0
         | _ => round (of_Z 100 * of_Z (Z.of_nat below) / of_Z (Z.of_nat (length peers)))%f64 1
         end)
        (Z.of_nat (length peers))
  end.
Definition BenchmarkMeter (id days : Z) : M Benchmark :=
  let days := days_or 7 days in query (fun d nw => bench_of id days (movements days d nw)).

(** ** Coverage and reception *)

Definition CoverageMatrix : M (list CoverageCell) :=
  query (fun d _ =>
    map (fun kv : Z * string * SourceRow => mkCell kv.1.2 kv.1.1 (ms_packets kv.2) (RFC3339 (ms_last_seen kv.2)))
      (sort_by (fun a b : Z * string * SourceRow =>
         if (a.1.2 =? b.1.2)%string then ms_packets b.2 <=? ms_packets a.2 else String.leb a.1.2 b.1.2)
         (map_to_list (meter_source d)))).

(** Per source the packets of each bucket, by bucket.  A reading without a source
    is stored under the empty one, which is not NULL. *)
Definition SourceTimeline (since : time) (bucket : string) : M (gmap string (list SourcePoint)) :=
  query (fun d _ =>
    let rows := List.filter (fun rr => since <=? r_TS rr.1) (readings d) in
    let tb := time_bucket (bucketInterval bucket) in
    list_to_map (map (fun src =>
      let mine := List.filter (fun rr => (r_Source rr.1 =? src)%string) rows in
      (src, map (fun b => mkSrcPoint (RFC3339 b)
                  (Z.of_nat (length (List.filter (fun rr => tb (r_TS rr.1) =? b) mine))))
              (sorted_Z (map (fun rr => tb (r_TS rr.1)) mine))))
      (names (map (fun rr => r_Source rr.1) rows)))).

(** ** [Anomalies] *)

Definition tracked (m : MeterRow) : bool := from_opt false (mr_is_mine m) || from_opt false (mr_publish m).
Definition tracked_ids (d : DB) : list Z :=
  omap (fun kv => if tracked kv.2 then Some kv.1 else None) (map_to_list (meters d)).

Definition dropouts (d : DB) (nw : time) : list Anomaly :=
  omap (fun id =>
    match meter_index d !! id with
    | Some ix => if ix_last_seen ix <? nw - 15 * Minute
                 then Some (mkAnomaly "dropout" id "" ("last heard " ++ RFC3339 (ix_last_seen ix))) else None
    | None => None
    end) (tracked_ids d).

(** [max(max_c) - min(min_c)] of the minutes of a meter in a range. *)
Definition swing (keep : time -> bool) (id : Z) (d : DB) : option float64 :=
  let rows := List.filter (fun a => keep (ag_bucket a)) (agg_rows time_bucket Minute id d) in
  match sql_max (map ag_max rows), sql_min (map ag_min rows) with
  | Some hi, Some lo => Some (hi - lo)%f64
  | _, _ => None
  end.
Definition is_stuck (d : DB) (nw : time) (id : Z) : bool :=
  match swing (fun b => (nw - 25 * Hour <=? b) && (b <? nw - Hour)) id d with
  | Some p => negb (pg_le p f0) && (from_opt f0 (swing (fun b => (nw - Hour <=? b)%Z) id d) =? f0)%f64
  | None => false
  end.
Definition stuck (d : DB) (nw : time) : list Anomaly :=
  map (fun id => mkAnomaly "stuck" id "" "odometer flat for 1h while active in prior 24h")
    (List.filter (is_stuck d nw) (tracked_ids d)).

Definition dead_sources (live : list string) (d : DB) (nw : time) : list Anomaly :=
  omap (fun kv => if (hb_updated_at kv.2 <? nw - 10 * Minute) && bool_decide (kv.1 ∈ live)
                  then Some (mkAnomaly "source_down" 0 kv.1 "no data in 10+ min") else None)
    (map_to_list (capture_heartbeat d)).

(** A query that fails contributes nothing. *)
Definition Anomalies (live : list string) : M (list Anomaly) :=
  a ← try (query dropouts);
  b ← try (query stuck);
  c ← try (query (dead_sources live));
  let get r := match r with Ok l => l | Err _ => [] end in
  mret (get a ++ get b ++ get c)%list.
End Analytics.

(** ** Lemmas *)

(** Insertion after the elements at most [x]. *)
Fixpoint insert_after (x : float64) (l : list float64) : list float64 :=
  match l with
  | [] => [x]
  | z :: l' => if pg_le z x then z :: insert_after x l' else x :: z :: l'
  end.

Lemma insert_commute x y l : insert_by pg_le y (insert_after x l) = insert_after x (insert_by pg_le y l).
Proof.
  induction l as [|z l IH]; cbn [insert_after insert_by]; [by destruct (pg_le y x)|].
  destruct (pg_le z x) eqn:Ez.
  - cbn [insert_by]. destruct (pg_le y z) eqn:Ey; cbn [insert_after].
    + by rewrite (pg_le_trans _ _ _ Ey Ez), Ez.
    + by rewrite Ez, IH.
  - cbn [insert_by]. destruct (pg_le y z) eqn:Ey; cbn [insert_after].
    + destruct (pg_le y x); [|done]. by rewrite Ez.
    + rewrite Ez. destruct (pg_le y x) eqn:Eyx; [|done]. exfalso.
      destruct (pg_le_total x z) as [H|H]; [|congruence]. rewrite (pg_le_trans _ _ _ Eyx H) in Ey. done.
Qed.

Lemma sort_by_snoc l x : sort_by pg_le (l ++ [x]) = insert_after x (sort_by pg_le l).
Proof. induction l as [|y l IH]; [done|]. cbn. rewrite <- insert_commute. f_equal. exact IH. Qed.

Lemma insert_after_snoc x l a :
  pg_le a x = false -> insert_after x (l ++ [a]) = (insert_after x l ++ [a])%list.
Proof.
  intros Ha. induction l as [|z l IH]; cbn; [by rewrite Ha|]. destruct (pg_le z x); [by rewrite IH|done].
Qed.

Lemma insert_after_last x l : (forall z, z ∈ l -> pg_le z x = true) -> insert_after x l = (l ++ [x])%list.
Proof.
  induction l as [|z l IH]; intros H; cbn; [done|]. rewrite H by left. f_equal. apply IH. intros y Hy. apply H. by right.
Qed.

Definition no_nan (l : list float64) : Prop := forall x, x ∈ l -> is_nan x = false.

Lemma pg_le_fltb a b : is_nan a = false -> is_nan b = false -> fltb b a = negb (pg_le a b).
Proof.
  intros Na Nb. unfold pg_le. rewrite Na, Nb. destruct (fleb a b) eqn:E.
  - destruct (fltb b a) eqn:E'; [exfalso; by eapply flt_not_fle|done].
  - by apply fleb_false in E.
Qed.

(** Swapping down inserts into a sorted prefix. *)
Lemma sift_insert l x rest :
  StronglySorted (fun a b => pg_le a b = true) l -> no_nan (l ++ [x]) ->
  sift (l ++ x :: rest) (length l) = (insert_after x l ++ rest)%list.
Proof.
  revert rest. induction l as [|a l IH] using rev_ind; intros rest Hs Hn; [done|].
  rewrite length_app. cbn [length]. rewrite Nat.add_1_r. cbn [sift].
  rewrite <- app_assoc. cbn [app].
  rewrite (list_lookup_middle l (x :: rest) a (length l)) by done.
  rewrite (lookup_app_r l (a :: x :: rest)) by lia.
  replace (S (length l) - length l)%nat with 1%nat by lia. cbn [lookup list_lookup].
  assert (is_nan a = false) as Na by (apply Hn; set_solver).
  assert (is_nan x = false) as Nx by (apply Hn; set_solver).
  rewrite pg_le_fltb by done. destruct (pg_le a x) eqn:Ea; cbn [negb].
  - rewrite insert_after_last, <- !app_assoc; [done|]. intros z Hz.
    apply elem_of_app in Hz as [Hz|Hz%list_elem_of_singleton]; [|by subst].
    eapply pg_le_trans; [|exact Ea].
    clear -Hs Hz. induction l as [|y l IH]; [by apply elem_of_nil in Hz|].
    apply StronglySorted_inv in Hs as [Hs Hf]. rewrite Forall_forall in Hf.
    apply elem_of_cons in Hz as [->|Hz]; [apply Hf; set_solver|by apply IH].
  - replace (<[length l := x]> (<[S (length l) := a]> (l ++ a :: x :: rest)))%list with (l ++ x :: a :: rest)%list.
    + rewrite IH, insert_after_snoc, <- app_assoc; [done|done| |].
      * clear -Hs. induction l as [|y l IH]; [constructor|]. apply StronglySorted_inv in Hs as [Hs Hf].
        constructor; [by apply IH|]. by apply Forall_app in Hf as [? _].
      * intros z Hz. apply Hn. set_solver.
    + rewrite (insert_app_r_alt l) by lia. replace (S (length l) - length l)%nat with 1%nat by lia.
      rewrite (insert_app_r_alt l) by lia. by rewrite Nat.sub_diag.
Qed.

Lemma sort_by_strongly l : StronglySorted (fun a b => pg_le a b = true) (sort_by pg_le l).
Proof.
  apply Sorted_StronglySorted; [intros a b c; apply pg_le_trans|]. apply sort_by_sorted, pg_le_total.
Qed.

Lemma isort_steps xs i :
  no_nan xs -> (1 <= i <= length xs)%nat ->
  fold_left sift (seq 1 (i - 1)) xs = (sort_by pg_le (take i xs) ++ drop i xs)%list.
Proof.
  intros Hn. induction i as [|i IH]; intros Hi; [lia|]. destruct (decide (i = 0%nat)) as [->|Hi0].
  - destruct xs as [|x xs]; [cbn in Hi; lia|done].
  - replace (S i - 1)%nat with ((i - 1) + 1)%nat by lia. rewrite seq_app, fold_left_app, IH by lia. cbn [seq fold_left].
    replace (1 + (i - 1))%nat with i by lia.
    destruct (lookup_lt_is_Some_2 xs i) as [x Hx]; [lia|].
    rewrite (drop_S _ x) by done. rewrite (take_S_r _ _ x) by done. rewrite sort_by_snoc.
    assert (length (sort_by pg_le (take i xs)) = i) as El by (rewrite sort_by_perm, length_take; lia).
    pose proof (sift_insert (sort_by pg_le (take i xs)) x (drop (S i) xs)) as HS. rewrite El in HS.
    apply HS; [apply sort_by_strongly|].
    intros z Hz. apply Hn. apply elem_of_app in Hz as [Hz|Hz%list_elem_of_singleton].
    + rewrite sort_by_perm in Hz. apply elem_of_take in Hz as (k & Hk & _). by eapply list_elem_of_lookup_2.
    + subst z. by eapply list_elem_of_lookup_2.
Qed.

Lemma isort_sort xs : no_nan xs -> isort xs = sort_by pg_le xs.
Proof.
  intros Hn. unfold isort. destruct xs as [|x xs]; [done|].
  rewrite isort_steps by (done || cbn; lia). rewrite take_ge, drop_ge by lia. by rewrite app_nil_r.
Qed.

(** ** Properties *)

(** The hand-written insertion sort behind the peer median gives exactly the
    list that a stable [ORDER BY] gives, on values that are not NaN, whatever their
    number and order; the median is its middle element, or the mean of its two
    middle elements. *)
Theorem medianOf_order_by (xs : list float64) :
  no_nan xs ->
  isort xs = sort_by pg_le xs /\ isort xs ≡ₚ xs /\ StronglySorted (fun a b => pg_le a b = true) (isort xs) /\
  (forall m, length xs = (2 * m + 1)%nat -> exists x, sort_by pg_le xs !! m = Some x /\ medianOf xs = x) /\
  (forall m, (0 < m)%nat -> length xs = (2 * m)%nat -> exists x y, sort_by pg_le xs !! (m - 1)%nat = Some x /\
     sort_by pg_le xs !! m = Some y /\ medianOf xs = ((x + y) / of_Z 2)%f64).
Proof.
  intros Hn. rewrite isort_sort by done.
  assert (length (sort_by pg_le xs) = length xs) as El by (by rewrite sort_by_perm).
  split_and!; [done|apply sort_by_perm|apply sort_by_strongly| |].
  - intros m Hm. destruct (lookup_lt_is_Some_2 (sort_by pg_le xs) m) as [x Hx]; [lia|].
    exists x. split; [done|]. unfold medianOf. destruct xs as [|y ys]; [cbn in Hm; lia|]. rewrite isort_sort by done.
    set (l := y :: ys) in *. assert (Nat.odd (length l) = true) as -> by (rewrite Hm, Nat.odd_odd; done).
    replace (length l / 2)%nat with m by (rewrite Hm; apply (Nat.div_unique _ 2 m 1); lia). by rewrite Hx.
  - intros m Hm Hl. destruct (lookup_lt_is_Some_2 (sort_by pg_le xs) (m - 1)) as [x Hx]; [lia|].
    destruct (lookup_lt_is_Some_2 (sort_by pg_le xs) m) as [y Hy]; [lia|].
    exists x, y. split_and!; [done|done|]. unfold medianOf. destruct xs as [|z zs]; [cbn in Hl; lia|].
    rewrite isort_sort by done. set (l := z :: zs) in *.
    assert (Nat.odd (length l) = false) as -> by (rewrite Hl, Nat.odd_even; done).
    replace (length l / 2)%nat with m by (rewrite Hl; apply (Nat.div_unique _ 2 m 0); lia). by rewrite Hx, Hy.
Qed.

Lemma medianOf_order_by_witness :
  medianOf [of_Z 9; of_Z 2; of_Z 5] = of_Z 5 /\ isort [of_Z 9; of_Z 2; of_Z 5] = [of_Z 2; of_Z 5; of_Z 9].
Proof.
  destruct (medianOf_order_by [of_Z 9; of_Z 2; of_Z 5]) as (H1 & _ & _ & H2 & _).
  - intros x Hx. repeat (apply elem_of_cons in Hx as [->|Hx]; [vm_compute; reflexivity|]). by apply elem_of_nil in Hx.
  - split; [|rewrite H1; vm_compute; reflexivity].
    destruct (H2 1%nat) as (x & Hx & ->); [reflexivity|]. vm_compute in Hx |- *. injection Hx as <-. reflexivity.
Defined.
