(* ===== verification/Consumption.v ===== *)
(** * The consumption page ([internal/db/consumption.go])

    Calendar periods in the user's zone, the slots of a page, its buckets, totals
    and overlays.  A zone is given by three parameters: [local_day] and
    [local_clock], the date and the wall clock of an instant, and [wall],
    [time.Date] of a date and a wall clock. *)

From S2P Require Import Prelude Float64 Model Calendar Store Config Database Deltas Meters Samples Rounding Confidence Correlate Utility.

Record ConsumptionBucket := mkBucket {
  cb_Start : string; cb_Label : string; cb_Value : option float64; cb_Packets : Z;
  cb_Monitored : option float64; cb_UtilityEst : option float64 }.
Record ConsumptionResult := mkConsumption {
  cr_EndpointID : Z; cr_View : string; cr_TZ : string; cr_Anchor : string;
  cr_PeriodStart : string; cr_PeriodEnd : string; cr_PrevAnchor : option string; cr_NextAnchor : option string;
  cr_Granularity : string; cr_Unit : string; cr_Multiplier : float64; cr_Calibrated : bool;
  cr_Buckets : list ConsumptionBucket; cr_Total : option float64; cr_AvgPerDay : option float64;
  cr_PrevTotal : option float64; cr_Coverage : float64 }.

(** A slot: join key, start, label. *)
Record consumptionSlot := mkSlot { sl_key : string; sl_start : time; sl_label : string }.

(** ** Dates *)

Definition weekday (day : Z) : Z := (day + 4) mod 7.
Definition weekday_name (day : Z) : string :=
  nth (Z.to_nat (weekday day)) ["Sun"; "Mon"; "Tue"; "Wed"; "Thu"; "Fri"; "Sat"] "".
Definition month_name (m : Z) : string :=
  nth (Z.to_nat (m - 1)) ["Jan"; "Feb"; "Mar"; "Apr"; "May"; "Jun"; "Jul"; "Aug"; "Sep"; "Oct"; "Nov"; "Dec"] "".
(** The day number of a date whose month and day may overflow. *)
Definition civil_date (y m d : Z) : Z := days_from_civil (y + (m - 1) / 12) ((m - 1) mod 12 + 1) 1 + (d - 1).

Definition valid_view (view : string) : bool :=
  (view =? "day")%string || (view =? "week")%string || (view =? "month")%string || (view =? "year")%string.
(** Week or month: the slots are days. *)
Definition by_day (view : string) : bool := (view =? "week")%string || (view =? "month")%string.

(** [start.UTC().Truncate(time.Hour)] and the hours from there before [fin]. *)
Definition first_hour (start : time) : time := Truncate start Hour.
Definition hour_count (start fin : time) : nat := Z.to_nat ((fin - first_hour start + Hour - 1) / Hour).

Section Calendar.
Context (local_day local_clock : string -> time -> Z) (wall : string -> Z -> Z -> time).

Definition AddDate (tz : string) (t : time) (dy dm dd : Z) : time :=
  let '(y, m, d) := civil_from_days (local_day tz t) in
  wall tz (civil_date (y + dy) (m + dm) (d + dd)) (local_clock tz t).

Definition periodStartAt (view : string) (t : time) (tz : string) : time :=
  let day := local_day tz t in
  let '(y, m, d) := civil_from_days day in
  if (view =? "day")%string then wall tz day 0
  else if (view =? "week")%string then let t0 := wall tz day 0 in AddDate tz t0 0 0 (- weekday (local_day tz t0))
  else if (view =? "month")%string then wall tz (civil_date y m 1) 0
  else wall tz (civil_date y 1 1) 0.
Definition periodNext (view : string) (tz : string) (start : time) : time :=
  if (view =? "day")%string then AddDate tz start 0 0 1
  else if (view =? "week")%string then AddDate tz start 0 0 7
  else if (view =? "month")%string then AddDate tz start 0 1 0
  else AddDate tz start 1 0 0.
Definition periodPrev (view : string) (tz : string) (start : time) : time :=
  if (view =? "day")%string then AddDate tz start 0 0 (-1)
  else if (view =? "week")%string then AddDate tz start 0 0 (-7)
  else if (view =? "month")%string then AddDate tz start 0 (-1) 0
  else AddDate tz start (-1) 0 0.

Definition local_date (tz : string) (t : time) : string := date_text (local_day tz t).
Definition clock_label (tz : string) (t : time) : string :=
  let s := local_clock tz t / Second in (pad2 (s / 3600) ++ ":" ++ pad2 (s / 60 mod 60))%string.
Definition day_label (view : string) (tz : string) (t : time) : string :=
  let day := local_day tz t in
  let '(_, m, d) := civil_from_days day in
  ((if (view =? "month")%string then month_name m else weekday_name day) ++ " " ++ FormatInt d)%string.

(** The slots from [t] on; the fuel bounds the steps. *)
Fixpoint hour_slots (n : nat) (tz : string) (t fin : time) : list consumptionSlot :=
  match n with
  | O => []
  | S n' => if Before t fin then mkSlot (RFC3339 t) t (clock_label tz t) :: hour_slots n' tz (Add t Hour) fin else []
  end.
Fixpoint day_slots (n : nat) (view tz : string) (t fin : time) : list consumptionSlot :=
  match n with
  | O => []
  | S n' => if Before t fin
            then mkSlot (local_date tz t) t (day_label view tz t) :: day_slots n' view tz (AddDate tz t 0 0 1) fin
            else []
  end.
Fixpoint month_slots (n : nat) (tz : string) (t fin : time) : list consumptionSlot :=
  match n with
  | O => []
  | S n' => if Before t fin
            then mkSlot (month_of (local_date tz t)) t (let '(_, m, _) := civil_from_days (local_day tz t) in month_name m)
                   :: month_slots n' tz (AddDate tz t 0 1 0) fin
            else []
  end.
(** Every step is at least an hour in any zone. *)
Definition consumptionSlots (view : string) (start fin : time) (tz : string) : list consumptionSlot :=
  if (view =? "day")%string then hour_slots (hour_count start fin) tz (first_hour start) fin
  else let n := Z.to_nat ((fin - start + Hour - 1) / Hour) in
       if by_day view then day_slots n view tz start fin else month_slots n tz start fin.

(** The group key of an hour, and the granularity. *)
Definition group_key (view tz : string) (hb : time) : string :=
  if (view =? "day")%string then RFC3339 hb
  else if by_day view then local_date tz hb else month_of (local_date tz hb).
Definition granularity (view : string) : string :=
  if (view =? "day")%string then "hour" else if by_day view then "day" else "month".

(** ** The page *)

(** [got]: units and packets of each key. *)
Definition cells (key : time -> string) (rows : list HourRow) : gmap string (float64 * Z) :=
  list_to_map (map (fun k =>
    let here := List.filter (fun r => (key (hr_hb r) =? k)%string) rows in
    (k, (fsum (map hr_delta here), foldr (fun r n => hr_n r + n) 0 here)))
    (names (map (fun r => key (hr_hb r)) rows))).

Definition bucket_at (mult : float64) (got : gmap string (float64 * Z)) (mon utl : gmap string float64)
    (s : consumptionSlot) : ConsumptionBucket :=
  mkBucket (RFC3339 (sl_start s)) (sl_label s)
    (option_map (fun c : float64 * Z => round (c.1 * mult)%f64 3) (got !! sl_key s))
    (match got !! sl_key s with Some c => c.2 | None => 0 end)
    (option_map (fun v => round v 3) (mon !! sl_key s)) (option_map (fun v => round v 3) (utl !! sl_key s)).

(** The days the page has covered by now: at least an hour. *)
Definition elapsed_days (start fin nw : time) : float64 :=
  let e := if Before nw fin then nw else fin in
  let e := if After e start then e else fin in
  let days := (Hours (Sub e start) / of_Z 24)%f64 in
  if (days <? lit 1 24)%f64 then lit 1 24 else days.

(** Total and average of the values, [None] without any; the covered share. *)
Definition totals (buckets : list ConsumptionBucket) (start fin nw : time) : option float64 * option float64 * float64 :=
  let vs := omap cb_Value buckets in
  let total := fsum vs in
  let cov := match buckets with
             | [] => f0
             | _ => round (of_Z (Z.of_nat (length vs)) / of_Z (Z.of_nat (length buckets)))%f64 3
             end in
  match vs with
  | [] => (None, None, cov)
  | _ => (Some (round total 3), Some (round (total / elapsed_days start fin nw)%f64 3), cov)
  end.

Context (time_bucket : duration -> time -> time) (grid : time -> time -> list time)
        (valid_zone : string -> bool) (getenv : string -> string) (ParseFloat : string -> float64 * bool).

Definition midnight_of (tz : string) (day : Z) : time := wall tz day 0.

Definition hourly_kwh (rows : list EntityMinute) : gmap string float64 :=
  let pm := per_min rows in
  list_to_map (map (fun h =>
    let ws := map snd (List.filter (fun x => time_bucket Hour x.1 =? h) pm) in
    (RFC3339 h, (fsum ws / of_Z 60 / of_Z 1000)%f64))
    (sorted_Z (map (fun x => time_bucket Hour x.1) pm))).
Definition monitoredHourlyKwh (entities : list string) (lo hi : time) : M (gmap string float64) :=
  match entities with
  | [] => mret ∅
  | _ =>
      s ← try (query (fun d _ => sample_span entities d));
      match s with
      | Ok (Some (rlo, rhi)) =>
          let start := if After rlo lo then rlo else lo in
          let fin := if Before rhi hi then rhi else hi in
          if negb (Before start fin) then mret ∅
          else
            r ← try (over_reference time_bucket grid entities start fin (fun rows _ => hourly_kwh rows));
            mret (match r with Ok m => m | Err _ => ∅ end)
      | _ => mret ∅
      end
  end.

Definition utilityMonthlyKwh (statID : string) (factor : float64) (tz : string) : M (gmap string float64) :=
  r ← try (query (fun d _ =>
        let rows := bill_rows statID "month" d in
        list_to_map (map (fun k =>
          (k, (fsum (map snd (List.filter (fun x => (month_of (local_date tz x.1) =? k)%string) rows)) * factor)%f64))
          (names (map (fun x => month_of (local_date tz x.1)) rows)))));
  mret (match r with Ok m => m | Err _ => ∅ end).

(** Days folded into months. *)
Definition by_month (m : gmap string float64) : gmap string float64 :=
  list_to_map (map (fun k =>
    (k, fsum (map snd (List.filter (fun kv => (month_of kv.1 =? k)%string) (map_to_list m)))))
    (names (map (fun kv => month_of kv.1) (map_to_list m)))).

Definition consumptionOverlays (cfg : Config) (view tz : string) (start fin : time) (monitored utility : bool)
  : M (gmap string float64 * gmap string float64) :=
  mon ← (if monitored && ReferenceConfigured cfg then
           if (view =? "day")%string then monitoredHourlyKwh (MonitoredEntities cfg) start fin
           else
             m ← monitoredDailyKwh time_bucket grid local_day (MonitoredEntities cfg) tz start fin;
             mret (if by_day view then m else by_month m)
         else mret ∅);
  utl ← (if utility && UtilityConfigured cfg then
           if by_day view then
             es ← UtilityDailyEstimateRange time_bucket grid local_day midnight_of valid_zone getenv ParseFloat
                    (local_date tz start) (local_date tz (AddDate tz fin 0 0 (-1)));
             mret (fold_left (fun m e => <[ude_Day e := ude_FlatKwh e]> m) es ∅)
           else if (view =? "year")%string
                then utilityMonthlyKwh (UtilityStatisticID cfg) (kwhFactor (UtilityUnit cfg)) tz
                else mret ∅
         else mret ∅);
  mret (mon, utl).

Definition Consumption (id : Z) (view anchor : string) (monitored utility : bool) : M ConsumptionResult :=
  if negb (valid_view view) then fail "bad view"
  else
    cfg ← LoadConfig getenv ParseFloat;
    let tz := zone_of valid_zone (HATimeZone cfg) in
    nw ← now;
    match (if is_empty anchor then Some nw else option_map (midnight_of tz) (parse_date anchor)) with
    | None => fail "bad anchor"
    | Some at_ =>
        let start := periodStartAt view at_ tz in
        let fin := periodNext view tz start in
        fs ← try (queryRow (fun d _ => option_map ix_first_seen (meter_index d !! id)));
        m ← GetMeter id;
        let calibrated := match m_PubUnit m with Some u => negb (is_empty u) | None => false end in
        let mult := if calibrated then m_PubMultiplier m else f1 in
        got ← query (fun d _ => cells (group_key view tz) (page_rows time_bucket id start fin d));
        '(mon, utl) ← consumptionOverlays cfg view tz start fin monitored utility;
        let buckets := map (bucket_at mult got mon utl) (consumptionSlots view start fin tz) in
        let '(total, avg, cov) := totals buckets start fin nw in
        prev ← MovementBetween time_bucket id (periodPrev view tz start) start;
        mret (mkConsumption id view tz (local_date tz start) (RFC3339 start) (RFC3339 fin)
                (if match fs with Ok t => After start t | Err _ => true end
                 then Some (local_date tz (periodPrev view tz start)) else None)
                (if After fin nw then None else Some (local_date tz fin))
                (granularity view) (if calibrated then from_opt "" (m_PubUnit m) else "counts") mult calibrated
                buckets total avg (option_map (fun u => round (u * mult)%f64 3) prev) cov)
    end.
End Calendar.

(** ** Lemmas *)

Lemma first_hour_spec t : first_hour t <= t < first_hour t + Hour /\ exists q, first_hour t = Hour * q.
Proof.
  pose proof hour_pos. unfold first_hour. rewrite Truncate_Hour. pose proof (Z.mod_pos_bound t Hour ltac:(done)).
  split; [lia|]. exists (t / Hour). pose proof (Z.div_mod t Hour). lia.
Qed.

Lemma hour_slots_starts lc tz n t fin :
  fin <= t + Z.of_nat n * Hour ->
  map sl_start (hour_slots lc n tz t fin) =
    map (fun k => t + Z.of_nat k * Hour) (seq 0 (Z.to_nat ((fin - t + Hour - 1) / Hour))).
Proof.
  pose proof hour_pos as HH. revert t. induction n as [|n IH]; intros t Hf; cbn [hour_slots].
  - replace (Z.to_nat ((fin - t + Hour - 1) / Hour)) with 0%nat; [done|].
    symmetry. assert ((fin - t + Hour - 1) / Hour < 1) by (apply Z.div_lt_upper_bound; lia). lia.
  - unfold Before, Add. destruct (Z.ltb_spec t fin) as [Hlt|Hge].
    + cbn [map sl_start]. rewrite IH by lia.
      replace (fin - (t + Hour) + Hour - 1) with ((fin - t + Hour - 1) + (-1) * Hour) by lia.
      rewrite Z.div_add by lia.
      assert (1 <= (fin - t + Hour - 1) / Hour) by (apply Z.div_le_lower_bound; lia).
      replace (Z.to_nat ((fin - t + Hour - 1) / Hour)) with (S (Z.to_nat ((fin - t + Hour - 1) / Hour + -1))) by lia.
      cbn [seq map]. f_equal; [lia|]. rewrite <- seq_shift, map_map. apply map_ext. intros k. lia.
    + replace (Z.to_nat ((fin - t + Hour - 1) / Hour)) with 0%nat; [done|].
      symmetry. assert ((fin - t + Hour - 1) / Hour < 1) by (apply Z.div_lt_upper_bound; lia). lia.
Qed.

Lemma hour_slots_key lc tz n t fin s : s ∈ hour_slots lc n tz t fin -> sl_key s = RFC3339 (sl_start s).
Proof.
  revert t. induction n as [|n IH]; intros t; cbn [hour_slots]; [by intros ?%elem_of_nil|].
  destruct (Before t fin); [|by intros ?%elem_of_nil]. intros [->|Hs]%elem_of_cons; [done|by eapply IH].
Qed.

(** ** Properties *)

(** The slots of a day page are the consecutive UTC hours from the one that
    holds the start of the period, and every hour of the page has its slot, keyed as
    the query keys it.  In a zone whose midnight is not on a UTC hour, a day of 24
    hours has 25 slots, and the first one begins before the page: no hour the query
    returns can fall in it, so such a page is never fully covered. *)
Theorem day_slots_cover (local_day local_clock : string -> time -> Z) (wall : string -> Z -> Z -> time)
    (start fin : time) (tz : string) :
  let slots := consumptionSlots local_day local_clock wall "day" start fin tz in
  map sl_start slots = map (fun k => first_hour start + Z.of_nat k * Hour) (seq 0 (hour_count start fin)) /\
  (forall hb, hb mod Hour = 0 -> start <= hb < fin ->
     exists s, s ∈ slots /\ sl_start s = hb /\ sl_key s = group_key local_day "day" tz hb) /\
  (start mod Hour <> 0 -> fin = start + 24 * Hour ->
     length slots = 25%nat /\ (exists s, head slots = Some s /\ sl_start s < start) /\
     forall time_bucket id d r, r ∈ page_rows time_bucket id start fin d ->
       forall s, head slots = Some s -> hr_hb r <> sl_start s).
Proof.
  intros slots. pose proof hour_pos as HH. destruct (first_hour_spec start) as [Hf [q Hq]].
  assert (map sl_start slots = map (fun k => first_hour start + Z.of_nat k * Hour) (seq 0 (hour_count start fin))) as Hs.
  { unfold slots, consumptionSlots. cbn [String.eqb Ascii.eqb Bool.eqb]. rewrite hour_slots_starts; [done|].
    unfold hour_count. pose proof (Z.mul_succ_div_gt (fin - first_hour start + Hour - 1) Hour HH).
    destruct (Z.le_gt_cases 0 ((fin - first_hour start + Hour - 1) / Hour)).
    - rewrite Z2Nat.id by done. lia.
    - lia. }
  split; [done|]. split.
  - intros hb Hm Hhb. apply Z.mod_divide in Hm as [p Hp]; [|lia].
    assert (hb ∈ map sl_start slots) as Hin.
    { rewrite Hs. apply list_elem_of_fmap. exists (Z.to_nat (p - q)). assert (q <= p) by nia.
      rewrite Z2Nat.id by lia. split; [lia|]. apply elem_of_seq. unfold hour_count.
      assert (p - q < (fin - first_hour start + Hour - 1) / Hour); [|lia].
      apply Z.lt_le_trans with (p - q + 1); [lia|]. apply Z.div_le_lower_bound; [lia|]. nia. }
    apply list_elem_of_fmap in Hin as (s & -> & Hin). exists s. split_and!; [done|done|].
    unfold slots, consumptionSlots in Hin. cbn [String.eqb Ascii.eqb Bool.eqb] in Hin.
    by apply hour_slots_key in Hin.
  - intros Hm ->. assert (first_hour start < start) as Hlt.
    { destruct (Z.eq_dec (first_hour start) start) as [E|]; [|lia]. exfalso. apply Hm. rewrite <- E, Hq.
      rewrite Z.mul_comm. apply Z.mod_mul. lia. }
    assert (hour_count start (start + 24 * Hour) = 25%nat) as Hc.
    { unfold hour_count. replace (start + 24 * Hour - first_hour start + Hour - 1)
        with ((start - first_hour start - 1) + 25 * Hour) by lia.
      rewrite Z.div_add, Z.div_small by lia. done. }
    rewrite Hc in Hs. split; [by rewrite <- (length_map sl_start), Hs|].
    destruct slots as [|s l] eqn:El; [done|]. cbn [map seq] in Hs. injection Hs as Hs0 _.
    assert (sl_start s < start) as Hs1 by lia. split; [by exists s|].
    intros tb id d r Hr s' [= <-] E. apply list_elem_of_In, filter_In in Hr as [_ Hr]. apply Z.leb_le in Hr. lia.
Qed.

Lemma day_slots_cover_witness :
  length (consumptionSlots (fun _ t => (t + 30 * Minute) / Day) (fun _ t => (t + 30 * Minute) mod Day)
            (fun _ d c => d * Day + c - 30 * Minute) "day" (- (30 * Minute)) (- (30 * Minute) + 24 * Hour) "Asia/Kolkata") = 25%nat.
Proof.
  apply (day_slots_cover (fun _ t => (t + 30 * Minute) / Day) (fun _ t => (t + 30 * Minute) mod Day)
    (fun _ d c => d * Day + c - 30 * Minute) (- (30 * Minute)) (- (30 * Minute) + 24 * Hour) "Asia/Kolkata");
    [vm_compute; discriminate|reflexivity].
Defined.

Lemma LoadConfig_inv getenv ParseFloat w cfg w' :
  LoadConfig getenv ParseFloat w = (Ok cfg, w') ->
  cfg = FromMap getenv ParseFloat (settings (w_db w)) /\ w_now w' = w_now w.
Proof.
  unfold LoadConfig, GetSettings, query, statement, mbind, M_bind, mret, M_ret.
  by destruct (w_faults w) as [|[] fs]; intros [= <- <-].
Qed.

(** The end of the elapsed part of a page: now inside the period, else its end. *)
Lemma elapsed_days_spec start fin nw :
  elapsed_days start fin nw =
  (let last := if (start <? nw) && (nw <? fin) then nw else fin in
   let days := (Hours (Sub last start) / of_Z 24)%f64 in if (days <? lit 1 24)%f64 then lit 1 24 else days).
Proof.
  unfold elapsed_days, Before, After. cbv zeta. destruct (Z.ltb_spec nw fin), (Z.ltb_spec start nw); cbn [andb]; try done;
    by destruct (Z.ltb_spec start fin).
Qed.


Definition utc_date (tz : string) (t : time) : Z := t / Day.
Definition utc_clock (tz : string) (t : time) : Z := t mod Day.
Definition utc_wall (tz : string) (day clock : Z) : time := day * Day + clock.

