(* ===== verification/Admin.v ===== *)
(** * Maintenance ([internal/db/admin.go])

    The health snapshot, the maintenance operations and the deletions.  What the
    server's catalogue answers about sizes, chunks and policies, and which old rows
    lie in whole chunks, are parameters; on plain PostgreSQL these queries fail. *)

From S2P Require Import Prelude Float64 Model Calendar Store Database Deltas Samples Utility.

Definition adminTables : list string :=
  ["readings"; "readings_1m"; "readings_1h"; "reference_samples"; "hvac_samples";
   "meter_index"; "meter_source"; "meters"; "test_windows"; "sdr_devices"].

Record TableStat := mkTable { ts_Name : string; ts_Bytes : Z; ts_Rows : Z }.
Record SourceStat := mkSrcStat { ss_Source : string; ss_Rows : Z; ss_Oldest : string; ss_Newest : string }.
Record DBStats := mkStats {
  st_TotalBytes : Z; st_Tables : list TableStat; st_ReadingRows : Z;
  st_OldestReading : option string; st_NewestReading : option string;
  st_Chunks : Z; st_CompressedChunks : Z; st_UncompressedBytes : Z; st_CompressedBytes : Z;
  st_RetentionPolicy : string; st_CompressionPolicy : string; st_Sources : list SourceStat }.

Definition zlen {A} (l : list A) : Z := Z.of_nat (length l).

(** ** Maintenance operations *)

(** [DELETE FROM readings WHERE consumption <= 0]: NULL is kept. *)
Definition is_zero (rr : Reading * string) : bool :=
  match r_Consumption rr.1 with Some c => pg_le c f0 | None => false end.

(** The times and values of a meter's readings with a consumption, in insertion
    order. *)
Definition consumption_values (id : Z) (d : DB) : list (time * float64) :=
  omap (fun rr => if r_EndpointID rr.1 =? id then option_map (pair (r_TS rr.1)) (r_Consumption rr.1) else None)
    (readings d).
Definition recompute (d : DB) (id : Z) (x : IndexRow) : IndexRow :=
  let vs := consumption_values id d in
  match head (sort_by (fun a b => b.1 <=? a.1) vs), sql_min (map snd vs), sql_max (map snd vs) with
  | Some newest, lo, hi =>
      mkIndex (ix_msg_type x) (ix_endpoint_type x) (ix_first_seen x) (ix_last_seen x) (ix_packets x)
        lo hi (Some newest.2) newest.1
  | None, _, _ => x
  end.
Definition scrub_zeros : M unit :=
  exec (fun d _ => set_readings (List.filter (fun rr => negb (is_zero rr)) (readings d)) d) ;;
  exec (fun d _ => set_meter_index (map_imap (fun id x => Some (recompute d id x)) (meter_index d)) d).

(** [VACUUM], [REINDEX], the refreshes and the compression change no table. *)
Definition no_change : M unit := exec (fun d _ => d).
Definition RunMaintenance (op : string) : M unit :=
  if (op =? "vacuum")%string then no_change
  else if (op =? "reindex")%string then forM ["meter_index"; "meter_source"; "meters"; "sdr_devices"] (fun _ => no_change)
  else if (op =? "refresh_agg")%string then no_change ;; no_change
  else if (op =? "compress")%string then no_change
  else if (op =? "scrub_zeros")%string then scrub_zeros
  else fail "unknown maintenance op".

(** ** Deletions *)

(** The rows removed and the database without them. *)
Definition delete_readings (p : Reading * string -> bool) (d : DB) : Z * DB :=
  (zlen (List.filter p (readings d)), set_readings (List.filter (fun rr => negb (p rr)) (readings d)) d).

Definition DeleteReadingsBySource (source : string) : M Z :=
  if is_empty source then fail "source required"
  else
    n ← statement (fun d _ => Ok (delete_readings (fun rr => (r_Source rr.1 =? source)%string) d));
    ignore (exec (fun d _ => set_meter_source (filter (fun kv => kv.1.2 <> source) (meter_source d)) d)) ;;
    ignore (exec (fun d _ => set_capture_heartbeat (delete source (capture_heartbeat d)) d)) ;;
    mret n.

Definition PurgeAllReadings : M unit :=
  exec (fun d _ => set_readings [] d) ;;
  ignore (exec (fun d _ => d)) ;;
  ignore (exec (fun d _ => set_meter_index ∅ d)) ;;
  ignore (exec (fun d _ => set_meter_source ∅ d)).

Definition PurgeTests : M Z :=
  statement (fun d _ => Ok (Z.of_nat (size (test_windows d)), set_test_windows ∅ d)).

Section Admin.
(** [in_old_chunk cutoff ts]: the row lies in a chunk that ends before [cutoff]. *)
Context (time_bucket : duration -> time -> time) (in_old_chunk : time -> time -> bool).

Definition DeleteReadingsOlderThan (days : Z) : M Z :=
  if days <=? 0 then fail "days must be > 0"
  else
    let cutoff nw := nw - days * Day in
    ignore (exec (fun d nw => (delete_readings (fun rr => in_old_chunk (cutoff nw) (r_TS rr.1)) d).2)) ;;
    ignore (exec (fun d _ => d)) ;;
    statement (fun d nw => Ok (delete_readings (fun rr => r_TS rr.1 <? cutoff nw) d)).

(** ** The snapshot *)

Context (database_size : option Z) (hypertable_size relation_size : string -> option Z)
        (chunks : option (Z * Z)) (compression : option (Z * Z)) (retention compress_after : option string).

(** A catalogue query: [Scan] leaves the variable alone on an error. *)
Definition catalogue {A} (v : option A) (dflt : A) : M A :=
  r ← try (statement (fun d _ => match v with Some x => Ok (x, d) | None => Err "catalogue" end));
  mret (match r with Ok x => x | Err _ => dflt end).
Definition scan {A} (f : DB -> A) (dflt : A) : M A :=
  r ← try (query (fun d _ => f d)); mret (match r with Ok x => x | Err _ => dflt end).

Definition endpoint_ids (d : DB) : list Z := sorted_Z (map (fun rr => r_EndpointID rr.1) (readings d)).
Definition agg_count (w : duration) (d : DB) : Z :=
  foldr (fun id n => zlen (agg_rows time_bucket w id d) + n) 0 (endpoint_ids d).
Definition table_rows (t : string) (d : DB) : Z :=
  if (t =? "readings")%string then zlen (readings d)
  else if (t =? "readings_1m")%string then agg_count Minute d
  else if (t =? "readings_1h")%string then agg_count Hour d
  else if (t =? "reference_samples")%string then zlen (reference_samples d)
  else if (t =? "hvac_samples")%string then zlen (hvac_samples d)
  else if (t =? "meter_index")%string then Z.of_nat (size (meter_index d))
  else if (t =? "meter_source")%string then Z.of_nat (size (meter_source d))
  else if (t =? "meters")%string then Z.of_nat (size (meters d))
  else if (t =? "test_windows")%string then Z.of_nat (size (test_windows d))
  else Z.of_nat (size (sdr_devices d)).

Definition table_stat (t : string) : M TableStat :=
  h ← try (statement (fun d _ => match hypertable_size t with Some x => Ok (x, d) | None => Err "not a hypertable" end));
  bytes ← (match h with Ok x => mret x | Err _ => catalogue (relation_size t) 0 end);
  rows ← scan (table_rows t) 0;
  mret (mkTable t bytes rows).

Definition source_stats (d : DB) : list SourceStat :=
  sort_by (fun a b => ss_Rows b <=? ss_Rows a)
    (map (fun src =>
       let ts := map (fun rr => r_TS rr.1) (List.filter (fun rr => (r_Source rr.1 =? src)%string) (readings d)) in
       mkSrcStat src (zlen ts) (from_opt "" (option_map RFC3339Nano (min_time ts)))
         (from_opt "" (option_map RFC3339Nano (max_time ts))))
       (names (map (fun rr => r_Source rr.1) (readings d)))).

Definition Stats : M DBStats :=
  total ← catalogue database_size 0;
  tables ← mapM_ table_stat adminTables;
  n ← scan (fun d => zlen (readings d)) 0;
  '(oldest, newest) ← scan (fun d => let ts := map (fun rr => r_TS rr.1) (readings d) in (min_time ts, max_time ts)) (None, None);
  '(nc, ncc) ← catalogue chunks (0, 0);
  '(ub, cb) ← catalogue compression (0, 0);
  ret ← catalogue retention "";
  comp ← catalogue compress_after "";
  sources ← scan source_stats [];
  mret (mkStats total tables n (iso oldest) (iso newest) nc ncc ub cb ret comp sources).
End Admin.

(** ** Lemmas *)

Lemma sql_min_spec l :
  match sql_min l with Some m => m ∈ l /\ forall x, x ∈ l -> pg_le m x = true | None => l = [] end.
Proof.
  unfold sql_min. induction l as [|x l IH]; [done|]. cbn [foldr]. destruct (foldr _ None l) as [m|]; cbn [least].
  - destruct IH as [Hm Hall]. destruct (pg_le x m) eqn:E.
    + split; [left|]. intros y [->|Hy]%elem_of_cons; [apply pg_le_refl|]. by eapply pg_le_trans, Hall.
    + split; [by right|]. intros y [->|Hy]%elem_of_cons; [|by apply Hall].
      destruct (pg_le_total x m) as [H|H]; [congruence|done].
  - subst l. split; [left|]. intros y [->|Hy%elem_of_nil]%elem_of_cons; [apply pg_le_refl|done].
Qed.

Lemma filter_partition {A} (p : A -> bool) l :
  zlen (List.filter p l) = zlen l - zlen (List.filter (fun x => negb (p x)) l).
Proof. unfold zlen. induction l as [|x l IH]; cbn [List.filter length]; [done|]. destruct (p x); cbn [negb length]; lia. Qed.

Lemma values_after_scrub id d x :
  x ∈ consumption_values id (set_readings (List.filter (fun rr => negb (is_zero rr)) (readings d)) d) -> pg_le x.2 f0 = false.
Proof.
  unfold consumption_values. cbn [readings set_readings]. intros ([r raw] & Hin & E)%list_elem_of_omap.
  apply list_elem_of_In, filter_In in Hin as [_ Hz]. cbn [fst] in E. destruct (_ =? id); [|done].
  unfold is_zero in Hz. cbn [fst] in Hz. destruct (r_Consumption r) as [c|]; [|done].
  apply (inj Some) in E as <-. cbn [snd]. destruct (pg_le c f0); [discriminate Hz|reflexivity].
Qed.

(** ** Properties *)

(** Scrubbing removes exactly the readings with a consumption of zero or less
    and keeps the others in order; a meter that still has a consumption then shows
    its true minimum, which is positive, and its newest value, with its packet count
    and its times untouched; but a meter left without any keeps its old row, zeros
    included. *)
Theorem scrub_zeros_exact (w : World) :
  no_faults w ->
  let d := w_db w in
  let d' := w_db (RunMaintenance "scrub_zeros" w).2 in
  (RunMaintenance "scrub_zeros" w).1 = Ok tt /\
  readings d' = List.filter (fun rr => negb (is_zero rr)) (readings d) /\
  forall id x, meter_index d !! id = Some x ->
    exists x', meter_index d' !! id = Some x' /\ ix_packets x' = ix_packets x /\ ix_last_seen x' = ix_last_seen x /\
      match consumption_values id d' with
      | [] => x' = x
      | vs => (exists m, ix_min_consumption x' = Some m /\ pg_le m f0 = false /\ m ∈ map snd vs /\
                 forall v, v ∈ vs -> pg_le m v.2 = true) /\
              (exists v, v ∈ vs /\ ix_last_consumption x' = Some v.2 /\ ix_last_consumption_ts x' = v.1)
      end.
Proof.
  intros Hf d d'. unfold d'. cbn [RunMaintenance String.eqb Ascii.eqb Bool.eqb].
  unfold scrub_zeros, mbind, M_bind. rewrite exec_ok by done. rewrite exec_ok by (by apply no_faults_tail).
  cbn [fst snd w_db w_now]. fold d.
  set (d1 := set_readings (List.filter (fun rr => negb (is_zero rr)) (readings d)) d).
  split_and!; [done|done|]. intros id x Hx.
  change (consumption_values id (set_meter_index _ d1)) with (consumption_values id d1).
  exists (recompute d1 id x). cbn [meter_index set_meter_index]. rewrite map_lookup_imap.
  change (meter_index d1) with (meter_index d). rewrite Hx. split; [done|].
  pose proof (values_after_scrub id d) as Hpos. fold d1 in Hpos.
  unfold recompute. cbv zeta. pose proof (head_sort_by (fun a b : Z * float64 => b.1 <=? a.1) (consumption_values id d1)) as Hh.
  match goal with |- context [head ?e] => change (match head e with Some n => n ∈ consumption_values id d1 | None => consumption_values id d1 = [] end) in Hh;
    destruct (head e) as [newest|] end; [|rewrite Hh; by split_and!].
  split_and!; [done|done|]. pose proof (sql_min_spec (map snd (consumption_values id d1))) as Hm.
  destruct (consumption_values id d1) as [|v0 vs] eqn:Ev; [by apply elem_of_nil in Hh|]. rewrite <- Ev in *.
  destruct (sql_min _) as [m|]; [|rewrite Ev in Hm; discriminate Hm]. destruct Hm as [Hin Hall]. split.
  - exists m. cbn [ix_min_consumption]. split_and!; [done| |done|].
    + apply list_elem_of_fmap in Hin as (v & -> & Hv). by apply Hpos.
    + intros v Hv. apply Hall. apply list_elem_of_fmap. by exists v.
  - exists newest. by split_and!.
Qed.

Definition zero_reading (id : Z) (c : Z) : Reading * string := (mkReading Hour "SCM" id None (Some (of_Z c)) "", "").
Definition zeros_DB : DB :=
  set_meter_index {[1 := mkIndex "SCM" None 0 Hour 2 (Some f0) (Some (of_Z 5)) (Some f0) Hour;
                    2 := mkIndex "SCM" None 0 Hour 1 (Some f0) (Some f0) (Some f0) Hour]}
    (set_readings [zero_reading 1 5; zero_reading 1 0; zero_reading 2 0] empty_DB).

(** Meter 1 is repaired; meter 2 keeps its zero minimum without a reading. *)
Lemma scrub_zeros_exact_witness :
  let d' := w_db (RunMaintenance "scrub_zeros" (mkWorld zeros_DB 0 [])).2 in
  length (readings d') = 1%nat /\ exists x', meter_index d' !! 2 = Some x' /\ ix_min_consumption x' = Some f0.
Proof.
  destruct (scrub_zeros_exact (mkWorld zeros_DB 0 [])) as (_ & Hr & Hi); [constructor|]. cbv zeta.
  split; [rewrite Hr; reflexivity|].
  destruct (Hi 2 (mkIndex "SCM" None 0 Hour 1 (Some f0) (Some f0) (Some f0) Hour)) as (x' & Hx & _ & _ & Hv);
    [vm_compute; reflexivity|]. exists x'. split; [exact Hx|].
  match type of Hv with match ?v with _ => _ end => assert (v = []) as E by (vm_compute; reflexivity) end.
  rewrite E in Hv. rewrite Hv. reflexivity.
Defined.

(** Deleting a source reports exactly the rows it removed, leaves no reading,
    coverage row or heartbeat of that source and every other reading in order; an
    empty name is refused without touching anything. *)
Theorem DeleteReadingsBySource_exact (source : string) (w : World) :
  no_faults w -> source <> "" ->
  exists w', DeleteReadingsBySource source w = (Ok (zlen (readings (w_db w)) - zlen (readings (w_db w'))), w') /\
    readings (w_db w') = List.filter (fun rr => negb (r_Source rr.1 =? source)%string) (readings (w_db w)) /\
    (forall rr, rr ∈ readings (w_db w') -> r_Source rr.1 <> source) /\
    (forall id, meter_source (w_db w') !! (id, source) = None) /\
    capture_heartbeat (w_db w') !! source = None /\
    (forall id s, s <> source -> meter_source (w_db w') !! (id, s) = meter_source (w_db w) !! (id, s)) /\
    meter_index (w_db w') = meter_index (w_db w) /\ meters (w_db w') = meters (w_db w).
Proof.
  intros Hf Hs. unfold DeleteReadingsBySource. replace (is_empty source) with false by (symmetry; by apply String.eqb_neq).
  unfold mbind, M_bind, ignore, delete_readings. step_ok. step_ok. step_ok.
  match goal with |- context [mret _ ?w1] =>
    exists w1; split; [exact (f_equal (fun z => (Ok z, w1)) (filter_partition _ _))|] end.
  cbn [w_db readings set_readings meter_source set_meter_source capture_heartbeat set_capture_heartbeat meter_index meters].
  split_and!; try done.
  - intros rr Hin. apply list_elem_of_In, filter_In in Hin as [_ Hn]. by apply negb_true_iff, String.eqb_neq in Hn.
  - intros id. apply map_lookup_filter_None_2. right. intros x _ Hne. by apply Hne.
  - apply lookup_delete_eq.
  - intros id s Hne. destruct (meter_source (w_db w) !! (id, s)) as [x|] eqn:E.
    + by apply map_lookup_filter_Some_2.
    + apply map_lookup_filter_None_2. by left.
Qed.

Lemma DeleteReadingsBySource_exact_witness :
  exists w', (DeleteReadingsBySource "rx" (mkWorld bill_DB 0 [])).1 = Ok 4 /\ w' = (DeleteReadingsBySource "rx" (mkWorld bill_DB 0 [])).2 /\
    readings (w_db w') = [].
Proof.
  destruct (DeleteReadingsBySource_exact "rx" (mkWorld bill_DB 0 [])) as (w' & E & Hr & _); [constructor|discriminate|].
  exists w'. rewrite E. cbn [fst snd]. rewrite Hr. split_and!; reflexivity.
Defined.
