(* ===== verification/Schema.v ===== *)
(** * Schema installation ([internal/db/schema.go])

    The statements of [InitSchema] in their order.  The tables are those of
    [Store]; creating them again, the extension, the hypertables, the aggregates
    and the policies change no row, and a failing TimescaleDB step is skipped.  The
    backfills rebuild the two registries from the stored readings when a registry
    is empty.  The collation that orders texts is an argument. *)

From S2P Require Import Prelude Float64 Model Calendar Store Effects Database Deltas Samples Admin.

Definition timescaleSteps : list string := [
  "CREATE EXTENSION IF NOT EXISTS timescaledb";
  "SELECT create_hypertable('readings', 'ts', if_not_exists => TRUE, migrate_data => TRUE)";
  "SELECT create_hypertable('reference_samples', 'ts', if_not_exists => TRUE, migrate_data => TRUE)";
  "SELECT create_hypertable('hvac_samples', 'ts', if_not_exists => TRUE, migrate_data => TRUE)";
  "SELECT create_hypertable('utility_energy', 'ts', if_not_exists => TRUE, migrate_data => TRUE)";
  "CREATE MATERIALIZED VIEW IF NOT EXISTS readings_1m WITH (timescaledb.continuous) AS SELECT endpoint_id, time_bucket('1 minute', ts) AS bucket, min(consumption) AS min_c, max(consumption) AS max_c, count(*) AS n FROM readings WHERE consumption IS NOT NULL AND endpoint_id IS NOT NULL GROUP BY endpoint_id, bucket WITH NO DATA";
  "SELECT add_continuous_aggregate_policy('readings_1m', start_offset => INTERVAL '3 hours', end_offset => INTERVAL '1 minute', schedule_interval => INTERVAL '1 minute', if_not_exists => true)";
  "ALTER MATERIALIZED VIEW readings_1m SET (timescaledb.materialized_only = false)";
  "ALTER TABLE readings SET (timescaledb.compress, timescaledb.compress_segmentby = 'endpoint_id')";
  "SELECT add_compression_policy('readings', INTERVAL '7 days', if_not_exists => true)";
  "SELECT add_retention_policy('readings', INTERVAL '180 days', if_not_exists => true)";
  "CREATE MATERIALIZED VIEW IF NOT EXISTS readings_1h WITH (timescaledb.continuous) AS SELECT endpoint_id, time_bucket('1 hour', ts) AS bucket, min(consumption) AS min_c, max(consumption) AS max_c, count(*) AS n FROM readings WHERE consumption IS NOT NULL AND endpoint_id IS NOT NULL GROUP BY endpoint_id, bucket WITH NO DATA";
  "SELECT add_continuous_aggregate_policy('readings_1h', start_offset => INTERVAL '48 hours', end_offset => INTERVAL '1 hour', schedule_interval => INTERVAL '30 minutes', if_not_exists => true)";
  "ALTER MATERIALIZED VIEW readings_1h SET (timescaledb.materialized_only = false)";
  "SELECT add_retention_policy('readings_1h', INTERVAL '180 days', if_not_exists => true)"].

Section Schema.
(** [max] of a text column, in the order of the database. *)
Context (max_text : list string -> string).

(** The greatest of a nullable integer column; NULLs are ignored. *)
Definition max_int (l : list (option Z)) : option Z := max_time (omap id l).

(** The row of one group. *)
Definition group_index (d : DB) (id : Z) : IndexRow :=
  let rs := readings_of id d in
  let ts := map r_TS rs in
  let vs := consumption_values id d in
  mkIndex (max_text (map r_MsgType rs)) (max_int (map r_EndpointType rs))
    (from_opt 0 (min_time ts)) (from_opt 0 (max_time ts)) (zlen rs)
    (sql_min (map snd vs)) (sql_max (map snd vs))
    (option_map snd (head (sort_by (fun a b => b.1 <=? a.1) vs))) (from_opt 0 (max_time ts)).
Definition endpoint_ids (d : DB) : list Z := remove_dups (map (fun rr => r_EndpointID rr.1) (readings d)).
Definition backfill_index (d : DB) : DB :=
  if bool_decide (meter_index d = ∅)
  then set_meter_index (list_to_map (map (fun id => (id, group_index d id)) (endpoint_ids d))) d else d.

Definition group_source (d : DB) (k : Z * string) : SourceRow :=
  let rs := readings_from k.1 k.2 d in mkSource (zlen rs) (from_opt 0 (max_time (map r_TS rs))).
Definition endpoint_sources (d : DB) : list (Z * string) :=
  remove_dups (map (fun rr => (r_EndpointID rr.1, r_Source rr.1)) (readings d)).
Definition backfill_source (d : DB) : DB :=
  if bool_decide (meter_source d = ∅)
  then set_meter_source (list_to_map (map (fun k => (k, group_source d k)) (endpoint_sources d))) d else d.
Definition backfillSteps : list (DB -> DB) := [backfill_index; backfill_source].

(** A connection, the advisory lock (released whatever happens), the tables, the
    optional steps and the backfills; the latter two are logged and skipped. *)
Definition InitSchema : M unit :=
  no_change ;;
  no_change ;;
  r ← try (no_change ;;
           forM timescaleSteps (fun _ => ignore no_change) ;;
           forM backfillSteps (fun f => ignore (exec (fun d _ => f d))));
  ignore no_change ;;
  match r with Ok _ => mret tt | Err e => fail e end.
End Schema.

(** ** Lemmas *)

Lemma list_to_map_self {K A} `{Countable K} (f : K -> A) (l : list K) (k : K) :
  (list_to_map (map (fun k => (k, f k)) l) : gmap K A) !! k = if decide (k ∈ l) then Some (f k) else None.
Proof.
  induction l as [|x l IH]; cbn [map list_to_map foldr].
  - rewrite lookup_empty. by destruct (decide _) as [?%elem_of_nil|].
  - destruct (decide (k = x)) as [->|Hne].
    + rewrite lookup_insert_eq. by rewrite decide_True by left.
    + rewrite lookup_insert_ne, IH by done. apply decide_ext. rewrite elem_of_cons. intuition congruence.
Qed.

Lemma max_time_spec l : match max_time l with Some m => m ∈ l /\ forall x, x ∈ l -> x <= m | None => l = [] end.
Proof.
  induction l as [|x l IH]; [done|]. cbn [max_time]. destruct (max_time l) as [m|].
  - destruct IH as [Hm Hall]. split; [destruct (Z.max_spec x m) as [[_ ->]|[_ ->]]; [by right|by left]|].
    intros y [->|Hy]%elem_of_cons; [lia|]. specialize (Hall y Hy). lia.
  - subst l. split; [by left|]. intros y [->|Hy%elem_of_nil]%elem_of_cons; [lia|done].
Qed.
Lemma min_time_spec l : match min_time l with Some m => m ∈ l /\ forall x, x ∈ l -> m <= x | None => l = [] end.
Proof.
  induction l as [|x l IH]; [done|]. cbn [min_time]. destruct (min_time l) as [m|].
  - destruct IH as [Hm Hall]. split; [destruct (Z.min_spec x m) as [[_ ->]|[_ ->]]; [by left|by right]|].
    intros y [->|Hy]%elem_of_cons; [lia|]. specialize (Hall y Hy). lia.
  - subst l. split; [by left|]. intros y [->|Hy%elem_of_nil]%elem_of_cons; [lia|done].
Qed.
Lemma sql_max_spec l :
  match sql_max l with Some m => m ∈ l /\ forall x, x ∈ l -> pg_le x m = true | None => l = [] end.
Proof.
  unfold sql_max. induction l as [|x l IH]; [done|]. cbn [foldr]. destruct (foldr _ None l) as [m|]; cbn [greatest].
  - destruct IH as [Hm Hall]. destruct (pg_le x m) eqn:E.
    + split; [by right|]. intros y [->|Hy]%elem_of_cons; [done|by apply Hall].
    + destruct (pg_le_total x m) as [H|H]; [congruence|]. split; [left|].
      intros y [->|Hy]%elem_of_cons; [apply pg_le_refl|]. by eapply pg_le_trans; [apply Hall|].
  - subst l. split; [left|]. intros y [->|Hy%elem_of_nil]%elem_of_cons; [apply pg_le_refl|done].
Qed.

(** The values of a group are those of its readings. *)
Lemma readings_of_elem id d r : r ∈ readings_of id d <-> exists raw, (r, raw) ∈ readings d /\ r_EndpointID r = id.
Proof.
  unfold readings_of. rewrite list_elem_of_filter, list_elem_of_fmap. split.
  - intros [E ([r' raw] & -> & Hin)]. by exists raw.
  - intros (raw & Hin & E). split; [done|]. by exists (r, raw).
Qed.
Lemma consumption_values_elem id d t v :
  (t, v) ∈ consumption_values id d <-> exists r, r ∈ readings_of id d /\ r_TS r = t /\ r_Consumption r = Some v.
Proof.
  unfold consumption_values. rewrite list_elem_of_omap. split.
  - intros ([r raw] & Hin & E). cbn [fst] in E. destruct (Z.eqb_spec (r_EndpointID r) id) as [Ei|]; [|done].
    destruct (r_Consumption r) as [c|] eqn:Ec; [|done]. injection E as <- <-. exists r. rewrite readings_of_elem. eauto.
  - intros (r & (raw & Hin & Ei)%readings_of_elem & <- & Ec). exists (r, raw). cbn [fst]. split; [done|].
    rewrite Ec, (proj2 (Z.eqb_eq _ _) Ei). done.
Qed.
Lemma group_value_seen id d v :
  v ∈ map snd (consumption_values id d) -> seen_value (readings_of id d) (Some v).
Proof. intros ([t v'] & -> & (r & Hr & _ & E)%consumption_values_elem)%list_elem_of_fmap. by exists r. Qed.

Lemma group_index_sound max_text d id :
  readings_of id d <> [] ->
  let x := group_index max_text d id in
  index_sound (readings_of id d) x /\ index_exact (readings_of id d) x /\
  forall r, r ∈ readings_of id d -> ix_first_seen x <= r_TS r.
Proof.
  intros Hne. cbv zeta. set (rs := readings_of id d).
  pose proof (min_time_spec (map r_TS rs)) as Hmin. pose proof (max_time_spec (map r_TS rs)) as Hmax.
  pose proof (sql_min_spec (map snd (consumption_values id d))) as Hlo.
  pose proof (sql_max_spec (map snd (consumption_values id d))) as Hhi.
  assert (forall r c, r ∈ rs -> r_Consumption r = Some c -> c ∈ map snd (consumption_values id d)) as Hv.
  { intros r c Hr Hc. apply list_elem_of_fmap. exists (r_TS r, c). split; [done|]. apply consumption_values_elem. eauto. }
  destruct (min_time (map r_TS rs)) as [t0|] eqn:E0; [|by apply map_eq_nil in Hmin]. destruct Hmin as [(r0 & -> & Hr0)%list_elem_of_fmap Hmin].
  destruct (max_time (map r_TS rs)) as [t1|] eqn:E1; [|by apply map_eq_nil in Hmax]. destruct Hmax as [(r1 & -> & Hr1)%list_elem_of_fmap Hmax].
  assert (forall r, r ∈ rs -> r_TS r0 <= r_TS r <= r_TS r1) as Hb.
  { intros r Hr. split; [apply Hmin|apply Hmax]; by apply list_elem_of_fmap; exists r. }
  split; [|split].
  - constructor; cbn; fold rs; rewrite ?E0, ?E1; cbn.
    + unfold zlen. split; [|done]. destruct (readings_of id d); [done|cbn; lia].
    + destruct (sql_min _); [apply group_value_seen, Hlo|done].
    + destruct (sql_max _); [apply group_value_seen, Hhi|done].
    + destruct (sort_by _ _) as [|[t v] l] eqn:Es; [done|]. cbn. apply group_value_seen, list_elem_of_fmap.
      exists (t, v). split; [done|]. rewrite <- (sort_by_perm (fun a b => b.1 <=? a.1)), Es. by left.
    + by exists r0.
    + by exists r1.
    + by apply Hb.
  - constructor; cbn; fold rs; rewrite ?E1; [done|]. intros r Hr. cbn. split; [|split; [|by apply Hb]].
    + destruct (r_Consumption r) as [c|] eqn:Ec; [|done]. pose proof (Hv r c Hr Ec) as Hc.
      destruct (sql_min _) as [m|]; [exists m; split; [done|by apply Hlo]|by rewrite Hlo in Hc; apply elem_of_nil in Hc].
    + destruct (r_Consumption r) as [c|] eqn:Ec; [|done]. pose proof (Hv r c Hr Ec) as Hc.
      destruct (sql_max _) as [m|]; [exists m; split; [done|by apply Hhi]|by rewrite Hhi in Hc; apply elem_of_nil in Hc].
  - cbn. fold rs. rewrite E0. cbn. intros r Hr. by apply Hb.
Qed.

(** ** The installation *)

Section Install.
Context (max_text : list string -> string).
Notation install d := (backfill_source (backfill_index max_text d)).

Lemma forM_ignored A (l : list A) (f : A -> DB -> DB) w :
  no_faults w -> exists fs, Forall (fun b => b = false) fs /\
    forM l (fun x => ignore (exec (fun d _ => f x d))) w = (Ok tt, mkWorld (fold_left (fun d x => f x d) l (w_db w)) (w_now w) fs).
Proof.
  revert w. induction l as [|x l IH]; intros w Hf; cbn [forM fold_left]; [exists (w_faults w); by destruct w|].
  unfold mbind, M_bind, ignore. rewrite exec_ok by done.
  apply (IH (mkWorld (f x (w_db w)) (w_now w) (tail (w_faults w)))). by apply no_faults_tail.
Qed.
Lemma InitSchema_ok w : no_faults w -> exists fs,
  InitSchema max_text w = (Ok tt, mkWorld (install (w_db w)) (w_now w) fs).
Proof.
  intros Hf. unfold InitSchema, no_change. unfold mbind at 1, M_bind at 1. rewrite exec_ok by done.
  unfold mbind at 1, M_bind at 1. rewrite exec_ok by (by apply no_faults_tail). cbn [w_db w_now w_faults].
  set (w1 := mkWorld _ _ _). assert (no_faults w1) as H1 by (by do 2 apply (no_faults_tail (w_db w) (w_now w)) in Hf as Hf).
  unfold mbind at 1, M_bind at 1, try. unfold mbind at 1, M_bind at 1. rewrite exec_ok by done.
  set (w2 := mkWorld _ _ _). assert (no_faults w2) as H2 by (by apply no_faults_tail).
  unfold mbind at 1, M_bind at 1.
  destruct (forM_ignored _ timescaleSteps (fun _ d => d) w2 H2) as (fs & Hfs & ->).
  assert (fold_left (fun d (_ : string) => d) timescaleSteps (w_db w2) = w_db w) as -> by reflexivity.
  destruct (forM_ignored _ (backfillSteps max_text) (fun f d => f d) (mkWorld (w_db w) (w_now w2) fs) Hfs) as (fs2 & Hfs2 & ->).
  unfold mbind, M_bind, ignore. rewrite exec_ok by done. eexists. reflexivity.
Qed.

Lemma endpoint_ids_elem d id : id ∈ endpoint_ids d <-> readings_of id d <> [].
Proof.
  unfold endpoint_ids. rewrite elem_of_remove_dups, list_elem_of_fmap. split.
  - intros ([r raw] & -> & Hin) E. assert (r ∈ readings_of (r_EndpointID r) d) as H by (apply readings_of_elem; eauto).
    cbn [fst] in E. rewrite E in H. by apply elem_of_nil in H.
  - intros Hne. destruct (readings_of id d) as [|r l] eqn:E; [done|].
    assert (r ∈ readings_of id d) as (raw & Hin & Hid)%readings_of_elem by (rewrite E; by left). by exists (r, raw).
Qed.
Lemma readings_from_elem id s d r : r ∈ readings_from id s d <-> exists raw, (r, raw) ∈ readings d /\ r_EndpointID r = id /\ r_Source r = s.
Proof.
  unfold readings_from. rewrite list_elem_of_filter, list_elem_of_fmap. split.
  - intros [E ([r' raw] & -> & Hin)]. by exists raw.
  - intros (raw & Hin & E). split; [done|]. by exists (r, raw).
Qed.
Lemma endpoint_sources_elem d k : k ∈ endpoint_sources d <-> readings_from k.1 k.2 d <> [].
Proof.
  unfold endpoint_sources. rewrite elem_of_remove_dups, list_elem_of_fmap. split.
  - intros ([r raw] & -> & Hin) E. assert (r ∈ readings_from (r_EndpointID r) (r_Source r) d) as H by (apply readings_from_elem; eauto).
    cbn [fst snd] in E. rewrite E in H. by apply elem_of_nil in H.
  - intros Hne. destruct (readings_from k.1 k.2 d) as [|r l] eqn:E; [done|].
    assert (r ∈ readings_from k.1 k.2 d) as (raw & Hin & Hid & Hs)%readings_from_elem by (rewrite E; by left).
    exists (r, raw). split; [|done]. destruct k. cbn in *. congruence.
Qed.

Lemma install_readings d : readings (install d) = readings d.
Proof. unfold backfill_source, backfill_index. by repeat destruct (bool_decide _). Qed.
Lemma install_index d id : meter_index d = ∅ ->
  meter_index (install d) !! id = if decide (id ∈ endpoint_ids d) then Some (group_index max_text d id) else None.
Proof.
  intros E. assert (meter_index (install d) = meter_index (backfill_index max_text d)) as ->
    by (unfold backfill_source; by destruct (bool_decide _)).
  unfold backfill_index. rewrite bool_decide_eq_true_2 by done. apply list_to_map_self.
Qed.
Lemma install_source d k : meter_source d = ∅ ->
  meter_source (install d) !! k = if decide (k ∈ endpoint_sources d) then Some (group_source d k) else None.
Proof.
  intros E. unfold backfill_source. rewrite bool_decide_eq_true_2 by (unfold backfill_index; by destruct (bool_decide _)).
  cbn. unfold backfill_index. by destruct (bool_decide _); apply list_to_map_self.
Qed.

(** A registry with a row is left alone, so a second installation changes nothing. *)
Lemma list_to_map_self_empty {K A} `{Countable K} (f : K -> A) (l : list K) :
  (list_to_map (map (fun k => (k, f k)) l) : gmap K A) = ∅ -> l = [].
Proof.
  intros E. destruct l as [|x l]; [done|]. pose proof (list_to_map_self f (x :: l) x) as H1.
  rewrite E, lookup_empty, decide_True in H1 by (by left). discriminate H1.
Qed.
Lemma backfill_index_again d d' :
  readings d' = readings d -> meter_index d' = meter_index (backfill_index max_text d) -> backfill_index max_text d' = d'.
Proof.
  intros Er Ei. unfold backfill_index. destruct (bool_decide_reflect (meter_index d' = ∅)) as [E|]; [|done].
  rewrite Ei in E. unfold backfill_index in E. destruct (bool_decide_reflect (meter_index d = ∅)); [|done].
  cbn in E. apply list_to_map_self_empty in E. unfold endpoint_ids in *. rewrite Er, E. cbn.
  destruct d'. cbn in *. subst. unfold backfill_index. rewrite bool_decide_eq_true_2 by done. cbn.
  unfold endpoint_ids. by rewrite E.
Qed.
Lemma backfill_source_again d d' :
  readings d' = readings d -> meter_source d' = meter_source (backfill_source d) -> backfill_source d' = d'.
Proof.
  intros Er Ei. unfold backfill_source. destruct (bool_decide_reflect (meter_source d' = ∅)) as [E|]; [|done].
  rewrite Ei in E. unfold backfill_source in E. destruct (bool_decide_reflect (meter_source d = ∅)); [|done].
  cbn in E. apply list_to_map_self_empty in E. unfold endpoint_sources in *. rewrite Er, E. cbn.
  destruct d'. cbn in *. subst. unfold backfill_source. rewrite bool_decide_eq_true_2 by done. cbn.
  unfold endpoint_sources. by rewrite E.
Qed.
Lemma install_steps_fixed d f : f ∈ backfillSteps max_text -> f (install d) = install d.
Proof.
  unfold backfillSteps. rewrite !elem_of_cons, elem_of_nil. intros [->|[->|[]]].
  - apply (backfill_index_again d); [apply install_readings|]. unfold backfill_source. by destruct (bool_decide _).
  - apply (backfill_source_again (backfill_index max_text d)); [|done]. unfold backfill_source. by destruct (bool_decide _).
Qed.
Lemma keeps_InitSchema (P : DB -> Prop) :
  (forall f d, f ∈ backfillSteps max_text -> P d -> P (f d)) -> keeps P (InitSchema max_text).
Proof.
  intros Hf. assert (keeps P no_change) as Hn by (apply keeps_exec; auto).
  unfold InitSchema. do 2 (apply keeps_bind; [done|intros _]). apply keeps_bind.
  - apply keeps_try. apply keeps_bind; [done|intros _]. apply keeps_bind; [by apply keeps_forM_all; intros _; apply keeps_ignore|intros _].
    apply keeps_forM. intros f Hin. apply keeps_ignore, keeps_exec. auto.
  - intros r. apply keeps_bind; [by apply keeps_ignore|]. intros _. destruct r; [apply keeps_ret|apply keeps_fail].
Qed.

(** C22: The installation rebuilds what ingest would have kept: on a database with
    readings and empty registries it leaves the readings alone and makes the
    registries exact, each row a packet count, an extremum and a time of stored
    packets, the first time truly the first; and installing again, whatever fails,
    changes nothing. *)
Theorem InitSchema_rebuilds_registries (w : World) :
  no_faults w -> meter_index (w_db w) = ∅ -> meter_source (w_db w) = ∅ ->
  let d := w_db (snd (InitSchema max_text w)) in
  readings d = readings (w_db w) /\ registries_exact d /\
  (forall id x, meter_index d !! id = Some x ->
     index_sound (readings_of id d) x /\ forall r, r ∈ readings_of id d -> ix_first_seen x <= r_TS r) /\
  (forall w2, w_db w2 = d -> w_db (snd (InitSchema max_text w2)) = d).
Proof.
  intros Hf Hi Hs. cbv zeta. destruct (InitSchema_ok w Hf) as (fs & ->). cbn [snd w_db].
  set (d := w_db w). pose proof (install_readings d) as Hr.
  assert (forall id, readings_of id (install d) = readings_of id d) as Hof by (intros id; unfold readings_of; by rewrite Hr).
  assert (forall id s, readings_from id s (install d) = readings_from id s d) as Hfrom by (intros id s; unfold readings_from; by rewrite Hr).
  split; [done|]. split; [split|split].
  - intros id. rewrite (install_index d id Hi), Hof. destruct (decide (id ∈ endpoint_ids d)) as [He|He]; rewrite endpoint_ids_elem in He.
    + by apply (group_index_sound max_text d id).
    + by destruct (readings_of id d); [|destruct He].
  - intros id s _. rewrite (install_source d (id, s) Hs), Hfrom. destruct (decide _) as [He|He]; rewrite endpoint_sources_elem in He; [done|].
    cbn [fst snd] in He. by destruct (readings_from id s d); [|destruct He].
  - intros id x. rewrite (install_index d id Hi), Hof. destruct (decide _) as [He|He]; [|done]. rewrite endpoint_ids_elem in He.
    intros [= <-]. destruct (group_index_sound max_text d id He) as (H1 & _ & H3). by split.
  - intros w2 E2. apply (keeps_InitSchema (fun x => x = install d)); [|exact E2].
    intros f d' Hfi ->. by apply install_steps_fixed.
Qed.
End Install.

(** Two meters, one of them heard first by a later row. *)
Definition old_DB : DB := set_readings [
  (mkReading 50 "SCM" 7 (Some 4) (Some (of_Z 12)) "a", ""); (mkReading 30 "SCM" 7 (Some 4) (Some (of_Z 10)) "a", "");
  (mkReading 40 "IDM" 9 None None "b", "")] empty_DB.
Definition byte_max (l : list string) : string := foldr (fun a b => if String.leb b a then a else b) "" l.

Lemma InitSchema_rebuilds_registries_witness :
  let d := w_db (snd (InitSchema byte_max (mkWorld old_DB 99 []))) in
  registries_exact d /\ option_map ix_first_seen (meter_index d !! 7) = Some 30 /\
  option_map ms_packets (meter_source d !! (7, "a")) = Some 2.
Proof.
  destruct (InitSchema_rebuilds_registries byte_max (mkWorld old_DB 99 [])) as (_ & H & _); [constructor|reflexivity..|].
  split; [exact H|]. vm_compute. split; reflexivity.
Defined.

(** Ingest keeps no row for a reading without a source; the installation makes one. *)
Example blank_source_backfilled :
  let r := mkReading 50 "SCM" 7 None None "" in
  meter_source (w_db (snd (InsertReading r "" (mkWorld empty_DB 50 [])))) = ∅ /\
  meter_source (w_db (snd (InitSchema byte_max (mkWorld (set_readings [(r, "")] empty_DB) 50 [])))) !! (7, "")
    = Some (mkSource 1 50).
Proof. vm_compute. split; reflexivity. Qed.
