(* ===== verification/Http.v ===== *)
(** * Requests and replies ([cmd/api/handlers.go], the helpers)

    A request is what the handlers read of [http.Request]: the path value, the
    query function ([Query().Get], [""] for an absent key) and the first JSON value
    of the body, if the decoder finds one.  [time.Parse] with the RFC 3339 layout
    is a parameter.  Struct decoding is that of [encoding/json]: a strict decoder
    gives [None] on a type error; where the code discards the error, the fields that
    did decode keep their values and a mismatched pointer field has been allocated. *)

From S2P Require Import Prelude Float64 Model Json Config Store Database.

Record request := mkRequest {
  rq_id : string; rq_query : string -> string; rq_body : option json
}.

(** [writeJSON], [http.Error] and a panic, which aborts the response. *)
Inductive reply (A : Type) := Reply (a : A) | HttpError (code : Z) (msg : string) | Panic.
Arguments Reply {A} _.
Arguments HttpError {A} _ _.
Arguments Panic {A}.

Definition badReq {A} (msg : string) : M (reply A) := mret (HttpError 400 msg).

(** [if err != nil { http.Error(w, err.Error(), 500); return }] around a call. *)
Definition or_error {A B} (m : M A) (k : A -> M (reply B)) : M (reply B) :=
  r ← try m; match r with Ok a => k a | Err e => mret (HttpError 500 e) end.
Definition served {A} (m : M A) : M (reply A) := or_error m (fun a => mret (Reply a)).

Definition emptyToNil (s : option string) : option string :=
  match s with Some v => if is_empty v then None else Some v | None => None end.

Definition pathID (r : request) : option Z :=
  match ParseInt (rq_id r) with (id, true) => Some id | _ => None end.

(** [cfg, _ := s.d.LoadConfig(ctx)]. *)
Definition config_or_zero (getenv : string -> string) (ParseFloat : string -> float64 * bool) : M Config :=
  r ← try (LoadConfig getenv ParseFloat); mret (match r with Ok c => c | Err _ => zero_config end).

Definition intParam (r : request) (key : string) (dflt : Z) : Z :=
  match Atoi (rq_query r key) with
  | (n, true) => if is_empty (rq_query r key) then dflt else n
  | _ => dflt
  end.

Definition timeParam (Parse : string -> option time) (r : request) (key : string) (dflt : time) : time :=
  let v := rq_query r key in if is_empty v then dflt else from_opt dflt (Parse v).

Definition query_or (r : request) (key dflt : string) : string :=
  if is_empty (rq_query r key) then dflt else rq_query r key.

(** The comma-separated identifiers of [?ids=]; what is not a number is skipped. *)
Definition id_list (s : string) : list Z :=
  omap (fun p => let p := TrimSpace p in
                 if is_empty p then None
                 else match ParseInt p with (n, true) => Some n | _ => None end) (split_on "," s).

(** [strings.TrimSuffix]. *)
Definition TrimSuffix (s suffix : string) : string :=
  match strip_prefix (str_rev suffix) (str_rev s) with Some r => str_rev r | None => s end.

(** [int64(x)] of a float, as on amd64. *)
Definition to_int64 (x : float64) : Z :=
  match x with
  | SpecFloat.S754_zero _ => 0
  | SpecFloat.S754_finite _ _ _ =>
      let v := ftrunc x in if (int64_min <=? v) && (v <=? int64_max) then v else int64_min
  | _ => int64_min
  end.

(** ** Bodies *)

(** The members of an object body; [null] is the zero value. *)
Definition body_members (j : option json) : option (list (string * json)) :=
  match j with Some (JObj ms) => Some ms | Some JNull => Some [] | _ => None end.

Definition dec_str (j : json) : option string := match j with JStr s => Some s | _ => None end.
Definition dec_bool (j : json) : option bool := match j with JBool b => Some b | _ => None end.
Definition dec_float (j : json) : option float64 := match j with JNum l => number_float l | _ => None end.
Definition dec_int (j : json) : option Z := match j with JNum l => number_int l | _ => None end.
Definition dec_strs (j : json) : option (list string) :=
  match j with JArr l => decode_strings l | _ => None end.

(** A value field of a struct ([null] leaves it alone) and a pointer field
    ([null] clears it), decoded strictly. *)
Definition get_val {A} (dec : json -> option A) (zero : A) (names : list string) (f : string)
    (ms : list (string * json)) : option A :=
  fold_left (fun acc kv =>
    match acc, field_match names kv.1 with
    | Some old, Some g => if (g =? f)%string
                          then match kv.2 with JNull => Some old | v => dec v end else acc
    | _, _ => acc
    end) ms (Some zero).
Definition get_ptr {A} (dec : json -> option A) (names : list string) (f : string)
    (ms : list (string * json)) : option (option A) :=
  fold_left (fun acc kv =>
    match acc, field_match names kv.1 with
    | Some old, Some g => if (g =? f)%string
                          then match kv.2 with JNull => Some None | v => option_map Some (dec v) end else acc
    | _, _ => acc
    end) ms (Some None).
(** A pointer field when the error is discarded. *)
Definition get_ptr_lenient {A} (dec : json -> option A) (zero : A) (names : list string) (f : string)
    (ms : list (string * json)) : option A :=
  fold_left (fun old kv =>
    match field_match names kv.1 with
    | Some g => if (g =? f)%string
                then match kv.2 with
                     | JNull => None
                     | v => match dec v with Some a => Some a | None => Some (from_opt zero old) end
                     end
                else old
    | None => old
    end) ms None.

(** [map[string]string], strictly: the last of equal keys. *)
Definition decode_texts (j : option json) : option (gmap string string) :=
  ms ← body_members j;
  fold_left (fun acc kv =>
    match acc, kv.2 with
    | Some m, JStr s => Some (<[kv.1 := s]> m)
    | Some m, JNull => Some (<[kv.1 := ""]> m)
    | _, _ => None
    end) ms (Some (∅ : gmap string string)).
(** The same when the error is discarded: a mismatched value is stored empty. *)
Definition decode_texts_lenient (j : option json) : gmap string string :=
  match body_members j with
  | Some ms => fold_left (fun m kv => <[kv.1 := match kv.2 with JStr s => s | _ => "" end]> m) ms ∅
  | None => ∅
  end.
