(* ===== verification/Stream.v ===== *)
(** * The live stream ([handleStream] of [cmd/api/handlers.go])

    The text one browser is sent, as a function of what the handler's [select]
    yields: a message of its channel, a tick of the keepalive, the end of the
    request or of the channel.  [EventSource] is the browser's side, the parsing
    of the text into messages that the standard prescribes for
    [text/event-stream]. *)

From S2P Require Import Prelude Float64 Model Json Encoding Store Database Broker Http.

Definition LF : ascii := chr 10.
Definition CR : ascii := chr 13.
Definition eol : string := String LF "".

(** What the [select] of the loop yields; a closed channel yields no message. *)
Inductive selected := Done | FromChannel (msg : option string) | KeepAlive.

Fixpoint stream_loop (evs : list selected) : string :=
  match evs with
  | FromChannel (Some msg) :: evs' => "data: " ++ msg ++ eol ++ eol ++ stream_loop evs'
  | KeepAlive :: evs' => ": ping" ++ eol ++ eol ++ stream_loop evs'
  | Done :: _ | FromChannel None :: _ | [] => ""
  end.
Definition handleStream (flusher : bool) (evs : list selected) : reply string :=
  if flusher then Reply ("retry: 3000" ++ eol ++ eol ++ stream_loop evs) else HttpError 500 "stream unsupported".

(** ** The browser *)

(** The line being read, whether a CR has just ended one, the data gathered for
    the next message and the messages dispatched. *)
Record reader := mkReader { rd_line : string; rd_cr : bool; rd_data : option string; rd_messages : list string }.
Definition start_reader : reader := mkReader "" false None [].

Definition add_data (d : option string) (value : string) : option string :=
  Some (match d with None => value | Some d => d ++ eol ++ value end).
Definition take_field (line : string) (d : option string) : option string :=
  let '(name, value, found) := str_cut ":"%char line in
  if found && is_empty name then d
  else if (name =? "data")%string then add_data d (match value with String " " v => v | v => v end) else d.
Definition end_line (cr : bool) (r : reader) : reader :=
  if is_empty (rd_line r) then
    match rd_data r with
    | Some d => mkReader "" cr None (rd_messages r ++ [d])
    | None => mkReader "" cr None (rd_messages r)
    end
  else mkReader "" cr (take_field (rd_line r) (rd_data r)) (rd_messages r).
Definition read_char (c : ascii) (r : reader) : reader :=
  if Ascii.eqb c CR then end_line true r
  else if Ascii.eqb c LF then
    if rd_cr r then mkReader (rd_line r) false (rd_data r) (rd_messages r) else end_line false r
  else mkReader (rd_line r ++ String c "") false (rd_data r) (rd_messages r).
Fixpoint read_text (s : string) (r : reader) : reader :=
  match s with EmptyString => r | String c s' => read_text s' (read_char c r) end.
Definition EventSource (text : string) : list string := rd_messages (read_text text start_reader).

(** ** Reading a line *)

Definition printable (c : ascii) : bool := 32 <=? byte_of c.

Lemma read_text_app a b r : read_text (a ++ b) r = read_text b (read_text a r).
Proof. revert r. induction a as [|c a IH]; intros r; cbn; [done|apply IH]. Qed.
Lemma read_printable s l cr d ms :
  all_chars printable s = true ->
  read_text s (mkReader l cr d ms) = mkReader (l ++ s) (match s with EmptyString => cr | _ => false end) d ms.
Proof.
  revert l cr. induction s as [|c s IH]; intros l cr; cbn [all_chars read_text].
  - intros _. f_equal. by induction l as [|a l IH]; cbn; [|rewrite <- IH].
  - intros [Hc Hs]%andb_true_iff. unfold read_char.
    assert (Ascii.eqb c CR = false /\ Ascii.eqb c LF = false) as [-> ->].
    { split; apply Ascii.eqb_neq; intros ->; vm_compute in Hc; discriminate. }
    cbn [rd_line rd_data rd_messages]. rewrite IH by done. rewrite <- str_app_assoc. by destruct s.
Qed.

(** A complete text: read to the end, it leaves no line and no data behind. *)
Definition settles (text : string) (ms : list string) : Prop :=
  read_text text start_reader = mkReader "" false None ms.

Lemma settles_message text ms msg :
  all_chars printable msg = true -> settles text ms -> settles (text ++ ("data: " ++ msg ++ eol ++ eol)) (ms ++ [msg]).
Proof.
  unfold settles. intros Hm Ht. rewrite read_text_app, Ht.
  rewrite (str_app_assoc "data: "), read_text_app, read_printable by (cbn [String.append all_chars]; done).
  cbn [String.append]. unfold eol. cbn [String.append read_text]. unfold read_char at 2.
  change (Ascii.eqb LF CR) with false. change (Ascii.eqb LF LF) with true. cbv iota. cbn [rd_cr].
  reflexivity.
Qed.
Lemma settles_ping text ms : settles text ms -> settles (text ++ (": ping" ++ eol ++ eol)) ms.
Proof. unfold settles. intros Ht. rewrite read_text_app, Ht. reflexivity. Qed.

(** ** What is published is a line *)

Lemma printable_hexdigit v : 0 <= v < 16 -> printable (hexdigit v) = true.
Proof. intros Hv. unfold printable, hexdigit. destruct (Z.ltb_spec v 10); rewrite byte_of_chr by lia; lia. Qed.
Lemma printable_u_escape v : 0 <= v < 65536 -> all_chars printable (u_escape v) = true.
Proof.
  intros Hv. unfold u_escape, hex4_of. cbn [all_chars]. rewrite !printable_hexdigit; [done|..].
  - apply Z.mod_pos_bound. lia.
  - apply Z.mod_pos_bound. lia.
  - apply Z.mod_pos_bound. lia.
  - split; [apply Z.div_pos; lia|apply Z.div_lt_upper_bound; lia].
Qed.
Lemma printable_escape_ascii c : all_chars printable (escape_ascii c) = true.
Proof.
  unfold escape_ascii. pose proof (byte_range c). destruct (_ || _) eqn:E1.
  { cbn [all_chars]. change (printable "\") with true. unfold printable. lia. }
  repeat (match goal with |- context [if ?b then _ else _] => destruct b eqn:? end; try reflexivity).
  - apply printable_u_escape. lia.
  - cbn. unfold printable. lia.
Qed.
Lemma substring_0 r : substring 0 0 r = "".
Proof. by destruct r. Qed.
Lemma printable_utf8 c r n :
  byte_of c <? 128 = false -> utf8_len (String c r) = Some n -> all_chars printable (str_take n (String c r)) = true.
Proof.
  intros Hc. cbn [utf8_len]. rewrite Hc.
  repeat (match goal with
          | |- context [match ?r with EmptyString => _ | String _ _ => _ end] => destruct r as [|? ?]; [discriminate|]
          | |- context [if ?b then _ else _] => destruct b eqn:?
          end; try discriminate); intros [= <-]; unfold str_take; cbn [substring all_chars];
    rewrite substring_0; cbn [all_chars]; unfold printable, cont in *;
    repeat match goal with H : context [if ?b then _ else _] |- _ => destruct b eqn:? end; lia.
Qed.
Lemma printable_escape n s : all_chars printable (escape n s) = true.
Proof.
  revert s. induction n as [|n IH]; intros [|c r]; cbn [escape]; try done.
  destruct (byte_of c <? 128) eqn:Ec; [by rewrite all_chars_app, printable_escape_ascii, IH|].
  destruct (utf8_len (String c r)) as [k|] eqn:Eu; [|rewrite all_chars_app, IH; vm_compute; done].
  destruct (line_separator (String c r)) as [cp|] eqn:El.
  - rewrite all_chars_app, IH, printable_u_escape; [done|]. unfold line_separator in El.
    destruct r as [|b [|d r]]; try discriminate. pose proof (byte_range d). destruct (_ && _) eqn:Eb in El; [|done].
    injection El as <-. lia.
  - by rewrite all_chars_app, IH, (printable_utf8 c r k).
Qed.
Lemma printable_marshal s : all_chars printable (marshal_string s) = true.
Proof. unfold marshal_string. rewrite !all_chars_app, printable_escape. reflexivity. Qed.
Lemma printable_FormatInt v : all_chars printable (FormatInt v) = true.
Proof.
  apply all_chars_absent. intros c Hc. apply FormatInt_no_char.
  - unfold printable in Hc. unfold is_digit. lia.
  - intros ->. discriminate Hc.
Qed.

(** What the program notifies: an ingested reading, a power, a change. *)
Definition sent_by_us (channel payload : string) : Prop :=
  (channel = "winnow" -> exists r, payload = notify_payload r) /\
  (channel = "winnow_ref" -> all_chars printable payload = true).

Lemma event_text_printable channel payload ev :
  sent_by_us channel payload -> event_text channel payload = Some ev -> all_chars printable ev = true.
Proof.
  intros [Hr Hp]. unfold event_text. destruct (String.eqb_spec channel "winnow") as [E|_].
  - destruct (Hr E) as [r ->]. unfold notify_payload. rewrite str_cut_app by (apply FormatInt_no_char; [reflexivity|discriminate]).
    cbv zeta iota beta. intros Hev. apply (inj Some) in Hev. subst ev. rewrite !all_chars_app, printable_FormatInt, printable_marshal. reflexivity.
  - destruct (String.eqb_spec channel "winnow_ref") as [E|_].
    + intros Hev. apply (inj Some) in Hev. subst ev. rewrite !all_chars_app, (Hp E). reflexivity.
    + destruct (_ =? _)%string; [by intros [= <-]|]. destruct (_ =? _)%string; by intros [= <-].
Qed.

(** ** A browser of the broker *)

(** What happens to the broker and to the handlers that serve its channels. *)
Inductive live_op := Connect | Leave (ch : nat) | Notified (channel payload : string) | Take (ch : nat) | Tick (ch : nat).

Definition live_step (s : Broker.state) (o : live_op) : Broker.state :=
  match o with
  | Connect => Broker.step s Add
  | Leave ch => Broker.step s (Remove ch)
  | Notified channel payload =>
      match event_text channel payload with Some ev => Broker.step s (Publish ev) | None => s end
  | Take ch => Broker.step s (Receive ch)
  | Tick _ => s
  end.
(** What the [select] of the handler of [ch] yields. *)
Definition selection (ch : nat) (s : Broker.state) (o : live_op) : list selected :=
  match o, clients (st_broker s) !! ch with
  | Take ch', Some (m :: _) => if bool_decide (ch' = ch) then [FromChannel (Some m)] else []
  | Tick ch', Some _ => if bool_decide (ch' = ch) then [KeepAlive] else []
  | Leave ch', Some _ => if bool_decide (ch' = ch) then [Done] else []
  | _, _ => []
  end.
Definition live (ch : nat) (ops : list live_op) : Broker.state * list selected :=
  fold_left (fun '(s, evs) o => (live_step s o, evs ++ selection ch s o)%list) ops (init_state, []).
(** The events the notifications of a history make. *)
Definition events_of (ops : list live_op) : list string :=
  omap (fun o => match o with Notified channel payload => event_text channel payload | _ => None end) ops.
Definition ours (o : live_op) : Prop :=
  match o with Notified channel payload => sent_by_us channel payload | _ => True end.

Definition goes_on (e : selected) : Prop := match e with FromChannel (Some _) | KeepAlive => True | _ => False end.
Lemma stream_loop_app evs evs' : Forall goes_on evs -> stream_loop (evs ++ evs') = (stream_loop evs ++ stream_loop evs')%string.
Proof.
  induction 1 as [|e evs He _ IH]; [done|]. destruct e as [|[m|]|]; try done; cbn [stream_loop app];
    rewrite IH; rewrite <- !str_app_assoc; reflexivity.
Qed.
Definition stream_text (evs : list selected) : string := "retry: 3000" ++ eol ++ eol ++ stream_loop evs.
Lemma stream_text_app evs evs' : Forall goes_on evs -> stream_text (evs ++ evs') = (stream_text evs ++ stream_loop evs')%string.
Proof. intros H. unfold stream_text. rewrite stream_loop_app by done. rewrite <- !str_app_assoc. reflexivity. Qed.

(** Along a history: the queues hold our events, a channel not yet given has no
    view, and the text of [ch]'s handler settles on what its view has got. *)
Record live_ok (ch : nat) (ops : list live_op) (s : Broker.state) (evs : list selected) : Prop := {
  lo_views : views_ok s;
  lo_queues : map_Forall (fun _ q => Forall (fun m => all_chars printable m = true) q) (clients (st_broker s));
  lo_fresh : forall c, is_Some (clients (st_broker s) !! c) -> (c < next_chan (st_broker s))%nat;
  lo_before : (next_chan (st_broker s) <= ch)%nat -> evs = [];
  lo_text : forall v, st_views s !! ch = Some v ->
    Forall goes_on evs /\ settles (stream_text evs) (got v) /\ sent v `sublist_of` events_of ops
}.

Lemma live_snoc ch ops o :
  live ch (ops ++ [o]) = (live_step (live ch ops).1 o, (live ch ops).2 ++ selection ch (live ch ops).1 o)%list.
Proof. unfold live. rewrite fold_left_app. cbn. by destruct (fold_left _ ops _). Qed.

Lemma views_none s ch : views_ok s -> clients (st_broker s) !! ch = None -> st_views s !! ch = None.
Proof. intros H E. specialize (H ch). rewrite E in H. by destruct (st_views s !! ch). Qed.

Lemma events_snoc ops o : events_of (ops ++ [o]) = (events_of ops ++ events_of [o])%list.
Proof. unfold events_of. by rewrite omap_app. Qed.

Section Step.
Context (ch : nat) (ops : list live_op) (s : Broker.state) (evs : list selected) (H : live_ok ch ops s evs).
Notation n := (next_chan (st_broker s)).

Lemma sent_snoc v o : sent v `sublist_of` events_of ops -> sent v `sublist_of` events_of (ops ++ [o]).
Proof. intros Hs. rewrite events_snoc. by apply sublist_inserts_r. Qed.
Lemma not_open : (n <= ch)%nat -> clients (st_broker s) !! ch = None.
Proof.
  intros Hn. destruct (clients (st_broker s) !! ch) eqn:E; [|done]. pose proof (lo_fresh _ _ _ _ H ch (mk_is_Some _ _ E)). lia.
Qed.
Lemma selection_none o : clients (st_broker s) !! ch = None -> selection ch s o = [].
Proof. intros E. unfold selection. rewrite E. by destruct o. Qed.
Lemma selection_other o : match o with Take c | Tick c | Leave c => c <> ch | _ => True end -> selection ch s o = [].
Proof.
  intros Ho. unfold selection. destruct o as [|c|? ?|c|c]; destruct (clients (st_broker s) !! ch) as [[|m q]|]; try done;
    by rewrite bool_decide_eq_false_2.
Qed.
Lemma selection_before o : (n <= ch)%nat -> (evs ++ selection ch s o = [])%list.
Proof. intros Hn. by rewrite (lo_before _ _ _ _ H Hn), selection_none by (by apply not_open). Qed.
Lemma text_unchanged o v :
  selection ch s o = [] -> st_views s !! ch = Some v ->
  Forall goes_on (evs ++ selection ch s o) /\ settles (stream_text (evs ++ selection ch s o)) (got v) /\
  sent v `sublist_of` events_of (ops ++ [o]).
Proof.
  intros -> Hv. rewrite app_nil_r. destruct (lo_text _ _ _ _ H v Hv) as (H1 & H2 & H3).
  split; [done|]. split; [done|]. by apply sent_snoc.
Qed.

Lemma connect_ok : live_ok ch (ops ++ [Connect]) (Broker.step s Add) (evs ++ selection ch s Connect).
Proof.
  pose proof H as [Hv Hq Hf Hb Ht]. constructor; [by apply step_views_ok|..]; cbn [Broker.step add st_broker st_views clients next_chan].
  - by apply map_Forall_insert_2.
  - intros c [q [[<- _]|[_ Hc]]%lookup_insert_Some]; [lia|]. specialize (Hf c (mk_is_Some _ _ Hc)). lia.
  - intros Hn. apply selection_before. lia.
  - intros v [[Hn <-]|[Hn Hw]]%lookup_insert_Some; [|by apply text_unchanged; [apply selection_other|]].
    rewrite selection_before by lia. split; [done|]. split; [reflexivity|]. apply sublist_nil_l.
Qed.
Lemma leave_ok c : live_ok ch (ops ++ [Leave c]) (Broker.step s (Remove c)) (evs ++ selection ch s (Leave c)).
Proof.
  pose proof H as [Hv Hq Hf Hb Ht]. constructor; [by apply step_views_ok|..]; cbn [Broker.step remove st_broker st_views clients next_chan].
  - by apply map_Forall_delete.
  - intros c' [q [_ Hc]%lookup_delete_Some]. apply Hf. by exists q.
  - apply selection_before.
  - intros v [Hn Hw]%lookup_delete_Some. apply text_unchanged; [|done]. apply selection_other. congruence.
Qed.
Lemma notified_ok channel payload ev :
  sent_by_us channel payload -> event_text channel payload = Some ev ->
  live_ok ch (ops ++ [Notified channel payload]) (Broker.step s (Publish ev)) (evs ++ selection ch s (Notified channel payload)).
Proof.
  intros Hs He. pose proof H as [Hv Hq Hf Hb Ht].
  constructor; [by apply step_views_ok|..]; cbn [Broker.step publish st_broker st_views clients next_chan].
  - intros c q (q0 & <- & Hq0)%lookup_fmap_Some. unfold offer. specialize (Hq c q0 Hq0).
    destruct (_ <? _)%nat; [|done]. apply Forall_app. split; [done|]. apply Forall_singleton. by eapply event_text_printable.
  - intros c [q (q0 & _ & Hc)%lookup_fmap_Some]. apply Hf. by exists q0.
  - apply selection_before.
  - intros v (v0 & <- & Hv0)%lookup_fmap_Some. cbn [got sent].
    rewrite selection_other by done.
    rewrite app_nil_r. destruct (Ht v0 Hv0) as (H1 & H2 & H3). split; [done|]. split; [done|].
    rewrite events_snoc. apply sublist_app; [done|]. unfold events_of. cbn [omap list_omap]. by rewrite He.
Qed.
Lemma same_ok o : selection ch s o = [] -> live_ok ch (ops ++ [o]) s (evs ++ selection ch s o).
Proof.
  intros E. pose proof H as [Hv Hq Hf Hb Ht]. constructor; try done; [apply selection_before|].
  intros v Hv0. by apply text_unchanged.
Qed.
Lemma take_ok c : live_ok ch (ops ++ [Take c]) (Broker.step s (Receive c)) (evs ++ selection ch s (Take c)).
Proof.
  pose proof H as [Hv Hq Hf Hb Ht]. pose proof (step_views_ok s (Receive c) Hv) as Hv'. cbn [Broker.step] in *.
  pose proof (Hv c) as Hc.
  assert (match clients (st_broker s) !! c with Some (_ :: _) => False | _ => True end -> selection ch s (Take c) = []) as Hno.
  { intros Hn. destruct (decide (c = ch)) as [->|Hne].
    - unfold selection. by destruct (clients (st_broker s) !! ch) as [[|m q]|].
    - by apply selection_other. }
  destruct (clients (st_broker s) !! c) as [[|m q]|] eqn:Ec; [by apply same_ok, Hno| |by apply same_ok, Hno].
  destruct (st_views s !! c) as [v|] eqn:Ev; [|done].
  constructor; [exact Hv'|..]; cbn [st_broker st_views clients next_chan].
  - apply map_Forall_insert_2; [|done]. specialize (Hq c _ Ec). by apply Forall_cons in Hq as [_ ?].
  - intros c' [q' [[<- _]|[_ Hc']]%lookup_insert_Some]; [apply Hf; by eexists|apply Hf; by eexists].
  - apply selection_before.
  - intros v' [[<- <-]|[Hne Hv0]]%lookup_insert_Some.
    + assert (selection c s (Take c) = [FromChannel (Some m)]) as ->
        by (unfold selection; rewrite Ec, bool_decide_eq_true_2; done).
      destruct (Ht v Ev) as (H1 & H2 & H3). split; [apply Forall_app; split; [done|by apply Forall_singleton]|].
      cbn [got sent]. split; [|by apply sent_snoc]. rewrite stream_text_app by done. cbn [stream_loop]. rewrite str_app_nil_r.
      specialize (Hq c _ Ec). apply Forall_cons in Hq as [Hm _]. by apply settles_message.
    + apply text_unchanged; [|done]. apply selection_other. congruence.
Qed.
Lemma tick_ok c : live_ok ch (ops ++ [Tick c]) s (evs ++ selection ch s (Tick c)).
Proof.
  destruct (decide (c = ch)) as [->|Hne]; [|by apply same_ok, selection_other].
  destruct (clients (st_broker s) !! ch) as [q|] eqn:Ec; [|by apply same_ok, selection_none].
  pose proof H as [Hv Hq Hf Hb Ht]. constructor; [done..|apply selection_before|].
  intros v Ev. assert (selection ch s (Tick ch) = [KeepAlive]) as -> by (unfold selection; by rewrite Ec, bool_decide_eq_true_2).
  destruct (Ht v Ev) as (H1 & H2 & H3). split; [apply Forall_app; split; [done|by apply Forall_singleton]|].
  split; [|by apply sent_snoc]. rewrite stream_text_app by done. cbn [stream_loop]. rewrite str_app_nil_r. by apply settles_ping.
Qed.
End Step.

Lemma live_ok_run ch ops : Forall ours ops -> live_ok ch ops (live ch ops).1 (live ch ops).2.
Proof.
  induction ops as [|o ops IH] using rev_ind; intros Ho.
  - cbn. constructor; cbn; [by intros c|apply map_Forall_empty| |done|]; [intros c [q Hc]|intros v Hc]; by rewrite lookup_empty in Hc.
  - apply Forall_app in Ho as [Ho [Ho1 _]%Forall_cons]. specialize (IH Ho). rewrite live_snoc. cbn [fst snd].
    destruct o as [|c|channel payload|c|c]; cbn [live_step];
      [by eapply connect_ok|by eapply leave_ok| |by eapply take_ok|by eapply tick_ok].
    destruct (event_text channel payload) as [ev|] eqn:E; [exact (notified_ok ch ops _ _ IH channel payload ev Ho1 E)|].
    apply same_ok; [exact IH|]. unfold selection. by destruct (clients (st_broker (live ch ops).1) !! ch).
Qed.

(** ** One browser, told from the history alone *)

(** How many channels have been given and, while channel [ch] is open, what its
    browser has taken and what waits for it: at most 16 messages, a further one
    being lost. *)
Definition follow_step (ch : nat) (f : nat * option (list string * list string)) (o : live_op)
  : nat * option (list string * list string) :=
  let '(given, view) := f in
  match o, view with
  | Connect, _ => (S given, if (given =? ch)%nat then Some ([], []) else view)
  | Leave c, _ => (given, if (c =? ch)%nat then None else view)
  | Notified channel payload, Some (taken, waiting) =>
      (given, match event_text channel payload with
              | Some ev => Some (taken, if (length waiting <? 16)%nat then waiting ++ [ev] else waiting)
              | None => view
              end)
  | Take c, Some (taken, m :: waiting) => (given, if (c =? ch)%nat then Some (taken ++ [m], waiting) else view)
  | _, _ => f
  end%list.
Definition follow (ch : nat) (ops : list live_op) : nat * option (list string * list string) :=
  fold_left (follow_step ch) ops (0%nat, None).

(** The broker and the views say the same. *)
Definition seen (ch : nat) (s : Broker.state) : nat * option (list string * list string) :=
  (next_chan (st_broker s),
   match clients (st_broker s) !! ch, st_views s !! ch with
   | Some q, Some v => Some (got v, q)
   | _, _ => None
   end).

Lemma follow_live_step ch s o : views_ok s -> seen ch (live_step s o) = follow_step ch (seen ch s) o.
Proof.
  intros Hv. pose proof (Hv ch) as Hc. unfold seen.
  destruct o as [|c|channel payload|c|c]; cbn [live_step follow_step].
  - cbn [Broker.step add st_broker st_views clients next_chan]. f_equal.
    destruct (Nat.eqb_spec (next_chan (st_broker s)) ch) as [->|Hne]; [by rewrite !lookup_insert_eq|].
    by rewrite !lookup_insert_ne.
  - cbn [Broker.step remove st_broker st_views clients next_chan]. f_equal.
    destruct (Nat.eqb_spec c ch) as [->|Hne]; [by rewrite !lookup_delete_eq|by rewrite !lookup_delete_ne].
  - destruct (event_text channel payload) as [ev|].
    + cbn [Broker.step publish st_broker st_views clients next_chan]. rewrite !lookup_fmap. unfold offer, chan_capacity.
      destruct (clients (st_broker s) !! ch), (st_views s !! ch); done.
    + destruct (clients (st_broker s) !! ch), (st_views s !! ch); done.
  - pose proof (Hv c) as Hc'. cbn [Broker.step].
    destruct (Nat.eqb_spec c ch) as [->|Hne].
    + destruct (clients (st_broker s) !! ch) as [[|m q]|] eqn:Eq, (st_views s !! ch) as [v|] eqn:Ev; try done;
        cbn [st_broker st_views clients next_chan]; by rewrite ?lookup_insert_eq, ?Eq, ?Ev.
    + destruct (clients (st_broker s) !! c) as [[|m q]|], (st_views s !! c) as [v|]; try done;
        cbn [st_broker st_views clients next_chan]; rewrite ?lookup_insert_ne by done;
        destruct (clients (st_broker s) !! ch) as [[|m' q']|], (st_views s !! ch) as [v'|]; done.
  - destruct (clients (st_broker s) !! ch) as [[|m' q']|], (st_views s !! ch) as [v'|]; done.
Qed.

Lemma follow_live ch ops : Forall ours ops -> seen ch (live ch ops).1 = follow ch ops.
Proof.
  induction ops as [|o ops IH] using rev_ind; intros Ho; [done|].
  apply Forall_app in Ho as [Ho _]. rewrite live_snoc. unfold follow. rewrite fold_left_app. cbn [fst fold_left].
  rewrite follow_live_step by (apply (lo_views _ _ _ _ (live_ok_run ch ops Ho))). by rewrite IH.
Qed.

(** C18: A browser reads back what the program notifies: whatever the other
    browsers do and whenever the keepalive ticks, the text the handler of an open
    channel has written is parsed by the browser into exactly the messages taken
    from its channel, and nothing is lost but what finds 16 messages waiting: the
    channel takes every event notified since it was opened, in order, when fewer
    wait, and a take removes the oldest.  The messages read, followed by those
    that wait, are events of the notifications, in their order and none twice,
    whatever bytes the sources' names hold. *)
Theorem browser_reads_events (ops : list live_op) (ch : nat) (q : list string) :
  Forall ours ops -> clients (st_broker (live ch ops).1) !! ch = Some q ->
  exists text, handleStream true (live ch ops).2 = Reply text /\
    (follow ch ops).2 = Some (EventSource text, q) /\
    (EventSource text ++ q)%list `sublist_of` events_of ops /\ (length q <= 16)%nat.
Proof.
  intros Ho Hq. destruct (live_ok_run ch ops Ho) as [Hv _ _ _ Ht]. specialize (Hv ch). rewrite Hq in Hv.
  destruct (st_views (live ch ops).1 !! ch) as [v|] eqn:Ev; [|done]. destruct Hv as [Hl Hs].
  destruct (Ht v eq_refl) as (_ & Hset & Hsent). eexists. split; [reflexivity|].
  unfold EventSource. fold (stream_text (live ch ops).2). rewrite Hset. cbn [rd_messages].
  split; [|split; [by etransitivity|exact Hl]]. rewrite <- follow_live by done. unfold seen. by rewrite Hq, Ev.
Qed.

(** Two browsers, a reading whose source holds a line break, a ping. *)
Definition odd_reading : Reading := mkReading 0 "SCM" 7 None None ("a" ++ eol ++ "b").
Definition two_browsers : list live_op := [
  Connect; Connect; Notified "winnow" (notify_payload odd_reading); Tick 0; Take 0; Notified "winnow_tests" ""].

Lemma browser_reads_events_witness :
  exists text, handleStream true (live 0 two_browsers).2 = Reply text /\
    (follow 0 two_browsers).2 = Some (EventSource text, [dq "{'type':'tests'}"]) /\
    EventSource text = [dq "{'type':'reading','endpoint_id':7,'source':'a\nb'}"] /\
    (EventSource text ++ [dq "{'type':'tests'}"])%list `sublist_of` events_of two_browsers.
Proof.
  assert (Forall ours two_browsers) as Ho.
  { unfold two_browsers. apply Forall_cons; split; [exact I|]. apply Forall_cons; split; [exact I|].
    apply Forall_cons; split; [split; [intros _; exists odd_reading; reflexivity|discriminate]|].
    apply Forall_cons; split; [exact I|]. apply Forall_cons; split; [exact I|].
    apply Forall_cons; split; [split; discriminate|constructor]. }
  destruct (browser_reads_events two_browsers 0 [dq "{'type':'tests'}"] Ho eq_refl) as (text & E & Hf & Hs & _).
  exists text. split; [exact E|]. split; [exact Hf|]. split; [|exact Hs]. vm_compute in E. injection E as <-. vm_compute. reflexivity.
Defined.
