(* ===== verification/Pipeline.v ===== *)
(** * From the radio to the browser

    The longest path through the program: a line of [rtlamr] is decoded and stored
    by the ingest loop of [cmd/capture], the insert notifies channel [winnow], the
    broker of [cmd/api] turns the notification into an event, the stream's handler
    writes it, and the browser parses the text and the event.  Each leg is modelled
    in its own file; here they are composed. *)

From S2P Require Import Prelude Float64 Model Json Encoding Ert Store Effects Database Gate Capture Broker Http Stream.

(** The notification of a stored reading, and the event a browser decodes. *)
Definition reading_note (rr : Reading * string) : string * string := ("winnow", notify_payload rr.1).
Definition reading_json (rr : Reading * string) : json :=
  JObj [("type", JStr "reading"); ("endpoint_id", JNum (FormatInt (r_EndpointID rr.1))); ("source", JStr (r_Source rr.1))].
Definition added {A} (before after : list A) : list A := drop (length before) after.

(** ** Ingest notifies what it stores *)

(** What a statement of the ingest changes of the two logs. *)
Definition logs (rs : list (Reading * string)) (ns : list (string * string)) (d : DB) : Prop :=
  readings d = rs /\ notifications d = ns.

Lemma ignored_statement {A} (f : DB -> time -> result (A * DB)) (P : DB -> Prop) w :
  no_faults w -> P (w_db w) -> (forall t a d', f (w_db w) t = Ok (a, d') -> P d') ->
  exists w1, ignore (statement f) w = (Ok tt, w1) /\ no_faults w1 /\ P (w_db w1).
Proof.
  intros Hw HP Hf. unfold ignore. rewrite statement_ok by done.
  destruct (f (w_db w) (w_now w)) as [[a d]|e] eqn:E; (eexists; split; [reflexivity|]); (split; [by apply no_faults_tail|]); cbn; eauto.
Qed.
Lemma InsertReading_logs r raw w rs ns :
  no_faults w -> logs rs ns (w_db w) ->
  exists w', InsertReading r raw w = (Ok tt, w') /\ no_faults w' /\ logs (rs ++ [(r, raw)]) (ns ++ [reading_note (r, raw)]) (w_db w').
Proof.
  intros Hw [<- <-]. unfold InsertReading, mbind, M_bind. rewrite exec_ok by done. cbv beta iota.
  set (w0 := mkWorld _ _ _). set (P := logs (readings (w_db w) ++ [(r, raw)]) (notifications (w_db w))).
  destruct (ignored_statement (fun d _ => upsert_index r d) P w0) as (w1 & -> & Hw1 & H1); [by apply no_faults_tail|by split|..].
  { intros t a d'. unfold upsert_index. repeat case_match; intros Hd; try discriminate Hd; injection Hd as _ <-; by split. }
  assert (exists w2, (if negb (is_empty (r_Source r)) then ignore (statement (fun d _ => upsert_source r d)) else mret tt) w1 = (Ok tt, w2) /\
            no_faults w2 /\ P (w_db w2)) as (w2 & -> & Hw2 & H2).
  { destruct (negb _); [|by exists w1]. apply ignored_statement; [done..|]. destruct H1 as [H1 H1'].
    intros t a d'. unfold upsert_source. repeat case_match; intros Hd; try discriminate Hd; injection Hd as _ <-; by split. }
  unfold ignore, pg_notify. rewrite exec_ok by done. eexists. split; [reflexivity|]. split; [by apply no_faults_tail|].
  destruct H2 as [H2 H2']. split; cbn; [exact H2|by rewrite H2'].
Qed.
Lemma heartbeat_logs src ts n w rs ns :
  no_faults w -> logs rs ns (w_db w) -> no_faults (sink_heartbeat src ts n w) /\ logs rs ns (w_db (sink_heartbeat src ts n w)).
Proof.
  intros Hw HP. cbn [sink_heartbeat db_Sink]. unfold UpdateHeartbeat.
  destruct (ignored_statement (fun d t => Ok (tt, set_capture_heartbeat (<[src := mkHeartbeat ts n t]> (capture_heartbeat d)) d)) (logs rs ns) w)
    as (w1 & E & H); [done..| |]; [by intros t a d' [= _ <-]|]. unfold exec. rewrite E. exact H.
Qed.

Section Ingest.
Context (Parse : string -> string -> option time) (nw : time) (src : string).

Lemma ingest_loop_logs evs ts k w rs ns :
  no_faults w -> logs rs ns (w_db w) ->
  let '(_, _, w') := ingest_loop Parse nw src evs ts k w in
  logs (rs ++ decoded Parse nw src evs) (ns ++ map reading_note (decoded Parse nw src evs)) (w_db w').
Proof.
  revert ts k w rs ns. induction evs as [|ev evs IH]; intros ts k w rs ns Hw HP; cbn [ingest_loop decoded].
  { cbn [map]. by rewrite !app_nil_r. }
  destruct ev as [text| | |]; cbn [map]; rewrite ?app_nil_r; [|by apply heartbeat_logs|done|done].
  cbv zeta. destruct (is_empty (TrimSpace text)); [by apply IH|].
  destruct (ExtractReading Parse nw (TrimSpace text) src) as [r|]; [|by apply IH].
  destruct (InsertReading_logs r (TrimSpace text) w rs ns Hw HP) as (w1 & E & Hw1 & H1).
  cbn [sink_insert db_Sink]. rewrite E. cbn [is_ok].
  set (w2 := if go_rem (k + 1) 25 =? 0 then _ else _).
  assert (no_faults w2 /\ logs (rs ++ [(r, TrimSpace text)]) (ns ++ [reading_note (r, TrimSpace text)]) (w_db w2)) as [Hw2 H2]
    by (unfold w2; destruct (_ =? 0); [by apply heartbeat_logs|done]).
  specialize (IH (r_TS r) (k + 1) w2 _ _ Hw2 H2). destruct (ingest_loop _ _ _ _ _ _ _) as [[e n] w'].
  cbn [map]. by rewrite <- !app_assoc in IH.
Qed.
Lemma decoded_source evs r raw : (r, raw) ∈ decoded Parse nw src evs -> r_Source r = src.
Proof.
  induction evs as [|ev evs IH]; cbn [decoded]; [by intros ?%elem_of_nil|].
  destruct ev as [text| | |]; try by intros ?%elem_of_nil.
  cbv zeta. destruct (is_empty _); [done|]. destruct (ExtractReading _ _ _ _) as [x|] eqn:E; [|done].
  intros [[= -> _]|H]%elem_of_cons; [|auto]. by apply ExtractReading_inv in E as (j & l & cn & _ & _ & _ & _ & _ & _ & _ & _ & ? & _).
Qed.
End Ingest.

(** ** A browser that keeps up *)

(** Each notification is handled by the broker and taken by the browser. *)
Definition followed (ch : nat) (ns : list (string * string)) : list live_op :=
  flat_map (fun n => [Notified n.1 n.2; Take ch]) ns.
(** What the browser of an open channel has parsed. *)
Definition open_at (ch : nat) (ops : list live_op) (shown : list string) : Prop :=
  clients (st_broker (live ch ops).1) !! ch = Some [] /\
  exists v, st_views (live ch ops).1 !! ch = Some v /\ got v = shown.

Lemma open_EventSource ch ops shown :
  Forall ours ops -> open_at ch ops shown ->
  exists text, handleStream true (live ch ops).2 = Reply text /\ EventSource text = shown.
Proof.
  intros Ho (Hq & v & Hv & <-). destruct (live_ok_run ch ops Ho) as [_ _ _ _ Ht]. destruct (Ht v Hv) as (_ & Hset & _).
  eexists. split; [reflexivity|]. unfold EventSource. fold (stream_text (live ch ops).2). by rewrite Hset.
Qed.
Lemma open_shown ch ops :
  Forall ours ops -> clients (st_broker (live ch ops).1) !! ch = Some [] -> exists shown, open_at ch ops shown.
Proof.
  intros Ho Hq. destruct (live_ok_run ch ops Ho) as [Hv _ _ _ _]. specialize (Hv ch). rewrite Hq in Hv.
  destruct (st_views _ !! ch) as [v|] eqn:Ev; [|done]. exists (got v). split; [done|]. by exists v.
Qed.
Lemma open_follows ch ops shown c p ev :
  event_text c p = Some ev -> open_at ch ops shown -> open_at ch (ops ++ [Notified c p; Take ch]) (shown ++ [ev]).
Proof.
  intros He (Hq & v & Hv & <-). replace (ops ++ [Notified c p; Take ch])%list with ((ops ++ [Notified c p]) ++ [Take ch])%list by (by rewrite <- app_assoc).
  unfold open_at. rewrite !live_snoc. cbn [fst live_step]. rewrite He. cbn [Broker.step st_broker st_views publish clients].
  rewrite !lookup_fmap, Hq, Hv. cbn [fmap option_fmap option_map offer length Nat.ltb app st_broker st_views clients].
  unfold offer. cbn. rewrite !lookup_insert_eq. split; [done|]. by eexists.
Qed.

Lemma followed_shown ch rs ops shown :
  Forall (fun rr => 0 <= r_EndpointID rr.1 <= int64_max /\ all_ascii (r_Source rr.1) = true) rs ->
  open_at ch ops shown ->
  exists new, open_at ch (ops ++ followed ch (map reading_note rs)) (shown ++ new) /\
    map parse new = map (fun rr => Some (reading_json rr)) rs.
Proof.
  intros Hrs. revert ops shown. induction Hrs as [|rr rs [Hid Ha] _ IH]; intros ops shown Hop.
  { exists []. cbn. by rewrite !app_nil_r. }
  destruct (reading_event_roundtrip rr.1 Hid Ha) as (ev & He & Hp).
  destruct (IH _ _ (open_follows ch ops shown _ _ ev He Hop)) as (new & Hn & Hm).
  exists (ev :: new). cbn [map]. rewrite <- !app_assoc in Hn. split; [exact Hn|]. by rewrite Hp, Hm.
Qed.
Lemma ours_followed ch rs : Forall ours (followed ch (map reading_note rs)).
Proof.
  induction rs as [|rr rs IH]; [by constructor|]. cbn. constructor; [|by constructor]. split; [intros _; by exists rr.1|done].
Qed.
Lemma added_app {A} (l l' : list A) : added l (l ++ l') = l'.
Proof. unfold added. by rewrite drop_app_length. Qed.

(** C16: What the radio hears, the browser shows: without faults an ingest run
    stores exactly the readings its lines decode to, in order, and notifies each
    once; and when the broker handles these notifications in the order of their
    commits and an open browser that has nothing waiting takes them as they come,
    the text its handler has written by then parses to what it parsed to before
    followed by one event per stored reading, each of which is the JSON object of
    that reading's endpoint id and source.  (The source is ASCII and the ids are not
    negative.) *)
Theorem radio_reaches_browser (Parse : string -> string -> option time) (nw : time) (src : string)
    (evs : list event) (w : World) (ops : list live_op) (ch : nat) :
  no_faults w -> all_ascii src = true ->
  (forall rr, rr ∈ decoded Parse nw src evs -> 0 <= r_EndpointID rr.1 <= int64_max) ->
  Forall ours ops -> clients (st_broker (live ch ops).1) !! ch = Some [] ->
  let '(_, _, w') := ingest Parse nw src evs w in
  let heard := decoded Parse nw src evs in
  let notes := added (notifications (w_db w)) (notifications (w_db w')) in
  readings (w_db w') = (readings (w_db w) ++ heard)%list /\
  exists before after new,
    handleStream true (live ch ops).2 = Reply before /\
    handleStream true (live ch (ops ++ followed ch notes)).2 = Reply after /\
    EventSource after = (EventSource before ++ new)%list /\
    map parse new = map (fun rr => Some (reading_json rr)) heard.
Proof.
  intros Hw Ha Hid Ho Hq. unfold ingest.
  destruct (heartbeat_logs src nw 0 w _ _ Hw (conj eq_refl eq_refl)) as [Hw1 H1].
  pose proof (ingest_loop_logs Parse nw src evs nw 0 _ _ _ Hw1 H1) as H2. destruct (ingest_loop _ _ _ _ _ _ _) as [[e n] w'].
  destruct H2 as [Hr Hn]. cbv zeta. split; [exact Hr|]. rewrite Hn, added_app.
  destruct (open_shown ch ops Ho Hq) as [shown Hs].
  destruct (followed_shown ch (decoded Parse nw src evs) ops shown) as (new & Hop & Hp); [|exact Hs|].
  { apply Forall_forall. intros [r raw] Hin. split; [by apply Hid|]. cbn. by rewrite (decoded_source _ _ _ _ _ _ Hin). }
  destruct (open_EventSource ch ops shown Ho Hs) as (before & Hb & Eb).
  destruct (open_EventSource ch _ _ (proj2 (Forall_app _ _ _) (conj Ho (ours_followed ch _))) Hop) as (after & Hf & Ea).
  exists before, after, new. split_and!; [done|done|by rewrite Ea, Eb|done].
Qed.

(** One packet, with a browser that has just connected. *)
Definition one_packet : list event := [Line scm_line; Closed].
Lemma radio_reaches_browser_witness :
  exists before after new,
    handleStream true (live 0 [Connect]).2 = Reply before /\
    handleStream true (live 0 [Connect; Notified "winnow" (FormatInt 18273645 ++ String unit_sep "d0"); Take 0]).2 = Reply after /\
    EventSource after = (EventSource before ++ new)%list /\
    map parse new = [Some (JObj [("type", JStr "reading"); ("endpoint_id", JNum "18273645"); ("source", JStr "d0")])].
Proof.
  assert (map (fun rr => r_EndpointID rr.1) (decoded no_layout 0 "d0" one_packet) = [18273645]) as E3 by (vm_compute; reflexivity).
  pose proof (radio_reaches_browser no_layout 0 "d0" one_packet (mkWorld empty_DB 0 []) [Connect] 0) as H.
  destruct (ingest _ _ _ _ _) as [[e n] w'] eqn:E.
  assert (added [] (notifications (w_db w')) = [("winnow", (FormatInt 18273645 ++ String unit_sep "d0")%string)]) as En.
  { replace w' with (ingest no_layout 0 "d0" one_packet (mkWorld empty_DB 0 [])).2 by (by rewrite E). vm_compute. reflexivity. }
  destruct H as (_ & before & after & new & H1 & H2 & H3 & H4).
  - constructor.
  - reflexivity.
  - intros rr Hin. assert (r_EndpointID rr.1 ∈ [18273645]) as Hx%list_elem_of_singleton by (rewrite <- E3; by apply (list_elem_of_fmap_2 (fun rr => r_EndpointID rr.1))).
    rewrite Hx. vm_compute. split; discriminate.
  - repeat constructor.
  - reflexivity.
  - exists before, after, new. cbn [w_db notifications empty_DB] in H2. rewrite En in H2. split_and!; [exact H1|exact H2|exact H3|].
    rewrite H4. vm_compute. reflexivity.
Defined.
