(* ===== verification/HaWs.v ===== *)
(** * Home Assistant's recorder over the WebSocket ([internal/ha/ws.go], [stats.go])

    A connection is the texts it will deliver ([None]: the read fails) and the
    outcomes of its writes; a call is a program on it that records what it sends.
    [authConn] is the handshake, [readResult] waits for an answer, and the three
    calls decode the lists of statistics and their points.  [time.Parse] is a
    parameter. *)

From S2P Require Import Prelude Float64 Rounding Calendar Json Encoding Numbers Store Ha Http.

(** ** The connection *)

Record conn := mkConn { cn_in : list (option string); cn_writes : list bool; cn_sent : list json }.
(** A Go call that may fail. *)
Definition W (A : Type) : Type := conn -> (string + A) * conn.
#[export] Instance W_ret : MRet W := fun A a c => (inr a, c).
#[export] Instance W_bind : MBind W := fun A B f m c =>
  match m c with (inr a, c') => f a c' | (inl e, c') => (inl e, c') end.
Definition wfail {A} (e : string) : W A := fun c => (inl e, c).

(** [c.Write] of a marshalled value, and [c.Read] with [json.Unmarshal]. *)
Definition write (v : json) : W unit := fun c =>
  match cn_writes c with
  | false :: ws => (inl "write", mkConn (cn_in c) ws (cn_sent c))
  | _ => (inr tt, mkConn (cn_in c) (tail (cn_writes c)) (cn_sent c ++ [v])%list)
  end.
Definition read {A} (dec : json -> option A) : W A := fun c =>
  match cn_in c with
  | Some text :: rest =>
      let c' := mkConn rest (cn_writes c) (cn_sent c) in
      match parse text with
      | Some j => match dec j with Some a => (inr a, c') | None => (inl "json", c') end
      | None => (inl "json", c')
      end
  | None :: rest => (inl "read", mkConn rest (cn_writes c) (cn_sent c))
  | [] => (inl "read", c)
  end.

(** ** The handshake *)

(** [json.Unmarshal] into the [map[string]any] of the message before: the members
    are added, [null] clears it. *)
Definition decode_map (old : gmap string json) (j : json) : option (gmap string json) :=
  match j with
  | JObj _ => Some (to_map j ∪ old)
  | JNull => Some ∅
  | _ => None
  end.
Definition msg_type (msg : gmap string json) (t : string) : bool :=
  match msg !! "type" with Some (JStr s) => (s =? t)%string | _ => false end.
Definition auth_message (token : string) : json := JObj [("type", JStr "auth"); ("access_token", JStr token)].

Definition authConn (token : string) : W unit :=
  msg ← read (decode_map ∅);
  if negb (msg_type msg "auth_required") then wfail "unexpected first message"
  else
    write (auth_message token) ;;
    msg ← read (decode_map msg);
    if negb (msg_type msg "auth_ok") then wfail "HA auth failed" else mret tt.

(** ** Answers *)

(** A frame of the recorder.  A result that is absent is not [null]. *)
Record wsResult := mkResult {
  wr_ID : Z; wr_Type : string; wr_Success : bool; wr_Result : option json; wr_Code : string; wr_Message : string
}.
Definition result_names : list string := ["id"; "type"; "success"; "result"; "error"].
Definition error_names : list string := ["code"; "message"].
(** A raw field, when the object has it. *)
Definition get_rawMessage (names : list string) (f : string) (ms : list (string * json)) : option json :=
  fold_left (fun old kv => match field_match names kv.1 with
                           | Some g => if (g =? f)%string then Some kv.2 else old
                           | None => old
                           end) ms None.
Definition decode_error (j : json) : option (string * string) :=
  ms ← body_members (Some j);
  code ← get_str error_names "code" ms;
  text ← get_str error_names "message" ms;
  Some (code, text).
Definition decode_result (j : json) : option wsResult :=
  ms ← body_members (Some j);
  id ← get_val dec_int 0 result_names "id" ms;
  ty ← get_str result_names "type" ms;
  ok ← get_val dec_bool false result_names "success" ms;
  e ← decode_error (get_raw result_names "error" ms);
  Some (mkResult id ty ok (get_rawMessage result_names "result" ms) e.1 e.2).

(** [readResult]: the loop ends with the answer, or with the connection. *)
Definition is_answer (id : Z) (r : wsResult) : bool := (wr_ID r =? id) && (wr_Type r =? "result")%string.
Definition take_answer (r : wsResult) : string + option json :=
  if wr_Success r then inr (wr_Result r) else inl ("HA " ++ wr_Code r ++ ": " ++ wr_Message r)%string.
Fixpoint read_frames (id : Z) (frames : list (option string)) : (string + option json) * list (option string) :=
  match frames with
  | [] => (inl "read", [])
  | None :: rest => (inl "read", rest)
  | Some text :: rest =>
      match parse text ≫= decode_result with
      | None => (inl "json", rest)
      | Some r => if is_answer id r then (take_answer r, rest) else read_frames id rest
      end
  end.
Definition readResult (id : Z) : W (option json) := fun c =>
  let '(r, rest) := read_frames id (cn_in c) in (r, mkConn rest (cn_writes c) (cn_sent c)).
(** [json.Unmarshal(payload, &v)]; an absent payload is the empty text. *)
Definition unmarshal {A} (dec : json -> option A) (payload : option json) : W A :=
  match payload ≫= dec with Some a => mret a | None => wfail "json" end.

(** ** The statistics of the recorder *)

Record StatID := mkStatID { si_ID : string; si_Name : string; si_Unit : string }.
Record statRow := mkRow { sr_ID : string; sr_Name : string; sr_Display : string; sr_Stats : string; sr_Class : string }.
Definition row_names : list string :=
  ["statistic_id"; "name"; "display_unit_of_measurement"; "statistics_unit_of_measurement"; "unit_class"].
Definition decode_row (j : json) : option statRow :=
  ms ← body_members (Some j);
  id ← get_str row_names "statistic_id" ms;
  name ← get_str row_names "name" ms;
  du ← get_str row_names "display_unit_of_measurement" ms;
  su ← get_str row_names "statistics_unit_of_measurement" ms;
  uc ← get_str row_names "unit_class" ms;
  Some (mkRow id name du su uc).
Definition energy_stat (r : statRow) : option StatID :=
  let unit := or_else (sr_Display r) (sr_Stats r) in
  if negb (isEnergyUnit unit) && negb (sr_Class r =? "energy")%string then None
  else Some (mkStatID (sr_ID r) (or_else (sr_Name r) (sr_ID r)) unit).

Definition list_command : json :=
  JObj [("id", JNum "1"); ("type", JStr "recorder/list_statistic_ids"); ("statistic_type", JStr "sum")].
Definition ListEnergyStatisticIDs (token : string) : W (list StatID) :=
  authConn token ;;
  write list_command ;;
  payload ← readResult 1;
  rows ← unmarshal (decode_array decode_row) payload;
  mret (omap energy_stat rows).

(** ** The points of a statistic *)

Section Points.
Context (Parse : string -> option time).

(** [flexTime]: milliseconds since 1970 or an RFC 3339 text. *)
Definition flexTime (j : json) : option time :=
  match j with
  | JNull => Some zero_time
  | JStr s => Parse s
  | JNum l => option_map (fun ms => to_int64 ms * Millisecond) (number_float l)
  | _ => None
  end.
(** The field [start]: the decoder also sees [null], which leaves it alone. *)
Definition get_start (names : list string) (ms : list (string * json)) : option time :=
  get_val flexTime zero_time names "start" ms.

Definition sum_names : list string := ["start"; "sum"; "change"].
Definition decode_stat (j : json) : option StatPoint :=
  ms ← body_members (Some j);
  start ← get_start sum_names ms;
  total ← get_ptr dec_float sum_names "sum" ms;
  change ← get_ptr dec_float sum_names "change" ms;
  Some (mkStat start total change).
Definition mean_names : list string := ["start"; "mean"; "change"].
Definition decode_mean (j : json) : option MeanPoint :=
  ms ← body_members (Some j);
  start ← get_start mean_names ms;
  m ← get_ptr dec_float mean_names "mean" ms;
  change ← get_ptr dec_float mean_names "change" ms;
  Some (mkMean start m change).

(** [map[string][]T]: every value must decode, the last of equal keys stays. *)
Definition decode_series {A} (dec : json -> option A) (j : json) : option (gmap string (list A)) :=
  ms ← body_members (Some j);
  fold_left (fun acc kv => m ← acc; l ← decode_array dec kv.2; Some (<[kv.1 := l]> m)) ms (Some (∅ : gmap string (list A))).

Definition period_command (ids : list string) (start fin : time) (period : string) (types : list string) : json :=
  JObj [("id", JNum "1"); ("type", JStr "recorder/statistics_during_period"); ("statistic_ids", JArr (map JStr ids));
        ("period", JStr period); ("start_time", JStr (RFC3339 start)); ("end_time", JStr (RFC3339 fin));
        ("types", JArr (map JStr types))].
Definition statistics {A} (token : string) (command : json) (dec : json -> option A) : W (gmap string (list A)) :=
  authConn token ;;
  write command ;;
  payload ← readResult 1;
  unmarshal (decode_series dec) payload.

Definition StatisticsDuringPeriod (token statID : string) (start fin : time) (period : string) : W (list StatPoint) :=
  byID ← statistics token (period_command [statID] start fin period ["sum"; "change"]) decode_stat;
  mret (from_opt [] (byID !! statID)).
(** A statistic without points has no entry. *)
Definition StatisticsMeanDuringPeriod (token : string) (statIDs : list string) (start fin : time)
  : W (gmap string (list MeanPoint)) :=
  byID ← statistics token (period_command statIDs start fin "hour" ["mean"; "change"]) decode_mean;
  mret (filter (fun kv : string * list MeanPoint => kv.2 <> []) byID).
End Points.

(** ** What is sent, and when *)

(** The first frame asks for the token; the second accepts it. *)
Definition asks_auth (c : conn) : Prop :=
  exists text rest msg, cn_in c = Some text :: rest /\ parse text ≫= decode_map ∅ = Some msg /\
    msg_type msg "auth_required" = true.
Definition accepts_auth (c : conn) : Prop :=
  exists t1 t2 rest m1 m2, cn_in c = Some t1 :: Some t2 :: rest /\ parse t1 ≫= decode_map ∅ = Some m1 /\
    parse t2 ≫= decode_map m1 = Some m2 /\ msg_type m2 "auth_ok" = true.
(** One of the frames after the handshake is the answer to command 1. *)
Definition answered (payload : option json) (c : conn) : Prop :=
  exists text r, Some text ∈ drop 2 (cn_in c) /\ parse text ≫= decode_result = Some r /\
    is_answer 1 r = true /\ wr_Success r = true /\ wr_Result r = payload.

Lemma read_inv {A} (dec : json -> option A) c r c' :
  read dec c = (r, c') ->
  cn_sent c' = cn_sent c /\
  match r with
  | inr a => exists text, cn_in c = Some text :: cn_in c' /\ parse text ≫= dec = Some a
  | inl _ => True
  end.
Proof.
  unfold read. destruct (cn_in c) as [|[text|] rest]; [by intros [= <- <-]| |by intros [= <- <-]].
  destruct (parse text) as [j|] eqn:Ep; [|by intros [= <- <-]].
  destruct (dec j) eqn:Ed; intros [= <- <-]; (split; [done|]); [|done]. exists text. by rewrite Ep.
Qed.
Lemma write_inv v c r c' :
  write v c = (r, c') ->
  cn_in c' = cn_in c /\ match r with inr _ => cn_sent c' = cn_sent c ++ [v] | inl _ => cn_sent c' = cn_sent c end%list.
Proof. unfold write. destruct (cn_writes c) as [|[] ws]; by intros [= <- <-]. Qed.

Lemma authConn_inv token c r c' :
  authConn token c = (r, c') ->
  (cn_sent c' = cn_sent c \/ asks_auth c /\ cn_sent c' = cn_sent c ++ [auth_message token])%list /\
  match r with
  | inr _ => accepts_auth c /\ asks_auth c /\ cn_sent c' = cn_sent c ++ [auth_message token] /\ cn_in c' = drop 2 (cn_in c)
  | inl _ => True
  end%list.
Proof.
  unfold authConn, mbind, W_bind.
  destruct (read _ c) as [[e|m1] c1] eqn:E1; apply read_inv in E1 as [S1 H1];
    [intros [= <- <-]; split; [by left|done]|].
  destruct H1 as (t1 & Hin1 & Hp1). destruct (negb _) eqn:Eq1; [intros [= <- <-]; split; [by left|done]|].
  apply negb_false_iff in Eq1. assert (asks_auth c) as Ha by (by exists t1, (cn_in c1), m1).
  destruct (write _ c1) as [[e|[]] c2] eqn:E2; apply write_inv in E2 as [I2 S2]; rewrite S1 in S2;
    [intros [= <- <-]; split; [by left|done]|].
  destruct (read _ c2) as [[e|m2] c3] eqn:E3; apply read_inv in E3 as [S3 H3]; rewrite S2 in S3;
    [intros [= <- <-]; split; [by right|done]|].
  destruct H3 as (t2 & Hin2 & Hp2). destruct (negb _) eqn:Eq2; intros [= <- <-]; (split; [by right|]); [done|].
  apply negb_false_iff in Eq2. rewrite I2 in Hin2. rewrite Hin2 in Hin1.
  split; [by exists t1, t2, (cn_in c3), m1, m2|]. split; [done|]. split; [done|]. by rewrite Hin1.
Qed.

Lemma read_frames_inv id frames r rest :
  read_frames id frames = (inr r, rest) ->
  exists text x, Some text ∈ frames /\ parse text ≫= decode_result = Some x /\ is_answer id x = true /\
    wr_Success x = true /\ wr_Result x = r.
Proof.
  induction frames as [|[text|] frames IH]; cbn [read_frames]; [done| |done].
  destruct (parse text ≫= decode_result) as [x|] eqn:Ex; [|done]. destruct (is_answer id x) eqn:Ea.
  - intros [= E <-]. unfold take_answer in E. destruct (wr_Success x) eqn:Es; [|done]. injection E as E.
    exists text, x. split; [left|done].
  - intros H. destruct (IH H) as (t & y & Hin & ?). exists t, y. split; [by right|done].
Qed.

(** C19: The Home Assistant token leaves only in answer to a request for it, and a
    command only after it was accepted: whatever the connection delivers and
    whichever write fails, a statistics call sends nothing, or the token after a
    first frame [auth_required], or the token and the command after a second frame
    [auth_ok]; and it returns a value only from a successful result frame with the
    command's id. *)
Theorem statistics_session_safe {A} (token : string) (command : json) (dec : json -> option A)
    (frames : list (option string)) (writes : list bool) :
  let c := mkConn frames writes [] in
  let '(r, c') := statistics token command dec c in
  (cn_sent c' = [] \/
   (asks_auth c /\ cn_sent c' = [auth_message token]) \/
   (asks_auth c /\ accepts_auth c /\ cn_sent c' = [auth_message token; command])) /\
  (forall m, r = inr m -> cn_sent c' = [auth_message token; command] /\
     exists payload, answered payload c /\ payload ≫= decode_series dec = Some m).
Proof.
  intros c. unfold statistics, mbind, W_bind.
  destruct (authConn token c) as [[e|[]] c1] eqn:E1; apply authConn_inv in E1 as [S1 H1]; cbn [cn_sent c app] in *.
  { split; [|done]. destruct S1 as [->|[? ->]]; [by left|right; by left]. }
  destruct H1 as (Hok & Ha & Hs & Hin).
  destruct (write command c1) as [[e|[]] c2] eqn:E2; apply write_inv in E2 as [I2 S2].
  { split; [|done]. right. left. by rewrite S2. }
  rewrite Hs in S2. cbn [app] in S2. unfold readResult. destruct (read_frames 1 (cn_in c2)) as [[e|payload] rest] eqn:E3.
  { split; [|done]. right. right. by cbn [cn_sent]. }
  unfold unmarshal. cbn [cn_sent]. rewrite I2, Hin in E3. apply read_frames_inv in E3 as (t & x & ?).
  destruct (payload ≫= decode_series dec) as [m|] eqn:Em; cbn [mret W_ret wfail cn_sent].
  - split; [right; by right|]. intros m' [= <-]. split; [done|]. exists payload. split; [by exists t, x|done].
  - split; [right; by right|done].
Qed.

(** ** An answer read back *)

(** A point as the recorder writes it, with whole values. *)
Record wirePoint := mkWire { wp_ms : Z; wp_sum : option Z; wp_change : option Z }.
Definition num_or_null (v : option Z) : json := match v with Some n => JNum (FormatInt n) | None => JNull end.
Definition point_json (p : wirePoint) : json :=
  JObj [("start", JNum (FormatInt (wp_ms p))); ("sum", num_or_null (wp_sum p)); ("change", num_or_null (wp_change p))].
Definition point_of (p : wirePoint) : StatPoint :=
  mkStat (wp_ms p * Millisecond) (option_map of_Z (wp_sum p)) (option_map of_Z (wp_change p)).
Definition small (n : Z) : Prop := 0 <= n < 2 ^ 53.
Definition wire_ok (p : wirePoint) : Prop :=
  small (wp_ms p) /\ (forall n, wp_sum p = Some n -> small n) /\ (forall n, wp_change p = Some n -> small n).

Definition answer_json (statID : string) (pts : list wirePoint) : json :=
  JObj [("id", JNum "1"); ("type", JStr "result"); ("success", JBool true);
        ("result", JObj [(statID, JArr (map point_json pts))])].

Lemma dec_float_FormatInt n : small n -> dec_float (JNum (FormatInt n)) = Some (of_Z n).
Proof. apply number_float_FormatInt. Qed.
Lemma to_int64_of_Z n : small n -> to_int64 (of_Z n) = n.
Proof.
  intros Hn. pose proof (ftrunc_of_Z n Hn) as E. destruct (of_Z_exact n Hn) as [Hv _]. unfold small in Hn. unfold to_int64.
  destruct (of_Z n) as [b|b| |b m e].
  - exact E.
  - discriminate Hv.
  - discriminate Hv.
  - rewrite E. destruct (Z.leb_spec int64_min n); [|unfold int64_min in *; lia].
    destruct (Z.leb_spec n int64_max); [done|unfold int64_max in *; lia].
Qed.
Lemma flexTime_ms Parse n : small n -> flexTime Parse (JNum (FormatInt n)) = Some (n * Millisecond).
Proof. intros Hn. unfold flexTime. rewrite number_float_FormatInt by done. cbn [option_map]. by rewrite to_int64_of_Z. Qed.

Lemma decode_stat_point Parse p : wire_ok p -> decode_stat Parse (point_json p) = Some (point_of p).
Proof.
  intros (Hm & Hs & Hc). destruct p as [ms s c]. unfold decode_stat, point_json, body_members, get_start, point_of.
  cbn [wp_ms wp_sum wp_change] in *.
  assert (get_val (flexTime Parse) zero_time sum_names "start"
            [("start", JNum (FormatInt ms)); ("sum", num_or_null s); ("change", num_or_null c)] = Some (ms * Millisecond)) as E1.
  { unfold get_val. cbn [fold_left fst snd]. rewrite (flexTime_ms Parse ms Hm). reflexivity. }
  assert (forall v, (forall n, v = Some n -> small n) ->
            match num_or_null v with JNull => Some None | w => option_map Some (dec_float w) end = Some (option_map of_Z v)) as Hv.
  { intros [n|] H; [|done]. cbn [num_or_null option_map]. by rewrite (dec_float_FormatInt n (H n eq_refl)). }
  assert (get_ptr dec_float sum_names "sum"
            [("start", JNum (FormatInt ms)); ("sum", num_or_null s); ("change", num_or_null c)] = Some (option_map of_Z s)) as E2.
  { unfold get_ptr. cbn [fold_left fst snd]. rewrite (Hv s Hs). reflexivity. }
  assert (get_ptr dec_float sum_names "change"
            [("start", JNum (FormatInt ms)); ("sum", num_or_null s); ("change", num_or_null c)] = Some (option_map of_Z c)) as E3.
  { unfold get_ptr. cbn [fold_left fst snd]. rewrite (Hv c Hc). reflexivity. }
  cbn [mbind option_bind]. by rewrite E1, E2, E3.
Qed.

Lemma decode_all_map {A B} (f : json -> option A) (g : B -> json) (h : B -> A) l :
  Forall (fun x => f (g x) = Some (h x)) l -> decode_all f (map g l) = Some (map h l).
Proof. induction 1 as [|x l Hx _ IH]; cbn; [done|]. by rewrite Hx, IH. Qed.

(** A statistics request returns the points that Home Assistant answered with:
    after a handshake that accepts the token, past any frames that are not its
    answer, the points are those of the answer in its order, the times in
    milliseconds and the energies exact, and what was sent is the token and the
    one command for this statistic, range and period. *)
Theorem StatisticsDuringPeriod_reads (Parse : string -> option time) (token statID : string) (start fin : time)
    (period hello ok answer : string) (noise : list string) (rest : list (option string)) (pts : list wirePoint) :
  parse hello = Some (JObj [("type", JStr "auth_required")]) -> parse ok = Some (JObj [("type", JStr "auth_ok")]) ->
  Forall (fun t => exists r, parse t ≫= decode_result = Some r /\ is_answer 1 r = false) noise ->
  parse answer = Some (answer_json statID pts) -> Forall wire_ok pts ->
  StatisticsDuringPeriod Parse token statID start fin period
    (mkConn (map Some (hello :: ok :: noise ++ [answer])%list ++ rest)%list [] []) =
  (inr (map point_of pts),
   mkConn rest [] [auth_message token; period_command [statID] start fin period ["sum"; "change"]]).
Proof.
  intros Eh Eo Hn Ea Hp. unfold StatisticsDuringPeriod, statistics, authConn, mbind, W_bind.
  cbn [map app]. unfold read at 1. cbn [cn_in]. rewrite Eh. cbn [decode_map cn_writes cn_sent].
  set (m1 := to_map _ ∪ ∅). assert (msg_type m1 "auth_required" = true) as -> by reflexivity. cbn [negb].
  unfold write at 1. cbn [cn_writes cn_in cn_sent tail app]. unfold read at 1. cbn [cn_in]. rewrite Eo. cbn [decode_map cn_writes cn_sent].
  set (m2 := to_map _ ∪ m1). assert (msg_type m2 "auth_ok" = true) as -> by reflexivity. cbn [negb mret W_ret].
  unfold write. cbn [cn_writes cn_in cn_sent tail app].
  assert (read_frames 1 (map Some (noise ++ [answer])%list ++ rest)%list =
            (inr (Some (JObj [(statID, JArr (map point_json pts))])), rest)) as Er.
  { induction Hn as [|t noise (r & Er & Hr) _ IH]; cbn [map app read_frames].
    - rewrite Ea. reflexivity.
    - rewrite Er, Hr. exact IH. }
  unfold readResult. cbn [cn_in cn_writes cn_sent]. rewrite Er. unfold unmarshal, decode_series, body_members. cbn [mbind option_bind fold_left snd fst decode_array].
  rewrite (decode_all_map _ _ point_of) by (eapply Forall_impl; [exact Hp|]; intros p; apply decode_stat_point).
  cbn [mbind option_bind mret W_ret]. by rewrite lookup_insert_eq.
Qed.

Lemma StatisticsDuringPeriod_reads_witness :
  StatisticsDuringPeriod (fun _ => None) "t" "opower:kwh" 0 Day "hour"
    (mkConn [Some (dq "{'type':'auth_required'}"); Some (dq "{'type':'auth_ok'}"); Some (dq "{'id':9,'type':'pong'}");
             Some (dq "{'id':1,'type':'result','success':true,'result':{'opower:kwh':[{'start':3600000,'sum':12,'change':null}]}}")] [] []) =
  (inr [mkStat Hour (Some (of_Z 12)) None],
   mkConn [] [] [auth_message "t"; period_command ["opower:kwh"] 0 Day "hour" ["sum"; "change"]]).
Proof.
  apply (StatisticsDuringPeriod_reads (fun _ => None) "t" "opower:kwh" 0 Day "hour" (dq "{'type':'auth_required'}") (dq "{'type':'auth_ok'}")
    (dq "{'id':1,'type':'result','success':true,'result':{'opower:kwh':[{'start':3600000,'sum':12,'change':null}]}}")
    [dq "{'id':9,'type':'pong'}"] [] [mkWire 3600000 (Some 12) None]).
  - vm_compute. reflexivity.
  - vm_compute. reflexivity.
  - constructor; [|constructor]. eexists. split; [vm_compute; reflexivity|reflexivity].
  - vm_compute. reflexivity.
  - constructor; [|constructor]. unfold wire_ok, small. cbn. repeat split; try lia; by simplify_eq.
Defined.
