(* ===== verification/HaClient.v ===== *)
(** * Home Assistant's REST interface and the live session ([internal/ha])

    A server is the answers it will give to the next requests ([None]: the request
    fails); a call of the client is a program that consumes them and records what
    it asks.  The decoding of the answers is that of [Ha].  [StreamStates] is one
    session on a connection of [HaWs]: the handshake, the subscription, and then
    any interleaving of frames, pings and the failures of either. *)

From S2P Require Import Prelude Float64 Calendar Json Encoding Store Ha Http HaWs.

(** ** Requests *)

Record sent_request := mkSent { sr_method : string; sr_url : string; sr_bearer : string; sr_body : option json }.
Record ha_server := mkHa { ha_answers : list (option (Z * string)); ha_log : list sent_request }.
Definition H (A : Type) : Type := ha_server -> (string + A) * ha_server.
#[export] Instance H_ret : MRet H := fun A a s => (inr a, s).
#[export] Instance H_bind : MBind H := fun A B f m s =>
  match m s with (inr a, s') => f a s' | (inl e, s') => (inl e, s') end.
Definition hfail {A} (e : string) : H A := fun s => (inl e, s).
Definition htry {A} (m : H A) : H (option A) := fun s =>
  match m s with (inr a, s') => (inr (Some a), s') | (inl _, s') => (inr None, s') end.

Record Client := mkClient { c_base : string; c_token : string }.
Definition New (base token : string) : Client := mkClient (TrimRightSlash base) token.

Definition request (method url bearer : string) (body : option json) : H (option (Z * string)) := fun s =>
  (inr (mjoin (head (ha_answers s))), mkHa (tail (ha_answers s)) (ha_log s ++ [mkSent method url bearer body])%list).
Definition status_error (path : string) (status : Z) (body : string) (n : nat) : string :=
  ("HA " ++ path ++ " -> " ++ FormatInt status ++ ": " ++ truncate body n)%string.
Definition get (c : Client) (path : string) : H string :=
  r ← request "GET" (c_base c ++ path) ("Bearer " ++ c_token c) None;
  match r with
  | None => hfail "request"
  | Some (status, body) => if status =? 200 then mret body else hfail (status_error path status body 200)
  end.
Definition post (c : Client) (path : string) (body : json) : H string :=
  r ← request "POST" (c_base c ++ path) ("Bearer " ++ c_token c) (Some body);
  match r with
  | None => hfail "request"
  | Some (status, b) => if 300 <=? status then hfail (status_error path status b 300) else mret b
  end.
(** [json.Unmarshal] of the answer, its error returned. *)
Definition decoded {A} (o : option A) : H A := match o with Some a => mret a | None => hfail "json" end.

Section Calls.
Context (ParseRFC3339 : string -> option time) (ParseFloat : string -> option float64) (c : Client).

Definition Test : H unit := get c "/api/" ;; mret tt.
Definition time_zone (body : string) : option string :=
  j ← parse body; ms ← body_members (Some j); get_str ["time_zone"] "time_zone" ms.
Definition TimeZone : H string := body ← get c "/api/config"; decoded (time_zone body).

Definition history_path (entity : string) (start fin : time) (option_ : string) : string :=
  ("/api/history/period/" ++ RFC3339 start ++ "?filter_entity_id=" ++ entity ++ "&end_time=" ++ RFC3339 fin ++ "&" ++ option_)%string.
Definition History (entity : string) (start fin : time) : H (list Sample) :=
  body ← get c (history_path entity start fin "minimal_response=true");
  decoded (Ha.History ParseRFC3339 ParseFloat body).
Definition AttrHistory (entity : string) (start fin : time) : H (list StateEvent) :=
  body ← get c (history_path entity start fin "significant_changes_only=0");
  decoded (Ha.AttrHistory ParseRFC3339 body).
Definition MonitorableSensors : H (list Entity) :=
  body ← get c "/api/states"; decoded (Ha.MonitorableSensors ParseRFC3339 body).
Definition ClimateEntities : H (list ClimateEntity) :=
  body ← get c "/api/states"; decoded (Ha.ClimateEntities ParseRFC3339 body).
Definition EntityKinds (entities : list string) : H (gmap string string) :=
  body ← get c "/api/states"; decoded (Ha.EntityKinds ParseRFC3339 entities body).

(** ** The flow of a helper *)

(** What [json.Unmarshal] leaves in the slice of states when its error is dropped. *)
Context (states_of : string -> list haState) (fmt_q : string -> string).

Fixpoint find_tries (n : nat) (name : string) : H string :=
  match n with
  | O => mret ("sensor." ++ slug name)%string
  | S n' => r ← htry (get c "/api/states");
            match r ≫= (fun body => sensor_named name (states_of body)) with
            | Some id => mret id
            | None => find_tries n' name
            end
  end.
Definition findSensorByName (name : string) : H string := find_tries 6 name.

Definition flow_path : string := "/api/config/config_entries/flow".
Definition start_body : json := JObj [("handler", JStr "group"); ("show_advanced_options", JBool true)].
Definition menu_body : json := JObj [("next_step_id", JStr "sensor")].
Definition CreateGroupSum (name : string) (entities : list string) (deviceClass : string) : H string :=
  b ← post c flow_path start_body;
  let id := fs_FlowID (flow_step b) in
  if is_empty id then hfail ("HA did not start a group flow: " ++ truncate b 200)%string
  else
    post c (flow_path ++ "/" ++ id) menu_body ;;
    b ← post c (flow_path ++ "/" ++ id) (group_input name entities deviceClass);
    if (fs_Type (flow_step b) =? "create_entry")%string then findSensorByName name
    else hfail ("helper not created (HA returned step " ++ fmt_q (fs_StepID (flow_step b)) ++ "): " ++ truncate b 200)%string.
End Calls.

(** ** The live session *)

Definition subscribe_command (entities : list string) : json :=
  JObj [("id", JNum "1"); ("type", JStr "subscribe_trigger");
        ("trigger", JObj [("platform", JStr "state"); ("entity_id", JArr (map JStr entities))])].
Definition ping_command (id : Z) : json := JObj [("id", JNum (FormatInt id)); ("type", JStr "ping")].

(** What happens after the subscription: a frame at a time, a tick of the ping and
    whether its write succeeds, a read that fails. *)
Inductive session_event := Received (nw : time) (frame : string) | PingTick (ok : bool) | ReadFailed (err : string).

Section Session.
Context (ParseRFC3339 : string -> option time) (ParseFloat : string -> option float64).

(** The next ping's id, whether a ping failed, what was sent and called; the error
    the session returns, if it is over. *)
Record session := mkSession { ss_next : Z; ss_failed : bool; ss_sent : list json; ss_calls : list callback; ss_end : option string }.
Definition session_step (s : session) (e : session_event) : session :=
  match ss_end s with
  | Some _ => s
  | None =>
      match e with
      | Received nw frame =>
          mkSession (ss_next s) (ss_failed s) (ss_sent s) (ss_calls s ++ stream_frame ParseRFC3339 ParseFloat nw frame) None
      | PingTick ok =>
          if ss_failed s then s
          else if ok then mkSession (ss_next s + 1) false (ss_sent s ++ [ping_command (ss_next s)]) (ss_calls s) None
          else mkSession (ss_next s) true (ss_sent s) (ss_calls s) None
      | ReadFailed err =>
          mkSession (ss_next s) (ss_failed s) (ss_sent s) (ss_calls s) (Some (if ss_failed s then "heartbeat: write" else err))
      end
  end.
Definition StreamStates (token : string) (entities : list string) (c : conn) (evs : list session_event) : session :=
  match (authConn token ;; write (subscribe_command entities)) c with
  | (inl e, c') => mkSession 2 false (cn_sent c') [] (Some e)
  | (inr _, c') => fold_left session_step evs (mkSession 2 false (cn_sent c') [] None)
  end.
End Session.

(** ** The helper's flow *)

Section Flow.
Context (ParseRFC3339 : string -> option time) (c : Client) (states_of : string -> list haState) (fmt_q : string -> string).

Definition states_request : sent_request := mkSent "GET" (c_base c ++ "/api/states") ("Bearer " ++ c_token c) None.
Definition post_request (path : string) (body : json) : sent_request :=
  mkSent "POST" (c_base c ++ path) ("Bearer " ++ c_token c) (Some body).
(** The requests of a helper whose flow has this id. *)
Definition flow_requests (id name : string) (entities : list string) (deviceClass : string) : list sent_request :=
  [post_request flow_path start_body; post_request (flow_path ++ "/" ++ id) menu_body;
   post_request (flow_path ++ "/" ++ id) (group_input name entities deviceClass)] ++ repeat states_request 6.
(** An entity some answer names, or the one the name would be given. *)
Definition named (answers : list (option (Z * string))) (name id : string) : Prop :=
  id = ("sensor." ++ slug name)%string \/
  exists body, Some (200, body) ∈ answers /\ sensor_named name (states_of body) = Some id.

Lemma named_cons a answers name id : named answers name id -> named (a :: answers) name id.
Proof. intros [->|(b & Hb & Hn)]; [by left|]. right. exists b. split; [by right|done]. Qed.
Lemma named_tail answers name id : named (tail answers) name id -> named answers name id.
Proof. destruct answers; [done|apply named_cons]. Qed.

Lemma find_tries_spec n name s :
  exists k id s', (k <= n)%nat /\ find_tries c states_of n name s = (inr id, s') /\
    ha_log s' = (ha_log s ++ repeat states_request k)%list /\ named (ha_answers s) name id /\ (n <> 0%nat -> k <> 0%nat).
Proof.
  revert s. induction n as [|n IH]; intros s; cbn [find_tries].
  { exists 0%nat, ("sensor." ++ slug name)%string, s. rewrite app_nil_r. split_and!; [done..|by left|done]. }
  unfold mbind at 1, H_bind at 1, htry, get, mbind at 1, H_bind at 1, request.
  set (s1 := mkHa (tail (ha_answers s)) _).
  assert (exists o, ((match (mjoin (head (ha_answers s))) with
                      | Some (status, body) => if status =? 200 then mret body
                                               else hfail (status_error "/api/states" status body 200)
                      | None => hfail "request" end : H string) s1) = o /\ o.2 = s1 /\
                 (forall b, o.1 = inr b -> Some (200, b) ∈ ha_answers s)) as ([r s2] & -> & Es & Hin).
  { eexists. split; [reflexivity|]. destruct (ha_answers s) as [|[[st b]|] l]; cbn; [done| |done].
    destruct (Z.eqb_spec st 200) as [->|]; [|done]. split; [done|]. intros b' [= <-]. by left. }
  cbn [snd fst] in *. subst s2.
  destruct (IH s1) as (k & id & s' & Hk & E & Hl & Hn & _).
  assert (exists k id s', (k <= S n)%nat /\ find_tries c states_of n name s1 = (inr id, s') /\
    ha_log s' = (ha_log s ++ repeat states_request k)%list /\ named (ha_answers s) name id /\ (S n <> 0%nat -> k <> 0%nat)) as Hrec.
  { exists (S k), id, s'. split_and!; [lia|done| |by apply named_tail|done]. rewrite Hl. unfold s1. cbn [ha_log].
    by rewrite <- app_assoc. }
  destruct r as [e|b]; [exact Hrec|]. destruct (sensor_named name (states_of b)) as [sid|] eqn:Ef; cbn [mbind option_bind]; rewrite ?Ef; [|exact Hrec].
  exists 1%nat, sid, s1. split_and!; [lia|done|done| |done]. right. exists b. auto.
Qed.

Lemma post_cases path body s :
  exists r, post c path body s = (r, mkHa (tail (ha_answers s)) (ha_log s ++ [post_request path body])%list) /\
    forall b, r = inr b -> exists st, head (ha_answers s) = Some (Some (st, b)).
Proof.
  unfold post, mbind, H_bind, request. destruct (ha_answers s) as [|[[st b]|] l]; cbn [head mjoin option_join tail].
  - eexists. split; [reflexivity|]. done.
  - destruct (300 <=? st); (eexists; split; [reflexivity|]); [done|]. intros b' [= <-]. by exists st.
  - eexists. split; [reflexivity|]. done.
Qed.

(** A helper is asked for in order and only so far: whatever the server
    answers, the requests are a prefix of the flow's start, its menu choice and its
    submission, under the id the start was given, and at most six looks for the
    entity, all with the client's token; nothing follows a start without an id, and
    an entity is returned only after the submission made an entry, one that a later
    answer names or the slug of the name. *)
Theorem group_flow_in_order (name : string) (entities : list string) (deviceClass : string) (s : ha_server) :
  let id := match ha_answers s with Some (_, b) :: _ => fs_FlowID (flow_step b) | _ => "" end in
  let '(r, s') := CreateGroupSum c states_of fmt_q name entities deviceClass s in
  exists n, (n <= 9)%nat /\ ha_log s' = (ha_log s ++ take n (flow_requests id name entities deviceClass))%list /\
    ((1 < n)%nat -> id <> "") /\
    (forall eid, r = inr eid -> (3 < n)%nat /\ named (ha_answers s) name eid /\
       exists st b, ha_answers s !! 2%nat = Some (Some (st, b)) /\ fs_Type (flow_step b) = "create_entry").
Proof.
  cbv zeta. unfold CreateGroupSum, mbind, H_bind.
  destruct (post_cases flow_path start_body s) as (r1 & -> & H1). cbn [ha_answers ha_log].
  destruct r1 as [e|b1]; [exists 1%nat; split_and!; [lia|done|lia|done]|].
  destruct (H1 b1 eq_refl) as [st1 E1]. destruct s as [[|a1 l1] log]; [done|]. injection E1 as ->. cbn [ha_answers ha_log tail].
  set (id := fs_FlowID (flow_step b1)). destruct (is_empty id) eqn:Eid; [exists 1%nat; split_and!; [lia|done|lia|done]|].
  assert (id <> "") as Hid by (by apply String.eqb_neq).
  destruct (post_cases (flow_path ++ "/" ++ id) menu_body (mkHa l1 (log ++ [post_request flow_path start_body]))) as (r2 & -> & H2).
  cbn [ha_answers ha_log].
  destruct r2 as [e|b2]; [exists 2%nat; split_and!; [lia|by rewrite <- app_assoc|done|done]|].
  destruct (H2 b2 eq_refl) as [st2 E2]. destruct l1 as [|a2 l1]; [done|]. injection E2 as ->. cbn [tail].
  match goal with |- context [post c ?p ?j ?s1] => destruct (post_cases p j s1) as (r3 & -> & H3) end. cbn [ha_answers ha_log].
  destruct r3 as [e|b3]; [exists 3%nat; split_and!; [lia|by rewrite <- !app_assoc|done|done]|].
  destruct (H3 b3 eq_refl) as [st3 E3]. destruct l1 as [|a3 l1]; [done|]. injection E3 as ->. cbn [tail].
  destruct (fs_Type (flow_step b3) =? "create_entry")%string eqn:Ec; [|exists 3%nat; split_and!; [lia|by rewrite <- !app_assoc|done|done]].
  unfold findSensorByName.
  match goal with |- context [find_tries c states_of 6 name ?s1] => destruct (find_tries_spec 6 name s1) as (k & eid & s' & Hk & -> & Hl & Hn & Hk0) end.
  exists (3 + k)%nat. split; [lia|]. split; [|split; [done|]].
  - rewrite Hl. cbn [ha_log]. unfold flow_requests. rewrite <- !app_assoc. cbn [app take Nat.add]. do 4 f_equal.
    clear -Hk. do 7 (destruct k as [|k]; [done|]). lia.
  - intros eid' [= <-]. split; [lia|]. split; [by do 3 apply named_cons|]. exists st3, b3. split; [done|]. by apply String.eqb_eq.
Qed.
End Flow.

Definition flow_server : ha_server := mkHa
  [Some (200, dq "{'flow_id':'f1','type':'menu'}"); Some (200, "{}"); Some (200, dq "{'type':'create_entry'}")] [].
Lemma group_flow_in_order_witness :
  let c := New "http://ha:8123/" "tok" in
  let '(r, s') := CreateGroupSum c (fun _ => []) (fun s => s) "My Total" ["sensor.a"] "power" flow_server in
  r = inr "sensor.my_total" /\ named (fun _ => []) (ha_answers flow_server) "My Total" "sensor.my_total" /\
  take 3 (map sr_url (ha_log s')) = ["http://ha:8123/api/config/config_entries/flow";
    "http://ha:8123/api/config/config_entries/flow/f1"; "http://ha:8123/api/config/config_entries/flow/f1"].
Proof.
  pose proof (group_flow_in_order (New "http://ha:8123/" "tok") (fun _ => []) (fun s => s) "My Total" ["sensor.a"] "power" flow_server) as H.
  cbv zeta in *. destruct (CreateGroupSum _ _ _ _ _ _ _) as [r s'] eqn:E. vm_compute in E. injection E as <- <-.
  destruct H as (n & _ & _ & _ & H). split; [reflexivity|]. split; [|reflexivity].
  exact (proj1 (proj2 (H "sensor.my_total" eq_refl))).
Defined.

(** ** What a session sends and calls *)

Section Run.
Context (ParseRFC3339 : string -> option time) (ParseFloat : string -> option float64).
Notation stepS := (session_step ParseRFC3339 ParseFloat).

(** The events before the first read that fails. *)
Fixpoint before_end (evs : list session_event) : list session_event :=
  match evs with
  | [] => []
  | ReadFailed _ :: _ => []
  | e :: evs' => e :: before_end evs'
  end.
Fixpoint read_error (evs : list session_event) : option string :=
  match evs with [] => None | ReadFailed err :: _ => Some err | _ :: evs' => read_error evs' end.
Definition frame_calls (e : session_event) : list callback :=
  match e with Received nw frame => stream_frame ParseRFC3339 ParseFloat nw frame | _ => [] end.
(** The pings written before the first that fails. *)
Fixpoint pings (evs : list session_event) : nat :=
  match evs with
  | [] => 0
  | PingTick true :: evs' => S (pings evs')
  | PingTick false :: _ => 0
  | _ :: evs' => pings evs'
  end.
Definition ping_failed (evs : list session_event) : bool :=
  existsb (fun e => match e with PingTick false => true | _ => false end) evs.

Lemma session_over evs s e : ss_end s = Some e -> fold_left stepS evs s = s.
Proof. intros He. induction evs as [|ev evs IH]; cbn [fold_left]; [done|]. unfold session_step at 2. by rewrite He. Qed.
Lemma session_run evs s :
  ss_end s = None ->
  let s' := fold_left stepS evs s in
  ss_sent s' = (ss_sent s ++ (if ss_failed s then [] else map ping_command (seqZ (ss_next s) (Z.of_nat (pings (before_end evs))))))%list /\
  ss_calls s' = (ss_calls s ++ flat_map frame_calls (before_end evs))%list /\
  ss_end s' = option_map (fun err => if ss_failed s || ping_failed (before_end evs) then "heartbeat: write" else err) (read_error evs).
Proof.
  revert s. induction evs as [|ev evs IH]; intros s He; cbv zeta; cbn [fold_left].
  - cbn. rewrite !app_nil_r. destruct (ss_failed s); rewrite ?app_nil_r; auto.
  - destruct ev as [nw frame|ok|err]; unfold session_step at 2 4 6; rewrite He; cbn [before_end read_error].
    + destruct (IH (mkSession (ss_next s) (ss_failed s) (ss_sent s) (ss_calls s ++ stream_frame ParseRFC3339 ParseFloat nw frame) None) eq_refl)
        as (H1 & H2 & H3). cbn [ss_sent ss_calls ss_failed ss_next] in *. split; [done|]. split; [|done].
      rewrite H2, <- app_assoc. reflexivity.
    + destruct (ss_failed s) eqn:Ef.
      * destruct (IH s He) as (H1 & H2 & H3). rewrite Ef in *. split; [done|]. split; [|done]. rewrite H2. reflexivity.
      * destruct ok.
        -- destruct (IH (mkSession (ss_next s + 1) false (ss_sent s ++ [ping_command (ss_next s)]) (ss_calls s) None) eq_refl) as (H1 & H2 & H3).
           cbn [ss_sent ss_calls ss_failed ss_next] in *. split; [|split; [exact H2|exact H3]].
           rewrite H1, <- app_assoc. cbn [pings]. rewrite Nat2Z.inj_succ, (seqZ_cons (ss_next s)) by lia. cbn [map app].
           replace (Z.pred (Z.succ (Z.of_nat (pings (before_end evs))))) with (Z.of_nat (pings (before_end evs))) by lia.
           by replace (Z.succ (ss_next s)) with (ss_next s + 1) by lia.
        -- destruct (IH (mkSession (ss_next s) true (ss_sent s) (ss_calls s) None) eq_refl) as (H1 & H2 & H3).
           cbn [ss_sent ss_calls ss_failed ss_next] in *. split; [|split; [exact H2|exact H3]]. rewrite H1. done.
    + rewrite (session_over _ _ (if ss_failed s then "heartbeat: write" else err)) by done. cbn.
      rewrite !app_nil_r, orb_false_r. destruct (ss_failed s); rewrite ?app_nil_r; auto.
Qed.

(** An accepted handshake has sent the token and the subscription. *)
Lemma handshake_sends token entities c u c' :
  (authConn token ;; write (subscribe_command entities)) c = (inr u, c') ->
  cn_sent c' = (cn_sent c ++ [auth_message token; subscribe_command entities])%list.
Proof.
  unfold authConn, mbind, W_bind.
  destruct c as [ins ws sent]. unfold HaWs.read at 1. cbn [cn_in cn_writes cn_sent].
  destruct ins as [|[t1|] ins]; [done| |done]. destruct (parse t1) as [j1|]; [|done]. destruct (decode_map ∅ j1) as [m1|]; [|done].
  destruct (negb (msg_type m1 "auth_required")); [done|]. unfold write at 1. cbn [cn_in cn_writes cn_sent].
  assert (forall ws ins sent, (let '(r, c1) := (HaWs.read (decode_map m1) (mkConn ins ws sent)) in r = r /\ cn_sent c1 = sent)) as Hr.
  { intros ws' ins' sent'. unfold HaWs.read. cbn. destruct ins' as [|[t|] l]; [done| |done].
    destruct (parse t) as [j|]; [|done]. by destruct (decode_map m1 j). }
  assert (forall ws1, (let (s0, c'0) := let (s0, c'0) := HaWs.read (decode_map m1) (mkConn ins ws1 (sent ++ [auth_message token])%list) in
      match s0 with
      | inl e => (inl e, c'0)
      | inr a => (if negb (msg_type a "auth_ok") then wfail "HA auth failed" else mret tt) c'0
      end in match s0 with inl e => (inl e, c'0) | inr _ => write (subscribe_command entities) c'0 end) = (inr u, c') ->
      cn_sent c' = (sent ++ [auth_message token; subscribe_command entities])%list) as Hrest.
  { intros ws1. specialize (Hr ws1 ins (sent ++ [auth_message token])%list). destruct (HaWs.read _ _) as [[e|m2] c1]; [done|]. destruct Hr as [_ Hs].
    destruct (negb _); [done|]. cbn [mret W_ret]. unfold write. destruct (cn_writes c1) as [|[] l]; intros [= _ <-]; cbn [cn_sent];
      by rewrite Hs, <- app_assoc. }
  destruct ws as [|[] ws]; [apply Hrest|apply Hrest|done].
Qed.

(** C21: A session subscribes once, then numbers its pings upwards from 2 and hands
    over every frame in order: after an accepted handshake, what it sends is the
    token, the subscription under id 1 and pings 2, 3, ... one per tick until a
    write or a read fails; what it calls is exactly what the frames before the
    failed read call for, in their order; and it ends with the read's error, or the
    heartbeat's if a ping had failed before.  A refused handshake sends and calls
    nothing more. *)
Theorem session_hands_over_frames (token : string) (entities : list string) (c : conn) (evs : list session_event) :
  let s := StreamStates ParseRFC3339 ParseFloat token entities c evs in
  match (authConn token ;; write (subscribe_command entities)) c with
  | (inl e, c') => ss_end s = Some e /\ ss_calls s = [] /\ ss_sent s = cn_sent c'
  | (inr _, c') =>
      ss_sent s = (cn_sent c ++ [auth_message token; subscribe_command entities]
                     ++ map ping_command (seqZ 2 (Z.of_nat (pings (before_end evs)))))%list /\
      ss_calls s = flat_map frame_calls (before_end evs) /\
      ss_end s = option_map (fun err => if ping_failed (before_end evs) then "heartbeat: write" else err) (read_error evs)
  end.
Proof.
  cbv zeta. unfold StreamStates. destruct ((authConn token ;; write (subscribe_command entities)) c) as [[e|u] c'] eqn:E; [done|].
  destruct (session_run evs (mkSession 2 false (cn_sent c') [] None) eq_refl) as (H1 & H2 & H3).
  cbn [ss_sent ss_calls ss_failed ss_next app orb] in *. split; [|by split]. rewrite H1.
  by rewrite (handshake_sends _ _ _ _ _ E), <- app_assoc.
Qed.
End Run.
