(* ===== verification/Handlers.v ===== *)
(** * The handlers over the tables ([cmd/api/handlers.go])

    Meters, settings, devices, test windows and administration.  A handler maps a
    request to a [reply]; a payload that the code builds as an untyped map is a
    record here.  Go visits a map in any order: [order] is that order. *)

From S2P Require Import Prelude Float64 Model Calendar Json Encoding Ert Config Store Database Deltas Windows Meters Admin Http.

Section Requests.
Context (Parse : string -> option time).

(** ** Meters *)

Definition handleHealth (r : request) : M (reply Model.Health) := served (Health (60 * Second)).

(** An optional [until]. *)
Definition untilParam (r : request) (nw : time) : option time :=
  if is_empty (rq_query r "until") then None else Some (timeParam Parse r "until" nw).
Definition flagParam (r : request) (key : string) : bool := (rq_query r key =? "true")%string.

Definition leaderboard_opts (r : request) (nw : time) : LeaderboardOpts :=
  mkOpts (Some (timeParam Parse r "since" (Add nw (- (24 * Hour))))) (untilParam r nw) (rq_query r "msg_type")
    (flagParam r "electric_only") (flagParam r "include_ignored") (flagParam r "tracked_only")
    (flagParam r "published_only").

Record MeterDetail := mkDetail {
  md_EndpointID : Z; md_Bucket : string; md_Points : list Point; md_Deltas : list Bucket; md_Annotation : Meter
}.

Section Charts.
Context (time_bucket : duration -> time -> time).

Definition handleMeters (r : request) : M (reply (list Meter)) :=
  nw ← now; served (Leaderboard time_bucket (leaderboard_opts r nw)).

Definition handleMeterDetail (r : request) : M (reply MeterDetail) :=
  match pathID r with
  | None => badReq "bad id"
  | Some id =>
      let bucket := query_or r "bucket" "1h" in
      nw ← now;
      let since := timeParam Parse r "since" (Add nw (- (24 * Hour))) in
      or_error (MeterSeries time_bucket id (Some since) (untilParam r nw) bucket) (fun series =>
        meter ← MeterInfo id;
        mret (Reply (mkDetail id bucket (s_Points series) (s_Deltas series) meter)))
  end.

Definition handleSeries (r : request) : M (reply (gmap string (list MultiSeriesPoint))) :=
  nw ← now;
  served (MultiSeries time_bucket (id_list (rq_query r "ids")) (Some (timeParam Parse r "since" (Add nw (- (6 * Hour)))))
            None (query_or r "bucket" "5m") (query_or r "mode" "delta")).
End Charts.

(** The fields of the patch body; the body is converted to [MeterUpdate]. *)
Definition patch_names : list string :=
  ["label"; "notes"; "is_candidate"; "is_mine"; "ignored"; "publish"; "pub_name"; "pub_multiplier"; "pub_unit"].
Definition patch_body (j : option json) : option MeterUpdate :=
  ms ← body_members j;
  label ← get_ptr dec_str patch_names "label" ms;
  notes ← get_ptr dec_str patch_names "notes" ms;
  cand ← get_ptr dec_bool patch_names "is_candidate" ms;
  mine ← get_ptr dec_bool patch_names "is_mine" ms;
  ignored ← get_ptr dec_bool patch_names "ignored" ms;
  publish ← get_ptr dec_bool patch_names "publish" ms;
  name ← get_ptr dec_str patch_names "pub_name" ms;
  mult ← get_ptr dec_float patch_names "pub_multiplier" ms;
  unit ← get_ptr dec_str patch_names "pub_unit" ms;
  Some (mkUpdate label notes cand mine ignored publish name mult unit).

Definition handleMeterPatch (r : request) : M (reply Meter) :=
  match pathID r with
  | None => badReq "bad id"
  | Some id =>
      match patch_body (rq_body r) with
      | None => badReq "bad json"
      | Some body => or_error (UpdateMeter id body) (fun m => ignore NotifyConfig ;; mret (Reply m))
      end
  end.

(** The answer is whether the readings were purged. *)
Definition handleDeleteMeter (r : request) : M (reply bool) :=
  match pathID r with
  | None => badReq "bad id"
  | Some id =>
      let purge := flagParam r "purge" in
      or_error (DeleteMeter id purge) (fun _ => ignore NotifyConfig ;; mret (Reply purge))
  end.

Record FilterCommand := mkFilter { fc_EndpointID : Z; fc_MsgType : string; fc_Command : string }.
Definition filter_command (id : Z) (mt : string) : string :=
  ("rtlamr -filterid=" ++ FormatInt id ++ " -msgtype=" ++ MsgTypeToken mt ++ " -format=json")%string.
Definition handleFilterCommand (r : request) : M (reply FilterCommand) :=
  match pathID r with
  | None => badReq "bad id"
  | Some id =>
      '(mt, found) ← LatestMsgType id;
      mret (if (found : bool) then Reply (mkFilter id mt (filter_command id mt)) else HttpError 404 "meter not seen")
  end.

(** ** The CSV export ([encoding/csv]) *)

Definition lf : ascii := chr 10.
Fixpoint double_quotes (s : string) : string :=
  match s with
  | String c s' => if Ascii.eqb c (chr 34) then String c (String c (double_quotes s')) else String c (double_quotes s')
  | EmptyString => EmptyString
  end.
Definition needs_quotes (s : string) : bool :=
  negb (is_empty s) &&
  ((s =? "\.")%string || str_contains_char (chr 44) s || str_contains_char (chr 34) s || str_contains_char (chr 13) s || str_contains_char lf s
   || negb (is_nil (strip_any utf8_spaces s))).
Definition csv_field (s : string) : string :=
  if needs_quotes s then (quote ++ double_quotes s ++ quote)%string else s.
Definition csv_record (l : list string) : string := (str_join "," (map csv_field l) ++ String lf EmptyString)%string.

Context (fmt_f : float64 -> string).  (* [FormatFloat(x, 'f', -1, 64)] *)

Definition csv_header : list string := ["ts"; "msg_type"; "endpoint_id"; "endpoint_type"; "consumption"; "source"].
Definition csv_fields (rd : Reading) : list string :=
  [RFC3339Nano (r_TS rd); r_MsgType rd; FormatInt (r_EndpointID rd);
   match r_EndpointType rd with Some t => FormatInt t | None => "" end;
   match r_Consumption rd with Some c => fmt_f c | None => "" end; r_Source rd].
Definition csv_export (rows : list Reading) : string :=
  foldr (fun l s => (csv_record l ++ s)%string) "" (csv_header :: map csv_fields rows).

(** The file name and the text. *)
Definition handleExportCSV (r : request) : M (reply (string * string)) :=
  match pathID r with
  | None => badReq "bad id"
  | Some id =>
      nw ← now;
      let since := timeParam Parse r "since" (Add nw (- (7 * 24 * Hour))) in
      or_error (MeterReadings id (Some since) (untilParam r nw)) (fun rows =>
        mret (Reply (("winnow_" ++ FormatInt id ++ ".csv")%string, csv_export rows)))
  end.
End Requests.

(** ** Settings *)

(** A value of the settings page. *)
Inductive page_value := Text (s : string) | Flag (b : bool).

Section Settings.
Context (order : gmap string string -> list (string * string)).

Definition show_setting (out : gmap string page_value) (kv : string * string) : gmap string page_value :=
  if is_secret kv.1
  then <[(kv.1 ++ "_set")%string := Flag (negb (is_empty kv.2))]> (<[kv.1 := Text ""]> out)
  else <[kv.1 := Text kv.2]> out.
Definition handleGetSettings (r : request) : M (reply (gmap string page_value)) :=
  or_error GetSettings (fun m => mret (Reply (fold_left show_setting (order m) ∅))).

(** A secret is not overwritten with a blank or masked value. *)
Definition masked (kv : string * string) : bool := is_secret kv.1 && (is_empty kv.2 || str_contains_char "*" kv.2).
Definition put_settings (l : list (string * string)) : M unit :=
  forM l (fun kv => if masked kv then mret tt else SetSetting kv.1 kv.2).
Definition handlePutSettings (r : request) : M (reply unit) :=
  match decode_texts (rq_body r) with
  | None => badReq "bad json"
  | Some body => or_error (put_settings (order body)) (fun _ => ignore NotifyConfig ;; mret (Reply tt))
  end.
End Settings.

(** ** Devices *)

Section Devices.
Context (getenv : string -> string) (ParseFloat : string -> float64 * bool).

(** A device row with its overrides. *)
Record DeviceView := mkDeviceView { dv_Device : Device; dv_Enabled : bool; dv_Override : DeviceConfig }.
Definition device_view (c : CaptureConfig) (d : Device) : DeviceView :=
  mkDeviceView d (DeviceEnabled c (Serial d)) (device c (Serial d)).
Record DevicesPage := mkDevicesPage {
  dp_Devices : list DeviceView; dp_Freq : string; dp_Gain : string; dp_PPM : string;
  dp_MsgType : string; dp_FilterID : string
}.
Definition handleDevices (r : request) : M (reply DevicesPage) :=
  cfg ← config_or_zero getenv ParseFloat;
  or_error (ListDevices (60 * Second)) (fun devs =>
    let c := Capture cfg in
    mret (Reply (mkDevicesPage (map (device_view c) devs) (cc_Freq c) (cc_Gain c) (cc_PPM c)
                   (cc_MsgType c) (cc_FilterID c)))).

(** [json.Marshal] of a device and of the map, whose keys it sorts. *)
Definition marshal_bool (b : option bool) : string :=
  match b with Some true => "true" | Some false => "false" | None => "null" end.
Definition device_members (d : DeviceConfig) : list (string * string) :=
  [("enabled", marshal_bool (d_Enabled d)); ("label", marshal_string (d_Label d));
   ("freq", marshal_string (d_Freq d)); ("gain", marshal_string (d_Gain d)); ("ppm", marshal_string (d_PPM d));
   ("msgtype", marshal_string (d_MsgType d)); ("filterid", marshal_string (d_FilterID d))].
Definition marshal_device (d : DeviceConfig) : string := marshal_object (device_members d).
Definition sorted_devices (m : gmap string DeviceConfig) : list (string * DeviceConfig) :=
  sort_by (fun a b => String.leb a.1 b.1) (map_to_list m).
Definition marshal_devices (m : gmap string DeviceConfig) : string :=
  marshal_object (map (fun kv => (kv.1, marshal_device kv.2)) (sorted_devices m)).

(** The body decodes without an error. *)
Definition device_member_ok (kv : string * json) : bool :=
  match field_match ["enabled"; "label"; "freq"; "gain"; "ppm"; "msgtype"; "filterid"] kv.1, kv.2 with
  | None, _ | Some _, JNull => true
  | Some f, JBool _ => (f =? "enabled")%string
  | Some f, JStr _ => negb (f =? "enabled")%string
  | Some _, _ => false
  end.
Definition device_body (j : option json) : option DeviceConfig :=
  ms ← body_members j; if forallb device_member_ok ms then Some (decode_device (JObj ms)) else None.

Definition handlePutDevice (serial : string) (r : request) : M (reply unit) :=
  if is_empty serial then badReq "bad serial"
  else match device_body (rq_body r) with
       | None => badReq "bad json"
       | Some body =>
           cfg ← config_or_zero getenv ParseFloat;
           let devices := <[serial := body]> (cc_Devices (Capture cfg)) in
           or_error (SetSetting KeyCaptureDevices (marshal_devices devices)) (fun _ =>
             ignore NotifyConfig ;; mret (Reply tt))
       end.

(** [liveSources]: the listed dongles that are enabled; [None] is nil. *)
Definition liveSources : M (option (list string)) :=
  cfg ← config_or_zero getenv ParseFloat;
  r ← try (ListDevices (60 * Second));
  mret (match r with
        | Ok devs => Some (List.filter (DeviceEnabled (Capture cfg)) (map Serial devs))
        | Err _ => None
        end).

(** ** Administration *)

Definition op_names : list string := ["op"].
Definition maintenance_op (j : option json) : option string :=
  ms ← body_members j; get_val dec_str "" op_names "op" ms.
Definition maintain (op : string) : M unit :=
  if (op =? "prune_devices")%string then live ← liveSources; PruneDevices (from_opt [] live)
  else RunMaintenance op.
Definition handleMaintenance (r : request) : M (reply string) :=
  match maintenance_op (rq_body r) with
  | None => badReq "bad json"
  | Some op => or_error (maintain op) (fun _ => ignore NotifyConfig ;; mret (Reply op))
  end.
End Devices.

Section Deletion.
Context (in_old_chunk : time -> time -> bool).

Record DeleteBody := mkDelete { db_Mode : string; db_Days : Z; db_Source : string; db_Confirm : string }.
Definition delete_names : list string := ["mode"; "days"; "source"; "confirm"].
Definition delete_body (j : option json) : option DeleteBody :=
  ms ← body_members j;
  mode ← get_val dec_str "" delete_names "mode" ms;
  days ← get_val dec_int 0 delete_names "days" ms;
  source ← get_val dec_str "" delete_names "source" ms;
  confirm ← get_val dec_str "" delete_names "confirm" ms;
  Some (mkDelete mode days source confirm).

Definition needed (mode : string) : string := if (mode =? "all_readings")%string then "PURGE-ALL" else "DELETE".
(** The deletion of a mode, [None] when there is no such mode. *)
Definition deletion (b : DeleteBody) : option (M Z) :=
  if (db_Mode b =? "age")%string then Some (DeleteReadingsOlderThan in_old_chunk (db_Days b))
  else if (db_Mode b =? "source")%string then Some (DeleteReadingsBySource (db_Source b))
  else if (db_Mode b =? "all_tests")%string then Some PurgeTests
  else if (db_Mode b =? "all_readings")%string then Some (PurgeAllReadings ;; mret 0)
  else None.
(** The mode and the rows removed. *)
Definition handleAdminDelete (r : request) : M (reply (string * Z)) :=
  match delete_body (rq_body r) with
  | None => badReq "bad json"
  | Some b =>
      if negb (db_Confirm b =? needed (db_Mode b))%string then badReq "confirmation required"
      else match deletion b with
           | None => badReq "unknown mode"
           | Some del => or_error del (fun n => ignore NotifyConfig ;; mret (Reply (db_Mode b, n)))
           end
  end.
End Deletion.

(** ** Test windows *)

Section Tests.
Context (Parse : string -> option time).

Definition handleListTests (r : request) : M (reply (list TestWindow)) := served ListTests.

Definition test_names : list string := ["label"; "start_ts"; "end_ts"; "known_load_w"; "known_entity_id"].
Definition test_label (s : string) : string := if is_empty s then "load test" else s.

Record TestBody := mkTestBody {
  tb_Label : string; tb_StartTS : string; tb_EndTS : string; tb_Load : option float64; tb_Entity : option string
}.
Definition test_body (j : option json) : option TestBody :=
  ms ← body_members j;
  label ← get_val dec_str "" test_names "label" ms;
  start ← get_val dec_str "" test_names "start_ts" ms;
  fin ← get_val dec_str "" test_names "end_ts" ms;
  load ← get_ptr dec_float test_names "known_load_w" ms;
  entity ← get_ptr dec_str test_names "known_entity_id" ms;
  Some (mkTestBody label start fin load entity).

(** An end that does not parse is no end: the window stays open. *)
Definition handleCreateTest (r : request) : M (reply TestWindow) :=
  match test_body (rq_body r) with
  | None => badReq "bad json"
  | Some b =>
      match Parse (tb_StartTS b) with
      | None => badReq "bad start_ts"
      | Some start =>
          let fin := if is_empty (tb_EndTS b) then None else Parse (tb_EndTS b) in
          served (CreateTest (test_label (tb_Label b)) start fin "manual" (tb_Load b) (emptyToNil (tb_Entity b)))
      end
  end.

Definition start_names : list string := ["label"; "known_load_w"; "known_entity_id"].
Definition start_members (j : option json) : list (string * json) := from_opt [] (body_members j).
Definition handleStartTest (r : request) : M (reply TestWindow) :=
  let ms := start_members (rq_body r) in
  nw ← now;
  or_error (CreateTest (test_label (get_str_lenient start_names "label" ms)) nw None "manual"
              (get_ptr_lenient dec_float f0 start_names "known_load_w" ms)
              (emptyToNil (get_ptr_lenient dec_str "" start_names "known_entity_id" ms)))
    (fun t => NotifyTests ;; mret (Reply t)).

Section Stop.
Context (getenv : string -> string) (ParseFloat : string -> float64 * bool)
        (survivors : list string -> string -> DB -> time -> option Z).

Definition handleStopTest (r : request) : M (reply TestWindow) :=
  match pathID r with
  | None => badReq "bad id"
  | Some id =>
      nw ← now;
      or_error (StopTest id nw) (fun t =>
        c ← try (LoadConfig getenv ParseFloat);
        (match c with
         | Ok cfg => FreezeTestSnoopK survivors id (MonitoredEntities cfg) (HATimeZone cfg)
         | Err _ => mret tt
         end) ;;
        NotifyTests ;;
        mret (Reply t))
  end.
End Stop.

Definition handleDeleteTest (r : request) : M (reply unit) :=
  match pathID r with
  | None => badReq "bad id"
  | Some id => or_error (DeleteTest id) (fun _ => NotifyTests ;; mret (Reply tt))
  end.
End Tests.

(** ** The settings page *)

Definition shadow (k : string) : Prop := exists s, is_secret s = true /\ k = (s ++ "_set")%string.

Lemma is_secret_spec k : is_secret k = true <-> k ∈ SecretKeys.
Proof. unfold is_secret. apply bool_decide_eq_true. Qed.

(** The flag of a secret is not itself a secret. *)
Lemma secret_not_shadow k : is_secret k = true -> ~ shadow k.
Proof.
  intros Hk%is_secret_spec (s & Hs%is_secret_spec & E). unfold SecretKeys in *.
  rewrite !elem_of_cons in Hk, Hs. destruct Hk as [->|[->|[->|[->|H]]]]; [..|by apply elem_of_nil in H];
    (destruct Hs as [->|[->|[->|[->|H]]]]; [discriminate E..|by apply elem_of_nil in H]).
Qed.

Record page_sound (l : list (string * string)) (out : gmap string page_value) : Prop := {
  ps_text : forall k s, out !! k = Some (Text s) ->
    (is_secret k = true /\ s = "") \/ (is_secret k = false /\ (k, s) ∈ l);
  ps_flag : forall k b, out !! k = Some (Flag b) ->
    exists s v, is_secret s = true /\ (s, v) ∈ l /\ k = (s ++ "_set")%string /\ b = negb (is_empty v);
  ps_secret : forall k v, (k, v) ∈ l -> is_secret k = true -> out !! k = Some (Text "");
  ps_plain : forall k v, (k, v) ∈ l -> is_secret k = false -> ~ shadow k -> out !! k = Some (Text v)
}.

Lemma show_setting_sound l out k v :
  k ∉ l.*1 -> page_sound l out -> page_sound (l ++ [(k, v)]) (show_setting out (k, v)).
Proof.
  intros Hk [Ht Hf Hs Hp].
  assert (forall k' v', (k', v') ∈ l -> k' <> k) as Hne
    by (intros k' v' Hin ->; apply Hk; apply list_elem_of_fmap; by exists (k, v')).
  unfold show_setting. cbn [fst snd]. destruct (is_secret k) eqn:Ek.
  - assert (forall k', is_secret k' = true -> k' <> (k ++ "_set")%string) as Hsh
      by (intros k' Hk' ->; apply (secret_not_shadow _ Hk'); by exists k).
    split.
    + intros k' s H. apply lookup_insert_Some in H as [[_ [=]]|[_ H]].
      apply lookup_insert_Some in H as [[<- [= <-]]|[_ H]]; [by left|].
      destruct (Ht k' s H) as [?|[? ?]]; [by left|right; split; [done|set_solver]].
    + intros k' b H. apply lookup_insert_Some in H as [[<- [= <-]]|[_ H]].
      { exists k, v. split_and!; [done|set_solver|done|done]. }
      apply lookup_insert_Some in H as [[_ [=]]|[_ H]].
      destruct (Hf k' b H) as (s & v' & ? & ? & ? & ?). exists s, v'. split_and!; [done|set_solver|done|done].
    + intros k' v' [Hin|Hin]%elem_of_app Hk'; rewrite lookup_insert_ne by (symmetry; by apply Hsh).
      * rewrite lookup_insert_ne by (symmetry; by eapply Hne). by eapply Hs.
      * apply list_elem_of_singleton in Hin as [= -> _]. apply lookup_insert_eq.
    + intros k' v' [Hin|Hin]%elem_of_app Hk' Hns.
      * rewrite lookup_insert_ne by (intros <-; apply Hns; by exists k).
        rewrite lookup_insert_ne by (symmetry; by eapply Hne). by eapply Hp.
      * apply list_elem_of_singleton in Hin as [= -> _]. congruence.
  - split.
    + intros k' s H. apply lookup_insert_Some in H as [[<- [= <-]]|[_ H]]; [right; split; [done|set_solver]|].
      destruct (Ht k' s H) as [?|[? ?]]; [by left|right; split; [done|set_solver]].
    + intros k' b H. apply lookup_insert_Some in H as [[_ [=]]|[_ H]].
      destruct (Hf k' b H) as (s & v' & ? & ? & ? & ?). exists s, v'. split_and!; [done|set_solver|done|done].
    + intros k' v' [Hin|Hin]%elem_of_app Hk'.
      * rewrite lookup_insert_ne by (symmetry; by eapply Hne). by eapply Hs.
      * apply list_elem_of_singleton in Hin as [= -> _]. congruence.
    + intros k' v' [Hin|Hin]%elem_of_app Hk' Hns.
      * rewrite lookup_insert_ne by (symmetry; by eapply Hne). by eapply Hp.
      * apply list_elem_of_singleton in Hin as [= -> ->]. apply lookup_insert_eq.
Qed.

Lemma show_settings_sound l : NoDup l.*1 -> page_sound l (fold_left show_setting l ∅).
Proof.
  induction l as [|[k v] l IH] using rev_ind; intros Hn.
  - split; cbn; intros ??; rewrite ?lookup_empty; first [done|by intros ?%elem_of_nil].
  - rewrite fmap_app in Hn. apply NoDup_app in Hn as (Hl & Hd & _).
    rewrite fold_left_app. cbn [fold_left]. apply show_setting_sound; [|by apply IH].
    intros Hin. apply (Hd k Hin). cbn. set_solver.
Qed.

(** ** Properties *)

(** C11: The settings page never shows a stored secret, in whatever order Go
    visits the map: a text on the page is empty for a secret key and is the stored
    value of a key that is not secret; a flag says only whether a secret is set.
    Every stored secret has its empty text, and every other setting its value (but
    for a key that is the flag of a secret). *)
Theorem settings_page_hides_secrets (order : gmap string string -> list (string * string)) (r : request) (w : World) :
  (forall m, order m ≡ₚ map_to_list m) -> no_faults w ->
  exists page w', handleGetSettings order r w = (Ok (Reply page), w') /\ w_db w' = w_db w /\
    (forall k s, page !! k = Some (Text s) ->
       (is_secret k = true /\ s = "") \/ (is_secret k = false /\ settings (w_db w) !! k = Some s)) /\
    (forall k b, page !! k = Some (Flag b) ->
       exists s v, is_secret s = true /\ settings (w_db w) !! s = Some v /\ k = (s ++ "_set")%string /\ b = negb (is_empty v)) /\
    (forall k v, settings (w_db w) !! k = Some v ->
       (is_secret k = true -> page !! k = Some (Text "")) /\
       (is_secret k = false -> ~ shadow k -> page !! k = Some (Text v))).
Proof.
  intros Ho Hf. set (m := settings (w_db w)).
  assert (NoDup (order m).*1) as Hn by (rewrite (Ho m); apply NoDup_fst_map_to_list).
  assert (forall k v, (k, v) ∈ order m <-> m !! k = Some v) as Hin
    by (intros k v; rewrite (Ho m); apply elem_of_map_to_list).
  destruct (show_settings_sound _ Hn) as [Ht Hfl Hs Hp].
  eexists _, _. split. { unfold handleGetSettings, or_error, GetSettings, try, mbind, M_bind. by rewrite query_ok. }
  split; [done|]. split_and!.
  - intros k s H. destruct (Ht k s H) as [?|[? ?]]; [by left|right; split; [done|by apply Hin]].
  - intros k b H. destruct (Hfl k b H) as (s & v & ? & ? & ? & ?). exists s, v. split_and!; [done|by apply Hin|done|done].
  - intros k v H. apply Hin in H. split; eauto.
Qed.

Definition secret_DB : DB :=
  set_settings {["ha_token" := "s3cret"; "mqtt_pass" := ""; "ha_url" := "http://ha"]} empty_DB.
Definition get_request : request := mkRequest "" (fun _ => "") None.

Lemma settings_page_hides_secrets_witness :
  exists page w', handleGetSettings map_to_list get_request (mkWorld secret_DB 0 []) = (Ok (Reply page), w') /\
    page !! "ha_token" = Some (Text "") /\ page !! "ha_url" = Some (Text "http://ha").
Proof.
  destruct (settings_page_hides_secrets map_to_list get_request (mkWorld secret_DB 0 []))
    as (page & w' & E & _ & _ & _ & H); [done|constructor|]. exists page, w'. split; [exact E|]. split.
  - apply (H "ha_token" "s3cret"); [reflexivity|]. reflexivity.
  - apply (H "ha_url" "http://ha"); [reflexivity|reflexivity|].
    intros (s & Hs%is_secret_spec & Es). unfold SecretKeys in Hs. rewrite !elem_of_cons in Hs.
    destruct Hs as [->|[->|[->|[->|Hs]]]]; [discriminate Es..|by apply elem_of_nil in Hs].
Defined.

(** ** Writing the settings *)

(** What a body asks for: the value of every key it does not mask. *)
Definition asked (body : gmap string string) (k : string) : option string :=
  v ← body !! k; if masked (k, v) then None else Some v.

Lemma put_settings_some l w w1 r :
  put_settings l w = (r, w1) ->
  (exists s, w_db w1 = set_settings s (w_db w)) /\
  forall k, settings (w_db w1) !! k = settings (w_db w) !! k \/
    exists v, (k, v) ∈ l /\ masked (k, v) = false /\ settings (w_db w1) !! k = Some v.
Proof.
  revert w. induction l as [|[k v] l IH]; intros w H; cbn [put_settings forM fst snd] in H.
  { injection H as <- <-. split; [exists (settings (w_db w)); by destruct (w_db w)|by left]. }
  unfold mbind, M_bind in H. destruct (masked (k, v)) eqn:Em.
  - cbn in H. destruct (IH w H) as [Hs Hk]. split; [done|]. intros k'. destruct (Hk k') as [?|(v' & ? & ? & ?)]; [by left|].
    right. exists v'. split_and!; [set_solver|done|done].
  - unfold SetSetting in H. destruct (exec_cases (fun d _ => set_settings (<[k := v]> (settings d)) d) w) as [[_ E]|[_ E]];
      rewrite E in H.
    + injection H as <- <-. split; [exists (settings (w_db w)); by destruct (w_db w)|by left].
    + destruct (IH _ H) as [[s Hs] Hk]. cbn [w_db] in *. split; [exists s; exact Hs|].
      intros k'. destruct (Hk k') as [->|(v' & ? & ? & ?)]; [|right; exists v'; split_and!; [set_solver|done|done]].
      cbn [settings set_settings]. destruct (decide (k' = k)) as [->|Hne].
      * right. exists v. rewrite lookup_insert_eq. split_and!; [set_solver|done|done].
      * left. by rewrite lookup_insert_ne.
Qed.

Lemma put_settings_ok l w : no_faults w -> NoDup l.*1 ->
  exists s w1, put_settings l w = (Ok tt, w1) /\ no_faults w1 /\ w_db w1 = set_settings s (w_db w) /\
    forall k, s !! k = match (list_to_map l : gmap string string) !! k with
                       | Some v => if masked (k, v) then settings (w_db w) !! k else Some v
                       | None => settings (w_db w) !! k
                       end.
Proof.
  revert w. induction l as [|[k v] l IH]; intros w Hf Hn.
  { exists (settings (w_db w)), w. split_and!; [done|done|by destruct (w_db w)|done]. }
  cbn [fmap list_fmap fst] in Hn. apply NoDup_cons in Hn as [Hk Hn].
  cbn [put_settings forM fst snd]. unfold mbind, M_bind.
  assert ((list_to_map l : gmap string string) !! k = None) as Hkl by (by apply not_elem_of_list_to_map_1).
  destruct (masked (k, v)) eqn:Em.
  - destruct (IH w Hf Hn) as (s & w1 & E & Hf1 & Hd & Hs). exists s, w1. split_and!; [done|done|done|].
    intros k'. rewrite Hs, list_to_map_cons. destruct (decide (k' = k)) as [->|Hne].
    + by rewrite Hkl, lookup_insert_eq, Em.
    + by rewrite lookup_insert_ne.
  - rewrite SetSetting_ok by done.
    set (w0 := mkWorld _ _ _). destruct (IH w0 (no_faults_tail _ _ _ Hf) Hn) as (s & w1 & E & Hf1 & Hd & Hs).
    exists s, w1. split_and!; [done|done|by rewrite Hd|].
    intros k'. rewrite Hs, list_to_map_cons. unfold w0. cbn [w_db settings set_settings]. destruct (decide (k' = k)) as [->|Hne].
    + by rewrite Hkl, !lookup_insert_eq, Em.
    + by rewrite !lookup_insert_ne.
Qed.

(** Without faults a settings request stores the value of every key of the
    body, except a blank or masked value for a secret, which leaves the secret as
    it was; it touches no other setting or table and signals the workers once.
    Whatever fails, every setting afterwards is the old value or the one the body
    asks for, so a secret is never replaced by its mask.  A body that is not an
    object of texts changes nothing. *)
Theorem handlePutSettings_writes (order : gmap string string -> list (string * string)) (r : request) (w : World) :
  (forall m, order m ≡ₚ map_to_list m) ->
  let '(res, w') := handlePutSettings order r w in
  match decode_texts (rq_body r) with
  | None => res = Ok (HttpError 400 "bad json") /\ w' = w
  | Some body =>
      (forall k, settings (w_db w') !! k = settings (w_db w) !! k \/ settings (w_db w') !! k = asked body k) /\
      (no_faults w -> res = Ok (Reply tt) /\
         (exists s, w_db w' = set_notifications (notifications (w_db w) ++ [("winnow_config", "")])%list (set_settings s (w_db w))) /\
         forall k, settings (w_db w') !! k =
           match asked body k with Some v => Some v | None => settings (w_db w) !! k end)
  end.
Proof.
  intros Ho. unfold handlePutSettings. destruct (decode_texts (rq_body r)) as [body|]; [|done].
  assert (NoDup (order body).*1) as Hn by (rewrite (Ho body); apply NoDup_fst_map_to_list).
  assert (list_to_map (order body) = body) as El.
  { rewrite <- (list_to_map_to_list body) at 2. apply list_to_map_proper; [done|apply Ho]. }
  unfold or_error, try, mbind, M_bind. destruct (put_settings (order body) w) as [res w1] eqn:E.
  pose proof (put_settings_some _ _ _ _ E) as [_ Hsome].
  assert (forall k, settings (w_db w1) !! k = settings (w_db w) !! k \/ settings (w_db w1) !! k = asked body k) as Hold.
  { intros k. destruct (Hsome k) as [?|(v & Hin & Hm & ->)]; [by left|right].
    rewrite (Ho body) in Hin. apply elem_of_map_to_list in Hin. unfold asked. rewrite Hin. cbn. by rewrite Hm. }
  destruct res as [[]|e].
  - unfold ignore. destruct (NotifyConfig w1) as [rn w2] eqn:En.
    assert (settings (w_db w2) = settings (w_db w1)) as Es.
    { unfold NotifyConfig, pg_notify in En. pose proof (exec_cases (fun d _ => set_notifications (notifications d ++ [("winnow_config", "")])%list d) w1) as [[_ H]|[_ H]];
        rewrite H in En; injection En as _ <-; done. }
    cbn. split; [intros k; rewrite Es; apply Hold|]. intros Hf.
    destruct (put_settings_ok _ _ Hf Hn) as (s & w1' & E' & Hf1 & Hd & Hs). rewrite E in E'. injection E' as <-.
    split; [done|]. split.
    + exists s. unfold NotifyConfig, pg_notify in En. rewrite exec_ok in En by done. injection En as _ <-. cbn. by rewrite Hd.
    + intros k. rewrite Es, Hd. cbn [settings set_settings]. rewrite Hs, El. unfold asked.
      destruct (body !! k) as [v|]; cbn; [by destruct (masked (k, v))|done].
  - cbn. split; [apply Hold|]. intros Hf.
    destruct (put_settings_ok _ _ Hf Hn) as (s & w1' & E' & _). rewrite E in E'. discriminate E'.
Qed.

Definition put_request (l : list (string * json)) : request := mkRequest "" (fun _ => "") (Some (JObj l)).

(** The token is masked, the password new. *)
Lemma handlePutSettings_writes_witness :
  let r := put_request [("ha_token", JStr "***"); ("mqtt_pass", JStr "pw"); ("currency", JStr "EUR")] in
  let w' := (handlePutSettings map_to_list r (mkWorld secret_DB 0 [])).2 in
  settings (w_db w') !! "ha_token" = Some "s3cret" /\ settings (w_db w') !! "mqtt_pass" = Some "pw".
Proof.
  intros r. pose proof (handlePutSettings_writes map_to_list r (mkWorld secret_DB 0 [])) as H.
  destruct (handlePutSettings map_to_list r (mkWorld secret_DB 0 [])) as [res w'].
  specialize (H (fun m => reflexivity _)).
  match type of H with match ?b with _ => _ end => assert (b = Some {["ha_token" := "***"; "mqtt_pass" := "pw"; "currency" := "EUR"]}) as Eb by (vm_compute; reflexivity) end.
  rewrite Eb in H. destruct H as [_ H]. destruct (H (Forall_nil_2 _)) as (_ & _ & Hk). cbn [snd].
  rewrite !Hk. split; reflexivity.
Defined.

(** ** Guarded deletion *)

(** A reading the request may remove. *)
Definition removable (in_old_chunk : time -> time -> bool) (b : DeleteBody) (nw : time) (rr : Reading * string) : Prop :=
  let cutoff := nw - db_Days b * Day in
  (db_Mode b = "age" /\ 0 < db_Days b /\ (r_TS rr.1 < cutoff \/ in_old_chunk cutoff (r_TS rr.1) = true)) \/
  (db_Mode b = "source" /\ db_Source b <> "" /\ r_Source rr.1 = db_Source b) \/
  db_Mode b = "all_readings".
(** What a confirmed request may do to the tables. *)
Definition deletes (may : Reading * string -> Prop) (d d' : DB) : Prop :=
  meters d' = meters d /\ settings d' = settings d /\
  exists keep, readings d' = List.filter keep (readings d) /\ forall rr, keep rr = false -> may rr.

Lemma deletes_refl may d d' :
  meters d' = meters d -> settings d' = settings d -> readings d' = readings d -> deletes may d d'.
Proof.
  intros H1 H2 H3. split_and!; [done|done|]. exists (fun _ => true). split; [|done].
  rewrite H3. clear. induction (readings d) as [|x l IH]; [done|]. cbn. f_equal. exact IH.
Qed.

Lemma filter_both {A} (p q : A -> bool) l :
  List.filter p (List.filter q l) = List.filter (fun x => q x && p x) l.
Proof. induction l as [|x l IH]; cbn; [done|]. destruct (q x); cbn; rewrite ?IH; done. Qed.

Lemma deletes_step may d d1 d2 p :
  deletes may d d1 -> (forall rr, p rr = true -> may rr) ->
  readings d2 = List.filter (fun rr => negb (p rr)) (readings d1) -> meters d2 = meters d1 -> settings d2 = settings d1 ->
  deletes may d d2.
Proof.
  intros (Hm & Hs & keep & Hr & Hk) Hp Hr2 Hm2 Hs2. split_and!; [congruence|congruence|].
  exists (fun rr => keep rr && negb (p rr)). split; [by rewrite Hr2, Hr, filter_both|].
  intros rr [H|H]%andb_false_iff; [by apply Hk|apply Hp, negb_false_iff, H].
Qed.

Lemma ignored_exec f w :
  exists d t, ignore (exec f) w = (Ok tt, mkWorld d (w_now w) t) /\ (d = w_db w \/ d = f (w_db w) (w_now w)).
Proof. unfold ignore. destruct (exec_cases f w) as [[_ ->]|[_ ->]]; eexists _, _; eauto. Qed.

Lemma DeleteOlder_deletes ioc b w r w' :
  db_Mode b = "age" -> DeleteReadingsOlderThan ioc (db_Days b) w = (r, w') ->
  deletes (removable ioc b (w_now w)) (w_db w) (w_db w') /\ test_windows (w_db w') = test_windows (w_db w).
Proof.
  intros Hb H. unfold DeleteReadingsOlderThan in H. destruct (Z.leb_spec (db_Days b) 0) as [|Hd].
  { injection H as <- <-. split; [by apply deletes_refl|done]. }
  set (may := removable _ _ _). unfold mbind, M_bind in H. cbv zeta in H.
  destruct (ignored_exec (fun d nw => (delete_readings (fun rr => ioc (nw - db_Days b * Day) (r_TS rr.1)) d).2) w)
    as (d1 & t1 & E1 & H1). rewrite E1 in H.
  destruct (ignored_exec (fun d _ => d) (mkWorld d1 (w_now w) t1)) as (d2 & t2 & E2 & H2). rewrite E2 in H.
  cbn [w_db w_now] in *. assert (d2 = d1) as -> by (by destruct H2). clear H2.
  assert (deletes may (w_db w) d1 /\ test_windows d1 = test_windows (w_db w)) as [Hd1 Ht].
  { destruct H1 as [->| ->]; [split; [by apply deletes_refl|done]|]. split; [|done].
    eapply (deletes_step may _ (w_db w) _ (fun rr => ioc (w_now w - db_Days b * Day) (r_TS rr.1))); [by apply deletes_refl| |done..].
    intros rr Hrr. left. auto. }
  unfold statement in H. cbn [w_db w_now w_faults] in H.
  destruct t2 as [|[] t2]; cbn in H; injection H as <- <-; cbn; (split; [|done]); try done;
    (eapply (deletes_step may _ d1 _ (fun rr => r_TS rr.1 <? w_now w - db_Days b * Day)); [done| |done..]);
    intros rr Hrr%Z.ltb_lt; left; auto.
Qed.

Lemma DeleteSource_deletes ioc b nw w r w' :
  db_Mode b = "source" -> DeleteReadingsBySource (db_Source b) w = (r, w') ->
  deletes (removable ioc b nw) (w_db w) (w_db w') /\ test_windows (w_db w') = test_windows (w_db w).
Proof.
  intros Hb H. unfold DeleteReadingsBySource in H. destruct (is_empty (db_Source b)) eqn:Es.
  { injection H as <- <-. split; [by apply deletes_refl|done]. }
  set (may := removable _ _ _). unfold mbind, M_bind in H.
  assert (forall rr, (r_Source rr.1 =? db_Source b)%string = true -> may rr) as Hmay.
  { intros rr Hrr%String.eqb_eq. right. left. split_and!; [done|by apply String.eqb_neq|done]. }
  match type of H with context [statement ?f w] => destruct (statement_cases _ f w) as [[e E]|(n & d0 & E0 & E)] end;
    rewrite E in H; [injection H as <- <-; split; [by apply deletes_refl|done]|]. injection E0 as _ <-.
  match type of H with context [ignore (exec ?f) ?w1] => destruct (ignored_exec f w1) as (d1 & t1 & E1 & H1) end;
    rewrite E1 in H; cbn [w_db w_now] in H1, H.
  match type of H with context [ignore (exec ?f) ?w1] => destruct (ignored_exec f w1) as (d2 & t2 & E2 & H2) end;
    rewrite E2 in H; cbn [w_db w_now] in H2, H. injection H as <- <-. cbn [w_db].
  split; [|by destruct H2 as [->| ->], H1 as [->| ->]].
  eapply (deletes_step may _ (w_db w) _ (fun rr => (r_Source rr.1 =? db_Source b)%string)); [by apply deletes_refl|exact Hmay|..];
    destruct H2 as [->| ->], H1 as [->| ->]; reflexivity.
Qed.

Lemma PurgeAll_deletes ioc b nw w r w' :
  db_Mode b = "all_readings" -> (PurgeAllReadings ;; mret 0) w = (r, w') ->
  deletes (removable ioc b nw) (w_db w) (w_db w') /\ test_windows (w_db w') = test_windows (w_db w).
Proof.
  intros Hb H. unfold PurgeAllReadings, mbind, M_bind in H. set (may := removable _ _ _).
  assert (forall rr, may rr) as Hmay by (intros rr; right; by right).
  destruct (exec_cases (fun d _ => set_readings [] d) w) as [[_ E]|[_ E]]; rewrite E in H.
  { injection H as <- <-. split; [by apply deletes_refl|done]. }
  match type of H with context [ignore (exec ?f) ?w1] => destruct (ignored_exec f w1) as (d1 & t1 & E1 & H1) end;
    rewrite E1 in H; cbn [w_db w_now] in H1, H.
  match type of H with context [ignore (exec ?f) ?w1] => destruct (ignored_exec f w1) as (d2 & t2 & E2 & H2) end;
    rewrite E2 in H; cbn [w_db w_now] in H2, H.
  match type of H with context [ignore (exec ?f) ?w1] => destruct (ignored_exec f w1) as (d3 & t3 & E3 & H3) end;
    rewrite E3 in H; cbn [w_db w_now] in H3, H. injection H as <- <-. cbn [w_db].
  assert (d1 = set_readings [] (w_db w)) as -> by (by destruct H1).
  split; [|by destruct H3 as [->| ->], H2 as [->| ->]].
  split_and!; [by destruct H3 as [->| ->], H2 as [->| ->]..|]. exists (fun _ => false). split; [|done].
  replace (List.filter (fun _ => false) (readings (w_db w))) with (@nil (Reading * string)) by (clear; by induction (readings (w_db w))).
  by destruct H3 as [->| ->], H2 as [->| ->].
Qed.

Lemma deletion_known in_old_chunk b :
  negb (is_nil (deletion in_old_chunk b)) = bool_decide (db_Mode b ∈ ["age"; "source"; "all_tests"; "all_readings"]).
Proof.
  unfold deletion. repeat match goal with |- context [(db_Mode b =? ?s)%string] =>
    destruct (String.eqb_spec (db_Mode b) s) as [->|?]; [by rewrite bool_decide_eq_true_2 by set_solver|] end.
  by rewrite bool_decide_eq_false_2 by set_solver.
Qed.

(** C12: A deletion request without the confirmation of its mode, or with an
    unreadable body or an unknown mode, is refused and changes nothing.  Whatever
    fails, a confirmed one leaves the annotations of the meters, the settings and
    (but for the mode that deletes them) the test windows alone, and removes, in
    place, only readings of its mode: readings older than the days given or in
    chunks that old, or those of the source given, or, with the confirmation
    PURGE-ALL, any. *)
Theorem admin_delete_guarded (in_old_chunk : time -> time -> bool) (r : request) (w : World) :
  let '(res, w') := handleAdminDelete in_old_chunk r w in
  match delete_body (rq_body r) with
  | Some b =>
      if (db_Confirm b =? (if (db_Mode b =? "all_readings") then "PURGE-ALL" else "DELETE"))%string
         && bool_decide (db_Mode b ∈ ["age"; "source"; "all_tests"; "all_readings"])
      then deletes (removable in_old_chunk b (w_now w)) (w_db w) (w_db w') /\
           (db_Mode b <> "all_tests" -> test_windows (w_db w') = test_windows (w_db w))
      else w' = w /\ (exists msg, res = Ok (HttpError 400 msg))
  | None => w' = w /\ (exists msg, res = Ok (HttpError 400 msg))
  end.
Proof.
  unfold handleAdminDelete. destruct (delete_body (rq_body r)) as [b|]; [|split; [done|by eexists]].
  fold (needed (db_Mode b)). rewrite <- (deletion_known in_old_chunk).
  destruct (db_Confirm b =? needed (db_Mode b))%string; cbn [negb andb]; [|split; [done|by eexists]].
  destruct (deletion in_old_chunk b) as [del|] eqn:Ed; cbn [is_nil negb]; [|split; [done|by eexists]].
  assert (forall u v, del w = (u, v) -> deletes (removable in_old_chunk b (w_now w)) (w_db w) (w_db v) /\
            (db_Mode b <> "all_tests" -> test_windows (w_db v) = test_windows (w_db w))) as Hdel.
  { intros u v E. unfold deletion in Ed.
    destruct (String.eqb_spec (db_Mode b) "age") as [Hb|_].
    { injection Ed as <-. destruct (DeleteOlder_deletes _ _ _ _ _ Hb E). auto. }
    destruct (String.eqb_spec (db_Mode b) "source") as [Hb|_].
    { injection Ed as <-. destruct (DeleteSource_deletes in_old_chunk _ (w_now w) _ _ _ Hb E). auto. }
    destruct (String.eqb_spec (db_Mode b) "all_tests") as [Hb|_].
    { injection Ed as <-. split; [|done]. unfold PurgeTests in E.
      match type of E with statement ?f w = _ => destruct (statement_cases _ f w) as [[e E1]|(n & d0 & E0 & E1)] end;
        rewrite E1 in E; injection E as _ <-; [by apply deletes_refl|]. injection E0 as _ <-. by apply deletes_refl. }
    destruct (String.eqb_spec (db_Mode b) "all_readings") as [Hb|_]; [|done].
    injection Ed as <-. destruct (PurgeAll_deletes in_old_chunk _ (w_now w) _ _ _ Hb E). auto. }
  unfold or_error, try, mbind, M_bind. destruct (del w) as [[n|e] w1] eqn:E; [|by eapply Hdel].
  destruct (Hdel _ _ eq_refl) as [Hd Ht]. unfold ignore.
  destruct (NotifyConfig w1) as [u w2] eqn:En.
  assert (exists ns, w_db w2 = set_notifications ns (w_db w1)) as [ns Ens].
  { unfold NotifyConfig, pg_notify in En. match type of En with exec ?f w1 = _ => destruct (exec_cases f w1) as [[_ H]|[_ H]] end;
      rewrite H in En; injection En as _ <-; [exists (notifications (w_db w1)); by destruct (w_db w1)|by eexists]. }
  cbn. rewrite Ens. exact (conj Hd Ht).
Qed.

(** ** Maintenance *)

Lemma liveSources_ok getenv ParseFloat w :
  no_faults w ->
  exists l, liveSources getenv ParseFloat w =
    (Ok (Some l), mkWorld (w_db w) (w_now w) (tail (tail (w_faults w)))) /\
    forall s, s ∈ l <-> is_Some (sdr_devices (w_db w) !! s) /\
                DeviceEnabled (Capture (FromMap getenv ParseFloat (settings (w_db w)))) s = true.
Proof.
  intros Hf. unfold liveSources, config_or_zero, ListDevices, try, mbind, M_bind. rewrite LoadConfig_ok by done.
  cbn. rewrite query_ok by (by apply no_faults_tail). cbn [w_db w_now w_faults fst snd mret M_ret]. eexists. split; [reflexivity|].
  intros s. rewrite list_elem_of_In, filter_In, <- list_elem_of_In. rewrite map_map. cbn [Serial].
  rewrite list_elem_of_fmap. split.
  - intros [((k, x) & -> & Hin) He]. rewrite sort_by_perm in Hin. apply elem_of_map_to_list in Hin. split; [by exists x|done].
  - intros [[x Hx] He]. split; [|done]. exists (s, x). split; [done|]. rewrite sort_by_perm. by apply elem_of_map_to_list.
Qed.

(** The maintenance operation that should drop the dongles that are gone
    drops the ones that are switched off: without faults, when some listed dongle
    is enabled, the inventory afterwards is the enabled part of the inventory
    before (every enabled row stays, however long it has been gone, and every
    disabled one goes, plugged in or not) and only their heartbeats remain; when
    none is enabled nothing is dropped. *)
Theorem prune_drops_disabled (getenv : string -> string) (ParseFloat : string -> float64 * bool) (r : request) (w : World) :
  no_faults w -> maintenance_op (rq_body r) = Some "prune_devices" ->
  let on s := DeviceEnabled (Capture (FromMap getenv ParseFloat (settings (w_db w)))) s = true in
  let d' := w_db (handleMaintenance getenv ParseFloat r w).2 in
  (handleMaintenance getenv ParseFloat r w).1 = Ok (Reply "prune_devices") /\
  ((exists s, is_Some (sdr_devices (w_db w) !! s) /\ on s) ->
     (forall s x, sdr_devices d' !! s = Some x <-> sdr_devices (w_db w) !! s = Some x /\ on s) /\
     (forall s h, capture_heartbeat d' !! s = Some h <->
        capture_heartbeat (w_db w) !! s = Some h /\ is_Some (sdr_devices (w_db w) !! s) /\ on s)) /\
  ((forall s, is_Some (sdr_devices (w_db w) !! s) -> ~ on s) ->
     sdr_devices d' = sdr_devices (w_db w) /\ capture_heartbeat d' = capture_heartbeat (w_db w)).
Proof.
  intros Hf Hop on d'. unfold d'. clear d'.
  destruct (liveSources_ok getenv ParseFloat w Hf) as (l & El & Hl).
  unfold handleMaintenance, maintain. rewrite Hop. cbn [String.eqb Ascii.eqb Bool.eqb].
  unfold or_error, try, mbind, M_bind, ignore, NotifyConfig, pg_notify. rewrite El. cbn [from_opt].
  assert (no_faults (mkWorld (w_db w) (w_now w) (tail (tail (w_faults w))))) as Hf2
    by (by apply Forall_tail, Forall_tail).
  destruct l as [|s0 l].
  - cbn [PruneDevices mret M_ret]. rewrite exec_ok by done. cbn. split; [done|]. split; [|done].
    intros (s & Hs & Hon). assert (s ∈ []) as H by (by apply Hl). by apply elem_of_nil in H.
  - unfold PruneDevices, mbind, M_bind. rewrite !exec_ok by (first [done|by repeat apply no_faults_tail]). cbn. split; [done|]. split.
    + intros _. split; intros s x; rewrite map_lookup_filter_Some; cbn [fst]; rewrite Hl; [|done].
      split; [intros (? & _ & ?); done|]. intros [H1 H2]. split_and!; [done|by exists x|done].
    + intros H. destruct (Hl s0) as [H1 _]. destruct (H1 ltac:(left)) as [Hs Hon]. by apply (H s0) in Hs.
Qed.

Definition two_dongles : DB :=
  set_settings {["capture_devices" := dq "{'off':{'enabled':false}}"]}
    (set_sdr_devices {["off" := Store.mkDevice 0 "plugged in" "R820T" 0 Hour; "gone" := Store.mkDevice 1 "departed" "R820T" 0 0]} empty_DB).
Definition op_request (op : string) : request := mkRequest "" (fun _ => "") (Some (JObj [("op", JStr op)])).

(** The departed dongle stays and the one that was switched off goes. *)
Lemma prune_drops_disabled_witness :
  let d' := w_db (handleMaintenance (fun _ => "") (fun _ => (f0, false)) (op_request "prune_devices") (mkWorld two_dongles (2 * Day) [])).2 in
  (exists x, sdr_devices d' !! "gone" = Some x) /\ sdr_devices d' !! "off" = None.
Proof.
  destruct (prune_drops_disabled (fun _ => "") (fun _ => (f0, false)) (op_request "prune_devices") (mkWorld two_dongles (2 * Day) []))
    as (_ & H & _); [constructor|reflexivity|]. cbv zeta.
  destruct H as [H _]; [exists "gone"; split; [by eexists|vm_compute; reflexivity]|]. split.
  - eexists. apply H. split; [reflexivity|vm_compute; reflexivity].
  - apply eq_None_not_Some. intros [x Hx]. apply H in Hx as [_ Hx]. revert Hx. vm_compute. discriminate.
Defined.

(** ** Stopping a test window *)

(** The row after freezing a survivor count. *)
Definition frozen (n : option Z) (t : WindowRow) : WindowRow :=
  match n with
  | Some n => if n =? 0 then t
              else mkWindow (tt_label t) (tt_start_ts t) (tt_end_ts t) (tt_source t) (tt_known_load_w t)
                     (tt_known_entity_id t) (Some n)
  | None => t
  end.

Section StopTheorem.
Context (getenv : string -> string) (ParseFloat : string -> float64 * bool)
        (survivors : list string -> string -> DB -> time -> option Z).

Definition stopped_DB (id : Z) (t : WindowRow) (w : World) : DB :=
  set_test_windows (<[id := end_row (w_now w) t]> (test_windows (w_db w))) (w_db w).
(** The survivor count at the time of the request. *)
Definition survivors_at (id : Z) (t : WindowRow) (w : World) : option Z :=
  let cfg := FromMap getenv ParseFloat (settings (w_db w)) in
  survivors (MonitoredEntities cfg) (HATimeZone cfg) (stopped_DB id t w) (w_now w).

Lemma handleStopTest_ok r id t w :
  no_faults w -> pathID r = Some id -> test_windows (w_db w) !! id = Some t ->
  exists w', handleStopTest getenv ParseFloat survivors r w = (Ok (Reply (scanTest id (end_row (w_now w) t))), w') /\
    test_windows (w_db w') = <[id := frozen (survivors_at id t w) (end_row (w_now w) t)]> (test_windows (w_db w)).
Proof.
  intros Hf Hr Ht. unfold handleStopTest. rewrite Hr. unfold or_error, try, mbind, M_bind, now.
  rewrite (StopTest_ok id (w_now w) w t) by done. rewrite LoadConfig_ok by (by apply Forall_tail, Forall_tail).
  unfold FreezeTestSnoopK, mbind, M_bind, try. rewrite query_ok by (by repeat apply Forall_tail).
  cbn [w_db w_now settings set_test_windows]. fold (stopped_DB id t w). fold (survivors_at id t w).
  unfold NotifyTests, pg_notify, SetTestSnoopK, ignore, frozen.
  destruct (survivors_at id t w) as [n|]; [destruct (n =? 0)|]; cbn [mret M_ret];
    rewrite ?exec_ok by (by repeat apply Forall_tail); cbn;
    (eexists; split; [reflexivity|]); cbn; [done| |done].
  apply map_eq. intros j. destruct (decide (j = id)) as [->|Hne].
  - by rewrite lookup_alter_eq, !lookup_insert_eq.
  - by rewrite lookup_alter_ne, !lookup_insert_ne.
Qed.

(** Stopping a window sets its end once, but freezes its candidate pool every
    time: the first request ends a running window now and stores the survivor
    count of this moment; a second request, whatever has been overheard in the
    meantime, gives the same reply and overwrites the stored count with the
    survivor count of that later moment (unless that is none or zero). *)
Theorem stop_test_refreezes (r : request) (id : Z) (t : WindowRow) (w : World) :
  no_faults w -> pathID r = Some id -> test_windows (w_db w) !! id = Some t ->
  exists reply w', handleStopTest getenv ParseFloat survivors r w = (Ok (Reply reply), w') /\
    let t1 := frozen (survivors_at id t w) (end_row (w_now w) t) in
    test_windows (w_db w') = <[id := t1]> (test_windows (w_db w)) /\
    tt_end_ts t1 = Some (from_opt (w_now w) (tt_end_ts t)) /\
    forall w2, no_faults w2 -> test_windows (w_db w2) = test_windows (w_db w') ->
      exists w2', handleStopTest getenv ParseFloat survivors r w2 = (Ok (Reply reply), w2') /\
        test_windows (w_db w2') = <[id := frozen (survivors_at id t1 w2) t1]> (test_windows (w_db w)).
Proof.
  intros Hf Hr Ht. destruct (handleStopTest_ok r id t w Hf Hr Ht) as (w' & E & Hw).
  eexists _, w'. split; [exact E|]. cbv zeta. set (t1 := frozen _ _) in *.
  assert (tt_end_ts t1 = Some (from_opt (w_now w) (tt_end_ts t))) as He.
  { unfold t1, frozen, end_row. destruct (survivors_at id t w) as [n|]; [destruct (n =? 0)|]; by destruct (tt_end_ts t) eqn:Et. }
  split_and!; [done|done|]. intros w2 Hf2 Hw2.
  assert (end_row (w_now w2) t1 = t1) as Hend by (unfold end_row; by rewrite He).
  destruct (handleStopTest_ok r id t1 w2 Hf2 Hr) as (w2' & E2 & Hw2').
  { by rewrite Hw2, Hw, lookup_insert_eq. }
  exists w2'. rewrite E2, Hw2', Hend, Hw2, Hw. split; [|by rewrite insert_insert_eq].
  unfold t1, frozen. destruct (survivors_at id t w) as [n|]; [destruct (n =? 0)|]; reflexivity.
Qed.
End StopTheorem.

Definition one_window : DB := set_test_windows {[7 := mkWindow "kettle" 0 None "manual" None None None]} empty_DB.
Definition heard_so_far (_ : list string) (_ : string) (d : DB) (_ : time) : option Z := Some (zlen (readings d)).

(** One meter is heard between the two requests. *)
Lemma stop_test_refreezes_witness :
  let stop := handleStopTest (fun _ => "") (fun _ => (f0, false)) heard_so_far (mkRequest "7" (fun _ => "") None) in
  let d1 := set_readings [zero_reading 1 5] one_window in
  exists w1, stop (mkWorld d1 100 []) = (Ok (Reply (mkTestWindow 7 "kettle" (RFC3339Nano 0) (Some (RFC3339Nano 100)) "manual" None None)), w1) /\
    exists w2, stop (mkWorld (set_readings [zero_reading 1 5; zero_reading 2 9] (w_db w1)) 900 []) =
        (Ok (Reply (mkTestWindow 7 "kettle" (RFC3339Nano 0) (Some (RFC3339Nano 100)) "manual" None None)), w2) /\
      tt_snoop_k <$> test_windows (w_db w1) !! 7 = Some (Some 1) /\ tt_snoop_k <$> test_windows (w_db w2) !! 7 = Some (Some 2).
Proof.
  intros stop d1.
  destruct (stop_test_refreezes (fun _ => "") (fun _ => (f0, false)) heard_so_far (mkRequest "7" (fun _ => "") None) 7
    (mkWindow "kettle" 0 None "manual" None None None) (mkWorld d1 100 [])) as (reply & w1 & E & Hw & _ & H2);
    [constructor|reflexivity|reflexivity|].
  assert (reply = mkTestWindow 7 "kettle" (RFC3339Nano 0) (Some (RFC3339Nano 100)) "manual" None None) as ->.
  { assert ((stop (mkWorld d1 100 [])).1 = Ok (Reply (mkTestWindow 7 "kettle" (RFC3339Nano 0) (Some (RFC3339Nano 100)) "manual" None None))) as E1
      by (vm_compute; reflexivity). unfold stop in E1. rewrite E in E1. by injection E1. }
  exists w1. split; [exact E|].
  destruct (H2 (mkWorld (set_readings [zero_reading 1 5; zero_reading 2 9] (w_db w1)) 900 [])) as (w2 & E2 & Hw2);
    [constructor|reflexivity|]. exists w2. split; [exact E2|]. rewrite Hw, Hw2, !lookup_insert_eq. split; reflexivity.
Defined.

(** ** The export reads back *)

(** A reader of RFC 4180 texts with records ended by a line feed: at the start of
    a field, inside a plain or a quoted one, or after a quote of a quoted one. *)
Inductive csv_state := Start | Plain | Quoted | Closing.
Fixpoint csv_read (st : csv_state) (cur : string) (row : list string) (s : string) : list (list string) :=
  match s with
  | EmptyString => []
  | String c s' =>
      let add st := csv_read st (cur ++ String c EmptyString)%string row s' in
      let field := csv_read Start "" (row ++ [cur])%list s' in
      let record := ((row ++ [cur])%list) :: csv_read Start "" [] s' in
      let sep z := byte_of c =? z in
      match st with
      | Quoted => if sep 34 then csv_read Closing cur row s' else add Quoted
      | Closing => if sep 34 then add Quoted else if sep 44 then field else if sep 10 then record else []
      | Start => if sep 34 then csv_read Quoted "" row s' else if sep 44 then field else if sep 10 then record else add Plain
      | Plain => if sep 44 then field else if sep 10 then record else add Plain
      end
  end.

Lemma read_quoted f cur row rest :
  csv_read Quoted cur row (double_quotes f ++ rest) = csv_read Quoted (cur ++ f)%string row rest.
Proof.
  revert cur. induction f as [|c f IH]; intros cur; [by rewrite str_app_nil_r|].
  replace (cur ++ String c f)%string with ((cur ++ String c EmptyString) ++ f)%string by (by rewrite <- str_app_assoc).
  cbn [double_quotes]. destruct (Ascii.eqb_spec c (chr 34)) as [->|Hc]; cbn [String.append csv_read].
  - change (byte_of (chr 34) =? 34) with true. cbv iota zeta. apply IH.
  - destruct (Z.eqb_spec (byte_of c) 34) as [E|_]; [|apply IH]. destruct Hc. by apply byte_of_inj.
Qed.

(** A text without commas, quotes and line ends. *)
Fixpoint plain_text (s : string) : bool :=
  match s with
  | String c s' => negb ((byte_of c =? 44) || (byte_of c =? 34) || (byte_of c =? 10)) && plain_text s'
  | EmptyString => true
  end.

Lemma read_plain f cur row rest :
  plain_text f = true -> csv_read Plain cur row (f ++ rest) = csv_read Plain (cur ++ f)%string row rest.
Proof.
  revert cur. induction f as [|c f IH]; intros cur Hf; [by rewrite str_app_nil_r|].
  replace (cur ++ String c f)%string with ((cur ++ String c EmptyString) ++ f)%string by (by rewrite <- str_app_assoc).
  cbn [plain_text] in Hf. apply andb_true_iff in Hf as [Hc Hf]. apply negb_true_iff in Hc. zbool.
  cbn [String.append csv_read]. replace (byte_of c =? 44) with false by lia. replace (byte_of c =? 10) with false by lia.
  by apply IH.
Qed.

Lemma Contains_byte z a s : 0 <= z < 256 -> str_contains_char (chr z) (String a s) = false -> byte_of a <> z.
Proof.
  intros Hz H. cbn in H. apply orb_false_iff in H as [H _]. intros E. apply Ascii.eqb_neq in H. apply H.
  symmetry. by apply byte_of_inj.
Qed.

Lemma no_quotes_plain s :
  str_contains_char (chr 44) s = false -> str_contains_char (chr 34) s = false -> str_contains_char lf s = false -> plain_text s = true.
Proof.
  induction s as [|c s IH]; intros H1 H2 H3; [done|].
  pose proof (Contains_byte 44 c s ltac:(lia) H1). pose proof (Contains_byte 34 c s ltac:(lia) H2).
  pose proof (Contains_byte 10 c s ltac:(lia) H3).
  cbn [str_contains_char] in H1, H2, H3. apply orb_false_iff in H1 as [_ H1], H2 as [_ H2], H3 as [_ H3].
  cbn [plain_text]. rewrite IH by done. rewrite andb_true_r. apply negb_true_iff.
  replace (byte_of c =? 44) with false by lia. replace (byte_of c =? 34) with false by lia. by replace (byte_of c =? 10) with false by lia.
Qed.

(** A written field is read up to its separator. *)
Lemma read_field f row c rest :
  byte_of c = 44 \/ byte_of c = 10 ->
  csv_read Start "" row (csv_field f ++ String c rest) =
    if byte_of c =? 44 then csv_read Start "" (row ++ [f])%list rest
    else ((row ++ [f])%list) :: csv_read Start "" [] rest.
Proof.
  intros Hc. unfold csv_field. destruct (needs_quotes f) eqn:En.
  - rewrite <- !str_app_assoc. cbn [String.append csv_read quote]. change (byte_of (chr 34) =? 34) with true. cbv iota zeta.
    rewrite read_quoted. cbn [String.append csv_read]. change (byte_of (chr 34) =? 34) with true. cbv iota zeta.
    by destruct Hc as [-> | ->].
  - destruct f as [|a f].
    + cbn [String.append csv_read]. by destruct Hc as [-> | ->].
    + unfold needs_quotes in En. cbn [is_empty] in En. rewrite ?andb_true_l in En.
      repeat (apply orb_false_iff in En as [En ?]).
      assert (plain_text (String a f) = true) as Hp by (by apply no_quotes_plain).
      cbn [plain_text] in Hp. apply andb_true_iff in Hp as [Ha Hp]. apply negb_true_iff in Ha. zbool.
      cbn [String.append csv_read]. replace (byte_of a =? 34) with false by lia. replace (byte_of a =? 44) with false by lia.
      replace (byte_of a =? 10) with false by lia. cbv iota zeta. cbn [String.append].
      rewrite read_plain by done. cbn [String.append csv_read]. by destruct Hc as [-> | ->].
Qed.

Lemma read_record f l row rest :
  csv_read Start "" row (str_join "," (map csv_field (f :: l)) ++ String lf rest) =
    ((row ++ f :: l)%list) :: csv_read Start "" [] rest.
Proof.
  revert f row. induction l as [|g l IH]; intros f row.
  - cbn [map str_join String.concat]. unfold str_join. cbn [String.concat]. rewrite read_field by (by right). done.
  - change (str_join "," (map csv_field (f :: g :: l))) with (csv_field f ++ ("," ++ str_join "," (map csv_field (g :: l))))%string.
    rewrite <- !str_app_assoc. cbn [String.append]. rewrite read_field by (by left).
    change (byte_of "," =? 44) with true. cbv iota. rewrite IH. by rewrite <- app_assoc.
Qed.

(** The CSV export is unambiguous: whatever texts the packets carry (commas,
    quotes, line ends), a reader that splits at separators and undoes the quoting
    gets back the header and the six fields of every reading, in order. *)
Theorem export_reads_back (fmt_f : float64 -> string) (rows : list Reading) :
  csv_read Start "" [] (csv_export fmt_f rows) = csv_header :: map (csv_fields fmt_f) rows.
Proof.
  unfold csv_export.
  assert (forall f l rest, csv_read Start "" [] (csv_record (f :: l) ++ rest) = (f :: l) :: csv_read Start "" [] rest) as H.
  { intros f l rest. unfold csv_record. rewrite <- str_app_assoc. apply (read_record f l []). }
  cbn [foldr]. unfold csv_header at 1. rewrite H. f_equal.
  induction rows as [|r rows IH]; [done|]. cbn [map foldr]. unfold csv_fields at 1. rewrite H, IH. done.
Qed.

(** ** Writing a device *)

Definition bool_json (o : option bool) : json := match o with Some b => JBool b | None => JNull end.
Definition device_json (d : DeviceConfig) : json :=
  JObj [("enabled", bool_json (d_Enabled d)); ("label", JStr (d_Label d)); ("freq", JStr (d_Freq d));
        ("gain", JStr (d_Gain d)); ("ppm", JStr (d_PPM d)); ("msgtype", JStr (d_MsgType d));
        ("filterid", JStr (d_FilterID d))].
Definition ascii_device (d : DeviceConfig) : Prop :=
  Forall (fun s => all_ascii s = true) [d_Label d; d_Freq d; d_Gain d; d_PPM d; d_MsgType d; d_FilterID d].

Lemma value_text_bool o : value_text 1 (marshal_bool o) (bool_json o).
Proof. intros f d rest Hf _ _ _. destruct f; [lia|]. destruct o as [[]|]; reflexivity. Qed.

Lemma device_text d : ascii_device d -> value_text 9 (marshal_device d) (device_json d).
Proof.
  intros Hd. apply closed_value_text.
  apply (closed_text_object 1 [("enabled", (marshal_bool (d_Enabled d), bool_json (d_Enabled d)));
    ("label", (marshal_string (d_Label d), JStr (d_Label d))); ("freq", (marshal_string (d_Freq d), JStr (d_Freq d)));
    ("gain", (marshal_string (d_Gain d), JStr (d_Gain d))); ("ppm", (marshal_string (d_PPM d), JStr (d_PPM d)));
    ("msgtype", (marshal_string (d_MsgType d), JStr (d_MsgType d)));
    ("filterid", (marshal_string (d_FilterID d), JStr (d_FilterID d)))]); [done|].
  unfold ascii_device in Hd. rewrite !Forall_cons in Hd. destruct Hd as (?&?&?&?&?&?&_).
  apply Forall_cons; split; [split; [reflexivity|apply value_text_bool]|].
  repeat (apply Forall_cons; split; [split; [reflexivity|by apply value_text_string]|]). by apply Forall_nil.
Qed.

Lemma decode_device_json d : decode_device (device_json d) = d.
Proof. destruct d as [[b|] ? ? ? ? ? ?]; reflexivity. Qed.

Lemma device_length d : (10 <= String.length (marshal_device d))%nat.
Proof.
  unfold marshal_device, marshal_object, device_members, str_join. cbn [map String.concat].
  rewrite !str_length_app. unfold marshal_member at 1. rewrite str_length_app. cbn [fst snd].
  change (String.length (marshal_string "enabled")) with 9%nat. change (String.length "{") with 1%nat. lia.
Qed.

Lemma fold_insert_list {A} (l : list (string * json)) (f : json -> A) (m : gmap string A) k :
  NoDup l.*1 ->
  fold_left (fun m kv => <[kv.1 := f kv.2]> m) l m !! k =
    match (list_to_map l : gmap string json) !! k with Some v => Some (f v) | None => m !! k end.
Proof.
  revert m. induction l as [|[k' v] l IH]; intros m Hn; [done|].
  cbn [fmap list_fmap fst] in Hn. apply NoDup_cons in Hn as [Hk Hn]. cbn [fold_left fst snd].
  rewrite IH by done. rewrite list_to_map_cons. destruct (decide (k' = k)) as [->|Hne].
  - rewrite (not_elem_of_list_to_map_1 l k Hk), !lookup_insert_eq. done.
  - rewrite !lookup_insert_ne by done. done.
Qed.

(** The stored map reads back. *)
Lemma parseDevices_marshal (m : gmap string DeviceConfig) :
  m <> ∅ -> (forall k d, m !! k = Some d -> all_ascii k = true /\ ascii_device d) -> Z.of_nat (size m) < 9000 ->
  parseDevices (marshal_devices m) = m.
Proof.
  intros Hne Hm Hsize. unfold parseDevices, marshal_devices.
  set (l := sorted_devices m).
  assert (l ≡ₚ map_to_list m) as Hperm by apply sort_by_perm.
  assert (length l = size m) as Hlen by (rewrite Hperm; apply length_map_to_list).
  assert (forall kv, kv ∈ l -> all_ascii kv.1 = true /\ ascii_device kv.2) as Hl.
  { intros [k d] Hin. rewrite Hperm in Hin. apply elem_of_map_to_list in Hin. by apply Hm. }
  assert (l <> []) as Hl0.
  { intros E. apply Hne. apply map_size_empty_iff. by rewrite <- Hlen, E. }
  set (ps := map (fun kv => (kv.1, (marshal_device kv.2, device_json kv.2))) l).
  assert (map (fun kv => (kv.1, marshal_device kv.2)) l = texts_of ps) as ->
    by (unfold texts_of, ps; by rewrite map_map).
  assert (TrimSpace (marshal_object (texts_of ps)) = marshal_object (texts_of ps)) as ->
    by (apply TrimSpace_enclosed; by right).
  change (is_empty (marshal_object (texts_of ps))) with false. cbv iota.
  assert (length ps = length l) as Eps by (unfold ps; apply length_map).
  rewrite (parse_closed (S (length ps + 9)) _ (JObj (values_of ps))).
  - apply map_eq. intros k. unfold values_of, ps. rewrite map_map. cbn [fst snd].
    set (vs := map (fun kv => (kv.1, device_json kv.2)) l).
    assert (vs.*1 = l.*1) as Ev by (unfold vs; rewrite <- list_fmap_compose; done).
    assert (NoDup l.*1) as Hn by (rewrite Hperm; apply NoDup_fst_map_to_list).
    rewrite (fold_insert_list vs decode_device ∅ k) by (by rewrite Ev). rewrite lookup_empty.
    destruct (m !! k) as [d|] eqn:Ek.
    + rewrite (elem_of_list_to_map_1 vs k (device_json d)).
      * by rewrite decode_device_json.
      * by rewrite Ev.
      * unfold vs. apply list_elem_of_fmap. exists (k, d). split; [done|]. rewrite Hperm. by apply elem_of_map_to_list.
    + rewrite not_elem_of_list_to_map_1; [done|]. rewrite Ev, Hperm. intros Hin.
      apply list_elem_of_fmap in Hin as ([k' d] & -> & Hin). apply elem_of_map_to_list in Hin. cbn in Ek. congruence.
  - apply closed_text_object; [unfold ps; by destruct l|]. unfold ps. apply Forall_map, Forall_forall.
    intros kv Hin. cbn [fst snd]. destruct (Hl kv Hin). split; [done|by apply device_text].
  - unfold marshal_object. rewrite !str_length_app. change (String.length "{") with 1%nat.
    change (String.length "}") with 1%nat.
    pose proof (length_join_ge 10 (map marshal_member (texts_of ps))) as HJ.
    unfold texts_of in HJ at 2. rewrite !length_map in HJ.
    assert (1 <= length ps)%nat by (destruct ps; [|cbn; lia]; rewrite Eps in *; by destruct l).
    specialize (HJ ltac:(unfold texts_of, ps; rewrite !map_map; apply Forall_map, Forall_true; intros kv; cbn [fst snd];
      unfold marshal_member; rewrite !str_length_app; cbn [fst snd]; pose proof (device_length kv.2); lia)). lia.
  - unfold maxNestingDepth. lia.
Qed.

(** The body a client sends for a device. *)
Definition device_request (d : DeviceConfig) : request := mkRequest "" (fun _ => "") (Some (device_json d)).

Lemma device_body_json d : device_body (Some (device_json d)) = Some d.
Proof. destruct d as [[b|] ? ? ? ? ? ?]; reflexivity. Qed.

Lemma FromMap_devices getenv ParseFloat m v :
  v <> "" -> cc_Devices (Capture (FromMap getenv ParseFloat (<[KeyCaptureDevices := v]> m))) = parseDevices v.
Proof.
  intros Hv. unfold FromMap. cbn [Capture cc_Devices]. unfold get. rewrite lookup_insert_eq.
  by destruct v.
Qed.

(** C39: What is written for a dongle is what the processes read, whatever
    statements of the request fail: a configuration loaded afterwards has exactly
    this configuration for this dongle and, for every other, the one it had.  When
    the write fails (the second statement) the request reports the error and every
    dongle keeps what it had; when the settings could not be read (the first) the
    write replaces them, and every other dongle loses its configuration and is
    enabled.  (The texts are ASCII; the map stays below 9000 dongles.) *)
Theorem put_device_reads_back (getenv : string -> string) (ParseFloat : string -> float64 * bool) (serial : string)
    (d : DeviceConfig) (w : World) :
  serial <> "" -> all_ascii serial = true -> ascii_device d ->
  let loaded db := cc_Devices (Capture (FromMap getenv ParseFloat (settings db))) in
  let old := loaded (w_db w) in
  (forall k x, old !! k = Some x -> all_ascii k = true /\ ascii_device x) -> Z.of_nat (size old) < 8999 ->
  let r := handlePutDevice getenv ParseFloat serial (device_request d) w in
  (if fails 1 w then exists e, r.1 = Ok (HttpError 500 e) else r.1 = Ok (Reply tt)) /\
  forall nw, exists cfg w', LoadConfig getenv ParseFloat (mkWorld (w_db r.2) nw []) = (Ok cfg, w') /\
    (forall k, cc_Devices (Capture cfg) !! k =
       if fails 1 w then old !! k
       else if decide (k = serial) then Some d
       else if fails 0 w then None else old !! k) /\
    (forall k, k <> serial -> fails 1 w = false -> fails 0 w = true -> DeviceEnabled (Capture cfg) k = true).
Proof.
  intros Hs Ha Hd loaded old Hold Hsize r.
  set (read := if fails 0 w then ∅ else old).
  assert ((if fails 1 w then exists e, r.1 = Ok (HttpError 500 e) else r.1 = Ok (Reply tt)) /\
          loaded (w_db r.2) = if fails 1 w then old else <[serial := d]> read) as [Hr Hdb].
  { subst r. unfold handlePutDevice.
    replace (is_empty serial) with false by (symmetry; by apply String.eqb_neq).
    cbn [device_request rq_body]. rewrite device_body_json.
    unfold config_or_zero, or_error, try, LoadConfig, GetSettings, mbind, M_bind. rewrite query_oracle.
    unfold SetSetting, ignore, NotifyConfig, pg_notify, mret, M_ret.
    assert (parseDevices (marshal_devices (<[serial := d]> read)) = <[serial := d]> read) as Hread.
    { apply parseDevices_marshal.
      - apply insert_non_empty.
      - intros k x [[<- <-]|[_ Hk]]%lookup_insert_Some; [done|]. subst read. destruct (fails 0 w); [done|by eapply Hold].
      - assert (size read <= size old)%nat by (subst read; destruct (fails 0 w); [rewrite map_size_empty|]; lia).
        rewrite map_size_insert. destruct (read !! serial); cbn [id]; [unfold id|]; lia. }
    assert (forall n, loaded (set_notifications n (set_settings (<[KeyCaptureDevices := marshal_devices (<[serial := d]> read)]>
              (settings (w_db w))) (w_db w))) = <[serial := d]> read) as Hset.
    { intros n. unfold loaded. cbn [settings set_settings set_notifications].
      rewrite FromMap_devices by (unfold marshal_devices, marshal_object; discriminate). exact Hread. }
    subst read. destruct (fails 0 w); cbn beta iota;
      (rewrite exec_oracle, fails_tail; destruct (fails 1 w); cbn [fst snd];
       [split; [by eexists|done]|rewrite exec_oracle; cbn [fst snd w_db]; split; [done|]]);
      (destruct (fails 0 _); exact (Hset [])). }
  split; [exact Hr|]. intros nw. rewrite LoadConfig_ok by constructor. eexists _, _. split; [reflexivity|].
  cbn [w_db]. change (cc_Devices _) with (loaded (w_db r.2)). rewrite Hdb. subst read. split.
  - intros k. destruct (fails 1 w); [done|]. destruct (decide (k = serial)) as [->|Hk]; [by rewrite lookup_insert_eq|].
    rewrite lookup_insert_ne by done. by destruct (fails 0 w).
  - intros k Hk H1 H0. unfold DeviceEnabled. change (cc_Devices _) with (loaded (w_db r.2)).
    rewrite Hdb, H1, H0, lookup_insert_ne by done. done.
Qed.

Lemma put_device_reads_back_witness :
  let d := Config.mkDevice (Some false) "attic" "" "40" "" "" "" in
  let r := handlePutDevice (fun _ => "") (fun _ => (f0, false)) "00000001" (device_request d) (mkWorld two_dongles 0 []) in
  r.1 = Ok (Reply tt) /\
  exists cfg w', LoadConfig (fun _ => "") (fun _ => (f0, false)) (mkWorld (w_db r.2) 0 []) = (Ok cfg, w') /\
    cc_Devices (Capture cfg) !! "00000001" = Some d /\
    cc_Devices (Capture cfg) !! "off" = Some (Config.mkDevice (Some false) "" "" "" "" "" "").
Proof.
  intros d r.
  assert (cc_Devices (Capture (FromMap (fun _ => "") (fun _ => (f0, false)) (settings two_dongles))) =
            {["off" := Config.mkDevice (Some false) "" "" "" "" "" ""]}) as E0 by (vm_compute; reflexivity).
  destruct (put_device_reads_back (fun _ => "") (fun _ => (f0, false)) "00000001" d (mkWorld two_dongles 0 []))
    as (E & H); [discriminate|reflexivity|repeat constructor|..].
  - cbn [w_db]. rewrite E0. intros k x [<- <-]%lookup_singleton_Some. split; [reflexivity|repeat constructor].
  - cbn [w_db]. rewrite E0. rewrite map_size_singleton. reflexivity.
  - split; [exact E|]. destruct (H 0) as (cfg & w' & El & Hc & _). exists cfg, w'. split; [exact El|].
    split; rewrite Hc; [reflexivity|]. cbn [fails nth w_faults w_db]. rewrite E0. reflexivity.
Defined.
