(* ===== verification/Identify.v ===== *)
(** * The identification handlers ([cmd/api/handlers.go])

    The window ranking, the daily screen with its estimate lines, the ranking of one
    test window and the combined rankings.  The screen's memo is threaded through
    the handlers; [Panic] is the run-time error of the lag stage.  A float that does
    not fit an [int] converts to the smallest one, as on amd64. *)

From S2P Require Import Prelude Float64 Model Calendar Json Config Store Database Deltas Windows Samples Correlate Utility Daily Combined Http.

Record IdentifyPage := mkIdentify {
  ip_Start : string; ip_End : string; ip_Entities : list string; ip_Floor : float64; ip_Energy : float64;
  ip_CV : option float64; ip_BucketMin : Z; ip_Commodity : string; ip_Survivors : Z; ip_Ranking : list CorrRow
}.
Record DailyPage := mkDailyPage {
  dpg_Screen : DailyScreen; dpg_Flat : list (option float64); dpg_Shaped : list (option float64)
}.
Record TestPage := mkTestPage { tp_Test : TestWindow; tp_EndUsed : string; tp_Ranking : list CorrRow }.

Section Identify.
Context (Log : float64 -> float64) (time_bucket : duration -> time -> time) (grid : time -> time -> list time)
        (local_day : string -> time -> Z) (midnight : string -> Z -> time) (valid_zone : string -> bool)
        (getenv : string -> string) (ParseFloat : string -> float64 * bool) (fmt_g : float64 -> string)
        (stddev_samp : list float64 -> option float64) (Erfinv : float64 -> float64)
        (regr : list (float64 * float64) -> pgRegr) (Parse ParseNano : string -> option time).

Notation Screen := (DailyReconciliation Log time_bucket grid local_day valid_zone getenv ParseFloat fmt_g).
Notation Versus := (CorrelationVsReferenceAux time_bucket grid stddev_samp Erfinv regr).

(** [?hours=], two by default. *)
Definition hours_param (r : request) : float64 :=
  let h := rq_query r "hours" in
  if is_empty h then of_Z 2
  else match ParseFloat h with (v, true) => if (f0 <? v)%f64 then v else of_Z 2 | _ => of_Z 2 end.
(** [?bucket=]: minutes, with or without an [m]; by default scaled to the window. *)
Definition bucket_param (r : request) (hours : float64) : Z :=
  let b := rq_query r "bucket" in
  let auto := PickBucketMin (to_int64 (hours * of_Z 60)%f64) in
  if is_empty b || (b =? "auto")%string then auto
  else match Atoi (TrimSuffix b "m") with (v, true) => if 0 <? v then v else auto | _ => auto end.
Definition window_start (nw : time) (hours : float64) : time :=
  Add nw (wrap64 (- to_int64 (hours * of_Z Hour)%f64)).

Definition handleIdentify (r : request) (memo : option dailyMemo) : M (reply IdentifyPage * option dailyMemo) :=
  cfg ← config_or_zero getenv ParseFloat;
  let hours := hours_param r in
  fin ← now;
  let start := window_start fin hours in
  let bucketMin := bucket_param r hours in
  let commodity := if (rq_query r "commodity" =? "all")%string then "all" else "electric" in
  let ents := MonitoredEntities cfg in
  '(screen, memo) ← Screen ents (HATimeZone cfg) [] memo;
  let aux := match screen with Ok s => AuxFromScreen (Some s) | Err _ => None end in
  let survivors := match screen with Ok s => sc_Survivors s | Err _ => 0 end in
  res ← try (Versus ents start fin bucketMin (commodity =? "electric")%string aux);
  match res with
  | Err e => mret (HttpError 500 e, memo)
  | Ok None => mret (Panic, memo)
  | Ok (Some (ranking, floor)) =>
      energy ← MonitoredEnergy time_bucket grid ents start fin;
      cv ← MonitoredCV time_bucket grid stddev_samp ents start fin;
      mret (Reply (mkIdentify (RFC3339 start) (RFC3339 fin) ents floor energy cv bucketMin commodity survivors ranking), memo)
  end.

(** The estimate lines aligned with the days of the screen. *)
Definition estimates_by_day {A} (f : UtilityDayEstimate -> A) (es : list UtilityDayEstimate) : gmap string A :=
  fold_left (fun m e => <[ude_Day e := f e]> m) es ∅.
Definition align_estimates (days : list string) (es : list UtilityDayEstimate)
  : list (option float64) * list (option float64) :=
  let flat := estimates_by_day ude_FlatKwh es in
  let shaped := estimates_by_day ude_ShapedKwh es in
  (map (fun day => flat !! day) days, map (fun day => from_opt None (shaped !! day)) days).

Definition handleIdentifyDaily (r : request) (memo : option dailyMemo) : M (reply DailyPage * option dailyMemo) :=
  cfg ← config_or_zero getenv ParseFloat;
  '(screen, memo) ← Screen (MonitoredEntities cfg) (HATimeZone cfg) (id_list (rq_query r "ids")) memo;
  match screen with
  | Err e => mret (HttpError 500 e, memo)
  | Ok s =>
      es ← (match head (sc_Days s), last (sc_Days s) with
            | Some first, Some final =>
                if UtilityConfigured cfg
                then UtilityDailyEstimateRange time_bucket grid local_day midnight valid_zone getenv ParseFloat first final
                else mret []
            | _, _ => mret []
            end);
      let '(flat, shaped) := align_estimates (sc_Days s) es in
      mret (Reply (mkDailyPage s flat shaped), memo)
  end.

(** Tests and ranking of the windows. *)
Definition rankings (m : M (option (list (Z * string) * list AggRow) * option dailyMemo)) (memo : option dailyMemo)
  : M (reply (list (Z * string) * list AggRow) * option dailyMemo) :=
  r ← try m;
  mret (match r with
        | Err e => (HttpError 500 e, memo)
        | Ok (None, memo) => (Panic, memo)
        | Ok (Some x, memo) => (Reply x, memo)
        end).
Definition handleCombined (r : request) (memo : option dailyMemo) :=
  cfg ← config_or_zero getenv ParseFloat;
  rankings (CombinedRanking Log time_bucket grid local_day valid_zone getenv ParseFloat fmt_g stddev_samp Erfinv regr
              (MonitoredEntities cfg) memo) memo.
Definition handleIdentifyAuto (r : request) (memo : option dailyMemo) :=
  cfg ← config_or_zero getenv ParseFloat;
  rankings (IdentifyAuto Log time_bucket grid local_day valid_zone getenv ParseFloat fmt_g stddev_samp Erfinv regr
              (MonitoredEntities cfg) memo) memo.

(** ** One test window *)

Definition set_anchor (a : option float64) (x : CorrRow) : CorrRow :=
  mkCorrRow (c_EndpointID x) (c_Commodity x) (c_MsgType x) (c_EndpointType x) (c_R x)
    (c_Score x) (c_WindowDelta x) (c_WindowRate x) (c_BaselineRate x) (c_WindowPackets x) (c_PlugEnergyWh x)
    (c_R2 x) (c_Slope x) (c_BaselineW x) (c_SuggestedMultiplier x) a (c_UtilityMultiplier x) (c_MeterEnergyKwh x)
    (c_FloorOK x) (c_LagBuckets x) (c_Confidence x) (c_ConfidenceParts x) (c_PubMultiplier x) (c_PubUnit x)
    (c_IsMine x) (c_Publish x).
(** The known load's energy over what the meter counted. *)
Definition anchor_row (expected : float64) (x : CorrRow) : CorrRow :=
  if (f0 <? expected)%f64 && (f0 <? c_WindowDelta x)%f64
  then set_anchor (Some (expected / c_WindowDelta x)%f64) x else x.

Definition test_expected (t : TestWindow) (start fin : time) : M float64 :=
  match tw_KnownLoadW t with
  | Some load => mret (load * Hours (Sub fin start) / of_Z 1000)%f64
  | None => match tw_KnownEntityID t with
            | Some e => EntityEnergy time_bucket grid e start fin
            | None => mret f0
            end
  end.
(** The window of a test; one that is running ends now. *)
Definition test_span (t : TestWindow) (nw : time) : time * time :=
  (from_opt zero_time (ParseNano (tw_StartTS t)),
   match tw_EndTS t with Some e => from_opt nw (ParseNano e) | None => nw end).

Definition test_ranking (cfg : Config) (t : TestWindow) (start fin : time) : M (option (list CorrRow)) :=
  match MonitoredEntities cfg with
  | [] => rows ← Correlation time_bucket start fin; mret (Some rows)
  | ents =>
      o ← CorrelationVsReference time_bucket grid stddev_samp Erfinv regr ents start fin
            (PickBucketMin (to_int64 (Minutes (Sub fin start)))) true;
      match o with
      | None => mret None
      | Some (ranking, _) =>
          expected ← test_expected t start fin;
          mret (Some (map (anchor_row expected) ranking))
      end
  end.

Definition handleTestCorrelation (r : request) : M (reply TestPage) :=
  match pathID r with
  | None => badReq "bad id"
  | Some id =>
      t ← try (GetTest id);
      match t with
      | Err _ => mret (HttpError 404 "test not found")
      | Ok t =>
          nw ← now;
          let '(start, fin) := test_span t nw in
          cfg ← config_or_zero getenv ParseFloat;
          or_error (test_ranking cfg t start fin) (fun o =>
            mret (match o with
                  | None => Panic
                  | Some ranking => Reply (mkTestPage t (RFC3339 fin) ranking)
                  end))
      end
  end.

Definition handleReferenceSeries (r : request) : M (reply (list (string * float64))) :=
  cfg ← config_or_zero getenv ParseFloat;
  nw ← now;
  served (AggregateSeries time_bucket grid (MonitoredEntities cfg) (timeParam Parse r "start" (Add nw (- (2 * Hour))))
            (timeParam Parse r "end" nw) (query_or r "bucket" "5m")).
End Identify.
