(* ===== verification/Dashboard.v ===== *)
(** * The dashboard and the integrations ([cmd/api/handlers.go], [internal/db/overview.go])

    The overview with its anomalies, the analytics pages, the coverage page and the
    status of the integrations.  Home Assistant is a parameter: the error of its
    test call and the text of its states answer; so is the TCP dial to the broker.
    The calendar of a zone is as in [Consumption]. *)

From S2P Require Import Prelude Float64 Model Calendar Json Encoding Config Store Database Deltas Meters Samples Utility Analytics Consumption AgentWire Publish Backfill Ha Http Handlers.

(** ** The worker's status *)

Record WorkerStatus := mkWorkerStatus {
  ws_MQTTConnected : bool; ws_Detail : string; ws_HAStream : string; ws_HALastEventTS : string; ws_UpdatedAt : string
}.
Definition zero_status : WorkerStatus := mkWorkerStatus false "" "" "" "".
Definition status_names : list string := ["mqtt_connected"; "detail"; "ha_stream"; "ha_last_event_ts"; "updated_at"].
Definition status_member_ok (kv : string * json) : bool :=
  match field_match status_names kv.1, kv.2 with
  | None, _ | Some _, JNull => true
  | Some f, JBool _ => (f =? "mqtt_connected")%string
  | Some f, JStr _ => negb (f =? "mqtt_connected")%string
  | Some _, _ => false
  end.
Definition bool_lenient (names : list string) (f : string) (ms : list (string * json)) : bool :=
  fold_left (fun old kv => match field_match names kv.1, kv.2 with
                           | Some g, JBool b => if (g =? f)%string then b else old
                           | _, _ => old
                           end) ms false.
Definition decode_status (ms : list (string * json)) : WorkerStatus :=
  let text f := get_str_lenient status_names f ms in
  mkWorkerStatus (bool_lenient status_names "mqtt_connected" ms) (text "detail") (text "ha_stream")
    (text "ha_last_event_ts") (text "updated_at").
(** The status stored under [worker_status], and whether there is one; after a
    type error the fields that did decode are kept. *)
Definition read_status (m : gmap string string) : WorkerStatus * bool :=
  match m !! "worker_status" with
  | None => (zero_status, false)
  | Some raw =>
      if is_empty raw then (zero_status, false)
      else match parse raw with
           | Some JNull => (zero_status, true)
           | Some (JObj ms) => (decode_status ms, forallb status_member_ok ms)
           | _ => (zero_status, false)
           end
  end.
Definition GetWorkerStatus : M (WorkerStatus * bool) :=
  r ← try GetSettings; mret (match r with Ok m => read_status m | Err _ => (zero_status, false) end).

Section Dashboard.
Context (time_bucket : duration -> time -> time) (grid : time -> time -> list time)
        (local_day local_clock local_hour local_dow : string -> time -> Z) (wall : string -> Z -> Z -> time)
        (valid_zone : string -> bool)
        (getenv : string -> string) (ParseFloat : string -> float64 * bool) (Parse : string -> option time).

(** ** Anomalies *)

Definition stale_detail (rh : ReferenceHealth) (ws : WorkerStatus) (known : bool) : string :=
  ((match rh_LastSampleTS rh with
    | Some t => "no monitored samples since " ++ t ++ " — identification is paused"
    | None => "no monitored samples — identification is paused"
    end) ++
   (if known && negb (is_empty (ws_HAStream ws)) && negb (ws_HAStream ws =? "ok")
    then "; worker: " ++ ws_HAStream ws else "; check the worker and HA connection"))%string.

Definition anomaliesWithReference : M (list Anomaly) :=
  live ← liveSources getenv ParseFloat;
  a ← Anomalies time_bucket (from_opt [] live);
  cfg ← config_or_zero getenv ParseFloat;
  if ReferenceConfigured cfg then
    rh ← reference_health time_bucket (MonitoredEntities cfg);
    if rh_Stale rh then
      '(ws, known) ← GetWorkerStatus;
      mret (mkAnomaly "reference_stale" 0 "" (stale_detail rh ws known) :: a)
    else mret a
  else mret a.
Definition handleAnomalies (r : request) : M (reply (list Anomaly)) := served anomaliesWithReference.

(** ** The overview *)

Record PubRow := mkPubRow {
  pr_EndpointID : Z; pr_Name : string; pr_Commodity : string; pr_Unit : string; pr_Multiplier : float64;
  pr_Rate : option float64; pr_TodayValue : float64; pr_CostToday : float64
}.
Record MyMeterView := mkMyMeter {
  mm_EndpointID : Z; mm_Label : option string; mm_IsMine : bool; mm_IsCandidate : bool; mm_Calibrated : bool;
  mm_Multiplier : float64; mm_Unit : string; mm_Today : float64; mm_Week : float64; mm_Month : float64;
  mm_CostToday : float64; mm_Rate : option float64; mm_Publish : bool; mm_BrokerConnected : bool;
  mm_LastPublishTS : option time; mm_LastError : option string
}.
Record OverviewPage := mkOverview {
  ov_Currency : string; ov_CostPerKwh : float64; ov_MyMeter : option MyMeterView; ov_Published : list PubRow;
  ov_Anomalies : list Anomaly
}.

(** The local midnight of an instant, the Sunday of its week and the first of its
    month. *)
Definition period_starts (tz : string) (nw : time) : time * time * time :=
  let day := local_day tz nw in
  let '(y, m, _) := civil_from_days day in
  let midnight := wall tz day 0 in
  (midnight, AddDate local_day local_clock wall tz midnight 0 0 (- weekday (local_day tz midnight)),
   wall tz (civil_date y m 1) 0).

Definition movement (id : Z) (since : time) (mult : float64) : M float64 :=
  nw ← now;
  v ← MovementBetween time_bucket id since nw;
  mret (match v with Some v => round (v * mult)%f64 3 | None => f0 end).
Definition live_rate (id : Z) (mult : float64) : M (option float64) :=
  v ← DerivedPower id mult; mret (option_map (fun v => round v 3) v).

Definition pub_row (cfg : Config) (midnight : time) (m : Meter) : M PubRow :=
  today ← movement (m_EndpointID m) midnight (m_PubMultiplier m);
  rate ← live_rate (m_EndpointID m) (m_PubMultiplier m);
  mret (mkPubRow (m_EndpointID m) (from_opt "" (m_PubName m)) (m_Commodity m) (from_opt "" (m_PubUnit m))
          (m_PubMultiplier m) rate today
          (if (m_Commodity m =? "electric")%string && (f0 <? CostPerKwh cfg)%f64
           then round (today * CostPerKwh cfg)%f64 2 else f0)).

Definition my_meter_view (cfg : Config) (starts : time * time * time) (m : Meter) : M MyMeterView :=
  let '(midnight, week, month) := starts in
  let id := m_EndpointID m in
  let mult := m_PubMultiplier m in
  let calibrated := match m_PubUnit m with Some u => negb (is_empty u) | None => false end in
  today ← movement id midnight mult;
  rate ← live_rate id mult;
  '(ws, _) ← GetWorkerStatus;
  ps ← PublishStatuses;
  let p := ps !! id in
  weekly ← movement id week mult;
  monthly ← movement id month mult;
  mret (mkMyMeter id (m_Label m) (m_IsMine m) (m_IsCandidate m) calibrated mult
          (if calibrated then from_opt "" (m_PubUnit m) else "counts") today weekly monthly
          (if (f0 <? CostPerKwh cfg)%f64 && calibrated then round (today * CostPerKwh cfg)%f64 2 else f0)
          rate (m_Publish m) (ws_MQTTConnected ws) (p ≫= LastPublishTS) (p ≫= LastError)).

Definition handleOverview (r : request) : M (reply OverviewPage) :=
  cfg ← config_or_zero getenv ParseFloat;
  let tz := zone_of valid_zone (HATimeZone cfg) in
  nw ← now;
  let starts := period_starts tz nw in
  pubs ← try MetersForPublish;
  rows ← mapM_ (pub_row cfg starts.1.1) (match pubs with Ok l => l | Err _ => [] end);
  mine ← MyMeter;
  mv ← (match mine with
        | Some m => v ← my_meter_view cfg starts m; mret (Some v)
        | None => mret None
        end);
  a ← try anomaliesWithReference;
  mret (Reply (mkOverview (Currency cfg) (CostPerKwh cfg) mv rows (match a with Ok l => l | Err _ => [] end))).

(** ** Analytics pages *)

(** What [?type=] selects. *)
Inductive ProfilePage :=
  | ByHour (l : list ProfilePoint) | ByDay (l : list ProfilePoint) | Rollup (l : list DailyPoint) | Heat (l : list HeatCell).
Definition profile_page (kind : string) (id days : Z) (tz : string) : M ProfilePage :=
  if (kind =? "dow")%string then l ← DowProfile time_bucket local_dow id days tz; mret (ByDay l)
  else if (kind =? "daily")%string then l ← DailyRollup time_bucket local_day id days tz; mret (Rollup l)
  else if (kind =? "heatmap")%string then l ← Heatmap time_bucket local_hour local_dow id days tz; mret (Heat l)
  else l ← HourlyProfile time_bucket local_hour id days tz; mret (ByHour l).
Definition handleProfile (r : request) : M (reply ProfilePage) :=
  match pathID r with
  | None => badReq "bad id"
  | Some id =>
      cfg ← config_or_zero getenv ParseFloat;
      served (profile_page (rq_query r "type") id (intParam r "days" 14) (HATimeZone cfg))
  end.
Definition handleBenchmark (r : request) : M (reply Benchmark) :=
  match pathID r with
  | None => badReq "bad id"
  | Some id => served (BenchmarkMeter time_bucket id (intParam r "days" 7))
  end.
Definition handleSourceTimeline (r : request) : M (reply (gmap string (list SourcePoint))) :=
  nw ← now;
  served (SourceTimeline time_bucket (timeParam Parse r "since" (Add nw (- (6 * Hour)))) (query_or r "bucket" "5m")).

(** The overlays asked for by [?compare=]. *)
Definition compare_set (s : string) : list string :=
  List.filter (fun c => negb (is_empty c)) (map TrimSpace (split_on "," s)).
Definition handleConsumption (r : request) : M (reply ConsumptionResult) :=
  match pathID r with
  | None => badReq "bad id"
  | Some id =>
      let compare := compare_set (rq_query r "compare") in
      res ← try (Consumption local_day local_clock wall time_bucket grid valid_zone getenv ParseFloat id
                   (query_or r "view" "day") (rq_query r "anchor")
                   (bool_decide ("monitored" ∈ compare)) (bool_decide ("utility" ∈ compare)));
      match res with Ok page => mret (Reply page) | Err e => badReq e end
  end.

Definition handleUtilitySeries (r : request) : M (reply UtilitySeriesResult) :=
  served (UtilitySeries time_bucket grid local_day (midnight_of wall) valid_zone getenv ParseFloat).
Definition handleUtilityCompare (r : request) : M (reply UtilityCompareResult) :=
  match pathID r with
  | None => badReq "bad id"
  | Some id => served (UtilityCompare time_bucket grid local_day (midnight_of wall) valid_zone getenv ParseFloat id)
  end.

(** ** Coverage *)

Record CovSource := mkCovSource { cv_Source : string; cv_Label : string; cv_Present : bool }.
Definition first_text (l : list string) : string := from_opt "" (List.find (fun s => negb (is_empty s)) l).
Definition cov_source (c : CaptureConfig) (present : gmap string string) (src : string) : CovSource :=
  mkCovSource src (first_text [d_Label (device c src); from_opt "" (present !! src); src]) (negb (is_nil (present !! src))).
(** The sources of the cells, each once, in the order of their first cell. *)
Fixpoint distinct_sources (seen : list string) (cells : list CoverageCell) : list string :=
  match cells with
  | [] => []
  | c :: cells' =>
      if bool_decide (cc_Source c ∈ seen) then distinct_sources seen cells'
      else cc_Source c :: distinct_sources (cc_Source c :: seen) cells'
  end.
Definition handleCoverage (r : request) : M (reply (list CoverageCell * list CovSource)) :=
  or_error CoverageMatrix (fun cells =>
    cfg ← config_or_zero getenv ParseFloat;
    devs ← try (ListDevices (60 * Second));
    let present := match devs with
                   | Ok l => fold_left (fun m d => <[Serial d := Name d]> m) l (∅ : gmap string string)
                   | Err _ => ∅
                   end in
    mret (Reply (cells, map (cov_source (Capture cfg) present) (distinct_sources [] cells)))).
End Dashboard.

(** ** Integrations *)

Section Integrations.
Context (time_bucket : duration -> time -> time) (grid : time -> time -> list time)
        (getenv : string -> string) (ParseFloat : string -> float64 * bool)
        (ha_test : string -> string -> option string) (ha_states : string -> string -> string + string)
        (dial : string -> Z -> option string).

(** [(ok, error text)]. *)
Definition mqttReachable (host : string) (port : Z) : bool * string :=
  if is_empty host then (false, "not configured")
  else match dial host port with Some e => (false, e) | None => (true, "") end.
Definition ha_reachable (cfg : Config) : bool * string :=
  if HAConfigured cfg
  then match ha_test (HAURL cfg) (HAToken cfg) with Some e => (false, e) | None => (true, "") end
  else (false, "not configured").

(** The overrides that are neither blank nor masked. *)
Definition effective (body : option json) : gmap string string :=
  filter (fun kv : string * string => negb (is_empty kv.2) && negb (str_contains_char "*" kv.2) = true)
    (decode_texts_lenient body).
(** When the settings cannot be read the map is nil, and writing to it panics. *)
Definition handleIntegrationsTest (r : request) : M (reply ((bool * string) * (bool * string))) :=
  let over := effective (rq_body r) in
  stored ← try GetSettings;
  match stored with
  | Err _ => if bool_decide (over = ∅)
             then let cfg := FromMap getenv ParseFloat ∅ in
                  mret (Reply (ha_reachable cfg, mqttReachable (MQTTHost cfg) (MQTTPort cfg)))
             else mret Panic
  | Ok m => let cfg := FromMap getenv ParseFloat (over ∪ m) in
            mret (Reply (ha_reachable cfg, mqttReachable (MQTTHost cfg) (MQTTPort cfg)))
  end.

Record HVACView := mkHVACView {
  hv_Entity : string; hv_Heating : float64; hv_Cooling : float64; hv_Configured : bool;
  hv_Action : string; hv_LastTS : option string; hv_Stale : bool
}.
Record StatusPage := mkStatusPage {
  sp_HAOk : bool; sp_MQTTOk : bool; sp_Reference : ReferenceHealth; sp_Fresh : bool; sp_Connected : bool;
  sp_Worker : WorkerStatus; sp_Publish : gmap Z PubStatus; sp_Entities : list string; sp_Floor : float64;
  sp_Published : list Meter; sp_HVAC : HVACView
}.
Definition hvac_stale (nw : time) (ts : option time) : bool :=
  match ts with Some t => 30 * Minute <? Sub nw t | None => true end.

Definition handleIntegrationsStatus (r : request) : M (reply StatusPage) :=
  cfg ← config_or_zero getenv ParseFloat;
  let haOK := HAConfigured cfg && is_nil (ha_test (HAURL cfg) (HAToken cfg)) in
  let mqOK := (mqttReachable (MQTTHost cfg) (MQTTPort cfg)).1 in
  pub ← try MetersForPublish;
  nw ← now;
  floor ← MonitoredFloor time_bucket grid (MonitoredEntities cfg) (Add nw (- (24 * Hour))) nw;
  '(ws, known) ← GetWorkerStatus;
  ref ← reference_health time_bucket (MonitoredEntities cfg);
  '(action, ts) ← (if is_empty (HVACEntityID cfg) then mret ("", None) else HVACStatus (HVACEntityID cfg));
  ps ← PublishStatuses;
  mret (Reply (mkStatusPage haOK mqOK ref (rh_Configured ref && negb (rh_Stale ref)) (known && ws_MQTTConnected ws) ws ps
    (MonitoredEntities cfg) floor (match pub with Ok l => l | Err _ => [] end)
    (mkHVACView (HVACEntityID cfg) (HVACHeatingKW cfg) (HVACCoolingKW cfg) (HVACConfigured cfg) action
       (option_map RFC3339 ts) (negb (is_empty (HVACEntityID cfg)) && hvac_stale nw ts)))).

(** A list read from Home Assistant: empty when it is not configured, 502 on an
    error. *)
Definition from_ha {A} (get : Config -> string + list A) : M (reply (list A)) :=
  cfg ← config_or_zero getenv ParseFloat;
  mret (if HAConfigured cfg
        then match get cfg with inl e => HttpError 502 e | inr l => Reply l end
        else Reply []).
(** The states answer, decoded by [f]. *)
Definition decoded_states {A} (f : string -> option A) (cfg : Config) : string + A :=
  match ha_states (HAURL cfg) (HAToken cfg) with
  | inl e => inl e
  | inr body => match f body with Some l => inr l | None => inl "json" end
  end.

Section States.
Context (ParseRFC3339 : string -> option time).
Definition handlePowerEntities (r : request) : M (reply (list Entity)) :=
  from_ha (decoded_states (MonitorableSensors ParseRFC3339)).
Definition handleClimateEntities (r : request) : M (reply (list ClimateEntity)) :=
  from_ha (decoded_states (ClimateEntities ParseRFC3339)).
Definition handleUtilityStatistics {A} (list_stats : string -> string -> string + list A) (r : request) : M (reply (list A)) :=
  from_ha (fun cfg => list_stats (HAURL cfg) (HAToken cfg)).

(** ** The group helper *)

Definition helper_names : list string := ["name"; "entities"].
Definition helper_body (j : option json) : option (string * list string) :=
  ms ← body_members j;
  name ← get_val dec_str "" helper_names "name" ms;
  ents ← get_ptr dec_strs helper_names "entities" ms;
  match from_opt [] ents with
  | [] => None
  | l => Some (if is_empty name then "winnow monitored power" else name, l)
  end.
(** Energy only if every selected entity is. *)
Definition device_class (kinds : string + gmap string string) (ents : list string) : string :=
  match kinds with
  | inr m => if forallb (fun e => (from_opt "" (m !! e) =? "energy")%string) ents then "energy" else "power"
  | inl _ => "power"
  end.
(** [create name entities class] is [CreateGroupSum]: the new entity or an error.
    The reply is the entity, or the error that the page turns into instructions. *)
Definition handleCreateHelper (create : string -> list string -> string -> string + string) (r : request)
  : M (reply (string + string)) :=
  match helper_body (rq_body r) with
  | None => badReq "need name + entities"
  | Some (name, ents) =>
      cfg ← config_or_zero getenv ParseFloat;
      if negb (HAConfigured cfg) then mret (HttpError 400 "Home Assistant not configured")
      else match create name ents (device_class (decoded_states (EntityKinds ParseRFC3339 ents) cfg) ents) with
           | inl e => mret (Reply (inl e))
           | inr id =>
               ignore (SetSetting KeyMonitoredEntities (marshal_array [marshal_string id])) ;;
               ignore NotifyConfig ;;
               mret (Reply (inr id))
           end
  end.
End States.
End Integrations.

(** ** The worker's status reads back *)

(** [json.Marshal] of a struct of texts and flags. *)
Definition marshal_scalar (j : json) : string :=
  match j with JStr s => marshal_string s | JBool b => marshal_bool (Some b) | _ => "null" end.
Definition marshal_flat (j : json) : string :=
  match j with JObj ms => marshal_object (map (fun kv => (kv.1, marshal_scalar kv.2)) ms) | _ => marshal_scalar j end.
Definition flat_member (kv : string * json) : Prop :=
  all_ascii kv.1 = true /\ match kv.2 with JStr s => all_ascii s = true | JBool _ => True | _ => False end.

Lemma marshal_flat_parses ms :
  ms <> [] -> Forall flat_member ms -> Z.of_nat (length ms) < 100 -> parse (marshal_flat (JObj ms)) = Some (JObj ms).
Proof.
  intros Hne Hm Hl. cbn [marshal_flat].
  set (ps := map (fun kv => (kv.1, (marshal_scalar kv.2, kv.2))) ms).
  assert (map (fun kv => (kv.1, marshal_scalar kv.2)) ms = texts_of ps) as -> by (unfold texts_of, ps; by rewrite map_map).
  assert (ms = values_of ps) as Ev.
  { unfold values_of, ps. rewrite map_map. cbn [fst snd]. rewrite <- (map_id ms) at 1. apply map_ext. by intros []. }
  assert (length ps = length ms) as El by (unfold ps; apply length_map).
  rewrite (parse_closed (S (length ps + 1)) _ (JObj (values_of ps))); [by rewrite <- Ev|..].
  - apply closed_text_object; [unfold ps; by destruct ms|]. unfold ps. apply Forall_map.
    eapply Forall_impl; [exact Hm|]. intros [k v] [Hk Hv]. cbn [fst snd] in *. split; [done|].
    destruct v; try done; [apply (value_text_bool (Some b))|by apply value_text_string].
  - unfold marshal_object. rewrite !str_length_app. change (String.length "{") with 1%nat. change (String.length "}") with 1%nat.
    pose proof (length_join_ge 1 (map marshal_member (texts_of ps))) as HJ. unfold texts_of in HJ at 2. rewrite !length_map in HJ.
    specialize (HJ ltac:(apply Forall_map, Forall_true; intros kv; unfold marshal_member; rewrite !str_length_app; cbn; lia)). lia.
  - unfold maxNestingDepth. lia.
Qed.

Lemma flat_text k s : all_ascii k = true -> all_ascii s = true -> Forall flat_member [(k, JStr s)].
Proof. by repeat constructor. Qed.

Lemma digit_ascii n : is_ascii (digit_chr (n mod 10)) = true.
Proof.
  pose proof (Z.mod_pos_bound n 10 ltac:(lia)). unfold is_ascii, digit_chr. rewrite byte_of_chr by lia. lia.
Qed.
Lemma pad2_ascii n : all_ascii (pad2 n) = true.
Proof. unfold pad2. cbn [all_ascii]. by rewrite !digit_ascii. Qed.
Lemma date_ascii d : all_ascii (date_text d) = true.
Proof.
  unfold date_text. destruct (civil_from_days d) as [[y m] dd]. unfold pad4. rewrite !all_ascii_app, !pad2_ascii. reflexivity.
Qed.
Lemma RFC3339_ascii t : all_ascii (RFC3339 t) = true.
Proof. unfold RFC3339, clock_text. rewrite !all_ascii_app, date_ascii, !pad2_ascii. reflexivity. Qed.

Definition last_event (w : worker) : string :=
  if lastRefInsert w >? 0 then RFC3339 (lastRefInsert w * Second) else "".

Lemma pair_ok {A} (x y : A) (w : World) : x = y -> (Ok x, w) = (Ok y, w).
Proof. by intros ->. Qed.

(** What the worker reports of itself is what the API shows: after the worker
    wrote its status, the status read back is its connection, its two details, the
    time of its last reference sample and the time of the report, and it counts as
    known.  (The details are ASCII.) *)
Theorem worker_status_reads_back (wk : worker) (w : World) :
  no_faults w -> all_ascii (mqttDetail wk) = true -> all_ascii (haStreamState wk) = true ->
  exists w' w'', putWorkerStatus marshal_flat wk w = (Ok tt, w') /\
    GetWorkerStatus w' = (Ok (mkWorkerStatus (Connected (wk_pub wk)) (mqttDetail wk) (haStreamState wk) (last_event wk)
                                (RFC3339 (w_now w)), true), w'').
Proof.
  intros Hf Hd Hs. unfold putWorkerStatus, mbind, M_bind, now, ignore. rewrite SetSetting_ok by done.
  eexists. unfold GetWorkerStatus, GetSettings, try, mbind, M_bind. rewrite query_ok by (by apply no_faults_tail).
  cbn [w_db settings set_settings w_now]. cbn [mret M_ret]. eexists. split; [reflexivity|]. apply pair_ok. unfold read_status. cbn [settings set_settings]. change "worker_status" with workerStatusKey.
  rewrite lookup_insert_eq. set (last := if lastRefInsert wk >? 0 then Some _ else None).
  assert (last_event wk = from_opt "" last) as -> by (unfold last_event, last; by destruct (_ >? _)).
  assert (forall t, last = Some t -> all_ascii t = true) as Hlast.
  { unfold last. destruct (_ >? _); [|done]. intros t [= <-]. apply RFC3339_ascii. }
  destruct (status_json _ _ _ _ _) as [| | | | |ms] eqn:Ej; try discriminate Ej. injection Ej as Ems.
  assert (is_empty (marshal_flat (JObj ms)) = false) as -> by reflexivity.
  rewrite marshal_flat_parses.
  - rewrite <- Ems. unfold opt_member. f_equal.
    + destruct (mqttDetail wk), (haStreamState wk), last as [t|]; reflexivity.
    + destruct (mqttDetail wk), (haStreamState wk), last as [t|]; reflexivity.
  - rewrite <- Ems. discriminate.
  - rewrite <- Ems. unfold opt_member. rewrite Forall_cons. split; [by split|]. repeat apply Forall_app_2.
    + destruct (is_empty _); [constructor|by apply flat_text].
    + destruct (is_empty _); [constructor|by apply flat_text].
    + destruct last as [t|]; [apply flat_text; [done|by apply Hlast]|constructor].
    + apply flat_text; [done|apply RFC3339_ascii].
  - rewrite <- Ems. unfold opt_member. destruct (is_empty _), (is_empty _), last; reflexivity.
Qed.

Definition busy_worker : worker :=
  mkWorker (mkPublisher true true "homeassistant" ∅ []) zero_config ∅ ∅ "" "reconnecting" 60 false false.

Lemma worker_status_reads_back_witness :
  exists w' w'', putWorkerStatus marshal_flat busy_worker (mkWorld empty_DB (90 * Second) []) = (Ok tt, w') /\
    GetWorkerStatus w' =
      (Ok (mkWorkerStatus true "" "reconnecting" "1970-01-01T00:01:00Z" "1970-01-01T00:01:30Z", true), w'').
Proof.
  destruct (worker_status_reads_back busy_worker (mkWorld empty_DB (90 * Second) [])) as (w' & w'' & E & Er);
    [constructor|reflexivity|reflexivity|].
  exists w', w''. split; [exact E|]. rewrite Er. do 2 f_equal.
Defined.

(** ** The alert on the reference feed *)

Lemma max_time_None l : max_time l = None -> l = [].
Proof. by destruct l. Qed.
Lemma max_time_le l m t : max_time l = Some m -> t ∈ l -> t <= m.
Proof.
  revert m. induction l as [|x l IH]; intros m H Ht; [by apply elem_of_nil in Ht|]. cbn in H.
  apply elem_of_cons in Ht as [->|Ht].
  - destruct (max_time l); injection H as <-; lia.
  - destruct (max_time l) as [u|] eqn:E.
    + injection H as <-. specialize (IH u eq_refl Ht). lia.
    + apply max_time_None in E as ->. by apply elem_of_nil in Ht.
Qed.
Lemma Sub_antitone nw a b : a <= b -> Sub nw b <= Sub nw a.
Proof. unfold Sub. lia. Qed.

Lemma reference_health_ok time_bucket entities w :
  no_faults w -> entities <> [] ->
  exists rh w', reference_health time_bucket entities w = (Ok rh, w') /\ w_db w' = w_db w /\ no_faults w' /\
    (rh_Stale rh = true <-> forall t, t ∈ ref_times entities (w_db w) -> 30 * Minute < Sub (w_now w) t).
Proof.
  intros Hf Hne. unfold reference_health. destruct entities as [|e es]; [done|]. set (l := e :: es).
  unfold mbind, M_bind, try, now. cbn [fst snd]. rewrite query_ok by done. cbn [fst snd].
  rewrite query_ok by (by apply no_faults_tail). eexists _, _. split; [reflexivity|]. split; [done|].
  split; [by repeat apply no_faults_tail|]. cbn [rh_Stale].
  destruct (max_time _) as [m|] eqn:Em.
  - rewrite Z.ltb_lt. split.
    + intros H t Ht. pose proof (max_time_le _ _ _ Em Ht). pose proof (Sub_antitone (w_now w) t m ltac:(lia)). lia.
    + intros H. by apply H, max_time_elem.
  - apply max_time_None in Em. rewrite Em. split; [|done]. intros _ t Ht. by apply elem_of_nil in Ht.
Qed.

(** The live sources of a database: connected and enabled. *)
Definition live_source (cfg : Config) (d : DB) (s : string) : Prop :=
  is_Some (sdr_devices d !! s) /\ DeviceEnabled (Capture cfg) s = true.

Lemma Anomalies_ok time_bucket live w :
  no_faults w -> exists w', Anomalies time_bucket live w =
    (Ok (dropouts (w_db w) (w_now w) ++ stuck time_bucket (w_db w) (w_now w) ++ dead_sources live (w_db w) (w_now w))%list, w') /\
    w_db w' = w_db w /\ w_now w' = w_now w /\ no_faults w'.
Proof.
  intros Hf. unfold Anomalies, mbind, M_bind, try. rewrite query_ok by done. cbn [fst snd].
  rewrite query_ok by (by apply no_faults_tail). cbn [fst snd].
  rewrite query_ok by (by repeat apply no_faults_tail). eexists. split; [reflexivity|]. cbn [fst snd w_db w_now].
  by repeat split; repeat apply no_faults_tail.
Qed.

(** A silent reference feed is always the first alert, and it never hides
    another: without faults the alerts are those of the meters and of the live
    sources, after one alert [reference_stale] exactly when entities are configured
    and none of their samples is from the last half hour. *)
Theorem anomalies_reference_first (time_bucket : duration -> time -> time) (getenv : string -> string)
    (ParseFloat : string -> float64 * bool) (r : request) (w : World) :
  no_faults w ->
  let cfg := FromMap getenv ParseFloat (settings (w_db w)) in
  exists banner live w',
    handleAnomalies time_bucket getenv ParseFloat r w =
      (Ok (Reply (banner ++ dropouts (w_db w) (w_now w) ++ stuck time_bucket (w_db w) (w_now w)
                    ++ dead_sources live (w_db w) (w_now w))%list), w') /\
    (forall s, s ∈ live <-> live_source cfg (w_db w) s) /\
    (banner = [] \/ exists detail, banner = [mkAnomaly "reference_stale" 0 "" detail]) /\
    (banner <> [] <-> MonitoredEntities cfg <> [] /\
       forall t, t ∈ ref_times (MonitoredEntities cfg) (w_db w) -> 30 * Minute < Sub (w_now w) t).
Proof.
  intros Hf cfg. unfold handleAnomalies, served, or_error, anomaliesWithReference, try, mbind, M_bind.
  destruct (liveSources_ok getenv ParseFloat w Hf) as (live & -> & Hl). cbn [from_opt].
  set (w1 := mkWorld _ _ _).
  destruct (Anomalies_ok time_bucket live w1) as (w2 & -> & Hd & Hn & Hf2); [by repeat apply Forall_tail|].
  unfold config_or_zero, try, mbind, M_bind. rewrite LoadConfig_ok by done. cbn [fst snd mret M_ret].
  rewrite Hd. change (settings (w_db w1)) with (settings (w_db w)). fold cfg.
  unfold ReferenceConfigured. case_bool_decide as Hm; cbn [negb].
  - eexists [], live, _. split; [reflexivity|]. split; [done|]. split; [by left|]. split; [done|]. by intros [? _].
  - set (w3 := mkWorld _ _ _).
    destruct (reference_health_ok time_bucket (MonitoredEntities cfg) w3) as (rh & w4 & -> & Hd4 & Hf4 & Hs);
      [by apply Forall_tail|done|].
    cbn [w3 w_db w_now] in Hs. rewrite Hn in Hs. cbn [w1 w_db w_now] in Hs.
    destruct (rh_Stale rh) eqn:Es; unfold w3 in *; cbn [w_db w_now] in Hs.
    + unfold GetWorkerStatus, GetSettings, try, mbind, M_bind. rewrite query_ok by done. cbn [fst snd mret M_ret].
      destruct (read_status _) as [ws known]. eexists [_], live, _. split; [reflexivity|].
      split; [done|]. split; [right; by eexists|]. split; [|done]. intros _. split; [done|]. by apply Hs.
    + eexists [], live, _. split; [reflexivity|]. split; [done|]. split; [by left|]. split; [done|].
      intros [_ H]. apply Hs in H. done.
Qed.

(** A feed that stopped an hour ago, beside a dongle that is silent. *)
Definition silent_feed : DB :=
  set_settings {["monitored_entities" := dq "['sensor.main']"]}
    (set_reference_samples [mkRefSample 0 "sensor.main" f1 "live"] empty_DB).

Lemma anomalies_reference_first_witness :
  exists detail rest w',
    handleAnomalies (fun _ t => t) (fun _ => "") (fun _ => (f0, false)) (mkRequest "" (fun _ => "") None)
      (mkWorld silent_feed Hour []) = (Ok (Reply (mkAnomaly "reference_stale" 0 "" detail :: rest)), w').
Proof.
  destruct (anomalies_reference_first (fun _ t => t) (fun _ => "") (fun _ => (f0, false)) (mkRequest "" (fun _ => "") None)
    (mkWorld silent_feed Hour [])) as (banner & live & w' & E & _ & Hb & [_ Hs]); [constructor|].
  assert (MonitoredEntities (FromMap (fun _ => "") (fun _ => (f0, false)) (settings silent_feed)) = ["sensor.main"]) as Em
    by (vm_compute; reflexivity).
  cbn [w_db w_now] in *. rewrite Em in Hs. destruct Hb as [->|[detail ->]].
  - exfalso. apply Hs; [|done]. split; [done|]. intros t Ht.
    assert (t = 0) as -> by (apply list_elem_of_singleton in Ht; exact Ht). reflexivity.
  - eexists detail, _, w'. exact E.
Defined.

(** ** The coverage page *)

Lemma distinct_sources_spec seen cells :
  NoDup (distinct_sources seen cells) /\
  forall s, s ∈ distinct_sources seen cells <-> s ∉ seen /\ s ∈ map cc_Source cells.
Proof.
  revert seen. induction cells as [|c cells IH]; intros seen; cbn [distinct_sources map].
  - split; [constructor|]. intros s. rewrite !elem_of_nil. tauto.
  - case_bool_decide as Hin.
    + destruct (IH seen) as [Hn Hs]. split; [done|]. intros s. rewrite Hs, elem_of_cons. split; [tauto|].
      intros [? [->|?]]; [done|tauto].
    + destruct (IH (cc_Source c :: seen)) as [Hn Hs]. split.
      * constructor; [|done]. rewrite Hs, elem_of_cons. tauto.
      * intros s. rewrite !elem_of_cons, Hs, elem_of_cons. destruct (decide (s = cc_Source c)); naive_solver.
Qed.

(** The serials and names of a list of dongles without repetition, as a map. *)
Lemma present_lookup (l : list Device) s :
  NoDup (map Serial l) ->
  forall n, fold_left (fun m d => <[Serial d := Name d]> m) l (∅ : gmap string string) !! s = Some n <->
            exists d, d ∈ l /\ Serial d = s /\ Name d = n.
Proof.
  intros Hnd n. rewrite <- (rev_involutive l) in Hnd |- *. induction (rev l) as [|d l' IH]; cbn [rev] in *.
  - cbn. split; [done|]. intros (d & Hd & _). by apply elem_of_nil in Hd.
  - rewrite map_app in Hnd. apply NoDup_app in Hnd as (Hnd & Hx & _). rewrite fold_left_app. cbn [fold_left].
    specialize (IH Hnd). destruct (decide (Serial d = s)) as [<-|Hne].
    + rewrite lookup_insert_eq. split.
      * intros [= <-]. exists d. split; [|done]. apply elem_of_app. right. left.
      * intros (d' & Hd & Es & <-). apply elem_of_app in Hd as [Hd|Hd]; [|by apply list_elem_of_singleton in Hd as ->].
        exfalso. apply (Hx (Serial d')); [by apply list_elem_of_fmap_2|]. rewrite Es. left.
    + rewrite lookup_insert_ne by done. rewrite IH. split; intros (d' & Hd & Es & En); exists d'; (split; [|done]).
      * apply elem_of_app. by left.
      * apply elem_of_app in Hd as [Hd|Hd]; [done|]. apply list_elem_of_singleton in Hd as ->. done.
Qed.

(** The coverage page names each source once and tells the dongles that are
    there from the ones that are gone: without faults its sources are the ones of
    the registry, none twice, each marked present exactly when the inventory lists
    it, and labelled with the configured label, else the hardware name, else its
    own name. *)
Theorem coverage_lists_sources (getenv : string -> string) (ParseFloat : string -> float64 * bool) (r : request) (w : World) :
  no_faults w ->
  let cfg := FromMap getenv ParseFloat (settings (w_db w)) in
  exists cells sources w', handleCoverage getenv ParseFloat r w = (Ok (Reply (cells, sources)), w') /\
    NoDup (map cv_Source sources) /\
    (forall s, s ∈ map cv_Source sources <-> exists id x, meter_source (w_db w) !! (id, s) = Some x) /\
    (forall v, v ∈ sources ->
       (cv_Present v = true <-> is_Some (sdr_devices (w_db w) !! cv_Source v)) /\
       cv_Label v = first_text [d_Label (device (Capture cfg) (cv_Source v));
                                from_opt "" (sd_name <$> sdr_devices (w_db w) !! cv_Source v); cv_Source v]).
Proof.
  intros Hf cfg. unfold handleCoverage, or_error, CoverageMatrix, ListDevices, config_or_zero, try, mbind, M_bind.
  rewrite query_ok by done. cbn [fst snd]. rewrite LoadConfig_ok by (by apply no_faults_tail). cbn [fst snd mret M_ret w_db w_now].
  rewrite query_ok by (by repeat apply no_faults_tail). cbn [fst snd w_db w_now]. fold cfg.
  set (present := fold_left _ _ _). set (cells := map _ _). eexists cells, _, _. split; [reflexivity|].
  rewrite map_map. cbn [cv_Source cov_source]. rewrite map_id. destruct (distinct_sources_spec [] cells) as [Hn Hs].
  assert (forall s, present !! s = sd_name <$> sdr_devices (w_db w) !! s) as Hp.
  { intros s. apply option_eq. intros n. unfold present. rewrite present_lookup.
    - rewrite fmap_Some. split.
      + intros (d & Hd & <- & <-). apply list_elem_of_fmap in Hd as ((k, x) & -> & Hin). rewrite sort_by_perm in Hin.
        apply elem_of_map_to_list in Hin. by exists x.
      + intros (x & Hx & ->). exists (device_row (w_db w) (w_now w) (60 * Second) s x). split; [|done].
        apply list_elem_of_fmap. exists (s, x). split; [reflexivity|]. rewrite sort_by_perm. by apply elem_of_map_to_list.
    - rewrite map_map. cbn [Serial device_row]. apply NoDup_ListNoDup.
      rewrite (Permutation_map _ (sort_by_perm _ _)). apply NoDup_ListNoDup, NoDup_fst_map_to_list. }
  split; [done|]. split.
  - intros s. rewrite Hs. unfold cells. rewrite map_map. cbn [cc_Source]. rewrite list_elem_of_fmap. split.
    + intros [_ (((i, s'), x) & -> & Hin)]. rewrite sort_by_perm in Hin. apply elem_of_map_to_list in Hin. by exists i, x.
    + intros (i & x & Hx). split; [apply not_elem_of_nil|]. exists (i, s, x). split; [done|]. rewrite sort_by_perm. by apply elem_of_map_to_list.
  - intros v Hv. apply list_elem_of_fmap in Hv as (s & -> & _). cbn [cv_Source cv_Present cv_Label cov_source]. rewrite Hp. split; [|done].
    destruct (sdr_devices (w_db w) !! s); cbn; split; intros H; try done; first [by eexists|by destruct H].
Qed.

Definition one_present_source : DB :=
  set_meter_source {[(7, "00000001") := mkSource 3 0; (8, "gone") := mkSource 1 0]}
    (set_sdr_devices {["00000001" := Store.mkDevice 0 "Nooelec" "R820T" 0 0]} empty_DB).

Lemma coverage_lists_sources_witness :
  exists cells sources w', handleCoverage (fun _ => "") (fun _ => (f0, false)) (mkRequest "" (fun _ => "") None)
      (mkWorld one_present_source Second []) = (Ok (Reply (cells, sources)), w') /\
    NoDup (map cv_Source sources) /\ "gone" ∈ map cv_Source sources /\
    forall v, v ∈ sources -> cv_Source v = "gone" -> cv_Present v = false.
Proof.
  destruct (coverage_lists_sources (fun _ => "") (fun _ => (f0, false)) (mkRequest "" (fun _ => "") None)
    (mkWorld one_present_source Second [])) as (cells & sources & w' & E & Hn & Hs & Hv); [constructor|].
  exists cells, sources, w'. split; [exact E|]. split; [exact Hn|]. split.
  - apply Hs. exists 8, (mkSource 1 0). reflexivity.
  - intros v Hin Ev. apply not_true_iff_false. rewrite (proj1 (Hv v Hin)), Ev. intros [x Hx]. discriminate Hx.
Defined.

(** ** The connection test *)

(** When the settings cannot be read, a request that overrides one of them stops
    the handler: it writes to a map that was never made. *)
Lemma integrations_test_panics getenv ParseFloat ha_test dial (r : request) (w : World) :
  hd false (w_faults w) = true -> effective (rq_body r) <> ∅ ->
  exists w', handleIntegrationsTest getenv ParseFloat ha_test dial r w = (Ok Panic, w').
Proof.
  intros Hh Ho. unfold handleIntegrationsTest, GetSettings, try, mbind, M_bind, query, statement.
  destruct (w_faults w) as [|[] fs]; try discriminate Hh. eexists. cbn [fst snd]. by rewrite bool_decide_false.
Qed.
Lemma integrations_test_panics_example :
  exists w', handleIntegrationsTest (fun _ => "") (fun _ => (f0, false)) (fun _ _ => None) (fun _ _ => None)
    (mkRequest "" (fun _ => "") (Some (JObj [("mqtt_host", JStr "broker")]))) (mkWorld empty_DB 0 [true]) = (Ok Panic, w').
Proof. apply integrations_test_panics; [reflexivity|]. vm_compute. discriminate. Qed.
