(* ===== verification/Routes.v ===== *)
(** * The routing table and one request ([cmd/api/main.go])

    The patterns of [routes] with [net/http]'s matching rule, the exemptions of
    the compression middleware, the single-page fallback, and the whole API as one
    function: a request is matched, its handler runs on the database and the
    process's own state (the screen memo, the waiting agents, the broker).  What is
    not under [src/] is gathered in one record, [platform]. *)

From S2P Require Import Prelude Float64 Model Calendar Json Encoding Config Store Effects Database AgentWire Deltas Windows Meters Samples Correlate Utility Daily Combined Broker ApiAgent Agent Analytics Consumption Admin Schema Ha Http HaWs Handlers Identify Dashboard.

(** ** The table *)

Inductive endpoint :=
  | Health_ | Stream | Meters_ | MeterDetail_ | MeterPatch | DeleteMeter_ | Consumption_ | FilterCommand_
  | ExportCSV | Profile | Benchmark_ | UtilityCompare_ | Series_ | Overview | Anomalies_
  | AdminStats | Maintenance | AdminDelete | Coverage | SourceTimeline_
  | GetSettings_ | PutSettings | IntegrationsTest | IntegrationsStatus | PowerEntities | Climate_ | CreateHelper
  | UtilityStatistics | UtilitySeries_ | Devices | PutDevice
  | AgentWS | AgentServerKey | Agents | AuthorizeAgent | RevokeAgent
  | Identify_ | IdentifyDaily | IdentifyAuto_ | ReferenceSeries
  | ListTests_ | CreateTest_ | StartTest | StopTest_ | DeleteTest_ | CombinedTests | TestCorrelation | Spa.
#[export] Instance endpoint_eq : EqDecision endpoint.
Proof. solve_decision. Defined.

Definition routes : list (string * string * endpoint) := [
  ("GET", "/api/health", Health_); ("GET", "/api/stream", Stream);
  ("GET", "/api/meters", Meters_); ("GET", "/api/meters/{id}", MeterDetail_);
  ("PATCH", "/api/meters/{id}", MeterPatch); ("DELETE", "/api/meters/{id}", DeleteMeter_);
  ("GET", "/api/meters/{id}/consumption", Consumption_);
  ("GET", "/api/meters/{id}/filter-command", FilterCommand_);
  ("GET", "/api/meters/{id}/export.csv", ExportCSV); ("GET", "/api/meters/{id}/profile", Profile);
  ("GET", "/api/meters/{id}/benchmark", Benchmark_);
  ("GET", "/api/meters/{id}/utility-compare", UtilityCompare_); ("GET", "/api/series", Series_);
  ("GET", "/api/overview", Overview); ("GET", "/api/anomalies", Anomalies_);
  ("GET", "/api/admin/stats", AdminStats); ("POST", "/api/admin/maintenance", Maintenance);
  ("POST", "/api/admin/delete", AdminDelete);
  ("GET", "/api/diagnostics/coverage", Coverage); ("GET", "/api/diagnostics/sources", SourceTimeline_);
  ("GET", "/api/settings", GetSettings_); ("PUT", "/api/settings", PutSettings);
  ("POST", "/api/integrations/test", IntegrationsTest); ("GET", "/api/integrations/status", IntegrationsStatus);
  ("GET", "/api/ha/power-entities", PowerEntities); ("GET", "/api/ha/climate-entities", Climate_);
  ("POST", "/api/ha/create-helper", CreateHelper); ("GET", "/api/ha/utility-statistics", UtilityStatistics);
  ("GET", "/api/utility/series", UtilitySeries_);
  ("GET", "/api/devices", Devices); ("PUT", "/api/devices/{serial}", PutDevice);
  ("GET", "/api/agent/ws", AgentWS); ("GET", "/api/agent/serverkey", AgentServerKey);
  ("GET", "/api/agents", Agents); ("POST", "/api/agents", AuthorizeAgent); ("POST", "/api/agents/revoke", RevokeAgent);
  ("GET", "/api/identify", Identify_); ("GET", "/api/identify/daily", IdentifyDaily);
  ("GET", "/api/identify/auto", IdentifyAuto_); ("GET", "/api/reference/series", ReferenceSeries);
  ("GET", "/api/tests", ListTests_); ("POST", "/api/tests", CreateTest_); ("POST", "/api/tests/start", StartTest);
  ("POST", "/api/tests/{id}/stop", StopTest_); ("DELETE", "/api/tests/{id}", DeleteTest_);
  ("GET", "/api/tests/combined", CombinedTests); ("GET", "/api/tests/{id}/correlation", TestCorrelation);
  ("GET", "/", Spa)].

(** ** Matching

    A path is its list of segments.  [{x}] matches one segment, a pattern that ends
    in a slash every path below it, and a [GET] pattern also [HEAD].  Of the
    patterns that match, the more specific one wins: a literal segment before a
    variable, either before the rest of a path. *)

Definition is_var (seg : string) : bool := HasPrefix seg "{".
Definition var_name (seg : string) : string := str_take (String.length seg - 2) (str_drop 1 seg).
Definition pattern_segments (p : string) : list string := split_on "/" (str_drop 1 p).

Fixpoint match_segs (pat path : list string) : option (list (string * string)) :=
  match pat, path with
  | [], [] => Some []
  | [""], _ => Some []
  | p :: pat', s :: path' =>
      if is_var p then vs ← match_segs pat' path'; Some ((var_name p, s) :: vs)
      else if (p =? s)%string then match_segs pat' path' else None
  | _, _ => None
  end.
Definition method_ok (pm m : string) : bool := (pm =? m)%string || ((pm =? "GET")%string && (m =? "HEAD")%string).

(** [p] is at least as specific as [q]. *)
Fixpoint narrower (p q : list string) : bool :=
  match p, q with
  | _, [""] => true
  | [], [] => true
  | a :: p', b :: q' => (is_var b || (negb (is_var a) && (a =? b)%string)) && narrower p' q'
  | _, _ => false
  end.

Definition route_matches (m : string) (path : list string) (e : string * string * endpoint)
  : option (list string * endpoint * list (string * string)) :=
  if method_ok e.1.1 m then
    vs ← match_segs (pattern_segments e.1.2) path; Some (pattern_segments e.1.2, e.2, vs)
  else None.
Definition candidates (m : string) (path : list string) := omap (route_matches m path) routes.

Inductive routed := Route (e : endpoint) (vars : list (string * string)) | MethodNotAllowed | NotFound.
Definition dispatch (m : string) (path : list string) : routed :=
  let cs := candidates m path in
  match List.find (fun c => forallb (fun c' => narrower c.1.1 c'.1.1) cs) cs with
  | Some (_, e, vs) => Route e vs
  | None => if existsb (fun r => negb (is_nil (match_segs (pattern_segments r.1.2) path))) routes
            then MethodNotAllowed else NotFound
  end.
Definition path_value (vars : list (string * string)) (name : string) : string :=
  from_opt "" (option_map snd (List.find (fun kv => (kv.1 =? name)%string) vars)).

(** ** Around the handlers *)

(** [strings.Contains]. *)
Fixpoint Contains (s sub : string) : bool :=
  HasPrefix s sub || match s with EmptyString => false | String _ s' => Contains s' sub end.
(** [gzipMiddleware]: what is sent compressed. *)
Definition gzipped (accept_encoding path : string) : bool :=
  Contains accept_encoding "gzip" && negb (path =? "/api/stream")%string && negb (HasPrefix path "/api/agent/").

Definition trimSlash (p : string) : string := if HasPrefix p "/" then str_drop 1 p else p.
(** The file served for a path: itself when it is in [dist], else the page. *)
Definition spa_path (exists_file : string -> bool) (p : string) : string :=
  if exists_file (trimSlash p) || (p =? "/")%string then p else "/".

(** ** The process *)

(** What the program is given: clocks and calendars, PostgreSQL's and the standard
    library's functions, the environment and what Home Assistant and the network
    answer. *)
Record platform := mkPlatform {
  pf_getenv : string -> string; pf_ParseFloat : string -> float64 * bool;
  pf_Parse : string -> option time; pf_ParseNano : string -> option time;
  pf_fmt_g : float64 -> string; pf_fmt_f : float64 -> string; pf_fmt_q : string -> string;
  pf_Log : float64 -> float64; pf_Erfinv : float64 -> float64;
  pf_time_bucket : duration -> time -> time; pf_grid : time -> time -> list time;
  pf_stddev_samp : list float64 -> option float64; pf_regr : list (float64 * float64) -> pgRegr;
  pf_local_day : string -> time -> Z; pf_local_clock : string -> time -> Z; pf_local_hour : string -> time -> Z;
  pf_local_dow : string -> time -> Z; pf_wall : string -> Z -> Z -> time; pf_valid_zone : string -> bool;
  pf_order : gmap string string -> list (string * string);
  pf_pending_order : gmap string pendingAgent -> list (string * pendingAgent);
  pf_in_old_chunk : time -> time -> bool;
  pf_hypertable_size : option Z; pf_relation_size : string -> option Z; pf_row_estimate : string -> option Z;
  pf_chunks : option (Z * Z); pf_compression : option (Z * Z);
  pf_retention : option string; pf_compress_after : option string;
  pf_ha_test : string -> string -> option string; pf_ha_states : string -> string -> string + string;
  pf_dial : string -> Z -> option string; pf_ws : string -> string + conn;
  pf_flow : string -> list string -> string -> (string + string) * (string + string) * (string + string);
  pf_tries : list (list haState)
}.

(** The state of the API process beside the database: the agent channel and its
    server state (with the broker), and the memo of the daily screen. *)
Record api := mkApi { api_agent : option agentCrypto; api_server : ApiAgent.server; api_memo : option dailyMemo }.
Definition with_memo (m : option dailyMemo) (s : api) : api := mkApi (api_agent s) (api_server s) m.
Definition with_server (v : ApiAgent.server) (s : api) : api := mkApi (api_agent s) v (api_memo s).

(** [main]: the database is tried 30 times before the process gives up; an error
    of the installation is logged, one of the agents' keys disables the remote
    agents. *)
Definition mustDB {D} (connect : nat -> option D) : option D := head (omap connect (seq 1 30)).
Definition start_api {C : Crypto} (max_text : list string -> string) (gen : option string) (cert : option (string * string))
    (X509KeyPair : string -> string -> option (list string)) : M api :=
  ignore (InitSchema max_text) ;;
  r ← try (ensureAgentCrypto gen cert X509KeyPair);
  mret (mkApi (match r with Ok ac => Some ac | Err _ => None end) (mkServer ∅ newBroker) None).
Definition port_or (default port : string) : string := (":" ++ (if is_empty port then default else port))%string.
Definition addr (getenv : string -> string) : string := port_or "8000" (getenv "PORT").
(** The second listener exists only with the keys. *)
Definition tlsAddr (getenv : string -> string) (s : api) : option string :=
  option_map (fun _ => port_or "8443" (getenv "AGENT_TLS_PORT")) (api_agent s).

(** A reply of any type; a socket has none. *)
Inductive answer := Answer (A : Type) (r : reply A) | Socket.
Arguments Answer {A} r.

(** A request to a route: what the handler reads, and for the agent's socket what
    the connection delivers. *)
Record incoming := mkIncoming {
  in_request : request; in_serial : string; in_addr : string; in_env : AgentWire.env; in_messages : list (option Message)
}.

Section Api.
Context {C : Crypto} (pf : platform).

Definition plain {A} (m : M (reply A)) (s : api) : M (answer * api) := a ← m; mret (Answer a, s).
Definition memoized {A} (m : M (reply A * option dailyMemo)) (s : api) : M (answer * api) :=
  '(a, memo) ← m; mret (Answer a, with_memo memo s).

(** What closing a window freezes: the survivors of the screen, from the memo if
    it is fresh. *)
Definition pool_size (memo : option dailyMemo) (entities : list string) (tz : string) (d : DB) (t : time) : option Z :=
  match (DailyReconciliation (pf_Log pf) (pf_time_bucket pf) (pf_grid pf) (pf_local_day pf) (pf_valid_zone pf)
           (pf_getenv pf) (pf_ParseFloat pf) (pf_fmt_g pf) entities tz [] memo (mkWorld d t [])).1 with
  | Ok (Ok screen, _) => Some (sc_Survivors screen)
  | _ => None
  end.
Definition list_statistics (base token : string) : string + list StatID :=
  match pf_ws pf (wsURL base) with
  | inl e => inl e
  | inr c => (ListEnergyStatisticIDs token c).1
  end.
Definition create_group (name : string) (ents : list string) (class : string) : string + string :=
  let '(start, menu, submit) := pf_flow pf name ents class in
  CreateGroupSum (pf_fmt_q pf) start menu submit (pf_tries pf) name.

Definition handleAdminStats (r : request) : M (reply DBStats) :=
  served (Stats (pf_time_bucket pf) (pf_hypertable_size pf) (pf_relation_size pf) (pf_row_estimate pf)
            (pf_chunks pf) (pf_compression pf) (pf_retention pf) (pf_compress_after pf)).
Definition handleAgentServerKey (s : api) : reply (string * string) :=
  match api_agent s with
  | None => HttpError 503 "agent channel not initialized"
  | Some ac => Reply (EncodeKey (ac_pub ac), Fingerprint (ac_pub ac))
  end.
Definition agent_reply (m : ApiAgent.server -> M (response * ApiAgent.server)) (s : api) : M (answer * api) :=
  '(a, v) ← m (api_server s); mret (Answer (Reply a), with_server v s).

(** The handler of a route. *)
Definition handle (e : endpoint) (i : incoming) (s : api) : M (answer * api) :=
  let r := in_request i in
  let getenv := pf_getenv pf in let ParseFloat := pf_ParseFloat pf in let Parse := pf_Parse pf in
  let tb := pf_time_bucket pf in let grid := pf_grid pf in let day := pf_local_day pf in
  let clock := pf_local_clock pf in let wall := pf_wall pf in let zone := pf_valid_zone pf in
  match e with
  | Health_ => plain (handleHealth r) s
  | Meters_ => plain (handleMeters Parse tb r) s
  | MeterDetail_ => plain (handleMeterDetail Parse tb r) s
  | MeterPatch => plain (handleMeterPatch r) s
  | DeleteMeter_ => plain (handleDeleteMeter r) s
  | Consumption_ => plain (handleConsumption tb grid day clock wall zone getenv ParseFloat r) s
  | FilterCommand_ => plain (handleFilterCommand r) s
  | ExportCSV => plain (handleExportCSV Parse (pf_fmt_f pf) r) s
  | Profile => plain (handleProfile tb day (pf_local_hour pf) (pf_local_dow pf) getenv ParseFloat r) s
  | Benchmark_ => plain (handleBenchmark tb r) s
  | UtilityCompare_ => plain (handleUtilityCompare tb grid day wall zone getenv ParseFloat r) s
  | Series_ => plain (handleSeries Parse tb r) s
  | Overview => plain (handleOverview tb day clock wall zone getenv ParseFloat r) s
  | Anomalies_ => plain (handleAnomalies tb getenv ParseFloat r) s
  | AdminStats => plain (handleAdminStats r) s
  | Maintenance => plain (handleMaintenance getenv ParseFloat r) s
  | AdminDelete => plain (handleAdminDelete (pf_in_old_chunk pf) r) s
  | Coverage => plain (handleCoverage getenv ParseFloat r) s
  | SourceTimeline_ => plain (handleSourceTimeline tb Parse r) s
  | GetSettings_ => plain (handleGetSettings (pf_order pf) r) s
  | PutSettings => plain (handlePutSettings (pf_order pf) r) s
  | IntegrationsTest => plain (handleIntegrationsTest getenv ParseFloat (pf_ha_test pf) (pf_dial pf) r) s
  | IntegrationsStatus => plain (handleIntegrationsStatus tb grid getenv ParseFloat (pf_ha_test pf) (pf_dial pf) r) s
  | PowerEntities => plain (handlePowerEntities getenv ParseFloat (pf_ha_states pf) Parse r) s
  | Climate_ => plain (handleClimateEntities getenv ParseFloat (pf_ha_states pf) Parse r) s
  | CreateHelper => plain (handleCreateHelper getenv ParseFloat (pf_ha_states pf) Parse create_group r) s
  | UtilityStatistics => plain (handleUtilityStatistics getenv ParseFloat list_statistics r) s
  | UtilitySeries_ => plain (handleUtilitySeries tb grid day wall zone getenv ParseFloat r) s
  | Devices => plain (handleDevices getenv ParseFloat r) s
  | PutDevice => plain (handlePutDevice getenv ParseFloat (in_serial i) r) s
  | AgentServerKey => mret (Answer (handleAgentServerKey s), s)
  | Agents => match api_agent s with
              | None => mret (Answer (@HttpError agentsView 503 "agent channel not initialized"), s)
              | Some ac => '(v, srv) ← handleAgents ac (api_server s); mret (Answer (Reply v), with_server srv s)
              end
  | AuthorizeAgent => agent_reply (handleAuthorizeAgent (rq_body r)) s
  | RevokeAgent => agent_reply (handleRevokeAgent (rq_body r)) s
  | AgentWS => '(a, sent, srv) ← handleAgentWS getenv ParseFloat Parse (pf_pending_order pf) (in_addr i)
                                 (api_agent s) (in_env i) (in_messages i) (api_server s);
               mret (Socket, with_server srv s)
  | Identify_ => memoized (handleIdentify (pf_Log pf) tb grid day zone getenv ParseFloat (pf_fmt_g pf) (pf_stddev_samp pf)
                             (pf_Erfinv pf) (pf_regr pf) r (api_memo s)) s
  | IdentifyDaily => memoized (handleIdentifyDaily (pf_Log pf) tb grid day (midnight_of wall) zone getenv ParseFloat
                                 (pf_fmt_g pf) r (api_memo s)) s
  | IdentifyAuto_ => memoized (handleIdentifyAuto (pf_Log pf) tb grid day zone getenv ParseFloat (pf_fmt_g pf)
                                 (pf_stddev_samp pf) (pf_Erfinv pf) (pf_regr pf) r (api_memo s)) s
  | CombinedTests => memoized (handleCombined (pf_Log pf) tb grid day zone getenv ParseFloat (pf_fmt_g pf)
                                 (pf_stddev_samp pf) (pf_Erfinv pf) (pf_regr pf) r (api_memo s)) s
  | ReferenceSeries => plain (handleReferenceSeries tb grid getenv ParseFloat Parse r) s
  | ListTests_ => plain (handleListTests r) s
  | CreateTest_ => plain (handleCreateTest Parse r) s
  | StartTest => plain (handleStartTest r) s
  | StopTest_ => plain (handleStopTest getenv ParseFloat (pool_size (api_memo s)) r) s
  | DeleteTest_ => plain (handleDeleteTest r) s
  | TestCorrelation => plain (handleTestCorrelation tb grid getenv ParseFloat (pf_stddev_samp pf) (pf_Erfinv pf)
                                   (pf_regr pf) (pf_ParseNano pf) r) s
  | Stream | Spa => mret (Socket, s)
  end.

(** One request: routed, its path values bound, handled. *)
Record http_request := mkHttp { ht_method : string; ht_path : list string; ht_query : string -> string;
  ht_body : option json; ht_addr : string; ht_env : AgentWire.env; ht_messages : list (option Message) }.
Definition incoming_of (h : http_request) (vars : list (string * string)) : incoming :=
  mkIncoming (mkRequest (path_value vars "id") (ht_query h) (ht_body h)) (path_value vars "serial") (ht_addr h) (ht_env h) (ht_messages h).
Definition serve_request (h : http_request) (s : api) : M (answer * api) :=
  match dispatch (ht_method h) (ht_path h) with
  | Route e vars => handle e (incoming_of h vars) s
  | MethodNotAllowed => mret (Answer (@HttpError unit 405 "Method Not Allowed"), s)
  | NotFound => mret (Answer (@HttpError unit 404 "404 page not found"), s)
  end.
End Api.

(** ** Routing *)

Lemma route_matches_spec m path r segs e vs :
  route_matches m path r = Some (segs, e, vs) -> r.2 = e /\ segs = pattern_segments r.1.2 /\
    method_ok r.1.1 m = true /\ match_segs segs path = Some vs.
Proof.
  unfold route_matches. destruct (method_ok r.1.1 m); [|done].
  destruct (match_segs (pattern_segments r.1.2) path) eqn:E; [|done].
  intros [= <- <- <-]. by rewrite E.
Qed.
Lemma candidates_In m path segs e vs :
  In (segs, e, vs) (candidates m path) -> exists pm pat, (pm, pat, e) ∈ routes /\ segs = pattern_segments pat /\
    method_ok pm m = true /\ match_segs segs path = Some vs.
Proof.
  unfold candidates. generalize routes as rs. intros rs Hin.
  apply list_elem_of_In, list_elem_of_omap in Hin as ([[pm pat] e'] & Hr & (He & Hs & Ho & Hm)%route_matches_spec).
  cbn [fst snd] in *. subst e'. by exists pm, pat.
Qed.
Lemma dispatch_candidate m path e vars :
  dispatch m path = Route e vars -> exists segs, In (segs, e, vars) (candidates m path).
Proof.
  unfold dispatch. generalize (candidates m path) as cs, routes as rs. intros cs rs.
  destruct (List.find _ cs) as [[[segs e'] vs]|] eqn:Ef; [|by destruct (existsb _ _)].
  intros [= -> ->]. apply find_some in Ef as [Hin _]. by exists segs.
Qed.

(** The routes a [GET] can reach. *)
Definition get_routes : list endpoint := omap (fun r => if method_ok r.1.1 "GET" then Some r.2 else None) routes.
Definition is_get (e : endpoint) : bool := bool_decide (e ∈ get_routes).

Lemma method_ok_get pm m : m = "GET" \/ m = "HEAD" -> pm ∈ ["GET"; "PATCH"; "DELETE"; "POST"; "PUT"] -> method_ok pm m = true -> method_ok pm "GET" = true.
Proof.
  intros Hm Hp. rewrite !elem_of_cons, elem_of_nil in Hp.
  destruct Hm as [->| ->], Hp as [->|[->|[->|[->|[->|[]]]]]]; done.
Qed.
Lemma routes_methods : Forall (fun r => r.1.1 ∈ ["GET"; "PATCH"; "DELETE"; "POST"; "PUT"]) routes.
Proof. apply (bool_decide_unpack _). vm_compute. exact I. Qed.

Lemma dispatch_get m path e vars :
  m = "GET" \/ m = "HEAD" -> dispatch m path = Route e vars -> is_get e = true.
Proof.
  intros Hm (segs & (pm & pat & Hin & _ & Ho & _)%candidates_In)%dispatch_candidate.
  pose proof routes_methods as H. rewrite Forall_forall in H. specialize (H _ Hin). cbn [fst] in H.
  apply bool_decide_eq_true. unfold get_routes. revert Hin. generalize routes as rs. intros rs Hin.
  apply list_elem_of_omap. exists (pm, pat, e).
  split; [done|]. cbn [fst snd]. by rewrite (method_ok_get pm m).
Qed.

(** ** Reading requests *)

Lemma keeps_window_loop P time_bucket grid stddev_samp Erfinv regr useRef ents aux wins s :
  keeps P (window_loop time_bucket grid stddev_samp Erfinv regr useRef ents aux wins s).
Proof.
  revert s. induction wins as [|x wins IH]; intros s; cbn [window_loop]; [apply keeps_ret|].
  apply keeps_bind; [keep|]. intros [[[|row rows]|e]|]; keep.
Qed.
Lemma keeps_health_sources P nw stale rows : keeps P (health_sources nw stale rows).
Proof.
  induction rows as [|[source hb] rows IH]; cbn [health_sources]; [apply keeps_ret|].
  apply keeps_bind; [keep|]. intros recent. apply keeps_bind; [exact IH|keep].
Qed.
#[local] Hint Resolve keeps_window_loop keeps_health_sources : keeps.

Lemma bind_snd_reads A B (m : M A) (f : A -> M B) w :
  (forall a, reads (f a)) -> w_db (snd ((m ≫= f) w)) = w_db (snd (m w)).
Proof.
  intros Hf. unfold mbind, M_bind. destruct (m w) as [[a|e] w']; [|done]. by rewrite (reads_db _ _ (Hf a)).
Qed.

(** The health page first drops the heartbeats no source has renewed for an hour. *)
Definition pruned (t : time) (d : DB) : DB :=
  set_capture_heartbeat (filter (fun kv => t - Hour <= hb_updated_at kv.2) (capture_heartbeat d)) d.

Section Reads.
Context {C : Crypto} (pf : platform).

Lemma plain_db A (m : M (reply A)) s w : w_db (snd (plain m s w)) = w_db (snd (m w)).
Proof. unfold plain, mbind, M_bind. by destruct (m w) as [[a|e] w']. Qed.
Lemma served_db A (m : M A) w : w_db (snd (served m w)) = w_db (snd (m w)).
Proof. unfold served, or_error, try, mbind, M_bind. by destruct (m w) as [[a|e] w']. Qed.
Lemma Health_prunes stale w :
  w_db (snd (Health stale w)) = w_db w \/ w_db (snd (Health stale w)) = pruned (w_now w) (w_db w).
Proof.
  unfold Health. rewrite bind_snd_reads by (intros []; intros P; keep). unfold ignore.
  destruct (exec_cases (fun d t => pruned t d) w) as [[_ E]|[_ E]]; unfold pruned in E; rewrite E; auto.
Qed.

Lemma handle_reads e i s : is_get e = true -> e <> AgentWS -> e <> Health_ -> reads (handle pf e i s).
Proof.
  intros He Hw Hh P.
  destruct e; try (vm_compute in He; discriminate He); try (by destruct (Hw eq_refl)); try (by destruct (Hh eq_refl));
    clear He Hw Hh; unfold handle; cbv zeta beta iota; keep.
Qed.

Lemma health_prunes i s w :
  w_db (snd (handle pf Health_ i s w)) = w_db w \/ w_db (snd (handle pf Health_ i s w)) = pruned (w_now w) (w_db w).
Proof.
  unfold handle. cbv zeta. rewrite plain_db. unfold handleHealth. rewrite served_db. apply Health_prunes.
Qed.

(** C9: A page is only read: a [GET] or [HEAD] request, whatever its path, its
    parameters, the state of the process and the statements that fail, leaves the
    database exactly as it was, but for the agents' socket, which feeds what the
    agents send, and the health page, which drops the heartbeats no source has
    renewed for an hour. *)
Theorem get_requests_read_only (h : http_request) (s : api) (w : World) :
  ht_method h = "GET" \/ ht_method h = "HEAD" ->
  w_db (snd (serve_request pf h s w)) = w_db w \/
  (exists vars, dispatch (ht_method h) (ht_path h) = Route Health_ vars /\
     w_db (snd (serve_request pf h s w)) = pruned (w_now w) (w_db w)) \/
  (exists vars, dispatch (ht_method h) (ht_path h) = Route AgentWS vars).
Proof.
  intros Hm. unfold serve_request. destruct (dispatch _ _) as [e vars| |] eqn:Ed; [|by left..].
  destruct (decide (e = AgentWS)) as [->|Hw]; [eauto|].
  destruct (decide (e = Health_)) as [->|Hh].
  - destruct (health_prunes (incoming_of h vars) s w) as [H|H]; [by left|right; left; eauto].
  - left. apply reads_db, handle_reads; [by eapply dispatch_get|done..].
Qed.
End Reads.

(** ** One handler per path *)

(** Patterns without a trailing slash. *)
Definition plain_segs (p : list string) : bool := forallb (fun s => negb (is_empty s)) p.
(** Two such patterns no path matches both of. *)
Fixpoint disjoint_segs (p q : list string) : bool :=
  match p, q with
  | [], [] => false
  | a :: p', b :: q' => (negb (is_var a) && negb (is_var b) && negb (a =? b)%string) || disjoint_segs p' q'
  | _, _ => true
  end.

Lemma match_segs_cons a p path vs :
  is_empty a = false -> match_segs (a :: p) path = Some vs ->
  exists s path' vs', path = s :: path' /\ match_segs p path' = Some vs' /\ (is_var a = false -> s = a).
Proof.
  intros Ha. destruct a as [|c a]; [done|]. destruct path as [|s path]; [done|]. cbn [match_segs].
  destruct (is_var (String c a)).
  - destruct (match_segs p path) as [vs'|] eqn:E; [|done]. intros _. by exists s, path, vs'.
  - destruct (String c a =? s)%string eqn:Es; [|done]. apply String.eqb_eq in Es as <-. intros E. by eexists _, path, vs.
Qed.
Lemma disjoint_segs_sound p : forall q path vs vs', plain_segs p = true -> plain_segs q = true ->
  match_segs p path = Some vs -> match_segs q path = Some vs' -> disjoint_segs p q = false.
Proof.
  unfold plain_segs. induction p as [|a p IH]; intros [|b q] path vs vs'; cbn [forallb disjoint_segs]; [done|..].
  - intros _ [Hb%negb_true_iff _]%andb_true_iff Hp (s & path' & _ & -> & _)%match_segs_cons; [done|done].
  - intros [Ha%negb_true_iff _]%andb_true_iff _ (s & path' & _ & -> & _)%match_segs_cons Hq; [done|done].
  - intros [Ha%negb_true_iff Hp]%andb_true_iff [Hb%negb_true_iff Hq]%andb_true_iff
      (s & path' & v1 & -> & M1 & E1)%match_segs_cons Hm2; [|done].
    apply match_segs_cons in Hm2 as (? & ? & v2 & [= <- <-] & M2 & E2); [|done].
    rewrite (IH q path' v1 v2) by done. rewrite orb_false_r.
    destruct (is_var a), (is_var b); cbn [negb andb]; [done..|].
    rewrite <- E1, <- E2 by done. by rewrite String.eqb_refl.
Qed.

(** The patterns of the API under one method, pairwise. *)
Definition api_entry (r : string * string * endpoint) : bool := negb (bool_decide (r.2 = Spa)).
Lemma api_patterns_plain :
  forallb (fun r => implb (api_entry r) (plain_segs (pattern_segments r.1.2) && negb (narrower [""] (pattern_segments r.1.2)))) routes = true.
Proof. vm_compute. reflexivity. Qed.
Lemma api_patterns_disjoint :
  forallb (fun r => forallb (fun r' =>
    implb (api_entry r && api_entry r' && (r.1.1 =? r'.1.1)%string)
      (bool_decide (r = r') || disjoint_segs (pattern_segments r.1.2) (pattern_segments r'.1.2))) routes) routes = true.
Proof. vm_compute. reflexivity. Qed.
Lemma spa_entry : forallb (fun r => implb (bool_decide (r.2 = Spa)) (bool_decide (r = ("GET", "/", Spa)))) routes = true.
Proof. vm_compute. reflexivity. Qed.
Lemma method_ok_inj pm pm' m : pm <> "HEAD" -> pm' <> "HEAD" -> method_ok pm m = true -> method_ok pm' m = true -> pm = pm'.
Proof.
  unfold method_ok. intros H1 H2 [->%String.eqb_eq|[->%String.eqb_eq ->%String.eqb_eq]%andb_true_iff]%orb_true_iff
    [->%String.eqb_eq|[->%String.eqb_eq Hm%String.eqb_eq]%andb_true_iff]%orb_true_iff; congruence.
Qed.
Lemma route_method r : r ∈ routes -> r.1.1 <> "HEAD".
Proof.
  intros Hr E. pose proof routes_methods as H. rewrite Forall_forall in H. specialize (H _ Hr). rewrite E in H.
  rewrite !elem_of_cons, elem_of_nil in H. by decompose [or] H.
Qed.
Lemma check_route (f : string * string * endpoint -> bool) r : forallb f routes = true -> r ∈ routes -> f r = true.
Proof. generalize routes as rs. intros rs. rewrite forallb_forall. intros H Hr. by apply H, list_elem_of_In. Qed.

Lemma api_match_unique m path r r' vs vs' :
  r ∈ routes -> r' ∈ routes -> r.2 <> Spa -> r'.2 <> Spa -> method_ok r.1.1 m = true -> method_ok r'.1.1 m = true ->
  match_segs (pattern_segments r.1.2) path = Some vs -> match_segs (pattern_segments r'.1.2) path = Some vs' -> r = r'.
Proof.
  intros Hr Hr' Hs Hs' Ho Ho' Hm Hm'.
  pose proof (method_ok_inj _ _ m (route_method r Hr) (route_method r' Hr') Ho Ho') as Em.
  assert (api_entry r = true /\ api_entry r' = true) as [Ha Ha'] by (by unfold api_entry; rewrite !bool_decide_eq_false_2).
  pose proof (check_route _ _ api_patterns_plain Hr) as Hp. pose proof (check_route _ _ api_patterns_plain Hr') as Hp'.
  cbn beta in Hp, Hp'. rewrite Ha in Hp. rewrite Ha' in Hp'. apply andb_true_iff in Hp as [Hp _], Hp' as [Hp' _].
  pose proof (check_route _ _ (check_route _ _ api_patterns_disjoint Hr) Hr') as Hd. cbn beta in Hd.
  rewrite Ha, Ha', Em, String.eqb_refl in Hd. cbn [andb implb] in Hd.
  rewrite (disjoint_segs_sound _ _ path vs vs') in Hd by done. rewrite orb_false_r in Hd. by apply bool_decide_eq_true in Hd.
Qed.

Definition the_route (m : string) (path : list string) (r : string * string * endpoint) (vs : list (string * string)) : Prop :=
  r ∈ routes /\ method_ok r.1.1 m = true /\ match_segs (pattern_segments r.1.2) path = Some vs.

Lemma candidates_the_route m path c :
  In c (candidates m path) <-> exists r vs, the_route m path r vs /\ c = (pattern_segments r.1.2, r.2, vs).
Proof.
  unfold candidates, the_route. generalize routes as rs. intros rs. rewrite <- list_elem_of_In, list_elem_of_omap. split.
  - destruct c as [[segs e] vs]. intros (r & Hr & (<- & -> & Ho & Hm)%route_matches_spec). by exists r, vs.
  - intros (r & vs & (Hr & Ho & Hm) & ->). exists r. split; [done|]. unfold route_matches. by rewrite Ho, Hm.
Qed.

Lemma narrower_refl p : narrower p p = true.
Proof.
  induction p as [|a p IH]; [done|]. cbn [narrower]. rewrite IH, String.eqb_refl, andb_true_r, andb_true_r.
  destruct a; [by destruct p|]. by destruct (is_var _).
Qed.
Lemma narrower_root p : narrower p [""] = true.
Proof. by destruct p. Qed.

Lemma the_spa_route m path r vs : the_route m path r vs -> r.2 = Spa -> r = ("GET", "/", Spa) /\ vs = [].
Proof.
  intros (Hr & _ & Hm) Es. pose proof (check_route _ _ spa_entry Hr) as H. cbn beta in H.
  rewrite bool_decide_eq_true_2 in H by done. apply bool_decide_eq_true in H as ->. by injection Hm as <-.
Qed.
Lemma find_first {A} (f : A -> bool) l x : In x l -> f x = true -> (forall y, In y l -> f y = true -> y = x) -> List.find f l = Some x.
Proof.
  intros Hx Hf Hu. destruct (List.find f l) as [y|] eqn:E.
  - apply find_some in E as [Hy Hfy]. by rewrite (Hu y Hy Hfy).
  - by rewrite (List.find_none f l E x Hx) in Hf.
Qed.

(** An API candidate is below every candidate, and alone in that. *)
Lemma api_candidate_least m path r vs :
  the_route m path r vs -> r.2 <> Spa ->
  List.find (fun c => forallb (fun c' => narrower c.1.1 c'.1.1) (candidates m path)) (candidates m path)
  = Some (pattern_segments r.1.2, r.2, vs).
Proof.
  intros Hr Hs.
  assert (forall c, In c (candidates m path) -> c = (pattern_segments r.1.2, r.2, vs) \/ c = ([""], Spa, [])) as Hc.
  { intros c (r' & vs' & Hr' & ->)%candidates_the_route. destruct (decide (r'.2 = Spa)) as [Es|Hs'].
    - right. by destruct (the_spa_route _ _ _ _ Hr' Es) as [-> ->].
    - left. destruct Hr as (H1 & H2 & H3), Hr' as (H1' & H2' & H3').
      pose proof (api_match_unique m path r r' vs vs' H1 H1' Hs Hs' H2 H2' H3 H3') as <-. congruence. }
  apply find_first.
  - apply candidates_the_route. by exists r, vs.
  - apply forallb_forall. intros c [->| ->]%Hc; cbn [fst]; [apply narrower_refl|apply narrower_root].
  - intros c [->| ->]%Hc Hf; [done|]. exfalso.
    rewrite forallb_forall in Hf. specialize (Hf (pattern_segments r.1.2, r.2, vs)). cbn [fst] in Hf.
    pose proof (check_route _ _ api_patterns_plain (proj1 Hr)) as Hp. cbn beta in Hp.
    unfold api_entry in Hp. rewrite bool_decide_eq_false_2 in Hp by done. apply andb_true_iff in Hp as [_ Hp].
    rewrite Hf in Hp; [done|]. apply candidates_the_route. by exists r, vs.
Qed.

(** Each path of the API has one handler: when a pattern of the table other than
    the last matches a request, the request goes to that pattern's handler with
    that pattern's path values, whatever the order of the table; any other [GET]
    or [HEAD] request gets the single page, and any other request at all, also of
    an unknown path, is answered 405. *)
Theorem router_exact (m : string) (path : list string) :
  (forall r vs, the_route m path r vs -> r.2 <> Spa -> dispatch m path = Route r.2 vs) /\
  ((forall r vs, the_route m path r vs -> r.2 = Spa) ->
   dispatch m path = if method_ok "GET" m then Route Spa [] else MethodNotAllowed).
Proof.
  split.
  - intros r vs Hr Hs. unfold dispatch. by rewrite (api_candidate_least m path r vs Hr Hs).
  - intros Hall.
    assert (forall c, In c (candidates m path) -> method_ok "GET" m = true /\ c = ([""], Spa, [])) as Hc.
    { intros c (r & vs & Hr & ->)%candidates_the_route.
      destruct (the_spa_route _ _ _ _ Hr (Hall r vs Hr)) as [-> ->]. by destruct Hr as (_ & Ho & _). }
    unfold dispatch. destruct (method_ok "GET" m) eqn:Eo.
    + rewrite (find_first _ _ ([""], Spa, [])); [done| | |by intros y [_ ->]%Hc].
      * apply candidates_the_route. exists ("GET", "/", Spa), []. repeat split; [|done].
        apply (bool_decide_unpack _). vm_compute. exact I.
      * apply forallb_forall. by intros c [_ ->]%Hc.
    + destruct (candidates m path) as [|c cs]; [|by destruct (Hc c (or_introl eq_refl))].
      cbn [List.find]. replace (existsb _ _) with true; [done|]. symmetry. apply existsb_exists.
      exists ("GET", "/", Spa). split; [|done]. apply list_elem_of_In, (bool_decide_unpack _). vm_compute. exact I.
Qed.
Lemma router_exact_witness :
  dispatch "GET" ["api"; "meters"; "7"; "profile"] = Route Profile [("id", "7")] /\
  dispatch "POST" ["api"; "nowhere"] = MethodNotAllowed.
Proof.
  split.
  - apply (proj1 (router_exact "GET" ["api"; "meters"; "7"; "profile"]) ("GET", "/api/meters/{id}/profile", Profile) [("id", "7")]);
      [|discriminate]. split; [|split; reflexivity]. apply (bool_decide_unpack _). vm_compute. exact I.
  - apply (proj2 (router_exact "POST" ["api"; "nowhere"])). intros r vs (Hr & Ho & Hm). exfalso.
    assert (forallb (fun r => negb (method_ok r.1.1 "POST" && negb (is_nil (match_segs (pattern_segments r.1.2) ["api"; "nowhere"])))) routes = true) as Hall
      by (vm_compute; reflexivity).
    apply (check_route _ r) in Hall; [|exact Hr]. cbn beta in Hall. rewrite Ho, Hm in Hall. discriminate Hall.
Defined.

(** A platform on which nothing is configured and nobody answers, and a request. *)
Definition quiet_platform : platform := {|
  pf_getenv := fun _ => ""; pf_ParseFloat := fun _ => (f0, false); pf_Parse := fun _ => None; pf_ParseNano := fun _ => None;
  pf_fmt_g := fun _ => ""; pf_fmt_f := fun _ => ""; pf_fmt_q := fun s => s; pf_Log := fun x => x; pf_Erfinv := fun x => x;
  pf_time_bucket := fun _ t => t; pf_grid := fun _ _ => []; pf_stddev_samp := fun _ => None; pf_regr := fun _ => mkPg None None None None None None None;
  pf_local_day := fun _ t => t / Day; pf_local_clock := fun _ t => t; pf_local_hour := fun _ _ => 0; pf_local_dow := fun _ _ => 0;
  pf_wall := fun _ d t => d * Day + t; pf_valid_zone := fun _ => true; pf_order := map_to_list; pf_pending_order := map_to_list;
  pf_in_old_chunk := fun _ _ => false; pf_hypertable_size := None; pf_relation_size := fun _ => None; pf_row_estimate := fun _ => None;
  pf_chunks := None; pf_compression := None; pf_retention := None; pf_compress_after := None;
  pf_ha_test := fun _ _ => None; pf_ha_states := fun _ _ => inl ""; pf_dial := fun _ _ => None; pf_ws := fun _ => inl "";
  pf_flow := fun _ _ _ => (inl "", inl "", inl ""); pf_tries := [] |}.
Definition get_health : http_request := mkHttp "GET" ["api"; "health"] (fun _ => "") None "" (mkEnv [] [] [] []) [].
Definition quiet_api : api := mkApi None idle_server None.
Definition stale_DB : DB := set_capture_heartbeat {["old" := mkHeartbeat 0 3 0]} empty_DB.

Lemma get_requests_read_only_witness :
  w_db (snd (serve_request (C := toy_Crypto) quiet_platform get_health quiet_api (mkWorld stale_DB (2 * Hour) [])))
    = set_capture_heartbeat ∅ stale_DB /\
  w_db (snd (serve_request (C := toy_Crypto) quiet_platform get_health quiet_api (mkWorld stale_DB (2 * Hour) [true])))
    = stale_DB.
Proof.
  pose proof (get_requests_read_only (C := toy_Crypto) quiet_platform get_health quiet_api) as H.
  assert (dispatch "GET" (ht_path get_health) = Route Health_ []) as Ed by (vm_compute; reflexivity).
  assert (pruned (2 * Hour) stale_DB = set_capture_heartbeat ∅ stale_DB) as Ep by (vm_compute; reflexivity).
  split.
  - destruct (H (mkWorld stale_DB (2 * Hour) []) (or_introl eq_refl)) as [E|[(vars & _ & E)|(vars & E)]].
    + exfalso. revert E. vm_compute. discriminate.
    + rewrite E. exact Ep.
    + change (dispatch "GET" (ht_path get_health) = Route AgentWS vars) in E. rewrite Ed in E. discriminate E.
  - destruct (H (mkWorld stale_DB (2 * Hour) [true]) (or_introl eq_refl)) as [E|[(vars & _ & E)|(vars & E)]].
    + exact E.
    + exfalso. revert E. vm_compute. discriminate.
    + change (dispatch "GET" (ht_path get_health) = Route AgentWS vars) in E. rewrite Ed in E. discriminate E.
Defined.

(** ** Trust on first use, end to end *)

(** The body of [handleAgentServerKey]. *)
Definition serverkey_answer {C : Crypto} (s : api) : option (Z * option json) :=
  match handleAgentServerKey s with
  | Reply (k, fp) => Some (200, Some (JObj [("server_fingerprint", JStr fp); ("server_key", JStr k)]))
  | HttpError status _ => Some (status, None)
  | Panic => None
  end.
(** A request of the agent that reaches this server. *)
Definition ask_server {C : Crypto} (s : api) (u : url) : option (Z * option json) :=
  match dispatch "GET" (pattern_segments (u_path u)) with
  | Route AgentServerKey _ => serverkey_answer s
  | _ => Some (404, None)
  end.

(** An agent that trusts on first use gets this server's key: whatever the
    scheme, host, path and query of its socket address, the address it derives
    reaches the key's handler, and the key it decodes, keeps and pins is the
    server's own; a server without keys gives it none, so nothing is pinned. *)
Lemma first_use_resolves {C : Crypto} (getenv : string -> string) (u : url) (s : api) (h : host) :
  getenv "AGENT_SERVER_KEY" = "" -> h_files h = ∅ ->
  match api_agent s with
  | Some ac => String.length (ac_pub ac) = 32%nat ->
      resolveServerKey getenv (fetchServerKey (Some u) (ask_server s)) h =
      (Some (ac_pub ac), write_file (env_or getenv "AGENT_SERVER_KEY_FILE" "/data/server.key")
                           (EncodeKey (ac_pub ac) ++ newline) h)
  | None => resolveServerKey getenv (fetchServerKey (Some u) (ask_server s)) h = (None, h)
  end.
Proof.
  intros He Hh.
  assert (fetchServerKey (Some u) (ask_server s) = fetchServerKey (Some u) (fun _ => serverkey_answer s)) as ->.
  { unfold fetchServerKey, mbind, option_bind, ask_server. cbn [serverkey_url u_path].
    assert (dispatch "GET" (pattern_segments "/api/agent/serverkey") = Route AgentServerKey []) as -> by (vm_compute; reflexivity). done. }
  unfold resolveServerKey. rewrite He, Hh. cbn [is_empty String.eqb negb].
  assert (forall p : string, (b ← (∅ : gmap string string) !! p; DecodeKey (TrimSpace b)) = None) as ->
    by (intros p; by rewrite lookup_empty).
  unfold serverkey_answer, handleAgentServerKey. destruct (api_agent s) as [ac|]; [|done]. intros Hl.
  assert (DecodeKey (EncodeKey (ac_pub ac)) = Some (ac_pub ac)) as Hd.
  { unfold DecodeKey, EncodeKey. rewrite DecodeString_EncodeToString. by rewrite Hl. }
  assert (fetchServerKey (Some u) (fun _ => Some (200, Some (JObj [("server_fingerprint", JStr (Fingerprint (ac_pub ac)));
            ("server_key", JStr (EncodeKey (ac_pub ac)))]))) = Some (ac_pub ac)) as ->; [|done].
  revert Hd. generalize (EncodeKey (ac_pub ac)), (Fingerprint (ac_pub ac)). intros k fp Hd.
  assert (get_str ["server_key"] "server_key" [("server_fingerprint", JStr fp); ("server_key", JStr k)] = Some k) as Hg
    by (vm_compute; reflexivity).
  unfold fetchServerKey, served_key. cbn [mbind option_bind]. cbn [Z.eqb Pos.eqb]. rewrite Hg. exact Hd.
Qed.

Definition keyed_api : api := mkApi (Some (mkCrypto (dq "0123456789abcdef0123456789abcdef") "" [] "")) idle_server None.
Lemma first_use_resolves_witness :
  (resolveServerKey (fun _ => "") (fetchServerKey (Some (mkUrl "wss" "attic:8443" "/api/agent/ws" "v=1")) (ask_server (C := toy_Crypto) keyed_api))
    (mkHost ∅ true)).1 = Some "0123456789abcdef0123456789abcdef".
Proof.
  exact (f_equal fst (first_use_resolves (C := toy_Crypto) (fun _ => "") (mkUrl "wss" "attic:8443" "/api/agent/ws" "v=1") keyed_api
    (mkHost ∅ true) eq_refl eq_refl eq_refl)).
Defined.
