(* ===== verification/AgentProcess.v ===== *)
(** * The agent's process ([cmd/capture/agent.go], [runAgent])

    The start of an agent (its keys, the key of the server) and its sessions, one
    connection attempt after the other, over a network that answers what it likes.
    Proved together with the server that the first start asked: as long as its key
    files stay, the agent then talks to that server only, under one identity. *)

From S2P Require Import Prelude Float64 Model Json Encoding Config Store AgentWire Gate Capture Broker ApiAgent Agent Routes.

(** One attempt: whether the dial gets through, the certificates presented if the
    connection uses TLS, what the handshake meets, and then the dongles, the events
    of the session and whether its writes succeed. *)
Record attempt := mkAttempt {
  at_dial : bool; at_certs : option (list string); at_env : AgentWire.env;
  at_probe : list sdrDevice; at_events : list session_event; at_writes : list bool
}.

Section Process.
Context {C : Crypto} (getenv : string -> string).

(** [websocket.Dial] with [agentHTTPClient]. *)
Definition dialServer (a : attempt) : bool :=
  at_dial a && match at_certs a with Some raw => verify_peer getenv raw | None => true end.

(** [agentSession] from the dial on: the session and how it ended. *)
Definition connectedSession (name pub priv serverPub : string) (a : attempt)
  : option (AgentWire.Session * (option session_end * Agent.session)) :=
  if dialServer a then
    match outcome (advance (fun _ => None) (ClientHandshake pub priv serverPub name) (at_env a)) with
    | Some (Ok sess) => Some (sess, agentSession name (at_probe a) (at_events a) (mkWsSink [] (at_writes a)))
    | _ => None
    end
  else None.

(** A missing address or key ends the process; otherwise every attempt is made
    with the same keys, whatever became of the last one. *)
Definition runAgent (fetch gen : option string) (attempts : list attempt) (h : host)
  : option (list (option (AgentWire.Session * (option session_end * Agent.session)))) * host :=
  let name := env_or getenv "AGENT_NAME" "agent" in
  if is_empty (getenv "AGENT_URL") then (None, h)
  else match resolveServerKey getenv fetch h with
       | (None, h) => (None, h)
       | (Some serverPub, h) =>
           match loadAgentKey getenv gen h with
           | (None, h) => (None, h)
           | (Some (pub, priv), h) => (Some (map (connectedSession name pub priv serverPub) attempts), h)
           end
       end.

(** Every session of the list was opened by an answer that only [serverPub]'s box
    with [priv] opens and that is bound to the ephemeral key drawn for it, on a
    connection whose certificate passed the pin. *)
Definition trusted (serverPub priv : string) (attempts : list attempt)
    (sessions : list (option (AgentWire.Session * (option session_end * Agent.session)))) : Prop :=
  length sessions = length attempts /\
  forall i a sess r, attempts !! i = Some a -> sessions !! i = Some (Some (sess, r)) ->
    match at_certs a with Some raw => verify_peer getenv raw = true | None => True end /\
    exists raw rest ePriv, e_in (at_env a) = Some raw :: rest /\ hd None (e_keys (at_env a)) = Some ePriv /\
      client_checked serverPub priv ePriv raw sess.

Lemma connected_trusted name pub priv serverPub attempts :
  trusted serverPub priv attempts (map (connectedSession name pub priv serverPub) attempts).
Proof.
  split; [apply length_map|]. intros i a sess r Ha Hs. rewrite list_lookup_fmap, Ha in Hs. injection Hs as Hs.
  unfold connectedSession, dialServer in Hs. destruct (at_dial a); [|done]. cbn [andb] in Hs.
  destruct (match at_certs a with Some raw => _ | None => _ end) eqn:Ec; [|done].
  destruct (outcome _) as [[s|]|] eqn:Eo; [|done..]. injection Hs as -> _. apply client_outcome in Eo.
  split; [by destruct (at_certs a)|exact Eo].
Qed.

Definition server_path : string := env_or getenv "AGENT_SERVER_KEY_FILE" "/data/server.key".
Definition agent_path : string := env_or getenv "AGENT_KEY_FILE" "/data/agent.key".

Lemma pinned_text k : String.length k = 32%nat -> DecodeKey (TrimSpace (EncodeKey k ++ newline)) = Some k.
Proof. intros Hk. unfold EncodeKey. rewrite TrimSpace_base64. fold (EncodeKey k). by apply DecodeKey_EncodeKey. Qed.

Lemma resolve_pinned fetch h b k : getenv "AGENT_SERVER_KEY" = "" ->
  h_files h !! server_path = Some b -> DecodeKey (TrimSpace b) = Some k -> resolveServerKey getenv fetch h = (Some k, h).
Proof. intros He Hb Hk. unfold resolveServerKey. fold server_path. rewrite He, Hb. cbn. by rewrite Hk. Qed.

(** A loaded identity is loaded again from the file it was persisted to, whatever
    a new one would be, and loading it touches the agent's file only. *)
Lemma loadAgentKey_stable gen gen' h pub priv h' :
  h_writable h = true -> (forall p, gen = Some p -> String.length p = 32%nat) ->
  loadAgentKey getenv gen h = (Some (pub, priv), h') ->
  (forall h2, h_files h2 !! agent_path = h_files h' !! agent_path ->
     exists pub', loadAgentKey getenv gen' h2 = (Some (pub', priv), h2)) /\
  forall p, p <> agent_path -> h_files h' !! p = h_files h !! p.
Proof.
  intros Hw Hg. unfold loadAgentKey. fold agent_path. destruct (is_empty (getenv "AGENT_PRIVATE_KEY")); cbn [negb].
  - destruct (h_files h !! agent_path ≫= fun b => DecodeKey (TrimSpace b)) as [p|] eqn:Ef.
    + intros [= <- <- <-]. split; [|done]. intros h2 ->. rewrite Ef. by eexists.
    + destruct gen as [p|]; [|done]. intros [= <- <- <-]. unfold write_file. rewrite Hw. cbn [h_files].
      split; [|intros q Hq; by rewrite lookup_insert_ne].
      intros h2 ->. rewrite lookup_insert_eq. cbn [mbind option_bind]. rewrite pinned_text by auto. by eexists.
  - destruct (DecodeKey (getenv "AGENT_PRIVATE_KEY")) as [p|] eqn:Ed; cbn [mbind option_bind]; [|done].
    intros [= <- <- <-]. split; [|done]. intros h2 _. by eexists.
Qed.

(** On a host that cannot be written nothing is kept. *)
Lemma loadAgentKey_unwritable gen h : h_writable h = false -> (loadAgentKey getenv gen h).2 = h.
Proof.
  intros Hw. unfold loadAgentKey. destruct (negb _); [done|]. destruct (_ ≫= _); [done|].
  destruct gen; [|done]. cbn. unfold write_file. by rewrite Hw.
Qed.

Lemma fetch_trusted fetch gen attempts h l h' :
  is_empty (getenv "AGENT_SERVER_KEY") = true -> h_files h !! server_path = None ->
  runAgent fetch gen attempts h = (Some l, h') ->
  exists k priv, fetch = Some k /\ trusted k priv attempts l.
Proof.
  intros He Hf. unfold runAgent. destruct (is_empty (getenv "AGENT_URL")); [done|].
  unfold resolveServerKey. fold server_path. rewrite He, Hf. cbn [negb mbind option_bind].
  destruct fetch as [k|]; [|done].
  destruct (loadAgentKey _ _ _) as [[[pub priv]|] h2]; [|done]. intros [= <- _].
  exists k, priv. split; [done|apply connected_trusted].
Qed.
End Process.

(** C40: An agent without a configured server key trusts the server it first asks.
    It starts on a host without files, with two different key files to write, and
    asks this server for its key; if it gets going, all its sessions were opened by
    an answer of this server's key to this agent's key, fresh for the session, on
    a connection that passed the pin.  On a host whose files can be written that
    holds of every later process too, as long as the two key files stay what they
    are: whatever another fetch, another key or another network would give, the
    server unreachable included, it gets going with the same two keys and writes
    nothing.  On a host whose files cannot be written nothing is kept: a later
    process trusts whatever key its own fetch returns, and only gets going with
    one. *)
Theorem agent_trusts_first_server {C : Crypto} (getenv : string -> string) (u : url) (s : api) (ac : agentCrypto)
    (writable : bool) (gen : option string) (first : list attempt)
    (l : list (option (AgentWire.Session * (option session_end * Agent.session)))) (h : host) :
  getenv "AGENT_SERVER_KEY" = "" -> agent_path getenv <> server_path getenv ->
  api_agent s = Some ac -> String.length (ac_pub ac) = 32%nat ->
  (forall p, gen = Some p -> String.length p = 32%nat) ->
  runAgent getenv (fetchServerKey (Some u) (ask_server s)) gen first (mkHost ∅ writable) = (Some l, h) ->
  exists priv, trusted getenv (ac_pub ac) priv first l /\
    (writable = true -> forall fetch' gen' later h',
       h_files h' !! server_path getenv = h_files h !! server_path getenv ->
       h_files h' !! agent_path getenv = h_files h !! agent_path getenv ->
       exists l', runAgent getenv fetch' gen' later h' = (Some l', h') /\
         trusted getenv (ac_pub ac) priv later l') /\
    (writable = false -> h = mkHost ∅ false /\
       forall fetch' gen' later l' h', runAgent getenv fetch' gen' later h = (Some l', h') ->
         exists k priv', fetch' = Some k /\ trusted getenv k priv' later l').
Proof.
  intros He Hne Hs Hl Hg E. unfold runAgent in E. destruct (is_empty (getenv "AGENT_URL")) eqn:Eu; [done|].
  match type of E with context [resolveServerKey _ _ ?h0] =>
    pose proof (first_use_resolves getenv u s h0 He eq_refl) as Hr end. rewrite Hs in Hr.
  rewrite (Hr Hl) in E. fold (server_path getenv) in E. set (h1 := write_file _ _ _) in E.
  destruct (loadAgentKey getenv gen h1) as [[[pub priv]|] h2] eqn:Ek; [|done]. injection E as <- <-.
  exists priv. split; [apply connected_trusted|]. split; intros ->.
  - intros fetch' gen' later h' Hsf Haf.
    destruct (loadAgentKey_stable getenv gen gen' h1 pub priv h2 eq_refl Hg Ek) as [Hload Hfiles].
    destruct (Hload h' Haf) as [pub' Ek']. unfold runAgent. rewrite Eu.
    rewrite (resolve_pinned getenv fetch' h' (EncodeKey (ac_pub ac) ++ newline) (ac_pub ac) He), Ek'.
    + eexists. split; [reflexivity|]. apply connected_trusted.
    + rewrite Hsf, Hfiles by done. apply lookup_insert_eq.
    + by apply pinned_text.
  - assert (h2 = mkHost ∅ false) as ->.
    { pose proof (loadAgentKey_unwritable getenv gen h1 eq_refl) as Hu. by rewrite Ek in Hu. }
    split; [done|]. intros fetch' gen' later l' h' E. eapply fetch_trusted with (h := mkHost ∅ false); [by rewrite He|exact (lookup_empty _)|exact E].
Qed.

(** A first start that reaches nobody, and later ones under the same keys. *)
Definition with_url (k : string) : string := if (k =? "AGENT_URL")%string then "wss://attic:8443/api/agent/ws" else "".
Definition attic : url := mkUrl "wss" "attic:8443" "/api/agent/ws" "".

Lemma agent_trusts_first_server_witness :
  let k := dq "0123456789abcdef0123456789abcdef" in
  exists l h priv,
    runAgent (C := toy_Crypto) with_url (fetchServerKey (Some attic) (ask_server (C := toy_Crypto) keyed_api))
      (Some toy_private) [] (mkHost ∅ true) = (Some l, h) /\
    forall fetch' gen' later, exists l', runAgent (C := toy_Crypto) with_url fetch' gen' later h = (Some l', h) /\
      trusted (C := toy_Crypto) with_url k priv later l'.
Proof.
  cbv zeta. eexists [], _.
  destruct (agent_trusts_first_server (C := toy_Crypto) with_url attic keyed_api
    (mkCrypto (dq "0123456789abcdef0123456789abcdef") "" [] "") true (Some toy_private) [] []
    (runAgent (C := toy_Crypto) with_url (fetchServerKey (Some attic) (ask_server (C := toy_Crypto) keyed_api))
      (Some toy_private) [] (mkHost ∅ true)).2) as (priv & _ & H & _).
  - reflexivity.
  - discriminate.
  - reflexivity.
  - reflexivity.
  - by intros p [= <-].
  - vm_compute. reflexivity.
  - exists priv. split; [vm_compute; reflexivity|]. intros fetch' gen' later. by apply H.
Defined.
