(* ===== verification/System.v ===== *)
(** * The three processes on one database

    [cmd/api], [cmd/worker] and [cmd/capture] share nothing but the database: a
    system is the state of each process and the tables, and a step is one operation
    of one process, its start included, at any time, with any statements failing.
    [well_typed] says
    what the columns hold beyond their SQL types; every step keeps it. *)

From S2P Require Import Prelude Float64 Model Calendar Json Encoding Config Store Effects Ert Database AgentWire Capture Manager Deltas Windows AutoWindow Meters Publish Samples Discovery Correlate Utility Daily Combined Ha Feed Broker ApiAgent Backfill Worker Analytics Consumption Admin Schema Http HaWs Handlers Identify Dashboard Routes.

(** ** The types of the rows *)

(** The channels the program listens on, and the origins of rows. *)
Definition channels : list string := ["winnow"; "winnow_config"; "winnow_tests"; "winnow_ref"].
Definition window_sources : list string := ["manual"; "auto"].

(** A flag column of [meters] is never NULL. *)
Record meter_typed (m : MeterRow) : Prop := {
  mt_candidate : is_Some (mr_is_candidate m); mt_mine : is_Some (mr_is_mine m);
  mt_ignored : is_Some (mr_ignored m); mt_publish : is_Some (mr_publish m);
  mt_multiplier : is_Some (mr_pub_multiplier m)
}.
(** A status row has a time, and either a message or the time of a success. *)
Definition status_typed (s : PubStatus) : Prop :=
  is_Some (UpdatedAt s) /\ (is_Some (LastError s) \/ is_Some (LastPublishTS s)).

Record well_typed (d : DB) : Prop := {
  wt_windows : map_Forall (fun id t => 1 <= id < next_window_id d /\ tt_source t ∈ window_sources) (test_windows d);
  wt_samples : Forall (fun r => rs_src r ∈ ["live"; "lts_backfill"]) (reference_samples d);
  wt_hvac : Forall (fun r => hs_src r ∈ ["live"; "history_backfill"]) (hvac_samples d);
  wt_channels : Forall (fun n => n.1 ∈ channels) (notifications d);
  wt_sources : map_Forall (fun _ x => 1 <= ms_packets x) (meter_source d);
  wt_meters : map_Forall (fun _ m => meter_typed m) (meters d);
  wt_status : map_Forall (fun _ s => status_typed s) (publish_status d);
  wt_next : 1 <= next_window_id d
}.

(** A database is well typed and every window of it was in [d0] or has an id that
    [d0] had not given yet. *)
Definition evolves (d0 d : DB) : Prop :=
  well_typed d /\ next_window_id d0 <= next_window_id d /\
  forall id, is_Some (test_windows d !! id) -> is_Some (test_windows d0 !! id) \/ next_window_id d0 <= id.

Lemma evolves_refl d : well_typed d -> evolves d d.
Proof. intros H. split; [done|]. split; [lia|auto]. Qed.

(** The tables [well_typed] speaks of. *)
Definition typed_part (d : DB) :=
  (test_windows d, next_window_id d, reference_samples d, hvac_samples d, notifications d, meter_source d, meters d, publish_status d).
Lemma evolves_same d0 d d' : typed_part d' = typed_part d -> evolves d0 d -> evolves d0 d'.
Proof.
  unfold typed_part. intros [= E1 E2 E3 E4 E5 E6 E7 E8] ([] & Hn & Hw). split.
  - constructor; by rewrite ?E1, ?E2, ?E3, ?E4, ?E5, ?E6, ?E7, ?E8.
  - by rewrite E1, E2.
Qed.

(** ** The writes *)

Section Writes.
Context (d0 : DB).
Notation P := (evolves d0).

Lemma keeps_notify c p : c ∈ channels -> keeps P (pg_notify c p).
Proof.
  intros Hc. apply keeps_exec. intros d _ ([] & Hn & Hw). split; [|done]. constructor; cbn; [done..| |done|done|done|done].
  apply Forall_app. by rewrite Forall_singleton.
Qed.

(** A table of windows that gains no id. *)
Lemma evolves_windows d m :
  P d -> map_Forall (fun id t => is_Some (test_windows d !! id) /\ tt_source t ∈ window_sources) m ->
  P (set_test_windows m d).
Proof.
  intros ([] & Hn & Hw) Hm. split; [constructor; cbn; [|done..]|split; [done|]].
  - intros id t Ht. destruct (Hm id t Ht) as [[t' Ht'] Hs]. split; [|done]. by destruct (wt_windows0 id t' Ht').
  - cbn. intros id [t Ht]. apply Hw. by destruct (Hm id t Ht).
Qed.
Lemma evolves_alter d f id :
  (forall t, tt_source (f t) = tt_source t) -> P d -> P (set_test_windows (alter f id (test_windows d)) d).
Proof.
  intros Hf Hd. apply evolves_windows; [done|]. destruct Hd as ([] & _ & _). intros j t Ht.
  rewrite lookup_alter in Ht. destruct (decide (id = j)) as [->|Hne].
  - destruct (test_windows d !! j) as [t'|] eqn:E; [|done]. injection Ht as <-. rewrite Hf. by destruct (wt_windows0 _ _ E).
  - split; [by exists t|]. by destruct (wt_windows0 _ _ Ht).
Qed.
Lemma keeps_snoop id k : keeps P (SetTestSnoopK id k).
Proof. apply keeps_exec. intros d _ Hd. by apply evolves_alter. Qed.
Lemma keeps_create label start fin source load ent :
  source ∈ window_sources -> keeps P (CreateTest label start fin source load ent).
Proof.
  intros Hs. apply keeps_statement. intros d t a d' ([] & Hn & Hw) [= _ <-]. split; [constructor; cbn; [|try done..]|split; cbn; [lia|]].
  - intros id t' [[<- <-]|[Hne Ht]]%lookup_insert_Some; [split; [lia|done]|].
    destruct (wt_windows0 id t' Ht). split; [lia|done].
  - lia.
  - intros id [t' [[<- _]|[_ Ht]]%lookup_insert_Some]; [by right|]. apply Hw. by exists t'.
Qed.
Lemma keeps_stop id fin : keeps P (StopTest id fin).
Proof.
  unfold StopTest, GetTest. apply keeps_bind; [|keep]. apply keeps_ignore, keeps_exec. intros d _ Hd.
  apply evolves_alter; [|done]. intros t. unfold end_row. by destruct (tt_end_ts t).
Qed.
Lemma keeps_delete_test id : keeps P (DeleteTest id).
Proof.
  apply keeps_exec. intros d _ Hd. apply evolves_windows; [done|]. destruct Hd as ([] & _ & _).
  intros j t [_ Ht]%lookup_delete_Some. split; [by exists t|]. by destruct (wt_windows0 _ _ Ht).
Qed.
Lemma keeps_purge_tests : keeps P PurgeTests.
Proof. apply keeps_statement. intros d t a d' Hd [= _ <-]. apply evolves_windows; [done|apply map_Forall_empty]. Qed.

Lemma evolves_refs d l : P d -> Forall (fun r => rs_src r ∈ ["live"; "lts_backfill"]) l -> P (set_reference_samples l d).
Proof. intros ([] & Hn & Hw) Hl. split; [constructor; cbn; done|done]. Qed.
Lemma evolves_hvacs d l : P d -> Forall (fun r => hs_src r ∈ ["live"; "history_backfill"]) l -> P (set_hvac_samples l d).
Proof. intros ([] & Hn & Hw) Hl. split; [constructor; cbn; done|done]. Qed.
Lemma Forall_List_filter {A} (Q : A -> Prop) f l : Forall Q l -> Forall Q (List.filter f l).
Proof. rewrite !Forall_forall. intros H x [Hx _]%list_elem_of_In%filter_In. by apply H, list_elem_of_In. Qed.

Lemma keeps_insert_ref e ts v : keeps P (InsertReferenceSample e ts v).
Proof.
  apply keeps_exec. intros d _ Hd. apply evolves_refs; [done|]. apply Forall_app. split; [apply Hd|].
  repeat constructor.
Qed.
Lemma keeps_replace_ref e from to ts pw : keeps P (ReplaceBackfillSamples e from to ts pw).
Proof.
  unfold ReplaceBackfillSamples. apply keeps_bind.
  - apply keeps_exec. intros d _ Hd. apply evolves_refs; [done|]. apply Forall_List_filter, Hd.
  - intros _. destruct ts as [|t ts]; [apply keeps_ret|]. apply keeps_exec. intros d _ Hd.
    apply evolves_refs; [done|]. apply Forall_app. split; [apply Hd|].
    apply Forall_forall. intros r (p & -> & _)%list_elem_of_fmap. cbn. set_solver.
Qed.
Lemma keeps_insert_hvac e ts v : keeps P (InsertHVACSample e ts v).
Proof.
  apply keeps_exec. intros d _ Hd. apply evolves_hvacs; [done|]. apply Forall_app. split; [apply Hd|].
  repeat constructor.
Qed.
Lemma keeps_replace_hvac e from to ts pw : keeps P (ReplaceHVACBackfill e from to ts pw).
Proof.
  unfold ReplaceHVACBackfill. apply keeps_bind.
  - apply keeps_exec. intros d _ Hd. apply evolves_hvacs; [done|]. apply Forall_List_filter, Hd.
  - intros _. destruct ts as [|t ts]; [apply keeps_ret|]. apply keeps_exec. intros d _ Hd.
    apply evolves_hvacs; [done|]. apply Forall_app. split; [apply Hd|].
    apply Forall_forall. intros r (p & -> & _)%list_elem_of_fmap. cbn. set_solver.
Qed.

Lemma evolves_sources d m :
  P d -> map_Forall (fun _ x => 1 <= ms_packets x) m -> P (set_meter_source m d).
Proof. intros ([] & Hn & Hw) Hl. split; [constructor; cbn; done|done]. Qed.
Lemma evolves_sources_filter d (f : Z * string * SourceRow -> Prop) `{!forall x, Decision (f x)} :
  P d -> P (set_meter_source (filter f (meter_source d)) d).
Proof.
  intros Hd. apply evolves_sources; [done|]. intros k x [Hx _]%map_lookup_filter_Some. destruct Hd as ([] & _). by apply (wt_sources0 k).
Qed.
Lemma keeps_upsert_source r : keeps P (statement (fun d _ => upsert_source r d)).
Proof.
  apply keeps_statement. intros d _ a d' Hd. unfold upsert_source. pose proof Hd as ([] & _ & _).
  destruct (meter_source d !! _) as [x|] eqn:E.
  - destruct (Z.eqb_spec (ms_packets x) int64_max); [done|]. intros [= _ <-]. apply evolves_sources; [done|].
    apply map_Forall_insert_2; [|done]. pose proof (wt_sources0 _ _ E) as Hx. cbn beta in Hx. cbn [ms_packets]. lia.
  - intros [= _ <-]. apply evolves_sources; [done|]. apply map_Forall_insert_2; [|done]. cbn. lia.
Qed.
Lemma keeps_install max_text : keeps P (InitSchema max_text).
Proof.
  apply keeps_InitSchema. unfold backfillSteps. intros f d. rewrite !elem_of_cons, elem_of_nil. intros [->|[->|[]]] Hd.
  - eapply evolves_same; [|exact Hd]. unfold backfill_index. by destruct (bool_decide _).
  - unfold backfill_source. destruct (bool_decide _); [|done]. apply evolves_sources; [done|].
    intros k x. rewrite list_to_map_self. destruct (decide _) as [Hk|]; [|done]. intros [= <-].
    apply endpoint_sources_elem in Hk. unfold group_source, zlen. cbn [ms_packets].
    destruct (readings_from k.1 k.2 d); [done|cbn; lia].
Qed.

Lemma evolves_meters d m : P d -> map_Forall (fun _ x => meter_typed x) m -> P (set_meters m d).
Proof. intros ([] & Hn & Hw) Hl. split; [constructor; cbn; done|done]. Qed.
Lemma update_row_typed f x : meter_typed x -> meter_typed (update_row f x).
Proof.
  assert (forall A (a b : option A), is_Some b -> is_Some (upd a b)) as U by (intros A [a|] b; cbn; eauto).
  intros []. by constructor; apply U.
Qed.
Lemma keeps_update_meter id f : keeps P (UpdateMeter id f).
Proof.
  unfold UpdateMeter. apply keeps_bind; [|intros _; apply keeps_bind; [|keep]].
  - apply keeps_exec. intros d _ Hd. destruct (meters d !! id); [done|]. apply evolves_meters; [done|].
    apply map_Forall_insert_2; [by constructor; eexists|apply Hd].
  - destruct (has_sets f); [|apply keeps_ret]. apply keeps_exec. intros d _ Hd. apply evolves_meters; [done|].
    intros j x Hx. rewrite lookup_alter in Hx. pose proof Hd as ([] & _ & _). destruct (decide (id = j)) as [->|Hne]; [|by eapply wt_meters0].
    destruct (meters d !! j) as [y|] eqn:E; [|done]. injection Hx as <-. by eapply update_row_typed, wt_meters0.
Qed.
Lemma evolves_meter_delete d id : P d -> P (set_meters (delete id (meters d)) d).
Proof. intros Hd. apply evolves_meters; [done|]. apply map_Forall_delete, Hd. Qed.

Lemma evolves_status d m : P d -> map_Forall (fun _ s => status_typed s) m -> P (set_publish_status m d).
Proof. intros ([] & Hn & Hw) Hl. split; [constructor; cbn; done|done]. Qed.
Lemma keeps_publish_ok id : keeps P (RecordPublishOK id).
Proof.
  apply keeps_exec. intros d t Hd. apply evolves_status; [done|]. apply map_Forall_insert_2; [|apply Hd].
  split; [by eexists|right; by eexists].
Qed.
Lemma keeps_publish_error id m : keeps P (RecordPublishError id m).
Proof.
  apply keeps_exec. intros d t Hd. apply evolves_status; [done|]. apply map_Forall_insert_2; [|apply Hd].
  split; [by eexists|left; by eexists].
Qed.
End Writes.

(** ** The operations *)

Ltac typed_write :=
  apply keeps_exec; intros ? ? Hg;
  repeat match goal with |- context [match ?x with _ => _ end] => destruct x end;
  first [exact Hg | eapply evolves_same; [|exact Hg]; reflexivity
        | apply evolves_sources_filter; exact Hg | apply evolves_meter_delete; exact Hg
        | apply evolves_sources; [exact Hg|apply map_Forall_empty]].
Ltac typed_statement :=
  apply keeps_statement; intros ? ? ? ? Hg Hst; revert Hst;
  repeat match goal with |- context [match ?x with _ => _ end] => destruct x end;
  first [discriminate | intros Hst; apply ok_db in Hst; subst; first [exact Hg | eapply evolves_same; [|exact Hg]; reflexivity]].
#[local] Hint Extern 1 (keeps (evolves _) (exec _)) => typed_write : keeps.
#[local] Hint Extern 2 (keeps (evolves _) (statement _)) => typed_statement : keeps.
#[local] Hint Resolve keeps_snoop keeps_stop keeps_delete_test keeps_purge_tests keeps_insert_ref keeps_replace_ref
  keeps_insert_hvac keeps_replace_hvac keeps_install keeps_update_meter keeps_publish_ok keeps_publish_error : keeps.
#[local] Hint Extern 1 (keeps (evolves _) (pg_notify _ _)) => apply keeps_notify; unfold channels; set_solver : keeps.
#[local] Hint Extern 1 (keeps (evolves _) (CreateTest _ _ _ _ _ _)) => apply keeps_create; unfold window_sources; set_solver : keeps.
#[local] Hint Resolve keeps_window_loop keeps_health_sources : keeps.

Lemma keeps_upsert_index d0 r : keeps (evolves d0) (statement (fun d _ => upsert_index r d)).
Proof. unfold upsert_index. typed_statement. Qed.
#[local] Hint Resolve keeps_upsert_index : keeps.
Lemma keeps_insert_reading d0 r raw : keeps (evolves d0) (InsertReading r raw).
Proof.
  unfold InsertReading. apply keeps_bind; [keep|intros _]. apply keeps_bind; [keep|intros _].
  apply keeps_bind; [|keep]. destruct (negb _); [|keep]. apply keeps_ignore, keeps_upsert_source.
Qed.
#[local] Hint Resolve keeps_insert_reading : keeps.
Lemma keeps_message_loop {C : Crypto} d0 Parse msgs : keeps (evolves d0) (message_loop Parse msgs).
Proof. induction msgs as [|[m|] msgs IH]; cbn [message_loop]; [keep| |keep]. apply keeps_bind; [|done]. keep. Qed.
#[local] Hint Resolve keeps_message_loop : keeps.
Lemma keeps_serve {C : Crypto} d0 order addr A (p : proto A) e s : keeps (evolves d0) (serve order addr p e s).
Proof.
  revert e s. induction p as [r|m k IH|k IH|k IH|k IH|pub k IH|pub name k IH]; intros e s; cbn [serve].
  all: try (destruct (e_in e)); try apply IH; try apply keeps_ret.
  all: apply keeps_bind; [keep|]; intros; try destruct a; apply IH || apply IHp.
Qed.
#[local] Hint Resolve keeps_serve : keeps.

Lemma keeps_deletion d0 ioc b m : deletion ioc b = Some m -> keeps (evolves d0) m.
Proof.
  unfold deletion. repeat destruct (_ =? _)%string; intros [= <-]; try (keep; fail).
Qed.
Lemma keeps_admin_delete d0 ioc r : keeps (evolves d0) (handleAdminDelete ioc r).
Proof.
  unfold handleAdminDelete. destruct (delete_body _) as [b|]; [|keep]. destruct (negb _); [keep|].
  destruct (deletion ioc b) as [m|] eqn:E; [|keep]. unfold or_error. apply keeps_bind; [|keep].
  by eapply keeps_try, keeps_deletion.
Qed.
#[local] Hint Resolve keeps_admin_delete : keeps.

Section Api.
Context {C : Crypto} (pf : platform) (d0 : DB).
Lemma handle_evolves e i s : keeps (evolves d0) (handle pf e i s).
Proof. destruct e; unfold handle; cbv zeta beta iota; keep. Qed.
Lemma serve_request_evolves h s : keeps (evolves d0) (serve_request pf h s).
Proof. unfold serve_request. destruct (Routes.dispatch _ _); [apply handle_evolves|keep..]. Qed.
End Api.

Section Worker.
Context (Marshal : json -> string) (getenv : string -> string) (ParseFloat : string -> float64 * bool)
        (ParseNumber : string -> option float64) (ParseRFC3339 Parse : string -> option time)
        (survivors : list string -> string -> DB -> time -> option Z) (format_g format_f2 : float64 -> string)
        (time_bucket : duration -> time -> time) (d0 : DB).
Notation P := (evolves d0).
Lemma keeps_callbacks cfg l f : keeps P (callbacks Marshal Parse survivors format_f2 cfg l f).
Proof. revert f. induction l as [|c l IH]; intros f; cbn [callbacks]; [keep|]. apply keeps_bind; [keep|exact IH]. Qed.
Lemma keeps_keep_all nw l f : keeps P (keep_all nw l f).
Proof. revert f. induction l as [|[e s] l IH]; intros f; cbn [keep_all]; [keep|]. apply keeps_bind; [keep|exact IH]. Qed.
Lemma evolves_fill_gaps info fetch capEnd gs : keeps P (fill_gaps info fetch capEnd gs).
Proof.
  induction gs as [|[lo hi] gs IH]; cbn [fill_gaps]; [keep|]. destruct (clamp_gap capEnd (lo, hi)) as [[]|]; [|done].
  destruct (fetch _ _); [|keep]. apply keeps_bind; [keep|done].
Qed.
Lemma evolves_fill_hvac cfg fetch rs : keeps P (fill_hvac cfg fetch rs).
Proof.
  induction rs as [|[lo hi] rs IH]; cbn [fill_hvac]; [keep|]. destruct (fetch _ _); [|keep]. apply keeps_bind; [keep|done].
Qed.
#[local] Hint Resolve keeps_callbacks keeps_keep_all evolves_fill_gaps evolves_fill_hvac : keeps.
Lemma worker_evolves e p :
  keeps P (Worker.step Marshal getenv ParseFloat ParseNumber ParseRFC3339 Parse survivors format_g format_f2 time_bucket e p).
Proof. destruct e; cbn [Worker.step]; keep. Qed.
Lemma cagg_evolves : keeps P (cagg_iter Parse).
Proof. keep. Qed.
Lemma keeps_enumerateOnce probes : keeps P (enumerateOnce probes).
Proof. induction probes as [|[|dev devs] probes IH]; cbn [enumerateOnce]; [keep|done|keep]. Qed.
#[local] Hint Resolve keeps_enumerateOnce : keeps.
Lemma capture_evolves may probes m : keeps P (reconcile getenv ParseFloat may probes m).
Proof. unfold reconcile. cbv zeta. keep. Qed.
End Worker.

Lemma keeps_lift {A} d0 e (o : option A) : keeps (evolves d0) (lift e o).
Proof. destruct o; keep. Qed.
#[local] Hint Resolve keeps_lift : keeps.
Lemma start_evolves {C : Crypto} d0 max_text gen cert pair : keeps (evolves d0) (start_api max_text gen cert pair).
Proof. keep. Qed.

(** The ingest loop threads the database through a target. *)
Section Ingest.
Context (d0 : DB) (Parse : string -> string -> option time) (nw : time) (src : string).
Lemma heartbeat_evolves ts n (w : World) : evolves d0 (w_db w) -> evolves d0 (w_db (sink_heartbeat src ts n w)).
Proof. intros Hw. cbn. apply (keeps_ignore (evolves d0)); [keep|done]. Qed.
Lemma insert_evolves r raw (w : World) : evolves d0 (w_db w) -> evolves d0 (w_db (snd (sink_insert r raw w))).
Proof.
  intros Hw. cbn. pose proof (keeps_insert_reading d0 r raw w Hw) as H. by destruct (InsertReading r raw w) as [[] w'].
Qed.
Lemma ingest_loop_evolves evs lastTS pkts (w : World) :
  evolves d0 (w_db w) -> evolves d0 (w_db (snd (ingest_loop Parse nw src evs lastTS pkts w))).
Proof.
  revert lastTS pkts w. induction evs as [|[text| | |] evs IH]; intros lastTS pkts w Hw; cbn [ingest_loop]; try exact Hw.
  - cbv zeta. destruct (is_empty _); [by apply IH|]. destruct (ExtractReading _ _ _ _) as [r|]; [|by apply IH].
    pose proof (insert_evolves r (TrimSpace text) w Hw) as H. destruct (sink_insert _ _ w) as [[] w']; [|exact H].
    apply IH. destruct (_ =? 0); [by apply heartbeat_evolves|done].
  - by apply heartbeat_evolves.
Qed.
Lemma ingest_evolves evs (w : World) :
  evolves d0 (w_db w) -> evolves d0 (w_db (snd (ingest Parse nw src evs w))).
Proof. intros Hw. by apply ingest_loop_evolves, heartbeat_evolves. Qed.
End Ingest.

(** ** The system *)

Record system := mkSystem { sy_api : api; sy_proc : proc; sy_capture : manager; sy_db : DB }.

(** [main] of cmd/capture: an agent when [AGENT_URL] is set, whatever the flag;
    otherwise two synthetic sources, or the manager. *)
Inductive capture_mode := AgentMode | MockMode (sources : list string) | LiveMode.
Definition mode_of (AGENT_URL : string) (mock : bool) : capture_mode :=
  if negb (is_empty AGENT_URL) then AgentMode
  else if mock then MockMode ["mock-0"; "mock-1"] else LiveMode.

(** The starts of the other two processes: a failed installation is logged and
    the process goes on. *)
Definition start_worker (Marshal : json -> string) (getenv : string -> string) (ParseFloat : string -> float64 * bool)
    (max_text : list string -> string) (accepted : bool) : M proc :=
  ignore (InitSchema max_text) ;;
  w ← reloadConfig Marshal getenv ParseFloat accepted new_worker;
  mret (start_proc w).
Definition start_capture (getenv : string -> string) (ParseFloat : string -> float64 * bool)
    (max_text : list string -> string) (mode : capture_mode) (probes : list (list sdrDevice)) : M manager :=
  match mode with
  | AgentMode => mret new_manager
  | MockMode _ => ignore (InitSchema max_text) ;; mret new_manager
  | LiveMode => ignore (InitSchema max_text) ;; reconcile getenv ParseFloat false probes new_manager
  end.

(** One operation of one process. *)
Inductive operation :=
  | Install                                                           (* any process starts *)
  | StartWorker (accepted : bool)                                     (* cmd/worker: the process starts *)
  | StartCapture (AGENT_URL : string) (mock : bool) (probes : list (list sdrDevice)) (* cmd/capture: the process starts *)
  | Startup (gen : option string) (cert : option (string * string))   (* cmd/api: the process starts *)
  | Request (h : http_request)                                        (* cmd/api: a request *)
  | Work (e : Worker.event)                                           (* cmd/worker: a loop's turn *)
  | Aggregate                                                         (* cmd/worker: a chunk of the backfill *)
  | Reconcile (mayRescan : bool) (probes : list (list sdrDevice))     (* cmd/capture: the manager *)
  | Scan (src : string) (evs : list Capture.event).                   (* cmd/capture: a pipeline's ingest *)

Lemma start_worker_evolves Marshal getenv ParseFloat max_text d0 accepted :
  keeps (evolves d0) (start_worker Marshal getenv ParseFloat max_text accepted).
Proof. unfold start_worker. keep. Qed.
Lemma start_capture_evolves getenv ParseFloat max_text d0 mode probes :
  keeps (evolves d0) (start_capture getenv ParseFloat max_text mode probes).
Proof. pose proof (capture_evolves getenv ParseFloat d0 false probes new_manager). destruct mode; cbn [start_capture]; keep. Qed.

Section System.
Context {C : Crypto} (pf : platform) (Marshal : json -> string) (ParseNumber : string -> option float64)
        (ParseRFC3339 : string -> option time) (ParseIn : string -> string -> option time)
        (survivors : list string -> string -> DB -> time -> option Z) (format_f2 : float64 -> string)
        (max_text : list string -> string) (X509KeyPair : string -> string -> option (list string)).

Definition settled {A} (old : A) (r : result A) : A := match r with Ok a => a | Err _ => old end.

(** The operation at time [t], with the statements that fail. *)
Definition perform (o : operation) (t : time) (faults : list bool) (s : system) : system :=
  let w := mkWorld (sy_db s) t faults in
  match o with
  | Install => mkSystem (sy_api s) (sy_proc s) (sy_capture s) (w_db (snd (InitSchema max_text w)))
  | StartWorker accepted =>
      let '(r, w') := start_worker Marshal (pf_getenv pf) (pf_ParseFloat pf) max_text accepted w in
      mkSystem (sy_api s) (settled (sy_proc s) r) (sy_capture s) (w_db w')
  | StartCapture url mock probes =>
      let '(r, w') := start_capture (pf_getenv pf) (pf_ParseFloat pf) max_text (mode_of url mock) probes w in
      mkSystem (sy_api s) (sy_proc s) (settled (sy_capture s) r) (w_db w')
  | Startup gen cert =>
      let '(r, w') := start_api max_text gen cert X509KeyPair w in
      mkSystem (settled (sy_api s) r) (sy_proc s) (sy_capture s) (w_db w')
  | Request h =>
      let '(r, w') := serve_request pf h (sy_api s) w in
      mkSystem (match r with Ok (_, a) => a | Err _ => sy_api s end) (sy_proc s) (sy_capture s) (w_db w')
  | Work e =>
      let '(r, w') := Worker.step Marshal (pf_getenv pf) (pf_ParseFloat pf) ParseNumber ParseRFC3339 (pf_Parse pf)
                        survivors (pf_fmt_g pf) format_f2 (pf_time_bucket pf) e (sy_proc s) w in
      mkSystem (sy_api s) (settled (sy_proc s) r) (sy_capture s) (w_db w')
  | Aggregate => mkSystem (sy_api s) (sy_proc s) (sy_capture s) (w_db (snd (cagg_iter (pf_Parse pf) w)))
  | Reconcile may probes =>
      let '(r, w') := reconcile (pf_getenv pf) (pf_ParseFloat pf) may probes (sy_capture s) w in
      mkSystem (sy_api s) (sy_proc s) (settled (sy_capture s) r) (w_db w')
  | Scan src evs => mkSystem (sy_api s) (sy_proc s) (sy_capture s) (w_db (snd (ingest ParseIn t src evs w)))
  end.
Definition run_system (ops : list (operation * time * list bool)) (s : system) : system :=
  fold_left (fun s o => perform o.1.1 o.1.2 o.2 s) ops s.

Lemma perform_evolves d0 o t fs s : evolves d0 (sy_db s) -> evolves d0 (sy_db (perform o t fs s)).
Proof.
  intros Hs. set (w := mkWorld (sy_db s) t fs). change (evolves d0 (w_db w)) in Hs.
  destruct o as [|acc|url mock probes|gen cert|h|e| |may probes|src evs]; cbn [perform]; fold w.
  - by apply (keeps_install d0 max_text w).
  - pose proof (start_worker_evolves Marshal (pf_getenv pf) (pf_ParseFloat pf) max_text d0 acc w Hs) as H. by destruct (start_worker _ _ _ _ _ w).
  - pose proof (start_capture_evolves (pf_getenv pf) (pf_ParseFloat pf) max_text d0 (mode_of url mock) probes w Hs) as H.
    by destruct (start_capture _ _ _ _ _ w).
  - pose proof (start_evolves d0 max_text gen cert X509KeyPair w Hs) as H. by destruct (start_api _ _ _ _ w).
  - pose proof (serve_request_evolves pf d0 h (sy_api s) w Hs) as H. by destruct (serve_request _ _ _ w).
  - pose proof (worker_evolves Marshal (pf_getenv pf) (pf_ParseFloat pf) ParseNumber ParseRFC3339 (pf_Parse pf) survivors
      (pf_fmt_g pf) format_f2 (pf_time_bucket pf) d0 e (sy_proc s) w Hs) as H.
    by destruct (Worker.step _ _ _ _ _ _ _ _ _ _ _ _ w).
  - exact (cagg_evolves _ d0 w Hs).
  - pose proof (capture_evolves (pf_getenv pf) (pf_ParseFloat pf) d0 may probes (sy_capture s) w Hs) as H.
    by destruct (reconcile _ _ _ _ _ w).
  - by apply ingest_evolves.
Qed.

(** C3: The three processes keep the database well typed: whatever requests,
    notifications, frames, backfills, rescans and radio lines are processed in
    whatever order, at whatever times and with whatever statements failing, a
    window's id is below the sequence and its source one of the two, a sample's
    origin one of the two of its table, a notification on a channel somebody
    listens to, a packet count positive, an annotation's flags never
    NULL and a publish status dated; and the id of a deleted window is never given
    again. *)
Theorem system_stays_well_typed (ops : list (operation * time * list bool)) (s : system) :
  well_typed (sy_db s) ->
  let s' := run_system ops s in
  well_typed (sy_db s') /\ next_window_id (sy_db s) <= next_window_id (sy_db s') /\
  forall id, is_Some (test_windows (sy_db s') !! id) ->
    is_Some (test_windows (sy_db s) !! id) \/ next_window_id (sy_db s) <= id.
Proof.
  intros Hs. cbv zeta. change (evolves (sy_db s) (sy_db (run_system ops s))).
  assert (evolves (sy_db s) (sy_db s)) as H by (by apply evolves_refl). revert H. generalize (sy_db s) at 1 3 as d0. clear Hs.
  unfold run_system. revert s. induction ops as [|o ops IH]; intros s d0 H; [exact H|]. by apply IH, perform_evolves.
Qed.
End System.

(** ** A run *)

Definition post (path : list string) : http_request := mkHttp "POST" path (fun _ => "") None "" (mkEnv [] [] [] []) [].
Definition drop_test (id : string) : http_request :=
  mkHttp "DELETE" ["api"; "tests"; id] (fun _ => "") None "" (mkEnv [] [] [] []) [].
Definition sensor_DB : DB :=
  set_settings {["ha_url" := "http://ha"; "ha_token" := "t"; "monitored_entities" := dq "['sensor.main']"]} empty_DB.
Definition first_system : system := mkSystem quiet_api (start_proc new_worker) new_manager sensor_DB.
(** The processes start, a window is started and deleted, the worker samples, a second window is
    started, and a third start fails. *)
Definition a_day : list (operation * time * list bool) := [
  (StartWorker false, 0, []);
  (StartCapture "" false [], 0, [true]);
  (Request (post ["api"; "tests"; "start"]), 1, []);
  (Request (drop_test "1"), 2, []);
  (Work (Iterate false (inr [mkEntity "sensor.main" "Main" "5" "W" "power"]) None), 3, []);
  (Work (Frame power_frame), 4, []);
  (Request (post ["api"; "tests"; "start"]), 5, []);
  (Request (post ["api"; "tests"; "start"]), 6, [true])].
Definition run_quietly : list (operation * time * list bool) -> system -> system :=
  run_system (C := toy_Crypto) quiet_platform (fun _ => "") five_watts (fun _ => None) (fun _ _ => None)
    (fun _ _ _ _ => None) (fun _ => "") byte_max (fun _ _ => None).

Lemma system_stays_well_typed_witness :
  let d := sy_db (run_quietly a_day first_system) in
  well_typed d /\ map fst (map_to_list (test_windows d)) = [2] /\ length (reference_samples d) = 1%nat.
Proof.
  assert (well_typed sensor_DB) as H0 by (constructor; first [exact (map_Forall_empty _) | exact (Forall_nil_2 _) | discriminate]).
  split.
  - apply (system_stays_well_typed (C := toy_Crypto) quiet_platform (fun _ => "") five_watts (fun _ => None) (fun _ _ => None)
      (fun _ _ _ _ => None) (fun _ => "") byte_max (fun _ _ => None) a_day first_system H0).
  - vm_compute. split; reflexivity.
Defined.
